(* ===== verification/_CoqProject ===== *)
-Q . S2P
Prelude.v
Errors.v
Bytes.v
Uuids.v
UnitTest.v
PortTypes.v
Saga.v
Prometheus.v
Policies.v
RetryReference.v
PoliciesTests.v
Ports.v
Fakes.v
FakeRegistryTests.v
FakeJourneyManagerTests.v
FakeVoiceManagerTests.v
FakePostCallTests.v
FakeAnalyticsTests.v
FakeTests.v
Net.v
Grpc.v
RegistryGrpc.v
JourneyManagerGrpc.v
VoiceManagerGrpc.v
MockPeer.v
RegistryGrpcTests.v
JourneyManagerGrpcTests.v
VoiceManagerGrpcTests.v
GrpcTests.v
SerdeJson.v
Http.v
VoiceManagerHttp.v
PostCallHttp.v
AnalyticsHttp.v
HttpDtos.v
RegistryStub.v
RegistryStubTests.v
Adapters.v
Idempotency.v
Sha256.v
AuditWriter.v
Notify.v
NotifySpec.v
NotifyDelivery.v
NotifyPayloadJson.v
TestJson.v
EventFeed.v
NotifyTests.v
SpanProcessor.v
SpanDrain.v
SpanCrash.v
Config.v
HubMetrics.v
PromText.v
MockHttp.v
VoiceManagerHttpTests.v
PostCallHttpTests.v
AnalyticsHttpTests.v
AdapterMetricsTests.v
HubMetricsTests.v
IdempotencyTests.v
AuditTests.v
ConfigTests.v
OtlpJson.v
OtlpSchema.v
OtlpJsonTests.v
TaskRuntime.v
ProcessorTests.v
LocalExporter.v
Calendar.v
LocalExporterTests.v
LocalPipeline.v
Base64.v
Telemetry.v
TracerProvider.v
TelemetryTests.v
ConcreteTests.v
Db.v
Servers.v
Main.v
