(* ===== verification/Prelude.v ===== *)
(** * Engagement Hub: a verification library

    A model in Rocq of the Rust workspace under [src/crates]: the ports crate
    ([engagement-hub-ports]), the adapters crate ([engagement-hub-adapters]) and
    the hub process ([engagement-hub]).  Definitions keep the names of the code
    and are executable; the theorems say what the code does, and where that is
    not what a comment or a document says, the doc comment of the theorem says so.

    ** The program

    The hub starts engagements (calls of an AI agent).  Its handlers will talk
    to other services through five port traits; the adapters implement them over
    gRPC and HTTP, with a shared retry combinator and deadline budget.  Around
    them stand the idempotency check of mutating requests, the two-phase audit
    of privileged operations, the fan-out of database notifications to watch
    streams, metrics, telemetry export and the life cycle of the process.

    ** Files, in dependency order

    - [Prelude]: results, panics ([exec]) and the state monad with panics ([io]),
      [Duration] at its width, counter vectors, descriptors, tactics, hint
      databases, list and counter lemmas.  [Bytes]: [u8] and hexadecimal text.
    - [Errors], [Uuids], [PortTypes], [Ports]: the error enums with
      [IsRetryable], [FromPanic], [FromDeadline] (classes), uuids as a parameter
      with its laws, the domain types, and the five port traits as classes, each
      with a safety contract that implementations discharge as instances.
    - [Saga], [Prometheus], [Policies]: [saga.rs], [metrics.rs] and
      [policies.rs] of the adapters, and the metrics registry as a class.
      [with_retry] is a loop whose fuel is [max_attempts], the range of the [for]
      loop; running out is the [unreachable!()] of the code.  Clock, sleep and
      jitter are the class [RetryEnv].
      [RetryReference] is a second definition of it, as a schedule of attempts.
    - [Fakes]: the in-memory fakes of the ports crate: queues of replies behind a
      mutex that an injected panic poisons.
    - [Net], [Grpc], [RegistryGrpc], [JourneyManagerGrpc], [VoiceManagerGrpc],
      [Http], [VoiceManagerHttp], [PostCallHttp], [AnalyticsHttp],
      [RegistryStub], [Adapters]: the adapters.  A peer is any function of the
      request and its own state; [Net] adds the list of requests sent, so
      theorems can speak of what went over the wire.  [Adapters] holds the
      theorems about several adapters at once.  [SerdeJson] is serde's derived
      decoding of JSON values, [HttpDtos] the decoders of the response structs.
    - [Idempotency]: [idempotency.rs].  [AuditWriter]: [audit.rs].  [Notify]:
      [notify.rs], with the manager loop as a step function on phases and its
      runs as an inductive relation in which clients may subscribe at any point.
      [NotifySpec] is what the fan-out promises, a table of subscriptions with a
      log each; [NotifyDelivery] is what a receiver gets from its channel of 256;
      [NotifyPayloadJson] the text of a payload; [EventFeed] the way of an event
      from the insert, through the trigger of the migration, to a subscriber.
    - [SpanProcessor], [SpanDrain], [SpanCrash], [OtlpJson], [OtlpSchema],
      [LocalExporter], [LocalPipeline], [Base64], [Telemetry], [TracerProvider]:
      [telemetry/*.rs].  The span processor's background task is a
      relation of wakes, ended spans and shutdown calls in any order, over any
      exporter ([SpanExporter]).  The local exporter works on a file system
      every operation of which may fail; [LocalPipeline] makes it an instance of
      that interface.
    - [Config], [HubMetrics], [Db], [Servers], [Main]: [config.rs], [metrics.rs],
      [db.rs], [server/*.rs], [shutdown.rs] and [main.rs].  [Main] composes all
      of start-up and models the shutdown sequence as a state machine among
      server tasks that may end at any time, with the panic of a signal handler
      that cannot be installed ([PanicInMain]).
    - [UnitTest] and the files [*Tests]: the [mod tests] of the crates, each test
      a program of the state monad in which a failed assertion is a panic.  The
      doubles they use are translated with them: [MockPeer] (mock gRPC servers),
      [MockHttp] (wiremock), [TaskRuntime] (background tasks on a clock), and, as
      concrete instances of the classes, [TestJson] (a JSON reader and writer),
      [PromText] (the Prometheus text format), [Sha256] and [Calendar] (Gregorian
      dates, with the laws proved).

    ** What is proved

    - Retry: [with_retry] makes between one and [max_attempts] calls, retries
      retryable errors only, never panics for the configurations in use, counts
      and sleeps as specified ([Policies.with_retry_outcome],
      [with_retry_metrics], [with_retry_backoff], [with_retry_refused],
      [from_remaining_budget]); it equals the reference definition on result, end
      time and counters ([RetryReference.with_retry_closed_form]).
    - Adapters: how often and with which request each is sent, which statuses
      are final, that no panic escapes ([Adapters.stop_voice_session_calls],
      [create_execution_calls], [adapters_never_panic], [grpc_status_attempts],
      [http_status_attempts], [telephony_list_all_or_nothing],
      [call_log_queries]); that a reply written as the services write it decodes
      to the value of the port, and that a success reply which does not decode is
      final ([HttpDtos.replies_decode], [success_reply_final]).
    - Hub state: replay, conflict or new for a repeated request, and what the
      canonical JSON and hash determine ([Idempotency]); audit rows are inserted
      or not, finalised, and every failure counted ([AuditWriter]); every channel
      of a live subscriber accepts each payload of its engagement or batch exactly
      once ([Notify.fanout_delivers]), and its receiver, along whole runs of the
      manager and in gap fills, gets them all if it is at most 256 behind, and
      otherwise the number it lost and the last 256
      ([NotifyDelivery.run_delivers_notifications], [gap_fill_delivers]); the
      manager refines the table of subscriptions
      ([NotifySpec.manager_refines_spec]) and starts from the text of a
      notification and its exact size ([NotifyPayloadJson.notification_decodes],
      [payload_size]); together with the database, a subscriber that resumes
      misses no committed event, and a careful one sees each once
      ([EventFeed.resume_at_least_once], [resume_exactly_once]).
    - Telemetry: no accepted span is lost uncounted ([SpanProcessor]), unless the
      exporter panics ([SpanCrash]); the drain at shutdown is well founded and its
      exports are counted ([SpanDrain.drain_terminates]); a batch is one line of the day's file
      or accounted for, and the purge removes old
      trace files only ([LocalExporter]); together, every span is in a line,
      waiting, or counted once ([LocalPipeline]); what the envelope keeps of the
      spans and what it discards ([OtlpJson.traces_json_determines]), and that it
      has its schema exactly if its doubles are finite
      ([OtlpSchema.envelope_typed]); a text is a Base64 encoding exactly if the RFC
      4648 decoder accepts it ([Base64]); which series exist after the
      construction of the metrics ([HubMetrics.metrics_new_spec]).
    - Process: which configurations start ([Config.validate_spec], [boot_spec]),
      every way a start ends ([Main.main_start_outcomes]), draining before
      shutdown in every reachable state, and completion of the shutdown
      ([Main.drain_before_shutdown], [Main.shutdown_completes]).
    - Doubles: fakes answer first in, first out and stay poisoned after a panic
      ([Fakes]); the stub registry answers its fixtures ([RegistryStub]).
    - Tests: the 228 unit tests of the crates.  Those of the fakes, of
      [policies.rs] and of the gRPC adapters pass for every clock, random source
      and past ([FakeTests], [PoliciesTests], [GrpcTests]), but for two of the
      last: one is about elapsed time and has a clock that only sleeping advances, one
      passes exactly when two random ids differ.  The others are run on
      the concrete instances, which checks the definitions on the inputs their
      authors chose, and those of the span processors under every choice of
      [select!] and every schedule of the threads ([ConcreteTests]).

    ** Parameters and their hypotheses

    Code outside [src] is a class argument, and what the code relies on is a
    class of laws, with an instance for which they hold in every file that uses
    them: clock and random numbers, uuids, tonic and reqwest peers, [serde_json]
    and SHA-256, PostgreSQL and [sqlx], its
    [json_build_object], tokio's broadcast and mpsc channels,
    [chrono] dates, the [prometheus] registry, [tonic_health], OTLP builders.
    The mpsc channel's [try_send] is taken to be atomic.

    ** Fuel

    [retry_loop] has [max_attempts], [phase2_loop] [MAX_ATTEMPTS] (five), the
    drain of the span queue its length, [TaskRuntime.poll] the number of arms that
    can become ready, [trim_end_matches] the length of the name (every turn
    removes six bytes), [Main.finish] nine statements,
    [NotifyDelivery.recv_all] the 256 slots, the lag and the answer [Empty].  Each is
    either the bound of the code's own loop or proved sufficient in the theorem
    that uses it.

    ** Not modelled

    Transports and listeners, how the operating system delivers signals, the
    layers of the tracing subscriber, generated protobuf and clients in Go, clap's
    parsing beyond the command lines of the tests, the text of log lines, and the
    integration tests, which need a database and containers.
    The engagement service itself has no implementation in the repository yet. *)
From Stdlib Require Import ZArith Lia.
From stdpp Require Import base list gmap strings pretty.

Declare Scope rust_scope.
Delimit Scope rust_scope with rust.
Open Scope Z_scope.

(** ** Results, panics and the state monad *)

(** [std::result::Result]. *)
Inductive result (T E : Type) : Type :=
| Ok (v : T)
| Err (e : E).
Arguments Ok {T E} v.
Arguments Err {T E} e.

Definition is_ok {T E} (r : result T E) : bool :=
  match r with Ok _ => true | Err _ => false end.

Definition result_map {T U E} (f : T → U) (r : result T E) : result U E :=
  match r with Ok v => Ok (f v) | Err e => Err e end.

Definition result_bind {T U E} (r : result T E) (k : T → result U E) : result U E :=
  match r with Ok v => k v | Err e => Err e end.

Definition map_err {T E F} (f : E → F) (r : result T E) : result T F :=
  match r with Ok v => Ok v | Err e => Err (f e) end.

(** [Option::ok_or_else]. *)
Definition ok_or {T E} (o : option T) (e : E) : result T E :=
  match o with Some v => Ok v | None => Err e end.

Notation "'let?' x ':=' r 'in' k" := (result_bind r (λ x, k))
  (at level 10, x name, r at level 100, k at level 200) : rust_scope.
Open Scope rust_scope.

(** [Iterator::collect::<Result<Vec<_>, _>>]: the first error wins. *)
Fixpoint collect_results {T E} (l : list (result T E)) : result (list T) E :=
  match l with
  | [] => Ok []
  | r :: rest => let? v := r in let? vs := collect_results rest in Ok (v :: vs)
  end.

(** What running a body of code gives: a value, or an unwinding panic. *)
Inductive exec (A : Type) : Type :=
| Value (a : A)
| Panicked.
Arguments Value {A} a.
Arguments Panicked {A}.

(** Code that reads and writes a state [S] and may panic. *)
Definition io (S A : Type) : Type := S → exec A * S.

Definition io_ret {S A} (a : A) : io S A := λ s, (Value a, s).

Definition io_bind {S A B} (m : io S A) (k : A → io S B) : io S B := λ s,
  match m s with
  | (Value a, s') => k a s'
  | (Panicked, s') => (Panicked, s')
  end.

Notation "'do' x '<-' m ';;' k" := (io_bind m (λ x, k))
  (at level 10, x name, m at level 99, k at level 200) : rust_scope.

(** ** Integers of fixed width *)

Definition u32_max : Z := 4294967295.
Definition u64_max : Z := 18446744073709551615.
Definition i16_range (z : Z) : Prop := -32768 ≤ z ≤ 32767.
Definition i64_range (z : Z) : Prop := -9223372036854775808 ≤ z ≤ 9223372036854775807.

(** ** [std::time::Duration]: nanoseconds, at most [u64::MAX] seconds and
    999_999_999 ns.  Arithmetic that leaves the range panics ([None] here). *)

Definition Duration : Type := Z.
Definition duration_max : Z := u64_max * 1000000000 + 999999999.
Definition from_millis (ms : Z) : Duration := ms * 1000000.
Definition from_secs (s : Z) : Duration := s * 1000000000.

Definition duration_in_range (d : Z) : option Duration :=
  if (0 <=? d) && (d <=? duration_max) then Some d else None.
Definition duration_add (a b : Duration) : option Duration := duration_in_range (a + b).
Definition duration_mul (a : Duration) (k : Z) : option Duration := duration_in_range (a * k).
Definition duration_saturating_sub (a b : Duration) : Duration := Z.max 0 (a - b).

(** ** Prometheus values

    The [prometheus] crate is not part of the repository.  A counter vector is
    represented by the values its label tuples hold; [with_label_values]
    creates a missing series at 0 and [inc]/[inc_by] add to it.  Descriptor
    validation and registration are parameters ([PrometheusLib]). *)

Abbreviation CounterVec := (gmap (list string) Z).

Definition counter_inc_by (labels : list string) (n : Z) (c : CounterVec) : CounterVec :=
  <[labels := default 0 (c !! labels) + n]> c.
Definition counter_inc (labels : list string) (c : CounterVec) : CounterVec :=
  counter_inc_by labels 1 c.
Definition counter_get (labels : list string) (c : CounterVec) : Z :=
  default 0 (c !! labels).

Inductive metric_kind :=
| KIntCounter | KIntCounterVec | KIntGauge | KIntGaugeVec | KHistogram | KHistogramVec.

(** The arguments of a metric constructor: name, help text, label names and
    (for histograms) bucket bounds in microseconds. *)
Record MetricDesc := mkDesc {
  md_kind : metric_kind;
  md_name : string;
  md_help : string;
  md_labels : list string;
  md_buckets : list Z
}.

Class PrometheusLib := {
  PromRegistry : Type;
  prom_registry_new : PromRegistry;
  (** [IntCounterVec::new] and the other constructors. *)
  prom_construct : MetricDesc → result unit string;
  (** [Registry::register]. *)
  prom_register : MetricDesc → PromRegistry → result PromRegistry string
}.

(** ** Tactics *)

Create HintDb hub discriminated.
Create Rewrite HintDb hub_rw.

(** Case analysis on every [match] and [if] of the goal and hypotheses. *)
Ltac case_all :=
  repeat (case_match; simplify_eq/=; try done).

(** Turn boolean tests of the code into propositions. *)
Ltac bool_to_prop :=
  repeat match goal with
  | H : (_ && _) = true |- _ => apply andb_prop in H as [? ?]
  | H : (_ <? _) = true |- _ => apply Z.ltb_lt in H
  | H : (_ <? _) = false |- _ => apply Z.ltb_ge in H
  | H : (_ <=? _) = true |- _ => apply Z.leb_le in H
  | H : (_ <=? _) = false |- _ => apply Z.leb_gt in H
  | H : (_ =? _) = true |- _ => apply Z.eqb_eq in H
  | H : (_ =? _) = false |- _ => apply Z.eqb_neq in H
  end.

(** Split on a boolean comparison of the goal together with its meaning. *)
Ltac split_cmp :=
  match goal with
  | |- context [ ?a <? ?b ] => destruct (Z.ltb_spec a b)
  | |- context [ ?a <=? ?b ] => destruct (Z.leb_spec a b)
  | |- context [ ?a =? ?b ] => destruct (Z.eqb_spec a b)
  end.

(** ** Generic lemmas *)

Lemma duration_in_range_Some d : 0 ≤ d ≤ duration_max → duration_in_range d = Some d.
Proof.
  intros [H1 H2]. unfold duration_in_range.
  apply Z.leb_le in H1. apply Z.leb_le in H2. by rewrite H1, H2.
Qed.

Lemma duration_in_range_inv d d' :
  duration_in_range d = Some d' → d' = d ∧ 0 ≤ d ≤ duration_max.
Proof.
  unfold duration_in_range. intros H. case_match; [|done].
  simplify_eq. bool_to_prop. lia.
Qed.

Lemma collect_results_Ok {T E} (l : list (result T E)) (vs : list T) :
  collect_results l = Ok vs ↔ Forall2 (λ r v, r = Ok v) l vs.
Proof.
  revert vs. induction l as [|[v|e] l IH]; intros vs; simpl.
  - split; [intros [= <-]; constructor | by inversion 1].
  - destruct (collect_results l) as [vs'|e] eqn:Hl; simpl; split.
    + intros [= <-]. constructor; [done|]. by apply IH.
    + inversion 1 as [|? w ? ws Hv Hws]; simplify_eq.
      apply IH in Hws. by simplify_eq.
    + done.
    + inversion 1 as [|? w ? ws Hv Hws]; simplify_eq. by apply IH in Hws.
  - split; [done|]. by inversion 1.
Qed.

Lemma collect_results_length {T E} (l : list (result T E)) vs :
  collect_results l = Ok vs → length vs = length l.
Proof. intros H%collect_results_Ok. by symmetry; eapply Forall2_length. Qed.

(** The error of a failing collection is that of its first failing element. *)
Lemma collect_results_Err {T E} (l : list (result T E)) e :
  collect_results l = Err e ↔
  ∃ vs rest, l = map Ok vs ++ Err e :: rest.
Proof.
  revert e. induction l as [|[v|e'] l IH]; intros e; simpl.
  - split; [done|]. by intros ([|??] & ? & ?).
  - destruct (collect_results l) as [vs'|e'] eqn:Hl; simpl; split.
    + done.
    + intros ([|w vs] & rest & Heq); simplify_eq/=.
      assert (Ok vs' = Err e) as Habs by (apply IH; eauto). done.
    + intros [= <-]. destruct (proj1 (IH e') eq_refl) as (vs & rest & ->).
      by exists (v :: vs), rest.
    + intros ([|w vs] & rest & Heq); simplify_eq/=.
      assert (Err e' = Err e) as Heq by (apply IH; eauto). by simplify_eq.
  - split.
    + intros [= <-]. by exists [], l.
    + by intros ([|w vs] & rest & Heq); simplify_eq/=.
Qed.

Lemma result_bind_Ok {T U E} (r : result T E) (k : T → result U E) u :
  result_bind r k = Ok u ↔ ∃ v, r = Ok v ∧ k v = Ok u.
Proof.
  destruct r as [v|e]; simpl; split; [by eauto | by intros (? & [= <-] & ?) | done |].
  by intros (? & ? & _).
Qed.

#[export] Hint Rewrite @result_bind_Ok : hub_rw.

(** A filter that keeps everything. *)
Lemma filter_all {A} (P : A → Prop) `{∀ x, Decision (P x)} (l : list A) :
  (∀ x, x ∈ l → P x) → filter P l = l.
Proof.
  induction l as [|x l IH]; intros Hall; [done|].
  rewrite filter_cons_True by (apply Hall; by left).
  f_equal. apply IH. intros y Hy. apply Hall. by right.
Qed.

(** Strictly sorted lists: every element is below all the later ones. *)
Definition strictly_sorted {A} (R : A → A → Prop) (l : list A) : Prop :=
  ∀ i j x y, (i < j)%nat → l !! i = Some x → l !! j = Some y → R x y.

Lemma strictly_sorted_cons {A} (R : A → A → Prop) x l :
  strictly_sorted R (x :: l) ↔ Forall (R x) l ∧ strictly_sorted R l.
Proof.
  split.
  - intros H. split.
    + apply Forall_lookup. intros i y Hy. apply (H 0%nat (S i)); [lia|done|done].
    + intros i j a b Hij Ha Hb. apply (H (S i) (S j)); [lia|done|done].
  - intros [Hx Hl] [|i] [|j] a b Hij Ha Hb; simplify_eq/=; [lia| |lia|].
    + rewrite Forall_lookup in Hx. eauto.
    + apply (Hl i j); [lia|done|done].
Qed.

Lemma strictly_sorted_nil {A} (R : A → A → Prop) : strictly_sorted R [].
Proof. intros i j x y _ Hx. by rewrite lookup_nil in Hx. Qed.

Lemma strictly_sorted_app {A} (R : A → A → Prop) (l k : list A) :
  strictly_sorted R (l ++ k)
  ↔ strictly_sorted R l ∧ strictly_sorted R k ∧ ∀ x y, x ∈ l → y ∈ k → R x y.
Proof.
  induction l as [|a l IH]; simpl.
  { split; [|by intros (_ & ? & _)]. intros H. split_and!; [apply strictly_sorted_nil|done|].
    by intros x y ?%elem_of_nil. }
  rewrite !strictly_sorted_cons, Forall_app, IH, !Forall_forall. split.
  - intros ((Ha & Hk) & Hl & Hs & Hlk). split_and!; [done|done|done|].
    intros x y [->|Hx]%elem_of_cons Hy; [by apply Hk|by apply Hlk].
  - intros ((Ha & Hl) & Hs & Hlk). split_and!; [done| |done|done|].
    + intros y Hy. apply Hlk; [by left|done].
    + intros x y Hx. apply Hlk. by right.
Qed.

(** Two strictly sorted lists of the same elements are equal. *)
Lemma strictly_sorted_eq {A} (R : A → A → Prop) (l k : list A) :
  (∀ x, ¬ R x x) → (∀ x y z, R x y → R y z → R x z) →
  strictly_sorted R l → strictly_sorted R k → (∀ x, x ∈ l ↔ x ∈ k) → l = k.
Proof.
  intros Hirr Htrans. revert k. induction l as [|a l IH]; intros [|b k] Hl Hk Hin.
  - done.
  - exfalso. apply (not_elem_of_nil b), Hin. by left.
  - exfalso. apply (not_elem_of_nil a), Hin. by left.
  - apply strictly_sorted_cons in Hl as [Ha Hl]. apply strictly_sorted_cons in Hk as [Hb Hk].
    rewrite Forall_forall in Ha, Hb.
    assert (a = b) as ->.
    { destruct (proj1 (elem_of_cons _ _ _) (proj1 (Hin a) ltac:(by left))) as [|Hak]; [done|].
      destruct (proj1 (elem_of_cons _ _ _) (proj2 (Hin b) ltac:(by left))) as [|Hbl]; [done|].
      destruct (Hirr a). eapply Htrans; [by apply Ha|by apply Hb]. }
    f_equal. apply IH; [done|done|]. intros x. specialize (Hin x). rewrite !elem_of_cons in Hin.
    split; intros Hx.
    + destruct (proj1 Hin (or_intror Hx)) as [->|?]; [by destruct (Hirr b); apply Ha|done].
    + destruct (proj2 Hin (or_intror Hx)) as [->|?]; [by destruct (Hirr b); apply Hb|done].
Qed.

(** Membership in concatenations. *)
Ltac in_app := rewrite ?elem_of_app, ?elem_of_nil in *; tauto.

Lemma filter_none {A} (P : A → Prop) `{∀ x, Decision (P x)} (l : list A) :
  (∀ x, x ∈ l → ¬ P x) → filter P l = [].
Proof.
  induction l as [|x l IH]; intros Hall; [done|].
      rewrite filter_cons_False by (apply Hall; by left).
  apply IH. intros y Hy. apply Hall. by right.
Qed.

Lemma counter_get_inc_by ls n c : counter_get ls (counter_inc_by ls n c) = counter_get ls c + n.
Proof. unfold counter_get, counter_inc_by. by rewrite lookup_insert_eq. Qed.

Lemma counter_get_inc_by_ne ls ls' n c :
  ls ≠ ls' → counter_get ls' (counter_inc_by ls n c) = counter_get ls' c.
Proof. intros Hne. unfold counter_get, counter_inc_by. by rewrite lookup_insert_ne. Qed.

Lemma sum_list_app (l k : list nat) : sum_list (l ++ k) = (sum_list l + sum_list k)%nat.
Proof. induction l as [|x l IH]; simpl; [done|]. rewrite IH. lia. Qed.

(** A sum over a list is a sum over a larger one when the rest contributes
    nothing. *)
Lemma sum_list_sublist {A} (f : A → nat) (l k : list A) :
  NoDup l → NoDup k → l ⊆ k → (∀ x, x ∈ k → x ∉ l → f x = 0%nat) →
  sum_list (f <$> l) = sum_list (f <$> k).
Proof.
  revert k. induction l as [|x l IH]; intros k Hl Hk Hsub Hz.
  - simpl. symmetry. induction k as [|y k IHk]; [done|]. simpl.
    apply NoDup_cons in Hk as [_ Hk]. rewrite (Hz y); [|by left|by apply not_elem_of_nil].
    simpl. apply IHk; [done|set_solver|]. intros z Hzk. apply Hz. by right.
  - apply NoDup_cons in Hl as [Hx Hl].
    assert (Hxk : x ∈ k) by (apply Hsub; by left).
    apply list_elem_of_split in Hxk as (k1 & k2 & ->).
    rewrite fmap_app, sum_list_app, !fmap_cons. cbn [sum_list].
    rewrite (IH (k1 ++ k2)).
    + rewrite fmap_app, sum_list_app. lia.
    + done.
    + rewrite <- Permutation_middle in Hk. by apply NoDup_cons in Hk as [_ ?].
    + intros y Hy. assert (y ≠ x) by (by intros ->).
      assert (Hyk : y ∈ k1 ++ x :: k2) by (apply Hsub; by right). set_solver.
    + intros y Hy Hyl. rewrite <- Permutation_middle in Hk. apply NoDup_cons in Hk as [Hxk _].
      assert (y ≠ x) by (by intros ->). apply Hz; set_solver.
Qed.

#[export] Hint Rewrite counter_get_inc_by : hub_rw.
#[export] Hint Resolve strictly_sorted_nil duration_in_range_Some : hub.
