(* ===== verification/Errors.v ===== *)
(** * Port error types

    Models [crates/engagement-hub-ports/src/error.rs]: the traits
    [IsRetryable], [FromPanic] and [FromDeadline] as classes, and the five
    error enums (one Module each, because they share constructor names) with
    their instances.  The class [PortErrorLaws] is the contract the retry
    combinator and the adapters rely on: an error made from a caught panic or
    from a refused retry is final, i.e. not retryable. *)
From stdpp Require Import base strings.
From S2P Require Import Prelude.

(** ** The three traits *)

Class IsRetryable (E : Type) := is_retryable : E → bool.
Class FromPanic (E : Type) := from_panic : E.
Class FromDeadline (E : Type) := from_deadline : E.

(** ** The error enums *)

Module RegistryErr.
Inductive RegistryError :=
| Transient (msg : string)
| Permanent (msg : string)
| Unavailable
| InternalPanic
| DeadlineExceeded.
End RegistryErr.
Abbreviation RegistryError := RegistryErr.RegistryError.

#[export] Instance registry_is_retryable : IsRetryable RegistryError := λ e,
  match e with RegistryErr.Transient _ | RegistryErr.Unavailable => true | _ => false end.
#[export] Instance registry_from_panic : FromPanic RegistryError := RegistryErr.InternalPanic.
#[export] Instance registry_from_deadline : FromDeadline RegistryError :=
  RegistryErr.DeadlineExceeded.

Module JmErr.
Inductive JmError :=
| Transient (msg : string)
| Permanent (msg : string)
| Unavailable
| InternalPanic
| DeadlineExceeded.
End JmErr.
Abbreviation JmError := JmErr.JmError.

#[export] Instance jm_is_retryable : IsRetryable JmError := λ e,
  match e with JmErr.Transient _ | JmErr.Unavailable => true | _ => false end.
#[export] Instance jm_from_panic : FromPanic JmError := JmErr.InternalPanic.
#[export] Instance jm_from_deadline : FromDeadline JmError := JmErr.DeadlineExceeded.

Module VmErr.
Inductive VmError :=
| Transient (msg : string)
| Permanent (msg : string)
| Unavailable
| InternalPanic
| DeadlineExceeded.
End VmErr.
Abbreviation VmError := VmErr.VmError.

#[export] Instance vm_is_retryable : IsRetryable VmError := λ e,
  match e with VmErr.Transient _ | VmErr.Unavailable => true | _ => false end.
#[export] Instance vm_from_panic : FromPanic VmError := VmErr.InternalPanic.
#[export] Instance vm_from_deadline : FromDeadline VmError := VmErr.DeadlineExceeded.

Module PostCallErr.
Inductive PostCallError :=
| Transient (msg : string)
| Permanent (msg : string)
| Unavailable
| InternalPanic
| DeadlineExceeded.
End PostCallErr.
Abbreviation PostCallError := PostCallErr.PostCallError.

#[export] Instance post_call_is_retryable : IsRetryable PostCallError := λ e,
  match e with PostCallErr.Transient _ | PostCallErr.Unavailable => true | _ => false end.
#[export] Instance post_call_from_panic : FromPanic PostCallError := PostCallErr.InternalPanic.
#[export] Instance post_call_from_deadline : FromDeadline PostCallError :=
  PostCallErr.DeadlineExceeded.

Module AnalyticsErr.
Inductive AnalyticsError :=
| Transient (msg : string)
| Permanent (msg : string)
| Unavailable
| InternalPanic
| DeadlineExceeded.
End AnalyticsErr.
Abbreviation AnalyticsError := AnalyticsErr.AnalyticsError.

#[export] Instance analytics_is_retryable : IsRetryable AnalyticsError := λ e,
  match e with AnalyticsErr.Transient _ | AnalyticsErr.Unavailable => true | _ => false end.
#[export] Instance analytics_from_panic : FromPanic AnalyticsError := AnalyticsErr.InternalPanic.
#[export] Instance analytics_from_deadline : FromDeadline AnalyticsError :=
  AnalyticsErr.DeadlineExceeded.

(** Decidable equality (the derived [PartialEq] of the test types). *)
#[export] Instance RegistryError_eq_dec : EqDecision RegistryError.
Proof. solve_decision. Defined.
#[export] Instance JmError_eq_dec : EqDecision JmError.
Proof. solve_decision. Defined.
#[export] Instance VmError_eq_dec : EqDecision VmError.
Proof. solve_decision. Defined.
#[export] Instance PostCallError_eq_dec : EqDecision PostCallError.
Proof. solve_decision. Defined.
#[export] Instance AnalyticsError_eq_dec : EqDecision AnalyticsError.
Proof. solve_decision. Defined.

(** ** The contract shared by the five enums *)

(** The four shapes every adapter builds, as functions into the enum. *)
Class PortError (E : Type) := {
  mk_transient : string → E;
  mk_permanent : string → E;
  mk_unavailable : E
}.

#[export] Instance registry_port_error : PortError RegistryError :=
  {| mk_transient := RegistryErr.Transient; mk_permanent := RegistryErr.Permanent;
     mk_unavailable := RegistryErr.Unavailable |}.
#[export] Instance jm_port_error : PortError JmError :=
  {| mk_transient := JmErr.Transient; mk_permanent := JmErr.Permanent;
     mk_unavailable := JmErr.Unavailable |}.
#[export] Instance vm_port_error : PortError VmError :=
  {| mk_transient := VmErr.Transient; mk_permanent := VmErr.Permanent;
     mk_unavailable := VmErr.Unavailable |}.
#[export] Instance post_call_port_error : PortError PostCallError :=
  {| mk_transient := PostCallErr.Transient; mk_permanent := PostCallErr.Permanent;
     mk_unavailable := PostCallErr.Unavailable |}.
#[export] Instance analytics_port_error : PortError AnalyticsError :=
  {| mk_transient := AnalyticsErr.Transient; mk_permanent := AnalyticsErr.Permanent;
     mk_unavailable := AnalyticsErr.Unavailable |}.

Class FinalErrors (E : Type) `{IsRetryable E, FromPanic E, FromDeadline E} : Prop := {
  panic_not_retryable : is_retryable (from_panic (E := E)) = false;
  deadline_not_retryable : is_retryable (from_deadline (E := E)) = false
}.

Class PortErrorLaws (E : Type) `{IsRetryable E, PortError E} : Prop := {
  transient_retryable : ∀ m, is_retryable (mk_transient m) = true;
  permanent_final : ∀ m, is_retryable (mk_permanent m) = false;
  unavailable_retryable : is_retryable (mk_unavailable (E := E)) = true
}.

#[export] Instance registry_final : FinalErrors RegistryError. Proof. done. Qed.
#[export] Instance jm_final : FinalErrors JmError. Proof. done. Qed.
#[export] Instance vm_final : FinalErrors VmError. Proof. done. Qed.
#[export] Instance post_call_final : FinalErrors PostCallError. Proof. done. Qed.
#[export] Instance analytics_final : FinalErrors AnalyticsError. Proof. done. Qed.

#[export] Instance registry_laws : PortErrorLaws RegistryError. Proof. done. Qed.
#[export] Instance jm_laws : PortErrorLaws JmError. Proof. done. Qed.
#[export] Instance vm_laws : PortErrorLaws VmError. Proof. done. Qed.
#[export] Instance post_call_laws : PortErrorLaws PostCallError. Proof. done. Qed.
#[export] Instance analytics_laws : PortErrorLaws AnalyticsError. Proof. done. Qed.

#[export] Hint Rewrite @panic_not_retryable @deadline_not_retryable
  @transient_retryable @permanent_final @unavailable_retryable using typeclasses eauto : hub_rw.
