(* ===== verification/Bytes.v ===== *)
(** * Bytes and their hexadecimal text

    [u8] and [format!("{b:02x}")] over byte slices, shared by the payload
    hashes of [idempotency.rs] and the span ids of [telemetry/otlp_json.rs]. *)
From Stdlib Require Import ZArith Lia.
From Stdlib Require Import Strings.Ascii Strings.String Strings.Byte.
From stdpp Require Import base list strings.
From S2P Require Import Prelude.

Abbreviation u8 := Byte.byte.
#[export] Instance u8_eq_dec : EqDecision u8 := Byte.byte_eq_dec.

(** [format!("{b:02x}")]. *)
Definition hex_digit (n : N) : ascii :=
  match String.get (N.to_nat n) "0123456789abcdef" with Some c => c | None => "0"%char end.
Definition byte_hex (b : u8) : string :=
  String (hex_digit (Byte.to_N b / 16)) (String (hex_digit (Byte.to_N b mod 16)) "").
(** [bytes.iter().map(|b| format!("{b:02x}")).collect()]. *)
Definition hex_of_bytes (bytes : list u8) : string :=
  foldr (λ b s, byte_hex b +:+ s) ""%string bytes.

(** ** Hexadecimal *)

Definition unhex (c : ascii) : N :=
  let n := N_of_ascii c in if (n <? 58)%N then (n - 48)%N else (n - 87)%N.

Lemma unhex_hex_digit n : (n < 16)%N → unhex (hex_digit n) = n.
Proof.
  intros Hn. rewrite <- (N2Nat.id n). assert (N.to_nat n < 16)%nat as Hk by lia.
  revert Hk. generalize (N.to_nat n) as k. clear n Hn. intros k Hk.
  do 16 (destruct k as [|k]; [reflexivity|]). lia.
Qed.

Lemma byte_hex_length b s : String.length (byte_hex b +:+ s) = S (S (String.length s)).
Proof. done. Qed.

Lemma byte_hex_inj b b' s s' :
  byte_hex b +:+ s = byte_hex b' +:+ s' → b = b' ∧ s = s'.
Proof.
  unfold byte_hex. intros Heq. injection Heq as Hhi Hlo Hs. split; [clear Hs|exact Hs].
  apply (f_equal unhex) in Hhi, Hlo.
  pose proof (Byte.to_N_bounded b). pose proof (Byte.to_N_bounded b').
  rewrite !unhex_hex_digit in Hhi, Hlo
    by first [apply N.Div0.div_lt_upper_bound; lia | apply N.mod_lt; lia].
  assert (Hn : Byte.to_N b = Byte.to_N b').
  { rewrite (N.div_mod (Byte.to_N b) 16), (N.div_mod (Byte.to_N b') 16) by lia. congruence. }
  assert (Some b = Some b') as Hb; [|by simplify_eq].
  by rewrite <- !Byte.of_to_N, Hn.
Qed.

Lemma hex_of_bytes_length l : String.length (hex_of_bytes l) = (2 * length l)%nat.
Proof.
  induction l as [|b l IH]; [done|]. unfold hex_of_bytes in *. cbn [foldr length].
  rewrite byte_hex_length, IH. lia.
Qed.

#[export] Instance hex_of_bytes_inj : Inj (=) (=) hex_of_bytes.
Proof.
  intros l. unfold hex_of_bytes. induction l as [|b l IH]; intros [|b' l'] Heq; simpl in Heq;
      try done.
  apply byte_hex_inj in Heq as [-> ?]. f_equal. by apply IH.
Qed.
