(* ===== verification/Uuids.v ===== *)
(** * UUIDs

    The [uuid] crate is not part of the repository: its type, its [Display],
    [FromStr] and [new_v4] are the fields of the classes [UuidLib] and
    [UuidGen].  [UuidLaws] states the documented behaviour the code relies on:
    parsing the displayed text gives the id back.  [Uuid36] is a concrete
    instance (the 36-character texts) used by the witnesses. *)
From Stdlib Require Import ZArith Lia.
From stdpp Require Import base strings countable gmap.
From S2P Require Import Prelude.

Class UuidLib := {
  Uuid : Type;
  Uuid_eq_dec :: EqDecision Uuid;
  Uuid_countable :: Countable Uuid;
  uuid_to_string : Uuid → string;
  (** The error is the [Display] text of [uuid::Error]. *)
  uuid_parse : string → result Uuid string
}.

Class UuidLaws `{UuidLib} : Prop :=
  uuid_parse_to_string : ∀ u, uuid_parse (uuid_to_string u) = Ok u.

(** [Uuid::new_v4] draws from the process random source, part of the
    environment [W]. *)
Class UuidGen (W : Type) `{UuidLib} := new_v4 : W → Uuid * W.

Lemma uuid_to_string_inj `{UuidLaws} u v : uuid_to_string u = uuid_to_string v → u = v.
Proof.
  intros Heq. assert (Hp : uuid_parse (uuid_to_string u) = uuid_parse (uuid_to_string v))
    by by rewrite Heq.
  rewrite !uuid_parse_to_string in Hp. by simplify_eq.
Qed.

#[export] Hint Rewrite @uuid_parse_to_string using typeclasses eauto : hub_rw.

(** ** A concrete instance: texts of 36 characters *)
Module Uuid36.

Definition ok36 (s : string) : bool := Nat.eqb (String.length s) 36.

Definition t : Type := { s : string | ok36 s = true }.

Lemma t_eq (u v : t) : `u = `v → u = v.
Proof.
  destruct u as [s p], v as [s' p']; simpl. intros ->. f_equal. apply proof_irrel.
Qed.

#[export] Instance t_eq_dec : EqDecision t.
Proof.
  intros u v. destruct (decide (`u = `v)) as [Heq|Hne].
  - left. by apply t_eq.
  - right. by intros ->.
Defined.

Definition parse (s : string) : result t string :=
  match bool_dec (ok36 s) true with
  | left p => Ok (exist _ s p)
  | right _ => Err "invalid length"%string
  end.

Lemma parse_proj (u : t) : parse (`u) = Ok u.
Proof.
  unfold parse. destruct u as [s p]; simpl.
  destruct (bool_dec (ok36 s) true) as [q|q]; [|congruence].
  f_equal. by apply t_eq.
Qed.

Definition of_option (s : string) : option t :=
  match parse s with Ok u => Some u | Err _ => None end.

#[export] Instance t_countable : Countable t.
Proof.
  apply (inj_countable (λ u : t, `u) of_option).
  intros u. unfold of_option. by rewrite parse_proj.
Defined.

#[export] Instance lib : UuidLib :=
  {| Uuid := t; uuid_to_string := λ u, `u; uuid_parse := parse |}.

#[export] Instance laws : UuidLaws.
Proof. exact parse_proj. Qed.

Definition nil_uuid : t := exist _ "00000000-0000-0000-0000-000000000000"%string eq_refl.
Definition one_uuid : t := exist _ "00000000-0000-0000-0000-000000000001"%string eq_refl.
Definition two_uuid : t := exist _ "00000000-0000-0000-0000-000000000002"%string eq_refl.

End Uuid36.
