(* ===== verification/UnitTest.v ===== *)
(** * The repository's unit tests as programs

    The [#[cfg(test)]] modules of the crates are part of the program and say
    what its authors expect of it.  They are translated like the rest: a test
    is a computation on the state its subject acts on, a failed assertion is a
    panic, and a test passes from a state when running it there ends without
    one.  The modules [*Tests] hold the translations; their theorems say that
    every test of a module passes, where possible whatever the environment. *)
From stdpp Require Import base list gmap.
From S2P Require Import Prelude Uuids.

Section UnitTest.
Context {S : Type}.

Definition test : Type := io S unit.

(** [assert!] and [assert_eq!]. *)
Definition assert_ (b : bool) : test := λ s, (if b then Value tt else Panicked, s).
Definition assert_eq {A} `{!EqDecision A} (x y : A) : test := assert_ (bool_decide (x = y)).

(** [Result::unwrap], [Result::unwrap_err] and [Option::unwrap], also where a
    message is given with [expect]. *)
Definition unwrap {T E} (r : result T E) : io S T := λ s,
  (match r with Ok v => Value v | Err _ => Panicked end, s).
Definition unwrap_err {T E} (r : result T E) : io S E := λ s,
  (match r with Ok _ => Panicked | Err e => Value e end, s).
Definition unwrap_some {T} (o : option T) : io S T := λ s,
  (match o with Some v => Value v | None => Panicked end, s).

Definition is_err {T E} (r : result T E) : bool := negb (is_ok r).

(** [tokio::task::spawn(..).await]: a panic of the task ends in the handle. *)
Inductive JoinError : Set := JoinPanic.
Definition is_panic (_ : JoinError) : bool := true.
Definition spawn_await {A} (task : io S A) : io S (result A JoinError) := λ s,
  let '(o, s') := task s in
  (Value match o with Value a => Ok a | Panicked => Err JoinPanic end, s').

Definition passes (t : test) (s : S) : bool :=
  match (t s).1 with Value _ => true | Panicked => false end.

End UnitTest.
Arguments test : clear implicits.

(** ** Subjects next to the random source *)

Section World.
Context {W S : Type} `{U : UuidLib} `{!UuidGen W}.

(** A call of the subject, and an allocation. *)
Definition on_subject {A} (m : io S A) : io (W * S) A := λ '(w, s),
  let '(o, s') := m s in (o, (w, s')).
Definition allocate {A} (new : S → A * S) : io (W * S) A := λ '(w, s),
  let '(a, s') := new s in (Value a, (w, s')).

(** [Uuid::new_v4()], and the constructors that draw an id. *)
Definition draw_uuid : io (W * S) Uuid := λ '(w, s),
  let '(u, w') := new_v4 w in (Value u, (w', s)).
Definition draw {A} (new : W → A * W) : io (W * S) A := λ '(w, s),
  let '(a, w') := new w in (Value a, (w', s)).

End World.

(** Run a test on symbolic inputs: reduce it, unfold the operations registered
    in [run_test], give names to drawn ids, resolve look-ups of what was just
    stored and comparisons of equal values. *)
Arguments io_bind {S A B} m k _ /.
Arguments io_ret {S A} a _ /.
Arguments assert_ {S} b _ /.
Arguments unwrap {S T E} r _ /.
Arguments unwrap_err {S T E} r _ /.
Arguments unwrap_some {S T} o _ /.
Arguments spawn_await {S A} task _ /.
Arguments on_subject {W S A} m !_ /.
Arguments allocate {W S A} new !_ /.
Arguments draw_uuid {W S U UuidGen0} !_ /.
Arguments draw {W S A} new !_ /.

Create HintDb run_test.

Ltac run_step :=
  match goal with
  | |- context [new_v4 ?w] => destruct (new_v4 w) as [? ?]
  | |- context [<[?k := _]> _ !! ?k] => rewrite lookup_insert_eq
  | |- context [bool_decide (?x = ?x)] => rewrite (bool_decide_eq_true_2 (x = x) eq_refl)
  end.
Ltac run_test :=
  unfold passes; hnf;
  repeat (progress cbn -[lookup insert fresh dom bool_decide] || run_step
          || (progress autounfold with run_test));
  try reflexivity.

(** Run a list of tests on concrete inputs. *)
Ltac run_closed_tests := repeat (constructor; [vm_compute; reflexivity|]); constructor.
