(* ===== verification/PortTypes.v ===== *)
(** * Domain types of the port signatures

    Models [crates/engagement-hub-ports/src/types.rs].  Field names carry a
    prefix made from the struct's name because Rocq record fields share one
    name space.  [String] is a byte string, [u32], [u64] and [i32] are [Z]
    (the code never computes with them here), [f64] is Stdlib's [spec_float],
    [HashMap<String, u32>] is a [gmap]. *)
From Stdlib Require Import ZArith Floats.SpecFloat.
From stdpp Require Import base strings gmap.
From S2P Require Import Prelude Uuids.

Section PortTypes.
Context `{U : UuidLib}.

(** ** ID newtypes *)

Record EngagementId := mkEngagementId { engagement_uuid : Uuid }.
Record VoiceProfileId := mkVoiceProfileId { voice_profile_uuid : Uuid }.
Record TelephonyId := mkTelephonyId { telephony_uuid : Uuid }.

Definition engagement_id_display (i : EngagementId) : string :=
  uuid_to_string (engagement_uuid i).
Definition voice_profile_id_display (i : VoiceProfileId) : string :=
  uuid_to_string (voice_profile_uuid i).
Definition telephony_id_display (i : TelephonyId) : string :=
  uuid_to_string (telephony_uuid i).

Definition engagement_id_new {W} `{!UuidGen W} (w : W) : EngagementId * W :=
  let '(u, w') := new_v4 w in (mkEngagementId u, w').
Definition voice_profile_id_new {W} `{!UuidGen W} (w : W) : VoiceProfileId * W :=
  let '(u, w') := new_v4 w in (mkVoiceProfileId u, w').
Definition telephony_id_new {W} `{!UuidGen W} (w : W) : TelephonyId * W :=
  let '(u, w') := new_v4 w in (mkTelephonyId u, w').

Definition engagement_id_into_uuid (i : EngagementId) : Uuid := engagement_uuid i.
Definition engagement_id_as_uuid (i : EngagementId) : Uuid := engagement_uuid i.
Definition engagement_id_from (id : Uuid) : EngagementId := mkEngagementId id.
Definition engagement_id_default {W} `{!UuidGen W} (w : W) : EngagementId * W :=
    engagement_id_new w.
#[export] Instance EngagementId_eq_dec : EqDecision EngagementId.
Proof. solve_decision. Defined.

Definition voice_profile_id_into_uuid (i : VoiceProfileId) : Uuid := voice_profile_uuid i.
Definition voice_profile_id_as_uuid (i : VoiceProfileId) : Uuid := voice_profile_uuid i.
Definition voice_profile_id_from (id : Uuid) : VoiceProfileId := mkVoiceProfileId id.
Definition voice_profile_id_default {W} `{!UuidGen W} (w : W) : VoiceProfileId * W :=
    voice_profile_id_new w.
#[export] Instance VoiceProfileId_eq_dec : EqDecision VoiceProfileId.
Proof. solve_decision. Defined.

Definition telephony_id_into_uuid (i : TelephonyId) : Uuid := telephony_uuid i.
Definition telephony_id_as_uuid (i : TelephonyId) : Uuid := telephony_uuid i.
Definition telephony_id_from (id : Uuid) : TelephonyId := mkTelephonyId id.
Definition telephony_id_default {W} `{!UuidGen W} (w : W) : TelephonyId * W := telephony_id_new w.
#[export] Instance TelephonyId_eq_dec : EqDecision TelephonyId.
Proof. solve_decision. Defined.

(** ** RegistryPort types *)

Record ResolveSnapshotReq := { rsq_org_id : string; rsq_journey_version : string }.
Record ResolvedSnapshot := { rs_snapshot_id : string; rs_journey_version : string }.
Record VoiceProfile := { vp_id : VoiceProfileId; vp_name : string }.

(** ** JourneyManagerPort types *)

Record CreateExecutionReq := {
  ce_journey_version : string;
  ce_org_id : string;
  ce_engagement_id : EngagementId
}.

Record ExecutionRef := mkExecutionRef { execution_uuid : Uuid }.
Definition execution_ref_new (id : Uuid) : ExecutionRef := mkExecutionRef id.
Definition execution_ref_as_uuid (r : ExecutionRef) : Uuid := execution_uuid r.
Definition execution_ref_into_uuid (r : ExecutionRef) : Uuid := execution_uuid r.

Inductive CancelReason :=
| CompensateFailedBind | UserRequested | OrchestratorTimeout | AdminCancelled.

Record TimelineOpts := { to_after_sequence : option Z }.
Record TimelineEvent := { te_sequence : Z; te_kind : string }.
Record Timeline := { tl_events : list TimelineEvent }.

(** ** VoiceManagerPort types *)

Record StartVoiceSessionReq := { sv_engagement_id : EngagementId; sv_org_id : string }.
Record VoiceSessionRef := mkVoiceSessionRef { voice_session_uuid : Uuid }.
Definition voice_session_ref_new (id : Uuid) : VoiceSessionRef := mkVoiceSessionRef id.
Definition voice_session_ref_as_uuid (r : VoiceSessionRef) : Uuid := voice_session_uuid r.
Definition voice_session_ref_into_uuid (r : VoiceSessionRef) : Uuid := voice_session_uuid r.

Inductive StopMode := Abort | Graceful.

Record IssueTestTokenReq := { it_org_id : string }.
Record TestToken := { tt_token : string }.
Record CreateTelephonyReq := { ct_org_id : string; ct_phone_number : string }.
Record Telephony := { tel_id : TelephonyId; tel_org_id : string; tel_phone_number : string }.
Record ListTelephoniesReq := { lt_org_id : string; lt_page_token : option string }.
Record UpdateTelephonyReq := { ut_id : TelephonyId; ut_phone_number : string }.

(** ** PostCallPort types *)

Record TranscriptMessage := {
  tm_message : string;
  tm_role : string;
  tm_audio_url : option string;
  tm_emotion : option string
}.
Record Transcript := { tr_messages : list TranscriptMessage; tr_total_size : Z }.
Record Summary := {
  sum_summary : string;
  sum_resolution : option string;
  sum_resolution_explanation : option string
}.
Record Sentiment := { sen_label : string; sen_justification : string }.
Record OutputField := { of_key : string; of_value : string }.
Record OutputExtraction := { oe_fields : list OutputField }.

Record ListAgentCallLogsReq := {
  la_agent_id : string;
  la_skip : option Z;
  la_limit : option Z;
  la_start_date : option string;
  la_end_date : option string;
  la_identity : option string;
  la_id : option string;
  la_batch_id : option string
}.
Record ListOrgCallLogsReq := {
  lo_org_id : string;
  lo_skip : option Z;
  lo_limit : option Z;
  lo_start_date : option string;
  lo_end_date : option string;
  lo_contact_number : option string;
  lo_call_id : option string
}.
Record CallLog := {
  cl_id : string;
  cl_room_name : option string;
  cl_batch_id : option string;
  cl_duration : option Z;
  cl_identity : option string;
  cl_created_at : string
}.
Record Page (T : Type) := mkPage {
  pg_items : list T;
  pg_total_size : option Z;
  pg_next_page_token : option string
}.

(** ** AnalyticsPort types *)

Record GetAgentAnalyticsReq := {
  gaa_agent_id : string;
  gaa_metric : option string;
  gaa_granularity : option string;
  gaa_start_date : option string;
  gaa_end_date : option string
}.
Record GetAgentMetricsReq := {
  gam_agent_id : string;
  gam_metric : option string;
  gam_granularity : option string;
  gam_start_date : option string;
  gam_end_date : option string
}.
Record GetOrgAnalyticsReq := {
  goa_org_id : string;
  goa_metric : option string;
  goa_granularity : option string;
  goa_start_date : option string;
  goa_end_date : option string
}.
Record GetOrgMetricsReq := {
  gom_org_id : string;
  gom_metric : option string;
  gom_granularity : option string;
  gom_start_date : option string;
  gom_end_date : option string
}.
Record Analytics := {
  an_average_conversation_duration : spec_float;
  an_containment_rate : spec_float;
  an_customer_satisfaction_rate : spec_float;
  an_dropoff_rate : spec_float;
  an_escalation_rate : spec_float;
  an_total_inquiries : Z;
  an_category_counts : gmap string Z
}.
Record Metrics := { me_categories : list string; me_series : list spec_float }.

End PortTypes.

Arguments mkPage {T}.
Arguments pg_items {T}.
Arguments pg_total_size {T}.
Arguments pg_next_page_token {T}.
