(* ===== verification/Saga.v ===== *)
(** * Saga compensation labels and adapter metrics

    Models [crates/engagement-hub-adapters/src/saga.rs] (the two label enums)
    and [crates/engagement-hub-adapters/src/metrics.rs] ([AdapterMetrics], its
    constructor with the zero-initialised series, and [record_compensation]). *)
From Stdlib Require Import ZArith Lia.
From stdpp Require Import base list gmap strings.
From S2P Require Import Prelude.

(** ** [saga.rs] *)

Inductive CompensationStage := JmCancel | VmStop.

Definition stage_as_label (s : CompensationStage) : string :=
  match s with JmCancel => "jm_cancel" | VmStop => "vm_stop" end.

Definition stage_ALL : list CompensationStage := [JmCancel; VmStop].

Inductive CompensationOutcome :=
| Success | TransientFailureRetried | ExhaustedToReconciler | NoCompensationNeeded.

Definition outcome_as_label (o : CompensationOutcome) : string :=
  match o with
  | Success => "success"
  | TransientFailureRetried => "transient_failure_retried"
  | ExhaustedToReconciler => "exhausted_to_reconciler"
  | NoCompensationNeeded => "no_compensation_needed"
  end.

Definition outcome_ALL : list CompensationOutcome :=
  [Success; TransientFailureRetried; ExhaustedToReconciler; NoCompensationNeeded].

#[export] Instance CompensationStage_eq_dec : EqDecision CompensationStage.
Proof. solve_decision. Defined.
#[export] Instance CompensationOutcome_eq_dec : EqDecision CompensationOutcome.
Proof. solve_decision. Defined.

(** ** [metrics.rs] *)

Record AdapterMetrics := mkAdapterMetrics {
  retries_total : CounterVec;
  deadline_exceeded_total : CounterVec;
  saga_compensation_outcome_total : CounterVec
}.

Definition retries_total_desc : MetricDesc :=
  mkDesc KIntCounterVec "engagementhub_adapter_retries_total"
    "Retry attempts per adapter target and attempt number" ["target"; "attempt"] [].
Definition deadline_exceeded_total_desc : MetricDesc :=
  mkDesc KIntCounterVec "engagementhub_deadline_exceeded_total"
    "Adapter calls refused due to deadline too close" ["target"] [].
Definition saga_compensation_outcome_total_desc : MetricDesc :=
  mkDesc KIntCounterVec "engagementhub_saga_compensation_outcome_total"
    "Saga compensation attempt outcomes by stage (PRD §7)" ["stage"; "result"] [].

Definition saga_labels (s : CompensationStage) (o : CompensationOutcome) : list string :=
  [stage_as_label s; outcome_as_label o].

(** The nested loops of lines 45-51: [inc_by(0)] on every combination. *)
Definition zero_init_saga (c : CounterVec) : CounterVec :=
  foldl (λ c s, foldl (λ c o, counter_inc_by (saga_labels s o) 0 c) c outcome_ALL) c stage_ALL.

Section New.
Context `{P : PrometheusLib}.

(** Construct the metric, then register it. *)
Definition construct_and_register (d : MetricDesc) (r : PromRegistry)
  : result PromRegistry string :=
  let? _ := prom_construct d in prom_register d r.

Definition adapter_metrics_new (registry : PromRegistry)
  : result (AdapterMetrics * PromRegistry) string :=
  let? r1 := construct_and_register retries_total_desc registry in
  let? r2 := construct_and_register deadline_exceeded_total_desc r1 in
  let? r3 := construct_and_register saga_compensation_outcome_total_desc r2 in
  Ok (mkAdapterMetrics ∅ ∅ (zero_init_saga ∅), r3).

(** [Self::new(&Registry::new()).expect("test metrics")]. *)
Definition adapter_metrics_for_test {S} : io S AdapterMetrics := λ s,
  (match adapter_metrics_new prom_registry_new with Ok (m, _) => Value m | Err _ => Panicked end,
      s).

End New.

Definition record_compensation (s : CompensationStage) (o : CompensationOutcome)
    (m : AdapterMetrics) : AdapterMetrics :=
  mkAdapterMetrics (retries_total m) (deadline_exceeded_total m)
    (counter_inc (saga_labels s o) (saga_compensation_outcome_total m)).

(** The two increments the retry combinator makes. *)
Definition inc_retries (target attempt : string) (m : AdapterMetrics) : AdapterMetrics :=
  mkAdapterMetrics (counter_inc [target; attempt] (retries_total m))
    (deadline_exceeded_total m) (saga_compensation_outcome_total m).
Definition inc_deadline_exceeded (target : string) (m : AdapterMetrics) : AdapterMetrics :=
  mkAdapterMetrics (retries_total m)
    (counter_inc [target] (deadline_exceeded_total m)) (saga_compensation_outcome_total m).

Definition empty_metrics : AdapterMetrics := mkAdapterMetrics ∅ ∅ (zero_init_saga ∅).

(** ** Properties *)

Lemma saga_labels_inj s o s' o' : saga_labels s o = saga_labels s' o' → s = s' ∧ o = o'.
Proof. by destruct s, s', o, o'. Qed.

(** Every label combination has a series as soon as the metrics exist, each
    label tuple names one combination, and recording an outcome adds 1 to that
    combination's series and to no other. *)
Theorem saga_series_complete (m : AdapterMetrics) s o s' o' :
  saga_compensation_outcome_total empty_metrics !! saga_labels s o = Some 0
  ∧ counter_get (saga_labels s' o')
      (saga_compensation_outcome_total (record_compensation s o m))
    = counter_get (saga_labels s' o') (saga_compensation_outcome_total m)
      + (if decide (s = s' ∧ o = o') then 1 else 0).
Proof.
  split.
  - destruct s, o; reflexivity.
  - unfold record_compensation, counter_inc; simpl. case_decide as Hd.
    + destruct Hd as [-> ->]. by rewrite counter_get_inc_by.
    + rewrite counter_get_inc_by_ne; [lia|]. intros Heq%saga_labels_inj. tauto.
Qed.
