(* ===== verification/Prometheus.v ===== *)
(** * What the [prometheus] crate documents

    The class [PrometheusLaws] states which descriptors the metric constructors
    accept and when registration fails; [ListRegistry] is a registry that obeys
    it.  A fresh registry accepts the adapters' metrics. *)
From Stdlib Require Import ZArith Lia Ascii.
From stdpp Require Import base list gmap strings.
From S2P Require Import Prelude Saga.

(** ** Descriptors *)

Section Names.
Local Open Scope string_scope.

Definition in_range (lo hi c : ascii) : bool :=
  (nat_of_ascii lo <=? nat_of_ascii c)%nat && (nat_of_ascii c <=? nat_of_ascii hi)%nat.
Definition label_start (c : ascii) : bool :=
  in_range "a" "z" c || in_range "A" "Z" c || Ascii.eqb c "_".
Definition label_char (c : ascii) : bool := label_start c || in_range "0" "9" c.
Definition name_start (c : ascii) : bool := label_start c || Ascii.eqb c ":".
Definition name_char (c : ascii) : bool := label_char c || Ascii.eqb c ":".

Definition matches (first rest : ascii → bool) (s : string) : bool :=
  match String.list_ascii_of_string s with
  | [] => false
  | c :: cs => first c && forallb rest cs
  end.

End Names.

Fixpoint increasing (l : list Z) : bool :=
  match l with
  | x :: (y :: _) as rest => (x <? y) && increasing rest
  | _ => true
  end.

(** A descriptor the constructors accept: names match [[a-zA-Z_:][a-zA-Z0-9_:]*]
    and [[a-zA-Z_][a-zA-Z0-9_]*], the help text is not empty, the label names
    are distinct and, for a histogram, not [le], and the bounds increase. *)
Definition valid_desc (d : MetricDesc) : bool :=
  matches name_start name_char (md_name d)
  && negb (bool_decide (md_help d = ""%string))
  && forallb (matches label_start label_char) (md_labels d)
  && bool_decide (NoDup (md_labels d)) && bool_decide ("le"%string ∉ md_labels d)
  && increasing (md_buckets d).

Class PrometheusLaws (P : PrometheusLib) := {
  registered : PromRegistry → list MetricDesc;
  registered_new : registered prom_registry_new = [];
  construct_valid : ∀ d, valid_desc d = true → prom_construct d = Ok tt;
  register_fresh : ∀ d r, md_name d ∉ md_name <$> registered r →
    ∃ r', prom_register d r = Ok r' ∧ registered r' = registered r ++ [d];
  register_taken : ∀ d r, md_name d ∈ md_name <$> registered r → ∃ e, prom_register d r = Err e
}.

(** ** A registry for which the laws hold *)
Module ListRegistry.

#[export] Instance list_prometheus : PrometheusLib := {|
  PromRegistry := list MetricDesc;
  prom_registry_new := [];
  prom_construct d := if valid_desc d then Ok tt else Err "invalid descriptor"%string;
  prom_register d r :=
    if decide (md_name d ∈ md_name <$> r) then Err "already registered"%string else Ok (r ++ [d])
|}.
#[export] Instance list_prometheus_laws : PrometheusLaws list_prometheus.
Proof.
  refine {| registered := λ r : @PromRegistry list_prometheus, (r : list MetricDesc) |}; simpl.
  - done.
  - by intros d ->.
  - intros d r Hd. rewrite decide_False by done. eauto.
  - intros d r Hd. rewrite decide_True by done. eauto.
Defined.

End ListRegistry.

(** ** The adapters' metrics on a fresh registry *)

Lemma construct_and_register_fresh `{PL : PrometheusLaws} d r :
  valid_desc d = true → md_name d ∉ md_name <$> registered r →
  ∃ r', construct_and_register d r = Ok r' ∧ registered r' = registered r ++ [d].
Proof.
  intros Hv Hd. unfold construct_and_register. rewrite (construct_valid d Hv). simpl.
  by apply register_fresh.
Qed.

Lemma adapter_metrics_registers `{PL : PrometheusLaws} :
  ∃ r, adapter_metrics_new prom_registry_new = Ok (empty_metrics, r).
Proof.
  unfold adapter_metrics_new.
  destruct (construct_and_register_fresh retries_total_desc prom_registry_new) as (r1 & -> & H1);
    [reflexivity|rewrite registered_new; apply not_elem_of_nil|]. simpl.
  destruct (construct_and_register_fresh deadline_exceeded_total_desc r1) as (r2 & -> & H2);
    [reflexivity|rewrite H1, registered_new; apply (bool_decide_unpack _); vm_compute; exact I|].
        simpl.
  destruct (construct_and_register_fresh saga_compensation_outcome_total_desc r2) as (r3 & -> & H3);
    [reflexivity|rewrite H2, H1, registered_new; apply (bool_decide_unpack _); vm_compute;
        exact I|].
  simpl. by eexists.
Qed.
