(* ===== verification/Policies.v ===== *)
(** * Retry policies, deadlines and the retry combinator

    Models [crates/engagement-hub-adapters/src/policies.rs].  The clock, the
    timer and the random source are the class [RetryEnv] over an abstract
    environment [W] ([std::time::Instant::now], [tokio::time::sleep],
    [rand::Rng::gen_range(ZERO..=backoff)]); [RetryEnvLaws] states what their
    documentation promises.  An operation is a state transformer on [W] that
    may return, panic before giving a future, or panic while being polled. *)
From Stdlib Require Import ZArith Lia.
From stdpp Require Import base list gmap strings pretty.
From S2P Require Import Prelude Errors Saga.

(** ** Configuration *)

(** [max_attempts] is a [u32]. *)
Record RetryConfig := mkRetryConfig {
  max_attempts : nat;
  initial_backoff : Duration;
  max_backoff : Duration
}.

Definition REGISTRY_RESOLVE_RETRY : RetryConfig := mkRetryConfig 5 (from_millis 50) (from_secs 2).
Definition DEFAULT_RETRY : RetryConfig := mkRetryConfig 3 (from_millis 50) (from_secs 2).
Definition WRITE_RETRY : RetryConfig := mkRetryConfig 2 (from_millis 50) (from_secs 2).
Definition CLEANUP_RETRY : RetryConfig := mkRetryConfig 5 (from_millis 50) (from_secs 2).
Definition GRACEFUL_STOP_RETRY : RetryConfig := mkRetryConfig 1 (from_millis 50) (from_secs 2).

Definition PROPAGATION_MARGIN : Duration := from_millis 50.
Definition ADAPTER_FLOOR : Duration := from_millis 200.

(** ** The environment *)

Class RetryEnv (W : Type) := {
  instant_now : W → Z;
  tokio_sleep : Duration → W → W;
  gen_range : Duration → W → Duration * W
}.

Class RetryEnvLaws (W : Type) `{RetryEnv W} : Prop := {
  sleep_advances : ∀ d w, instant_now w + Z.max 0 d ≤ instant_now (tokio_sleep d w);
  gen_range_bounds : ∀ b w, 0 ≤ b → 0 ≤ (gen_range b w).1 ≤ b;
  gen_range_clock : ∀ b w, instant_now w ≤ instant_now (gen_range b w).2
}.

(** ** Deadlines *)

Record DeadlineContext := mkDeadline { deadline : option Z }.

Definition deadline_none : DeadlineContext := mkDeadline None.

Section Deadlines.
Context {W : Type} `{RetryEnv W}.

(** [Instant::now() + budget]; the budget is at most the adapter's default, so
    the sum stays in an [Instant]'s range. *)
Definition from_remaining (remaining adapter_default : Duration) (w : W) : DeadlineContext :=
  let budget := Z.min (duration_saturating_sub remaining PROPAGATION_MARGIN) adapter_default in
  mkDeadline (Some (instant_now w + budget)).

Definition saturating_duration_since (d : Z) (w : W) : Duration :=
  Z.max 0 (d - instant_now w).

Definition is_too_close (c : DeadlineContext) (w : W) : bool :=
  match deadline c with
  | Some d => saturating_duration_since d w <? ADAPTER_FLOOR
  | None => false
  end.

Definition remaining (c : DeadlineContext) (w : W) : option Duration :=
  (λ d, saturating_duration_since d w) <$> deadline c.

End Deadlines.

(** ** The combinator *)

(** How one call of the closure and its future can end. *)
Inductive attempt (T E : Type) :=
| FutureReturned (r : result T E)
| PanicInPoll
| PanicInCall.
Arguments FutureReturned {T E} r.
Arguments PanicInPoll {T E}.
Arguments PanicInCall {T E}.

Section WithRetry.
Context {W T E : Type} `{RetryEnv W} `{IsRetryable E} `{FromPanic E} `{FromDeadline E}.

(** Lines 133-139: both panic stages become [E::from_panic()]. *)
Definition catch_panics (a : attempt T E) : result T E :=
  match a with
  | FutureReturned r => r
  | PanicInPoll => Err from_panic
  | PanicInCall => Err from_panic
  end.

Definition retryable_error (r : result T E) : bool :=
  match r with Err e => is_retryable e | Ok _ => false end.

Context (config : RetryConfig) (dl : option DeadlineContext) (target : string).
Context (f : W → attempt T E * W).

(** Lines 151-159: [None] is the panic of an overflowing [backoff + FLOOR]. *)
Definition deadline_gate (backoff : Duration) (w : W) : option bool :=
  match dl with
  | None => Some false
  | Some d =>
      match duration_add backoff ADAPTER_FLOOR with
      | None => None
      | Some need =>
          Some (match remaining d w with Some r => r <? need | None => false end)
      end
  end.

(** The [for] loop from attempt number [n] on; [fuel] is the number of
    iterations left in the range, so running out is the [unreachable!()]. *)
Fixpoint retry_loop (fuel n : nat) (backoff : Duration) (w : W) (m : option AdapterMetrics)
  : exec (result T E) * (W * option AdapterMetrics) :=
  match fuel with
  | O => (Panicked, (w, m))
  | S fuel' =>
      let '(a, w1) := f w in
      let r := catch_panics a in
      if retryable_error r && (n + 1 <? max_attempts config)%nat then
        let m1 := inc_retries target (pretty (n + 1)%nat) <$> m in
        match deadline_gate backoff w1 with
        | None => (Panicked, (w1, m1))
        | Some true =>
            (Value (Err from_deadline), (w1, inc_deadline_exceeded target <$> m1))
        | Some false =>
            let '(jitter, w2) := gen_range backoff w1 in
            let w3 := tokio_sleep jitter w2 in
            match duration_mul backoff 2 with
            | None => (Panicked, (w3, m1))
            | Some twice => retry_loop fuel' (S n) (Z.min twice (max_backoff config)) w3 m1
            end
        end
      else (Value r, (w1, m))
  end.

Definition with_retry : io (W * option AdapterMetrics) (result T E) := λ '(w, m),
  retry_loop (max_attempts config) 0 (initial_backoff config) w m.

End WithRetry.

(** The backoff bound before the [k]-th retry (from 0). *)
Definition backoff_at (config : RetryConfig) (k : nat) : Duration :=
  Nat.iter k (λ b, Z.min (b * 2) (max_backoff config)) (initial_backoff config).

(** Configurations whose backoff arithmetic stays in range. *)
Definition backoff_limit : Duration := duration_max / 2 - ADAPTER_FLOOR.
Definition config_safe (c : RetryConfig) : Prop :=
  (0 < max_attempts c)%nat ∧ 0 ≤ initial_backoff c ≤ backoff_limit
  ∧ 0 ≤ max_backoff c ≤ backoff_limit.

(** ** Instrumented runs

    The environment extended with a history: the result of each attempt and
    the bound and length of each sleep.  [with_retry_erase] shows that the
    history does not influence the run. *)
Record Traced (W T E : Type) := mkTraced {
  tr_env : W;
  tr_results : list (result T E);
  tr_bounds : list Duration;
  tr_sleeps : list Duration
}.
Arguments mkTraced {W T E}.
Arguments tr_env {W T E}.
Arguments tr_results {W T E}.
Arguments tr_bounds {W T E}.
Arguments tr_sleeps {W T E}.

#[export] Instance traced_env {W T E} `{RetryEnv W} : RetryEnv (Traced W T E) := {|
  instant_now s := instant_now (tr_env s);
  tokio_sleep d s :=
    mkTraced (tokio_sleep d (tr_env s)) (tr_results s) (tr_bounds s) (tr_sleeps s ++ [d]);
  gen_range b s :=
    let '(j, w) := gen_range b (tr_env s) in
    (j, mkTraced w (tr_results s) (tr_bounds s ++ [b]) (tr_sleeps s))
|}.

Definition traced {W T E} `{FromPanic E} (f : W → attempt T E * W) (s : Traced W T E)
  : attempt T E * Traced W T E :=
  let '(a, w) := f (tr_env s) in
  (a, mkTraced w (tr_results s ++ [catch_panics a]) (tr_bounds s) (tr_sleeps s)).

Definition trace_start {W T E} (w : W) : Traced W T E := mkTraced w [] [] [].

(** The environment extended with further state the timer does not touch. *)
#[export] Instance pair_env {W X} `{RetryEnv W} : RetryEnv (W * X) := {|
  instant_now s := instant_now s.1;
  tokio_sleep d s := (tokio_sleep d s.1, s.2);
  gen_range b s := let '(j, w) := gen_range b s.1 in (j, (w, s.2))
|}.

(** A concrete environment: a nanosecond clock and maximal jitter. *)
Module Clock.
#[export] Instance env : RetryEnv Z :=
  {| instant_now w := w; tokio_sleep d w := w + Z.max 0 d; gen_range b w := (b, w) |}.
#[export] Instance laws : RetryEnvLaws Z.
Proof. split; simpl; lia. Qed.
End Clock.

(** ** Facts about the configurations *)

Lemma shipped_configs_safe :
  Forall config_safe [REGISTRY_RESOLVE_RETRY; DEFAULT_RETRY; WRITE_RETRY; CLEANUP_RETRY;
                      GRACEFUL_STOP_RETRY].
Proof.
  repeat constructor; simpl; try lia; vm_compute; discriminate.
Qed.

Lemma backoff_step_range cfg b :
  config_safe cfg → 0 ≤ b ≤ backoff_limit → 0 ≤ Z.min (b * 2) (max_backoff cfg) ≤ backoff_limit.
Proof. intros (_ & _ & Hm) Hb. lia. Qed.

Lemma backoff_limit_arith b :
  0 ≤ b ≤ backoff_limit → 0 ≤ b * 2 ≤ duration_max ∧ 0 ≤ b + ADAPTER_FLOOR ≤ duration_max.
Proof.
  assert (2 * backoff_limit ≤ duration_max ∧ backoff_limit + ADAPTER_FLOOR ≤ duration_max)
    as [? ?] by (split; vm_compute; discriminate).
  assert (0 ≤ ADAPTER_FLOOR) by (vm_compute; discriminate). lia.
Qed.

Lemma backoff_limit_ops b :
  0 ≤ b ≤ backoff_limit →
  duration_mul b 2 = Some (b * 2) ∧ duration_add b ADAPTER_FLOOR = Some (b + ADAPTER_FLOOR).
Proof.
  intros [H1 H2]%backoff_limit_arith. unfold duration_mul, duration_add.
  auto using duration_in_range_Some with hub.
Qed.

Lemma backoff_at_step cfg k :
  backoff_at cfg (S k) = Z.min (backoff_at cfg k * 2) (max_backoff cfg).
Proof. done. Qed.

Lemma backoff_at_range cfg k : config_safe cfg → 0 ≤ backoff_at cfg k ≤ backoff_limit.
Proof.
  intros Hsafe. induction k as [|k IH]; [by destruct Hsafe as (_ & ? & _)|].
  rewrite backoff_at_step. by apply backoff_step_range.
Qed.

(** The counters after the retries numbered [n + 1 .. n + k] were recorded. *)
Fixpoint record_retries (target : string) (n k : nat) (m : option AdapterMetrics)
  : option AdapterMetrics :=
  match k with
  | O => m
  | S k' => record_retries target (S n) k' (inc_retries target (pretty (n + 1)%nat) <$> m)
  end.

(** What an instrumented run from attempt [n] to its end looks like. *)
Record run_shape {W T E} `{RetryEnv W} `{IsRetryable E} `{FromDeadline E}
    (cfg : RetryConfig) (dl : option DeadlineContext) (target : string) (n : nat)
    (s s' : Traced W T E) (m m' : option AdapterMetrics) (o : exec (result T E))
    (prev : list (result T E)) (final : result T E) : Prop := {
  shape_results : tr_results s' = tr_results s ++ prev ++ [final];
  shape_budget : (n + length prev < max_attempts cfg)%nat;
  shape_retried : Forall (λ r, retryable_error r = true) prev;
  shape_bounds : tr_bounds s' = tr_bounds s ++ map (backoff_at cfg) (seq n (length prev));
  shape_sleeps : ∃ ds, tr_sleeps s' = tr_sleeps s ++ ds
    ∧ (RetryEnvLaws W →
       Forall2 (λ d b, 0 ≤ d ≤ b) ds (map (backoff_at cfg) (seq n (length prev))));
  shape_end :
    (o = Value final ∧ m' = record_retries target n (length prev) m
      ∧ (retryable_error final = true → (n + length prev + 1 = max_attempts cfg)%nat))
    ∨ (o = Value (Err from_deadline) ∧ retryable_error final = true
      ∧ (n + length prev + 1 < max_attempts cfg)%nat
      ∧ m' = (inc_deadline_exceeded target <$> record_retries target n (S (length prev)) m)
      ∧ ∃ d left, dl = Some d ∧ remaining d s' = Some left
        ∧ left < backoff_at cfg (n + length prev) + ADAPTER_FLOOR)
}.

Lemma deadline_gate_total {W} `{RetryEnv W} dl b (w : W) :
  0 ≤ b ≤ backoff_limit → ∃ g, deadline_gate dl b w = Some g
  ∧ (g = true → ∃ d left, dl = Some d ∧ remaining d w = Some left ∧ left < b + ADAPTER_FLOOR).
Proof.
  intros [_ Hadd]%backoff_limit_ops. unfold deadline_gate.
  destruct dl as [d|]; [|by exists false].
  rewrite Hadd. destruct (remaining d w) as [left|] eqn:Hr; [|by exists false].
  eexists; split; [done|]. intros Hlt%Z.ltb_lt. eauto.
Qed.

Section WithRetryFacts.
Context {W T E : Type} `{RetryEnv W} `{IsRetryable E} `{FromPanic E} `{FromDeadline E}.
Implicit Types (f : W → attempt T E * W) (s : Traced W T E) (m : option AdapterMetrics).

Lemma retry_loop_shape f cfg dl target fuel n s m :
  config_safe cfg → (0 < fuel)%nat → (fuel + n = max_attempts cfg)%nat →
  let '(o, (s', m')) := retry_loop cfg dl target (traced f) fuel n (backoff_at cfg n) s m in
  ∃ prev final, run_shape cfg dl target n s s' m m' o prev final.
Proof.
  intros Hsafe. revert n s m. induction fuel as [|fuel IH]; intros n s m Hpos Hsum; [lia|].
  destruct s as [w rs bs ds]. cbn [retry_loop]. unfold traced at 1; simpl.
  destruct (f w) as [a w1]; cbv beta iota zeta.
  set (r := catch_panics a). set (s1 := mkTraced w1 (rs ++ [r]) bs ds).
  destruct (retryable_error r) eqn:Hr; simpl.
  2:{ exists [], r. split; simpl; rewrite ?app_nil_r; try done; try lia.
      - exists []; by rewrite app_nil_r.
      - left. split_and!; [done..|congruence]. }
  destruct (Nat.ltb_spec (n + 1) (max_attempts cfg)) as [Hlt|Hge].
  2:{ exists [], r. split; simpl; rewrite ?app_nil_r; try done; try lia.
      - exists []; by rewrite app_nil_r.
      - left. split_and!; [done..|lia]. }
  pose proof (backoff_at_range cfg n Hsafe) as Hb.
  destruct (deadline_gate_total dl _ s1 Hb) as (g & Hg & Hgate). fold r s1. rewrite Hg.
  destruct g.
  - exists [], r. split; simpl; rewrite ?app_nil_r; try done; try lia.
    + exists []; by rewrite app_nil_r.
    + right. rewrite Nat.add_0_r. split_and!; [done|done|lia|done|by apply Hgate].
  - destruct (backoff_limit_ops _ Hb) as [Hmul _].
    simpl. destruct (gen_range (backoff_at cfg n) w1) as [j w2] eqn:Hj; simpl. rewrite Hmul.
    rewrite <- (backoff_at_step cfg n).
    specialize (IH (S n)
      (mkTraced (tokio_sleep j w2) (rs ++ [r]) (bs ++ [backoff_at cfg n]) (ds ++ [j]))
      (inc_retries target (pretty (n + 1)%nat) <$> m) ltac:(lia) ltac:(lia)).
    destruct (retry_loop _ _ _ _ _ _ _ _ _) as [o [s' m']].
    destruct IH as (prev & final & [Hres Hbud Hret Hbds (ds' & Hds & Hjit) Hend]).
    exists (r :: prev), final. simpl in *. split; simpl.
    + rewrite Hres. by rewrite <- (assoc_L (++)).
    + lia.
    + by constructor.
    + rewrite Hbds. by rewrite <- (assoc_L (++)).
    + exists (j :: ds'). rewrite Hds, <- (assoc_L (++)). split; [done|].
      intros Hlaws. constructor; [|by apply Hjit].
      pose proof (gen_range_bounds (backoff_at cfg n) w1 ltac:(lia)) as Hr'.
      by rewrite Hj in Hr'.
    + replace (n + S (length prev))%nat with (S n + length prev)%nat by lia. done.
Qed.

Lemma with_retry_shape f cfg dl target w m :
  config_safe cfg →
  let '(o, (s', m')) := with_retry cfg dl target (traced f) (trace_start w, m) in
  ∃ prev final, run_shape cfg dl target 0 (trace_start w) s' m m' o prev final.
Proof.
  intros Hsafe. apply (retry_loop_shape f cfg dl target (max_attempts cfg) 0); [done| |lia].
  by destruct Hsafe.
Qed.

End WithRetryFacts.

(** ** Simulation and invariants of a run *)

Section Simulation.
Context {W1 W2 T E : Type} `{RetryEnv W1, RetryEnv W2}.
Context `{IsRetryable E} `{FromPanic E} `{FromDeadline E}.
Context (R : W1 → W2 → Prop) (f1 : W1 → attempt T E * W1) (f2 : W2 → attempt T E * W2).
Context (f_sim : ∀ w1 w2, R w1 w2 → (f1 w1).1 = (f2 w2).1 ∧ R (f1 w1).2 (f2 w2).2).
Context (now_sim : ∀ w1 w2, R w1 w2 → instant_now w1 = instant_now w2).
Context (sleep_sim : ∀ d w1 w2, R w1 w2 → R (tokio_sleep d w1) (tokio_sleep d w2)).
Context (gen_sim : ∀ b w1 w2, R w1 w2 →
  (gen_range b w1).1 = (gen_range b w2).1 ∧ R (gen_range b w1).2 (gen_range b w2).2).

Lemma deadline_gate_sim dl b w1 w2 :
  R w1 w2 → deadline_gate dl b w1 = deadline_gate dl b w2.
Proof.
  intros HR. unfold deadline_gate, remaining, saturating_duration_since.
  by rewrite (now_sim _ _ HR).
Qed.

Lemma retry_loop_sim cfg dl target fuel n b w1 w2 m :
  R w1 w2 →
  let x := retry_loop cfg dl target f1 fuel n b w1 m in
  let y := retry_loop cfg dl target f2 fuel n b w2 m in
  x.1 = y.1 ∧ R x.2.1 y.2.1 ∧ x.2.2 = y.2.2.
Proof.
  revert n b w1 w2 m. induction fuel as [|fuel IH]; intros n b w1 w2 m HR; [done|].
  cbn [retry_loop]. destruct (f_sim _ _ HR) as [Ha HR1].
  destruct (f1 w1) as [a w1'], (f2 w2) as [a' w2']; simpl in Ha, HR1; subst a'.
  destruct (_ && _); [|done].
  rewrite (deadline_gate_sim _ _ _ _ HR1).
  destruct (deadline_gate dl b w2') as [[]|]; [done| |done].
  destruct (gen_sim b _ _ HR1) as [Hj HR2].
  destruct (gen_range b w1') as [j v1], (gen_range b w2') as [j' v2]; simpl in Hj, HR2; subst j'.
  pose proof (sleep_sim j _ _ HR2).
  destruct (duration_mul b 2); [|done]. by apply IH.
Qed.

End Simulation.

(** The history kept by [Traced] does not change the run. *)
Lemma with_retry_erase {W T E} `{RetryEnv W} `{IsRetryable E} `{FromPanic E} `{FromDeadline E}
    (f : W → attempt T E * W) cfg dl target w m :
  let x := with_retry cfg dl target f (w, m) in
  let y := with_retry cfg dl target (traced f) (trace_start w, m) in
  x.1 = y.1 ∧ x.2.1 = tr_env y.2.1 ∧ x.2.2 = y.2.2.
Proof.
  apply (retry_loop_sim (λ w s, w = tr_env s)).
  - intros w1 s ->. unfold traced. by destruct (f (tr_env s)).
  - by intros w1 s ->.
  - by intros d w1 s ->.
  - intros b w1 s ->. simpl. by destruct (gen_range b (tr_env s)).
  - done.
Qed.

(** Rule for adapters: an invariant [P] of the results so far and the state,
    kept by an attempt and by a sleep, holds of the whole history at the end;
    without a deadline the run returns the last result, every earlier result
    was retryable, and the counters of those retries were incremented. *)
Section RetryRule.
Context {W T E : Type} `{RetryEnv W} `{IsRetryable E} `{FromPanic E} `{FromDeadline E}.
Context (P : list (result T E) → W → Prop) (f : W → attempt T E * W).
Context (P_attempt : ∀ rs w, P rs w → P (rs ++ [catch_panics (f w).1]) (f w).2).
Context (P_sleep : ∀ rs d w, P rs w → P rs (tokio_sleep d w)).
Context (P_gen : ∀ rs b w, P rs w → P rs (gen_range b w).2).

Lemma retry_loop_rule cfg target fuel n b w m rs :
  config_safe cfg → (0 < fuel)%nat → (fuel + n = max_attempts cfg)%nat →
  0 ≤ b ≤ backoff_limit → P rs w →
  ∃ prev final w',
    retry_loop cfg None target f fuel n b w m
    = (Value final, (w', record_retries target n (length prev) m))
    ∧ P (rs ++ prev ++ [final]) w'
    ∧ (n + length prev < max_attempts cfg)%nat
    ∧ Forall (λ r, retryable_error r = true) prev
    ∧ (retryable_error final = true → (n + S (length prev) = max_attempts cfg)%nat).
Proof.
  intros Hsafe. revert n b w m rs. induction fuel as [|fuel IH];
      intros n b w m rs Hpos Hsum Hb HP; [lia|].
  cbn [retry_loop]. specialize (P_attempt _ _ HP) as HP1.
  destruct (f w) as [a w1]; simpl in HP1. set (r := catch_panics a) in *.
  destruct (retryable_error r) eqn:Hr, (Nat.ltb_spec (n + 1) (max_attempts cfg)) as [Hlt|Hge];
      simpl.
  2-4: exists [], r, w1; split_and!; simpl; solve [done | lia | congruence].
  pose proof (P_gen _ b _ HP1) as HP2. destruct (gen_range b w1) as [j w2]; simpl in HP2.
  pose proof (P_sleep _ j _ HP2) as HP3.
  destruct (backoff_limit_ops _ Hb) as [-> _].
  edestruct (IH (S n) (Z.min (b * 2) (max_backoff cfg)) (tokio_sleep j w2)
    (inc_retries target (pretty (n + 1)%nat) <$> m) (rs ++ [r]))
    as (prev & final & w' & -> & HP' & Hlen & Hall & Hmax);
        [lia|lia|by apply backoff_step_range|done|].
  exists (r :: prev), final, w'. split_and!; simpl; [done| |lia|by constructor|].
  - by rewrite <- (assoc_L (++)) in HP'.
  - intros Hf. specialize (Hmax Hf). lia.
Qed.

Lemma with_retry_rule cfg target w m :
  config_safe cfg → P [] w →
  ∃ prev final w',
    with_retry cfg None target f (w, m)
    = (Value final, (w', record_retries target 0 (length prev) m))
    ∧ P (prev ++ [final]) w'
    ∧ (length prev < max_attempts cfg)%nat
    ∧ Forall (λ r, retryable_error r = true) prev
    ∧ (retryable_error final = true → (S (length prev) = max_attempts cfg)%nat).
Proof.
  intros Hsafe HP.
  apply (retry_loop_rule cfg target (max_attempts cfg) 0 (initial_backoff cfg) w m []); try done.
  - by destruct Hsafe.
  - by destruct Hsafe as (_ & ? & _).
Qed.

End RetryRule.

(** ** Recorded retries *)

Lemma pretty_nat_inj (a b : nat) : pretty a = pretty b → a = b.
Proof. apply (inj pretty). Qed.

Lemma record_retries_Some target n k (a : AdapterMetrics) :
  ∃ a', record_retries target n k (Some a) = Some a'
  ∧ deadline_exceeded_total a' = deadline_exceeded_total a
  ∧ saga_compensation_outcome_total a' = saga_compensation_outcome_total a
  ∧ ∀ i, counter_get [target; pretty i] (retries_total a')
         = counter_get [target; pretty i] (retries_total a)
           + (if decide (n < i ≤ n + k)%nat then 1 else 0).
Proof.
  revert n a. induction k as [|k IH]; intros n a; simpl.
  - exists a. split_and!; [done..|]. intros i. rewrite decide_False by lia. lia.
  - destruct (IH (S n) (inc_retries target (pretty (n + 1)%nat) a)) as (a' & -> & Hd & Hs & Hi).
    exists a'. split_and!; [done..|]. intros i. rewrite Hi. simpl. unfold counter_inc.
    destruct (decide (i = n + 1)%nat) as [->|Hne].
    + rewrite counter_get_inc_by.
      rewrite decide_False by lia. rewrite decide_True by lia. lia.
    + rewrite counter_get_inc_by_ne; [|intros [= Heq%pretty_nat_inj]; lia].
      repeat case_decide; lia.
Qed.

(** ** Properties *)

Section Properties.
Context {W T E : Type} `{RetryEnv W} `{IsRetryable E} `{FromPanic E} `{FromDeadline E}.
Implicit Types (f : W → attempt T E * W) (m : option AdapterMetrics).

(** C1. [with_retry] never panics when its backoff arithmetic stays in range.
    It makes at least one and at most [max_attempts] attempts; every attempt
    before the last ended in a retryable error; it returns the result of the
    last attempt, which is final or the [max_attempts]-th, or else the deadline
    error when an attempt that could be retried was refused by the deadline
    (the history [Traced] records is that of the plain run). *)
Theorem with_retry_outcome f cfg dl target w m :
  config_safe cfg →
  ∃ o s' prev final m',
    with_retry cfg dl target (traced f) (trace_start w, m) = (Value o, (s', m'))
    ∧ with_retry cfg dl target f (w, m) = (Value o, (tr_env s', m'))
    ∧ tr_results s' = prev ++ [final]
    ∧ (length prev < max_attempts cfg)%nat
    ∧ Forall (λ r, retryable_error r = true) prev
    ∧ ((o = final ∧ (retryable_error final = true → S (length prev) = max_attempts cfg))
       ∨ (o = Err from_deadline ∧ retryable_error final = true ∧ dl ≠ None)).
Proof.
  intros Hsafe.
  pose proof (with_retry_shape f cfg dl target w m Hsafe) as Hshape.
  pose proof (with_retry_erase f cfg dl target w m) as (Ho & Hw & Hm).
  destruct (with_retry cfg dl target f (w, m)) as [o1 [w1 m1]].
  destruct (with_retry _ _ _ (traced f) _) as [o [s' m']]; simpl in *; subst.
  destruct Hshape as (prev & final & [Hres Hbud Hret _ _ Hend]).
  destruct Hend as [(-> & _ & Hmax) | (-> & Hr & _ & _ & d & left & -> & _)].
  - exists final, s', prev, final, m'. split_and!; try done. left. split; [done|].
    intros Hr. specialize (Hmax Hr). lia.
  - exists (Err from_deadline), s', prev, final, m'. split_and!; try done. by right.
Qed.

(** The retry counter: with metrics attached, the series of attempt [i]
    (for the call's target) grows by 1 exactly for [1 <= i <= k], where [k] is
    the number of further attempts made plus one when the next attempt was
    refused by the deadline; the deadline counter grows by 1 exactly in that
    case, and the saga counters are untouched. *)
Theorem with_retry_metrics f cfg dl target w (a : AdapterMetrics) :
  config_safe cfg →
  ∃ o s' a' refused,
    with_retry cfg dl target (traced f) (trace_start w, Some a) = (Value o, (s', Some a'))
    ∧ (refused = true → o = Err from_deadline)
    ∧ saga_compensation_outcome_total a' = saga_compensation_outcome_total a
    ∧ counter_get [target] (deadline_exceeded_total a')
      = counter_get [target] (deadline_exceeded_total a) + (if refused : bool then 1 else 0)
    ∧ ∀ i, counter_get [target; pretty i] (retries_total a')
        = counter_get [target; pretty i] (retries_total a)
          + (if decide (1 ≤ i ∧ i + 1 ≤ length (tr_results s') + (if refused then 1 else 0))%nat
             then 1 else 0).
Proof.
  intros Hsafe.
  pose proof (with_retry_shape f cfg dl target w (Some a) Hsafe) as Hshape.
  destruct (with_retry _ _ _ (traced f) _) as [o [s' m']].
  destruct Hshape as (prev & final & [Hres _ _ _ _ Hend]). simpl in Hres.
  assert (length (tr_results s') = S (length prev)) as Hlen
    by (rewrite Hres, length_app; simpl; lia).
  destruct Hend as [(-> & -> & _) | (-> & _ & _ & -> & _)].
  - destruct (record_retries_Some target 0 (length prev) a) as (a' & Ha & Hd & Hs & Hi).
    rewrite Ha. exists final, s', a', false. split_and!; [done|done|done|rewrite Hd; lia|].
    intros i. rewrite Hi. repeat case_decide; lia.
  - destruct (record_retries_Some target 0 (S (length prev)) a) as (a' & Ha & Hd & Hs & Hi).
    rewrite Ha. simpl. exists (Err from_deadline), s', (inc_deadline_exceeded target a'), true.
    split_and!; [done|done|done| |].
    + simpl. unfold counter_inc. rewrite counter_get_inc_by, Hd. done.
    + intros i. simpl. rewrite Hi. repeat case_decide; lia.
Qed.

(** C24. The sleeps: before the [k]-th retry the run sleeps a time drawn from
    [0 ..= backoff_at cfg k], and that bound is [min (initial * 2^k) max]. *)
Theorem with_retry_backoff f cfg dl target w m :
  config_safe cfg → RetryEnvLaws W → initial_backoff cfg ≤ max_backoff cfg →
  ∃ o s' m' n,
    with_retry cfg dl target (traced f) (trace_start w, m) = (o, (s', m'))
    ∧ (n < max_attempts cfg)%nat
    ∧ tr_bounds s' = map (backoff_at cfg) (seq 0 n)
    ∧ Forall2 (λ d b, 0 ≤ d ≤ b) (tr_sleeps s') (tr_bounds s')
    ∧ ∀ k, backoff_at cfg k = Z.min (initial_backoff cfg * 2 ^ Z.of_nat k) (max_backoff cfg).
Proof.
  intros Hsafe Hlaws Hle.
  pose proof (with_retry_shape f cfg dl target w m Hsafe) as Hshape.
  destruct (with_retry _ _ _ (traced f) _) as [o [s' m']].
  destruct Hshape as (prev & final & [_ Hbud _ Hbds (ds & Hds & Hjit) _]); simpl in *.
  exists o, s', m', (length prev). split_and!; [done|done|done| |].
  - rewrite Hds, Hbds. by apply Hjit.
  - destruct Hsafe as (_ & Hi & Hm).
    induction k as [|k IH]; [simpl; rewrite Z.mul_1_r; simpl; lia|].
    rewrite backoff_at_step, IH, Nat2Z.inj_succ, Z.pow_succ_r by lia.
    pose proof (Z.pow_pos_nonneg 2 (Z.of_nat k) ltac:(lia) ltac:(lia)). nia.
Qed.

(** A refused retry: when the first attempt fails retryably and less than
    the next backoff plus the 200 ms floor is left, the call makes no further
    attempt and returns the deadline error at once, without sleeping.  The
    retry counter of attempt 1 has already been incremented, although that
    retry is never made. *)
Theorem with_retry_refused f cfg d target w (a : AdapterMetrics) e w1 left :
  config_safe cfg → (1 < max_attempts cfg)%nat →
  f w = (FutureReturned (Err e), w1) → is_retryable e = true →
  remaining d w1 = Some left → left < initial_backoff cfg + ADAPTER_FLOOR →
  with_retry cfg (Some d) target f (w, Some a)
  = (Value (Err from_deadline),
     (w1, Some (inc_deadline_exceeded target (inc_retries target "1" a)))).
Proof.
  intros Hsafe Hmax Hf He Hrem Hlt. unfold with_retry.
  destruct (max_attempts cfg) as [|[|fuel]] eqn:Hm; [lia|lia|]. cbn [retry_loop].
  rewrite Hf; cbn. rewrite He, Hm. cbn.
  destruct Hsafe as (_ & Hi & _). destruct (backoff_limit_ops _ Hi) as [_ Hadd].
  rewrite Hadd, Hrem. by rewrite (proj2 (Z.ltb_lt _ _) Hlt).
Qed.

(** Deadline budget: right after [from_remaining r default] the time left
    is [min (r - 50 ms) default], never negative and never above [default], and
    the context counts as too close exactly when that is below 200 ms. *)
Theorem from_remaining_budget (r adapter_default : Duration) (w : W) :
  0 ≤ adapter_default →
  let c := from_remaining r adapter_default w in
  let left := Z.min (Z.max 0 (r - PROPAGATION_MARGIN)) adapter_default in
  remaining c w = Some left ∧ 0 ≤ left ≤ adapter_default
  ∧ (is_too_close c w = true ↔ left < ADAPTER_FLOOR)
  ∧ is_too_close deadline_none w = false.
Proof.
  intros Hd. unfold remaining, is_too_close, saturating_duration_since, duration_saturating_sub.
  simpl. unfold duration_saturating_sub.
  assert (0 ≤ PROPAGATION_MARGIN) by (vm_compute; discriminate).
  set (left := Z.min _ adapter_default).
  assert (0 ≤ left ≤ adapter_default) by lia.
  replace (Z.max 0 (instant_now w + left - instant_now w)) with left by lia.
  split_and!; [done|lia|lia|apply Z.ltb_lt|done].
Qed.

End Properties.

(** The whole cleanup budget: with [CLEANUP_RETRY] a call sleeps at most
    50 + 100 + 200 + 400 = 750 ms in total, whatever the operation does. *)
Theorem cleanup_total_sleep {W T E} `{RetryEnv W} `{IsRetryable E} `{FromPanic E}
    `{FromDeadline E} (f : W → attempt T E * W) dl target w m :
  RetryEnvLaws W →
  let '(_, (s', _)) := with_retry CLEANUP_RETRY dl target (traced f) (trace_start w, m) in
  foldr Z.add 0 (tr_sleeps s') ≤ from_millis 750.
Proof.
  intros Hlaws.
  assert (Hsafe : config_safe CLEANUP_RETRY)
    by (pose proof shipped_configs_safe as Hall; rewrite Forall_forall in Hall; apply Hall;
        set_solver).
  pose proof (with_retry_shape f _ dl target w m Hsafe) as Hshape.
  destruct (with_retry _ _ _ (traced f) _) as [o [s' m']].
  destruct Hshape as (prev & final & [_ Hbud _ _ (ds & Hds & Hjit) _]); simpl in *.
  specialize (Hjit Hlaws). rewrite Hds.
  assert (foldr Z.add 0 ds ≤ foldr Z.add 0 (map (backoff_at CLEANUP_RETRY) (seq 0 (length prev))))
    as Hsum by (clear -Hjit; induction Hjit; simpl; lia).
  etrans; [exact Hsum|]. clear -Hbud.
  do 5 (destruct prev as [|? prev]; [vm_compute; discriminate|]). simpl in Hbud. lia.
Qed.

(** ** The properties' hypotheses at concrete inputs *)
Section Witness.
Local Existing Instance Clock.env.
Local Existing Instance Clock.laws.

(** An operation that takes 10 ms and fails transiently before time 100 ms. *)
Definition flaky (w : Z) : attempt unit VmError * Z :=
  (FutureReturned (if w <? from_millis 100 then Err (VmErr.Transient "down") else Ok tt),
   w + from_millis 10).

Lemma default_retry_safe : config_safe DEFAULT_RETRY.
Proof. repeat split; simpl; try lia; vm_compute; discriminate. Qed.

Lemma with_retry_outcome_witness :
  config_safe DEFAULT_RETRY ∧ ∃ o s' prev final m',
    with_retry DEFAULT_RETRY None "vm" (traced flaky) (trace_start 0, None) = (Value o, (s', m'))
    ∧ with_retry DEFAULT_RETRY None "vm" flaky (0, None) = (Value o, (tr_env s', m'))
    ∧ tr_results s' = prev ++ [final]
    ∧ (length prev < 3)%nat
    ∧ Forall (λ r, retryable_error r = true) prev
    ∧ ((o = final ∧ (retryable_error final = true → S (length prev) = 3%nat))
       ∨ (o = Err from_deadline ∧ retryable_error final = true
           ∧ (None : option DeadlineContext) ≠ None)).
Proof.
  split; [exact default_retry_safe|].
  exact (with_retry_outcome flaky DEFAULT_RETRY None "vm" 0 None default_retry_safe).
Defined.

Lemma with_retry_metrics_witness :
  config_safe DEFAULT_RETRY ∧ ∃ o s' a' refused,
    with_retry DEFAULT_RETRY None "vm" (traced flaky) (trace_start 0, Some empty_metrics)
    = (Value o, (s', Some a'))
    ∧ (refused = true → o = Err from_deadline)
    ∧ saga_compensation_outcome_total a' = saga_compensation_outcome_total empty_metrics
    ∧ counter_get ["vm"%string] (deadline_exceeded_total a')
      = counter_get ["vm"%string] (deadline_exceeded_total empty_metrics)
        + (if refused : bool then 1 else 0)
    ∧ ∀ i, counter_get ["vm"%string; pretty i] (retries_total a')
        = counter_get ["vm"%string; pretty i] (retries_total empty_metrics)
          + (if decide (1 ≤ i ∧ i + 1 ≤ length (tr_results s') + (if refused then 1 else 0))%nat
             then 1 else 0).
Proof.
  split; [exact default_retry_safe|].
  exact (with_retry_metrics flaky DEFAULT_RETRY None "vm" 0 empty_metrics default_retry_safe).
Defined.

Lemma with_retry_backoff_witness :
  config_safe DEFAULT_RETRY ∧ ∃ o s' m' n,
    with_retry DEFAULT_RETRY None "vm" (traced flaky) (trace_start 0, None) = (o, (s', m'))
    ∧ (n < 3)%nat
    ∧ tr_bounds s' = map (backoff_at DEFAULT_RETRY) (seq 0 n)
    ∧ Forall2 (λ d b, 0 ≤ d ≤ b) (tr_sleeps s') (tr_bounds s')
    ∧ ∀ k, backoff_at DEFAULT_RETRY k = Z.min (from_millis 50 * 2 ^ Z.of_nat k) (from_secs 2).
Proof.
  split; [exact default_retry_safe|].
  apply (with_retry_backoff flaky DEFAULT_RETRY None "vm" 0 None default_retry_safe _).
  vm_compute. discriminate.
Defined.

(** 240 ms are left after the first attempt: less than 50 ms + 200 ms. *)
Lemma with_retry_refused_witness :
  with_retry DEFAULT_RETRY (Some (mkDeadline (Some (from_millis 250)))) "vm" flaky
    (0, Some empty_metrics)
  = (Value (Err VmErr.DeadlineExceeded),
     (from_millis 10, Some (inc_deadline_exceeded "vm" (inc_retries "vm" "1" empty_metrics)))).
Proof.
  apply (with_retry_refused flaky DEFAULT_RETRY (mkDeadline (Some (from_millis 250))) "vm" 0
    empty_metrics (VmErr.Transient "down") (from_millis 10) (from_millis 240));
    [exact default_retry_safe|simpl; lia|reflexivity|reflexivity|reflexivity|vm_compute;
        reflexivity].
Defined.

Lemma from_remaining_budget_witness :
  0 ≤ from_secs 5 ∧
  remaining (from_remaining (from_secs 1) (from_secs 5) 0) 0 = Some (from_millis 950)
  ∧ (0 ≤ from_millis 950 ≤ from_secs 5)
  ∧ (is_too_close (from_remaining (from_secs 1) (from_secs 5) 0) 0 = true
     ↔ from_millis 950 < ADAPTER_FLOOR)
  ∧ is_too_close deadline_none 0 = false.
Proof.
  assert (H0 : 0 ≤ from_secs 5) by (vm_compute; discriminate).
  split; [exact H0|exact (from_remaining_budget (from_secs 1) (from_secs 5) 0 H0)].
Defined.

Lemma cleanup_total_sleep_witness :
  RetryEnvLaws Z ∧
  (let '(_, (s', _)) := with_retry CLEANUP_RETRY None "vm" (traced flaky) (trace_start 0, None) in
   foldr Z.add 0 (tr_sleeps s') ≤ from_millis 750).
Proof. split; [exact Clock.laws|exact (cleanup_total_sleep flaky None "vm" 0 None Clock.laws)].
    Defined.

End Witness.
