(* ===== verification/RetryReference.v ===== *)
(** * The retry combinator against a closed form

    [with_retry] of [crates/engagement-hub-adapters/src/policies.rs] is a loop
    that threads a clock, a backoff and a counter.  Here an operation is given
    by a schedule: how its [i]-th attempt ends, how long it takes, and which
    jitter is drawn after it.  For such an operation the outcome has a closed
    form: it is decided at the first index where the code has a reason to stop.
    The loop is proved equal to it, with the time it ends and its counters. *)
From Stdlib Require Import ZArith Lia.
From stdpp Require Import base list gmap strings pretty.
From S2P Require Import Prelude Errors Saga Policies.

(** ** Schedules *)

Record Schedule (T E : Type) := mkSchedule {
  answer : nat → attempt T E;
  duration : nat → Duration;
  jitter : nat → Duration → Duration
}.
Arguments answer {T E}.
Arguments duration {T E}.
Arguments jitter {T E}.

(** The environment of a schedule: a clock, the calls and the draws made. *)
Record Sched := mkSched { now : Z; calls : nat; draws : nat }.

Section Reference.
Context {T E : Type} `{IsRetryable E} `{FromPanic E} `{FromDeadline E}.
Context (sch : Schedule T E) (cfg : RetryConfig) (dl : option DeadlineContext) (t0 : Z).

Local Instance sched_env : RetryEnv Sched := {|
  instant_now := now;
  tokio_sleep d w := mkSched (now w + d) (calls w) (draws w);
  gen_range b w := (jitter sch (draws w) b, mkSched (now w) (calls w) (S (draws w)))
|}.

Definition scheduled (w : Sched) : attempt T E * Sched :=
  (answer sch (calls w), mkSched (now w + duration sch (calls w)) (S (calls w)) (draws w)).

(** ** The closed form *)

Definition attempt_result (i : nat) : result T E := catch_panics (answer sch i).

(** When the [i]-th attempt starts and ends if it is made. *)
Fixpoint starts_at (i : nat) : Z :=
  match i with
  | O => t0
  | S k => starts_at k + duration sch k + jitter sch k (backoff_at cfg k)
  end.
Definition ends_at (i : nat) : Z := starts_at i + duration sch i.

(** Too little is left of the deadline for another backoff and the floor. *)
Definition refused (i : nat) : bool :=
  match dl with
  | Some {| deadline := Some d |} => Z.max 0 (d - ends_at i) <? backoff_at cfg i + ADAPTER_FLOOR
  | _ => false
  end.

Definition exhausted (i : nat) : bool := (max_attempts cfg <=? i + 1)%nat.
Definition stops (i : nat) : bool :=
  negb (retryable_error (attempt_result i)) || exhausted i || refused i.

(** The first of the possible attempts after which the code stops. *)
Definition last_index : nat :=
  default 0%nat (fst <$> list_find (λ i, stops i = true) (seq 0 (max_attempts cfg))).

Definition was_refused : bool :=
  retryable_error (attempt_result last_index) && negb (exhausted last_index).

Definition reference_result : result T E :=
  if was_refused then Err from_deadline else attempt_result last_index.

(** One retry is counted per further attempt, and one for a refused retry. *)
Definition reference_metrics (target : string) (m : option AdapterMetrics)
    : option AdapterMetrics :=
  if was_refused
  then inc_deadline_exceeded target <$> record_retries target 0 (S last_index) m
  else record_retries target 0 last_index m.

(** ** The loop computes it *)

Definition state_at (i : nat) : Sched := mkSched (starts_at i) i i.
Definition state_after (i : nat) : Sched := mkSched (ends_at i) (S i) i.

Lemma gate_refused i :
  config_safe cfg → deadline_gate dl (backoff_at cfg i) (state_after i) = Some (refused i).
Proof.
  intros Hsafe. unfold deadline_gate, refused. destruct dl as [[[d|]]|]; [| |done];
    destruct (backoff_limit_ops _ (backoff_at_range cfg i Hsafe)) as [_ ->]; reflexivity.
Qed.

Lemma loop_reference target fuel n last m :
  config_safe cfg → (fuel + n = max_attempts cfg)%nat → (n ≤ last < max_attempts cfg)%nat →
  (∀ i, (n ≤ i < last)%nat → stops i = false) → stops last = true →
  let refused_here := retryable_error (attempt_result last) && negb (exhausted last) in
  retry_loop cfg dl target scheduled fuel n (backoff_at cfg n) (state_at n) m
  = (Value (if refused_here then Err from_deadline else attempt_result last),
     (state_after last,
      if refused_here then inc_deadline_exceeded target <$> record_retries target n (S (last - n)) m
      else record_retries target n (last - n) m)).
Proof.
  intros Hsafe. revert n m. induction fuel as [|fuel IH]; intros n m Hsum Hlast Hbefore Hstop;
      [lia|].
  cbn [retry_loop scheduled state_at calls now draws].
  fold (attempt_result n). change (mkSched _ (S n) n) with (state_after n).
  assert (Hcase : n = last ∨ (n < last)%nat) by lia.
  destruct Hcase as [<-|Hlt].
  - rewrite Nat.sub_diag. unfold stops, exhausted in Hstop |- *.
    destruct (retryable_error (attempt_result n)) eqn:Hr; cbn [andb]; [|done].
    destruct (Nat.ltb_spec (n + 1) (max_attempts cfg)) as [Hl|Hl].
    + replace (max_attempts cfg <=? n + 1)%nat with false in * by (symmetry; apply Nat.leb_gt; lia).
      cbn [negb orb andb] in Hstop |- *. by rewrite gate_refused, Hstop.
    + replace (max_attempts cfg <=? n + 1)%nat with true by (symmetry; apply Nat.leb_le; lia). done.
  - assert (Hn : stops n = false) by (apply Hbefore; lia).
    unfold stops, exhausted in Hn. apply orb_false_elim in Hn as [[Hr He]%orb_false_elim Href].
    apply negb_false_iff in Hr. rewrite Hr. apply Nat.leb_gt in He.
    replace (n + 1 <? max_attempts cfg)%nat with true by (symmetry; apply Nat.ltb_lt; lia).
    cbn [andb]. rewrite gate_refused, Href by done. cbn [gen_range sched_env tokio_sleep].
    destruct (backoff_limit_ops _ (backoff_at_range cfg n Hsafe)) as [-> _].
    rewrite <- (backoff_at_step cfg n).
    change (mkSched _ _ _) with (state_at (S n)).
    specialize (IH (S n) (inc_retries target (pretty (n + 1)%nat) <$> m) ltac:(lia) ltac:(lia)).
    cbv zeta in IH |- *. rewrite IH; [|intros i Hi; apply Hbefore; lia|done].
    replace (last - n)%nat with (S (last - S n)) by lia. done.
Qed.

(** The first index is the only one with nothing to stop for before it. *)
Lemma last_index_spec :
  (0 < max_attempts cfg)%nat →
  (last_index < max_attempts cfg)%nat ∧ stops last_index = true
  ∧ ∀ i, (i < last_index)%nat → stops i = false.
Proof.
  intros Hpos. unfold last_index.
  destruct (list_find _ _) as [[i x]|] eqn:Hf; simpl.
  - apply list_find_Some in Hf as (Hi & Hx & Hb). apply lookup_seq in Hi as [-> Hi].
    split_and!; [lia|done|]. intros j Hj. simpl in *.
    destruct (stops j) eqn:Hs; [|done]. destruct (Hb j j); [apply lookup_seq; lia|lia|done].
  - exfalso. apply list_find_None in Hf. rewrite Forall_forall in Hf.
    apply (Hf (max_attempts cfg - 1)%nat); [apply elem_of_seq; lia|].
    unfold stops, exhausted.
    replace (max_attempts cfg <=? _)%nat with true by (symmetry; apply Nat.leb_le; lia).
    by rewrite orb_true_r.
Qed.

(** C2. [with_retry] equals its closed form on every schedule of attempts:
    the call ends after the first attempt that succeeds, fails permanently, is
    the [max_attempts]-th, or leaves less of the deadline than the next backoff
    plus the 200 ms floor.  In that last case only the deadline error is
    returned; otherwise the result of that attempt.  It ends when that attempt
    ends, and the counters are those of the attempts made, plus a retry and a
    deadline for a refused one. *)
Theorem with_retry_closed_form target m :
  config_safe cfg →
  with_retry cfg dl target scheduled (mkSched t0 0 0, m)
  = (Value reference_result, (state_after last_index, reference_metrics target m)).
Proof.
  intros Hsafe. destruct (last_index_spec (proj1 Hsafe)) as (Hl & Hs & Hb).
  unfold with_retry. change (mkSched t0 0 0) with (state_at 0).
  change (initial_backoff cfg) with (backoff_at cfg 0).
  rewrite (loop_reference target (max_attempts cfg) 0 last_index m Hsafe ltac:(lia) ltac:(lia));
    [by rewrite Nat.sub_0_r|intros i Hi; apply Hb; lia|done].
Qed.

End Reference.

(** ** A schedule: fails after 10, 20 and 30 ms, with full jitter *)
Section Witness.

Definition slow : Schedule unit VmError := {|
  answer i := if (i <? 3)%nat then FutureReturned (Err (VmErr.Transient "down"))
              else FutureReturned (Ok tt);
  duration i := from_millis (10 * (Z.of_nat i + 1));
  jitter _ b := b
|}.

(** A deadline 400 ms away lets one retry pass and refuses the second. *)
Lemma with_retry_closed_form_witness :
  config_safe DEFAULT_RETRY ∧
  with_retry (H := sched_env slow) DEFAULT_RETRY (Some (mkDeadline (Some (from_millis 370)))) "vm"
    (scheduled slow) (mkSched 0 0 0, None)
  = (Value (Err VmErr.DeadlineExceeded), (mkSched (from_millis 80) 2 1, None)).
Proof.
  split; [exact default_retry_safe|].
  etransitivity;
    [exact (with_retry_closed_form slow DEFAULT_RETRY
       (Some (mkDeadline (Some (from_millis 370)))) 0 "vm" None default_retry_safe)|].
  vm_compute. reflexivity.
Defined.

End Witness.
