(* ===== verification/PoliciesTests.v ===== *)
(** * The unit tests of [policies.rs]

    The closures of the tests count their calls in an atomic counter; the
    world is the clock, the counter and the metrics handle.  The tests pass on
    every clock: none of them depends on how long a sleep takes. *)
From Stdlib Require Import ZArith Lia.
From stdpp Require Import base list gmap strings pretty.
From S2P Require Import Prelude Errors Uuids UnitTest Saga Prometheus Policies.

(** The error type of the tests. *)
Inductive E := Transient | Permanent | Panic | Deadline.
#[export] Instance E_eq_dec : EqDecision E.
Proof. solve_decision. Defined.
#[export] Instance E_is_retryable : IsRetryable E := λ e,
  match e with Transient => true | _ => false end.
#[export] Instance E_from_panic : FromPanic E := Panic.
#[export] Instance E_from_deadline : FromDeadline E := Deadline.
#[export] Instance result_eq_dec {T F} `{!EqDecision T, !EqDecision F} : EqDecision (result T F).
Proof. solve_decision. Defined.

Definition no_sleep_config (max : nat) : RetryConfig := mkRetryConfig max 0 0.

Section Tests.
Context {W : Type} `{!RetryEnv W}.

(** The clock and the [AtomicU32] of the test. *)
Local Abbreviation World := (W * nat)%type.

(** [n.fetch_add(1)] inside the future, then its result. *)
Definition counted (answer : nat → result Z E) (w : World) : attempt Z E * World :=
  (FutureReturned (answer w.2), (w.1, S w.2)).

(** [with_retry(..).await]; metrics are returned next to the result. *)
Definition run_retry (cfg : RetryConfig) (dl : option DeadlineContext) (target : string)
    (m : option AdapterMetrics) (f : World → attempt Z E * World)
  : io World (result Z E * option AdapterMetrics) := λ w,
  let '(o, (w', m')) := with_retry cfg dl target f (w, m) in
  (match o with Value r => Value (r, m') | Panicked => Panicked end, w').

(** [Arc::new(AtomicU32::new(0))] and [n.load(Ordering::SeqCst)]. *)
Definition new_counter : io World unit := λ w, (Value tt, (w.1, 0%nat)).
Definition load : io World nat := λ w, (Value w.2, w).

(** [DeadlineContext::from_remaining] and [is_too_close] read the clock. *)
Definition make_deadline (remaining adapter_default : Duration) : io World DeadlineContext := λ w,
  (Value (from_remaining remaining adapter_default w), w).
Definition too_close (c : DeadlineContext) : io World bool := λ w, (Value (is_too_close c w), w).

Definition success_on_first_attempt : test World :=
  do _ <- new_counter ;;
  do r <- run_retry (no_sleep_config 3) None "t" None (counted (λ _, Ok 42)) ;;
  do _ <- assert_eq r.1 (Ok 42) ;;
  do n <- load ;;
  assert_eq n 1%nat.

Definition retries_transient_then_succeeds : test World :=
  do _ <- new_counter ;;
  do r <- run_retry (no_sleep_config 3) None "t" None
            (counted (λ count, if (count <? 2)%nat then Err Transient else Ok 1)) ;;
  do _ <- assert_eq r.1 (Ok 1) ;;
  do n <- load ;;
  assert_eq n 3%nat.

Definition no_retry_on_permanent : test World :=
  do _ <- new_counter ;;
  do r <- run_retry (no_sleep_config 3) None "t" None (counted (λ _, Err Permanent)) ;;
  do _ <- assert_eq r.1 (Err Permanent) ;;
  do n <- load ;;
  assert_eq n 1%nat.

Definition exhausts_all_attempts_on_persistent_transient : test World :=
  do _ <- new_counter ;;
  do r <- run_retry (no_sleep_config 3) None "t" None (counted (λ _, Err Transient)) ;;
  do _ <- assert_eq r.1 (Err Transient) ;;
  do n <- load ;;
  assert_eq n 3%nat.

Definition catches_panic_and_returns_from_panic : test World :=
  do r <- run_retry (no_sleep_config 1) None "t" None (λ w, (PanicInPoll, w)) ;;
  assert_eq r.1 (Err Panic).

Definition records_retry_metrics `{P : PrometheusLib} : test World :=
  do m <- adapter_metrics_for_test ;;
  do _ <- new_counter ;;
  do r <- run_retry (no_sleep_config 3) None "reg" (Some m) (counted (λ _, Err Transient)) ;;
  do m <- unwrap_some r.2 ;;
  do _ <- assert_eq (counter_get ["reg"; "1"]%string (retries_total m)) 1 ;;
  assert_eq (counter_get ["reg"; "2"]%string (retries_total m)) 1.

Definition deadline_too_close_when_remaining_less_than_200ms : test World :=
  do ctx <- make_deadline (from_millis 100) (from_secs 5) ;;
  do b <- too_close ctx ;;
  assert_ b.

Definition deadline_not_too_close_when_remaining_generous : test World :=
  do ctx <- make_deadline (from_secs 10) (from_secs 5) ;;
  do b <- too_close ctx ;;
  assert_ (negb b).

Definition deadline_none_never_too_close : test World :=
  do b <- too_close deadline_none ;;
  assert_ (negb b).

Definition write_retry_is_two_attempts : test World := assert_eq (max_attempts WRITE_RETRY) 2%nat.
Definition cleanup_retry_is_five_attempts : test World :=
  assert_eq (max_attempts CLEANUP_RETRY) 5%nat.

Definition catches_panic_in_synchronous_closure_prefix : test World :=
  do r <- run_retry (no_sleep_config 1) None "t" None (λ w, (PanicInCall, w)) ;;
  assert_eq r.1 (Err Panic).

Definition deadline_too_close_short_circuits_before_next_attempt : test World :=
  do ctx <- make_deadline (from_millis 100) (from_secs 5) ;;
  do _ <- new_counter ;;
  do r <- run_retry (no_sleep_config 3) (Some ctx) "t" None (counted (λ _, Err Transient)) ;;
  do n <- load ;;
  do _ <- assert_eq n 1%nat ;;
  assert_eq r.1 (Err Deadline).

Definition deadline_gate_considers_next_backoff : test World :=
  do ctx <- make_deadline (from_millis 250) (from_secs 5) ;;
  do _ <- new_counter ;;
  do r <- run_retry (mkRetryConfig 3 (from_millis 50) (from_secs 2)) (Some ctx) "t" None
            (counted (λ _, Err Transient)) ;;
  do n <- load ;;
  do _ <- assert_eq n 1%nat ;;
  assert_eq r.1 (Err Deadline).

Definition policies_tests `{P : PrometheusLib} : list (test World) :=
  [success_on_first_attempt; retries_transient_then_succeeds; no_retry_on_permanent;
   exhausts_all_attempts_on_persistent_transient; catches_panic_and_returns_from_panic;
   records_retry_metrics; deadline_too_close_when_remaining_less_than_200ms;
   deadline_not_too_close_when_remaining_generous; deadline_none_never_too_close;
   write_retry_is_two_attempts; cleanup_retry_is_five_attempts;
   catches_panic_in_synchronous_closure_prefix;
   deadline_too_close_short_circuits_before_next_attempt; deadline_gate_considers_next_backoff].

(** ** They pass *)

Local Ltac run_policy :=
  unfold passes; hnf;
  repeat (progress cbn -[counter_get inc_retries bool_decide]
          || (progress unfold run_retry, with_retry, assert_eq, from_remaining, is_too_close)
          || match goal with
             | |- context [duration_mul ?a ?b] =>
                 let v := eval vm_compute in (duration_mul a b) in change (duration_mul a b) with v
             | |- context [duration_add ?a ?b] =>
                 let v := eval vm_compute in (duration_add a b) in change (duration_add a b) with v
             | |- context [@gen_range W _ ?b ?v] => destruct (@gen_range W _ b v) as [? ?]
             end).

(** Where a retry sleeps, whatever is drawn and however long it takes. *)
Lemma retries_pass `{P : PrometheusLib} r w :
  adapter_metrics_new prom_registry_new = Ok (empty_metrics, r) →
  Forall (λ t, passes t w = true)
    [retries_transient_then_succeeds; exhausts_all_attempts_on_persistent_transient;
     records_retry_metrics].
Proof.
  intros Hm. destruct w as [w k]. repeat constructor.
  3: unfold records_retry_metrics, adapter_metrics_for_test; rewrite Hm.
  all: run_policy; vm_compute; reflexivity.
Qed.

(** The budget left right after a deadline was made. *)
Lemma deadlines_pass w :
  Forall (λ t, passes t w = true)
    [deadline_too_close_when_remaining_less_than_200ms;
     deadline_not_too_close_when_remaining_generous;
     deadline_too_close_short_circuits_before_next_attempt; deadline_gate_considers_next_backoff].
Proof.
  destruct w as [w k].
  assert (Hleft : ∀ b n, saturating_duration_since (instant_now w + b) (w, n : nat) = Z.max 0 b)
    by (intros b n; unfold saturating_duration_since; simpl; lia).
  repeat constructor; run_policy; rewrite Hleft; vm_compute; reflexivity.
Qed.

(** The retry combinator and the deadlines pass their 14 unit tests
    ([mod tests] of [policies.rs]) on every clock and timer and for every
    jitter: the number of attempts, which errors are retried, that both panic
    stages are caught, the retry counter, and the two deadline gates. *)
Theorem policies_tests_pass `{PL : PrometheusLaws} w :
  Forall (λ t, passes t w = true) policies_tests.
Proof.
  destruct (adapter_metrics_registers) as [r Hr].
  pose proof (retries_pass r w Hr) as Hretries. pose proof (deadlines_pass w) as Hdeadlines.
  repeat match goal with H : Forall _ (_ :: _) |- _ => apply Forall_cons in H as [? H] end.
  destruct w as [w k].
  repeat (constructor; [first [done|run_policy; vm_compute; reflexivity]|]). constructor.
Qed.

End Tests.

Section Witness.
Import ListRegistry.
Local Existing Instance Clock.env.

Lemma policies_tests_pass_witness :
  Forall (λ t, passes t (0, 0%nat) = true) policies_tests.
Proof. exact (policies_tests_pass (PL := list_prometheus_laws) (0, 0%nat)). Defined.

End Witness.
