(* ===== verification/Ports.v ===== *)
(** * The five port traits

    Models [crates/engagement-hub-ports/src/ports.rs].  A trait is a class
    over the type [P] of the implementing handle and the state [S] its methods
    act on; a method is a state transformer that may panic.  [*_safe] is the
    promise the adapters make to the orchestration code: no method call lets a
    panic escape. *)
From stdpp Require Import base strings.
From S2P Require Import Prelude Errors Uuids PortTypes.

Section Ports.
Context `{U : UuidLib}.

Class RegistryPort (P S : Type) := {
  port_resolve_snapshot : P → ResolveSnapshotReq → io S (result ResolvedSnapshot RegistryError);
  port_get_voice_profile : P → VoiceProfileId → io S (result VoiceProfile RegistryError)
}.

Class JourneyManagerPort (P S : Type) := {
  port_create_execution : P → CreateExecutionReq → io S (result ExecutionRef JmError);
  port_cancel_execution : P → ExecutionRef → CancelReason → io S (result unit JmError);
  port_get_execution_timeline : P → ExecutionRef → TimelineOpts → io S (result Timeline JmError)
}.

Class VoiceManagerPort (P S : Type) := {
  port_start_voice_session : P → StartVoiceSessionReq → io S (result VoiceSessionRef VmError);
  port_stop_voice_session : P → VoiceSessionRef → StopMode → io S (result unit VmError);
  port_issue_test_token : P → IssueTestTokenReq → io S (result TestToken VmError);
  port_create_telephony : P → CreateTelephonyReq → io S (result Telephony VmError);
  port_list_telephonies : P → ListTelephoniesReq → io S (result (list Telephony) VmError);
  port_get_telephony : P → TelephonyId → io S (result Telephony VmError);
  port_update_telephony : P → UpdateTelephonyReq → io S (result Telephony VmError);
  port_delete_telephony : P → TelephonyId → string → io S (result unit VmError)
}.

Class PostCallPort (P S : Type) := {
  port_get_transcript : P → EngagementId → io S (result Transcript PostCallError);
  port_get_summary : P → EngagementId → io S (result Summary PostCallError);
  port_get_sentiment : P → EngagementId → io S (result Sentiment PostCallError);
  port_get_output_extraction : P → EngagementId → io S (result OutputExtraction PostCallError);
  port_list_agent_call_logs : P → ListAgentCallLogsReq → io S (result (Page CallLog) PostCallError);
  port_list_org_call_logs : P → ListOrgCallLogsReq → io S (result (Page CallLog) PostCallError)
}.

Class AnalyticsPort (P S : Type) := {
  port_get_agent_analytics : P → GetAgentAnalyticsReq → io S (result Analytics AnalyticsError);
  port_get_agent_metrics : P → GetAgentMetricsReq → io S (result Metrics AnalyticsError);
  port_get_org_analytics : P → GetOrgAnalyticsReq → io S (result Analytics AnalyticsError);
  port_get_org_metrics : P → GetOrgMetricsReq → io S (result Metrics AnalyticsError)
}.

(** A computation that returns in every state. *)
Definition returns {S A} (m : io S A) : Prop := ∀ s, ∃ a s', m s = (Value a, s').

Class RegistryPortSafe (P S : Type) `{!RegistryPort P S} : Prop := {
  resolve_snapshot_returns : ∀ p req, returns (port_resolve_snapshot p req);
  get_voice_profile_returns : ∀ p id, returns (port_get_voice_profile p id)
}.

Class JourneyManagerPortSafe (P S : Type) `{!JourneyManagerPort P S} : Prop := {
  create_execution_returns : ∀ p req, returns (port_create_execution p req);
  cancel_execution_returns : ∀ p r reason, returns (port_cancel_execution p r reason);
  get_execution_timeline_returns : ∀ p r o, returns (port_get_execution_timeline p r o)
}.

Class VoiceManagerPortSafe (P S : Type) `{!VoiceManagerPort P S} : Prop := {
  start_voice_session_returns : ∀ p req, returns (port_start_voice_session p req);
  stop_voice_session_returns : ∀ p r mode, returns (port_stop_voice_session p r mode);
  issue_test_token_returns : ∀ p req, returns (port_issue_test_token p req);
  create_telephony_returns : ∀ p req, returns (port_create_telephony p req);
  list_telephonies_returns : ∀ p req, returns (port_list_telephonies p req);
  get_telephony_returns : ∀ p id, returns (port_get_telephony p id);
  update_telephony_returns : ∀ p req, returns (port_update_telephony p req);
  delete_telephony_returns : ∀ p id usage, returns (port_delete_telephony p id usage)
}.

Class PostCallPortSafe (P S : Type) `{!PostCallPort P S} : Prop := {
  get_transcript_returns : ∀ p e, returns (port_get_transcript p e);
  get_summary_returns : ∀ p e, returns (port_get_summary p e);
  get_sentiment_returns : ∀ p e, returns (port_get_sentiment p e);
  get_output_extraction_returns : ∀ p e, returns (port_get_output_extraction p e);
  list_agent_call_logs_returns : ∀ p req, returns (port_list_agent_call_logs p req);
  list_org_call_logs_returns : ∀ p req, returns (port_list_org_call_logs p req)
}.

Class AnalyticsPortSafe (P S : Type) `{!AnalyticsPort P S} : Prop := {
  get_agent_analytics_returns : ∀ p req, returns (port_get_agent_analytics p req);
  get_agent_metrics_returns : ∀ p req, returns (port_get_agent_metrics p req);
  get_org_analytics_returns : ∀ p req, returns (port_get_org_analytics p req);
  get_org_metrics_returns : ∀ p req, returns (port_get_org_metrics p req)
}.

End Ports.
