(* ===== verification/Fakes.v ===== *)
(** * Fake ports

    Models [crates/engagement-hub-ports/src/fake/]: the injectable [Outcome],
    and the five fakes, each an [Arc<Mutex<Inner>>] whose [Inner] holds one
    FIFO queue of outcomes per method.  The store maps the address of each
    [Arc] to its mutex, so clones of a fake share their queues.  A mutex
    records whether it is poisoned: the guard taken in the scrutinee of the
    methods' [match] lives until the end of the [match], so a panic in an arm
    (or of [expect] on an empty queue) poisons the mutex, and [lock().unwrap()]
    panics from then on. *)
From Stdlib Require Import ZArith Lia.
From stdpp Require Import base list gmap strings.
From S2P Require Import Prelude Errors Uuids PortTypes Ports.

(** ** [fake/mod.rs] *)

Inductive Outcome (T : Type) :=
| Success (v : T)
| Transient (msg : string)
| Permanent (msg : string)
| Unavailable
| Panic.
Arguments Success {T} v.
Arguments Transient {T} msg.
Arguments Permanent {T} msg.
Arguments Unavailable {T}.
Arguments Panic {T}.

(** ** Mutexes in a store *)

Record Mutex (I : Type) := mkMutex { poisoned : bool; contents : I }.
Arguments mkMutex {I}.
Arguments poisoned {I}.
Arguments contents {I}.

Abbreviation Store I := (gmap positive (Mutex I)).

(** [self.inner.lock().unwrap()] followed by the code that holds the guard. *)
Definition with_lock {I A} (addr : positive) (body : I → exec A * I) : io (Store I) A := λ s,
  match s !! addr with
  | None => (Panicked, s)
  | Some mu =>
      if poisoned mu then (Panicked, s)
      else match body (contents mu) with
           | (Value a, i) => (Value a, <[addr := mkMutex false i]> s)
           | (Panicked, i) => (Panicked, <[addr := mkMutex true i]> s)
           end
  end.

(** [Arc::new(Mutex::new(inner))]. *)
Definition alloc {I} (inner : I) (s : Store I) : positive * Store I :=
  let addr := fresh (dom s) in (addr, <[addr := mkMutex false inner]> s).

(** One queue of an [Inner] struct. *)
Record QueueField (I T : Type) := mkQueue {
  q_get : I → list (Outcome T);
  q_set : list (Outcome T) → I → I
}.
Arguments mkQueue {I T}.
Arguments q_get {I T}.
Arguments q_set {I T}.

Class QueueLaws {I T} (q : QueueField I T) : Prop := {
  q_get_set : ∀ l i, q_get q (q_set q l i) = l;
  q_set_set : ∀ l l' i, q_set q l (q_set q l' i) = q_set q l i;
  q_set_get : ∀ i, q_set q (q_get q i) i = i
}.

(** The [match] of every method: pop, [expect], and map the outcome. *)
Definition pop_reply {I T E} `{PortError E} (q : QueueField I T) (i : I)
  : exec (result T E) * I :=
  match q_get q i with
  | [] => (Panicked, i)
  | o :: rest =>
      let i' := q_set q rest i in
      match o with
      | Success v => (Value (Ok v), i')
      | Transient msg => (Value (Err (mk_transient msg)), i')
      | Permanent msg => (Value (Err (mk_permanent msg)), i')
      | Unavailable => (Value (Err mk_unavailable), i')
      | Panic => (Panicked, i')
      end
  end.

Definition call_fake {I T E} `{PortError E} (q : QueueField I T) (addr : positive)
  : io (Store I) (result T E) := with_lock addr (pop_reply q).

Definition push_back {I T} (q : QueueField I T) (o : Outcome T) (addr : positive)
  : io (Store I) unit :=
  with_lock addr (λ i, (Value tt, q_set q (q_get q i ++ [o]) i)).

Section Fakes.
Context `{U : UuidLib}.

(** ** [fake/registry.rs] *)

Record FakeRegistryInner := mkFakeRegistryInner {
  fr_resolve_snapshot : list (Outcome ResolvedSnapshot);
  fr_get_voice_profile : list (Outcome VoiceProfile)
}.

Record FakeRegistryPort := mkFakeRegistryPort { fr_inner : positive }.

Definition FakeRegistryPort_new (s : Store FakeRegistryInner)
    : FakeRegistryPort * Store FakeRegistryInner :=
  let '(addr, s') := alloc (mkFakeRegistryInner [] []) s in (mkFakeRegistryPort addr, s').

Definition FakeRegistryPort_default := FakeRegistryPort_new.
Definition FakeRegistryPort_clone (p : FakeRegistryPort) : FakeRegistryPort :=
    mkFakeRegistryPort (fr_inner p).

Definition resolve_snapshot_queue : QueueField FakeRegistryInner ResolvedSnapshot :=
  mkQueue fr_resolve_snapshot (λ q i, mkFakeRegistryInner q (fr_get_voice_profile i)).
Definition get_voice_profile_queue : QueueField FakeRegistryInner VoiceProfile :=
  mkQueue fr_get_voice_profile (λ q i, mkFakeRegistryInner (fr_resolve_snapshot i) q).

Definition push_resolve_snapshot (p : FakeRegistryPort) (outcome : Outcome ResolvedSnapshot)
  : io (Store FakeRegistryInner) unit := push_back resolve_snapshot_queue outcome (fr_inner p).
Definition push_get_voice_profile (p : FakeRegistryPort) (outcome : Outcome VoiceProfile)
  : io (Store FakeRegistryInner) unit := push_back get_voice_profile_queue outcome (fr_inner p).

Definition resolve_snapshot (p : FakeRegistryPort) (_req : ResolveSnapshotReq)
  : io (Store FakeRegistryInner) (result ResolvedSnapshot RegistryError) :=
      call_fake resolve_snapshot_queue (fr_inner p).
Definition get_voice_profile (p : FakeRegistryPort) (_id : VoiceProfileId)
  : io (Store FakeRegistryInner) (result VoiceProfile RegistryError) :=
      call_fake get_voice_profile_queue (fr_inner p).

#[export] Instance FakeRegistry_port : RegistryPort FakeRegistryPort (Store FakeRegistryInner) := {|
  port_resolve_snapshot := resolve_snapshot;
  port_get_voice_profile := get_voice_profile
|}.

(** ** [fake/journey_manager.rs] *)

Record FakeJourneyManagerInner := mkFakeJourneyManagerInner {
  fj_create_execution : list (Outcome ExecutionRef);
  fj_cancel_execution : list (Outcome unit);
  fj_get_execution_timeline : list (Outcome Timeline)
}.

Record FakeJourneyManagerPort := mkFakeJourneyManagerPort { fj_inner : positive }.

Definition FakeJourneyManagerPort_new (s : Store FakeJourneyManagerInner)
    : FakeJourneyManagerPort * Store FakeJourneyManagerInner :=
  let '(addr, s') := alloc (mkFakeJourneyManagerInner [] [] []) s in
      (mkFakeJourneyManagerPort addr, s').

Definition FakeJourneyManagerPort_default := FakeJourneyManagerPort_new.
Definition FakeJourneyManagerPort_clone (p : FakeJourneyManagerPort) : FakeJourneyManagerPort :=
    mkFakeJourneyManagerPort (fj_inner p).

Definition create_execution_queue : QueueField FakeJourneyManagerInner ExecutionRef :=
  mkQueue fj_create_execution (λ q i, mkFakeJourneyManagerInner q (fj_cancel_execution i)
      (fj_get_execution_timeline i)).
Definition cancel_execution_queue : QueueField FakeJourneyManagerInner unit :=
  mkQueue fj_cancel_execution (λ q i, mkFakeJourneyManagerInner (fj_create_execution i) q
      (fj_get_execution_timeline i)).
Definition get_execution_timeline_queue : QueueField FakeJourneyManagerInner Timeline :=
  mkQueue fj_get_execution_timeline (λ q i,
      mkFakeJourneyManagerInner (fj_create_execution i) (fj_cancel_execution i) q).

Definition push_create_execution (p : FakeJourneyManagerPort) (outcome : Outcome ExecutionRef)
  : io (Store FakeJourneyManagerInner) unit :=
      push_back create_execution_queue outcome (fj_inner p).
Definition push_cancel_execution (p : FakeJourneyManagerPort) (outcome : Outcome unit)
  : io (Store FakeJourneyManagerInner) unit :=
      push_back cancel_execution_queue outcome (fj_inner p).
Definition push_get_execution_timeline (p : FakeJourneyManagerPort) (outcome : Outcome Timeline)
  : io (Store FakeJourneyManagerInner) unit :=
      push_back get_execution_timeline_queue outcome (fj_inner p).

Definition create_execution (p : FakeJourneyManagerPort) (_req : CreateExecutionReq)
  : io (Store FakeJourneyManagerInner) (result ExecutionRef JmError) :=
      call_fake create_execution_queue (fj_inner p).
Definition cancel_execution (p : FakeJourneyManagerPort) (_ref : ExecutionRef)
    (_reason : CancelReason)
  : io (Store FakeJourneyManagerInner) (result unit JmError) :=
      call_fake cancel_execution_queue (fj_inner p).
Definition get_execution_timeline (p : FakeJourneyManagerPort) (_ref : ExecutionRef)
    (_opts : TimelineOpts)
  : io (Store FakeJourneyManagerInner) (result Timeline JmError) :=
      call_fake get_execution_timeline_queue (fj_inner p).

#[export] Instance FakeJourneyManager_port
    : JourneyManagerPort FakeJourneyManagerPort (Store FakeJourneyManagerInner) := {|
  port_create_execution := create_execution;
  port_cancel_execution := cancel_execution;
  port_get_execution_timeline := get_execution_timeline
|}.

(** ** [fake/voice_manager.rs] *)

Record FakeVoiceManagerInner := mkFakeVoiceManagerInner {
  fv_start_voice_session : list (Outcome VoiceSessionRef);
  fv_stop_voice_session : list (Outcome unit);
  fv_issue_test_token : list (Outcome TestToken);
  fv_create_telephony : list (Outcome Telephony);
  fv_list_telephonies : list (Outcome (list Telephony));
  fv_get_telephony : list (Outcome Telephony);
  fv_update_telephony : list (Outcome Telephony);
  fv_delete_telephony : list (Outcome unit)
}.

Record FakeVoiceManagerPort := mkFakeVoiceManagerPort { fv_inner : positive }.

Definition FakeVoiceManagerPort_new (s : Store FakeVoiceManagerInner)
    : FakeVoiceManagerPort * Store FakeVoiceManagerInner :=
  let '(addr, s') := alloc (mkFakeVoiceManagerInner [] [] [] [] [] [] [] []) s in
      (mkFakeVoiceManagerPort addr, s').

Definition FakeVoiceManagerPort_default := FakeVoiceManagerPort_new.
Definition FakeVoiceManagerPort_clone (p : FakeVoiceManagerPort) : FakeVoiceManagerPort :=
    mkFakeVoiceManagerPort (fv_inner p).

Definition start_voice_session_queue : QueueField FakeVoiceManagerInner VoiceSessionRef :=
  mkQueue fv_start_voice_session (λ q i, mkFakeVoiceManagerInner q (fv_stop_voice_session i)
      (fv_issue_test_token i) (fv_create_telephony i) (fv_list_telephonies i) (fv_get_telephony i)
      (fv_update_telephony i) (fv_delete_telephony i)).
Definition stop_voice_session_queue : QueueField FakeVoiceManagerInner unit :=
  mkQueue fv_stop_voice_session (λ q i, mkFakeVoiceManagerInner (fv_start_voice_session i) q
      (fv_issue_test_token i) (fv_create_telephony i) (fv_list_telephonies i) (fv_get_telephony i)
      (fv_update_telephony i) (fv_delete_telephony i)).
Definition issue_test_token_queue : QueueField FakeVoiceManagerInner TestToken :=
  mkQueue fv_issue_test_token (λ q i, mkFakeVoiceManagerInner (fv_start_voice_session i)
      (fv_stop_voice_session i) q (fv_create_telephony i) (fv_list_telephonies i)
      (fv_get_telephony i) (fv_update_telephony i) (fv_delete_telephony i)).
Definition create_telephony_queue : QueueField FakeVoiceManagerInner Telephony :=
  mkQueue fv_create_telephony (λ q i, mkFakeVoiceManagerInner (fv_start_voice_session i)
      (fv_stop_voice_session i) (fv_issue_test_token i) q (fv_list_telephonies i)
      (fv_get_telephony i) (fv_update_telephony i) (fv_delete_telephony i)).
Definition list_telephonies_queue : QueueField FakeVoiceManagerInner (list Telephony) :=
  mkQueue fv_list_telephonies (λ q i, mkFakeVoiceManagerInner (fv_start_voice_session i)
      (fv_stop_voice_session i) (fv_issue_test_token i) (fv_create_telephony i) q
      (fv_get_telephony i) (fv_update_telephony i) (fv_delete_telephony i)).
Definition get_telephony_queue : QueueField FakeVoiceManagerInner Telephony :=
  mkQueue fv_get_telephony (λ q i, mkFakeVoiceManagerInner (fv_start_voice_session i)
      (fv_stop_voice_session i) (fv_issue_test_token i) (fv_create_telephony i)
      (fv_list_telephonies i) q (fv_update_telephony i) (fv_delete_telephony i)).
Definition update_telephony_queue : QueueField FakeVoiceManagerInner Telephony :=
  mkQueue fv_update_telephony (λ q i, mkFakeVoiceManagerInner (fv_start_voice_session i)
      (fv_stop_voice_session i) (fv_issue_test_token i) (fv_create_telephony i)
      (fv_list_telephonies i) (fv_get_telephony i) q (fv_delete_telephony i)).
Definition delete_telephony_queue : QueueField FakeVoiceManagerInner unit :=
  mkQueue fv_delete_telephony (λ q i, mkFakeVoiceManagerInner (fv_start_voice_session i)
      (fv_stop_voice_session i) (fv_issue_test_token i) (fv_create_telephony i)
      (fv_list_telephonies i) (fv_get_telephony i) (fv_update_telephony i) q).

Definition push_start_voice_session (p : FakeVoiceManagerPort) (outcome : Outcome VoiceSessionRef)
  : io (Store FakeVoiceManagerInner) unit :=
      push_back start_voice_session_queue outcome (fv_inner p).
Definition push_stop_voice_session (p : FakeVoiceManagerPort) (outcome : Outcome unit)
  : io (Store FakeVoiceManagerInner) unit :=
      push_back stop_voice_session_queue outcome (fv_inner p).
Definition push_issue_test_token (p : FakeVoiceManagerPort) (outcome : Outcome TestToken)
  : io (Store FakeVoiceManagerInner) unit := push_back issue_test_token_queue outcome (fv_inner p).
Definition push_create_telephony (p : FakeVoiceManagerPort) (outcome : Outcome Telephony)
  : io (Store FakeVoiceManagerInner) unit := push_back create_telephony_queue outcome (fv_inner p).
Definition push_list_telephonies (p : FakeVoiceManagerPort) (outcome : Outcome (list Telephony))
  : io (Store FakeVoiceManagerInner) unit := push_back list_telephonies_queue outcome (fv_inner p).
Definition push_get_telephony (p : FakeVoiceManagerPort) (outcome : Outcome Telephony)
  : io (Store FakeVoiceManagerInner) unit := push_back get_telephony_queue outcome (fv_inner p).
Definition push_update_telephony (p : FakeVoiceManagerPort) (outcome : Outcome Telephony)
  : io (Store FakeVoiceManagerInner) unit := push_back update_telephony_queue outcome (fv_inner p).
Definition push_delete_telephony (p : FakeVoiceManagerPort) (outcome : Outcome unit)
  : io (Store FakeVoiceManagerInner) unit := push_back delete_telephony_queue outcome (fv_inner p).

Definition start_voice_session (p : FakeVoiceManagerPort) (_req : StartVoiceSessionReq)
  : io (Store FakeVoiceManagerInner) (result VoiceSessionRef VmError) :=
      call_fake start_voice_session_queue (fv_inner p).
Definition stop_voice_session (p : FakeVoiceManagerPort) (_ref : VoiceSessionRef) (_mode : StopMode)
  : io (Store FakeVoiceManagerInner) (result unit VmError) :=
      call_fake stop_voice_session_queue (fv_inner p).
Definition issue_test_token (p : FakeVoiceManagerPort) (_req : IssueTestTokenReq)
  : io (Store FakeVoiceManagerInner) (result TestToken VmError) :=
      call_fake issue_test_token_queue (fv_inner p).
Definition create_telephony (p : FakeVoiceManagerPort) (_req : CreateTelephonyReq)
  : io (Store FakeVoiceManagerInner) (result Telephony VmError) :=
      call_fake create_telephony_queue (fv_inner p).
Definition list_telephonies (p : FakeVoiceManagerPort) (_req : ListTelephoniesReq)
  : io (Store FakeVoiceManagerInner) (result (list Telephony) VmError) :=
      call_fake list_telephonies_queue (fv_inner p).
Definition get_telephony (p : FakeVoiceManagerPort) (_id : TelephonyId)
  : io (Store FakeVoiceManagerInner) (result Telephony VmError) :=
      call_fake get_telephony_queue (fv_inner p).
Definition update_telephony (p : FakeVoiceManagerPort) (_req : UpdateTelephonyReq)
  : io (Store FakeVoiceManagerInner) (result Telephony VmError) :=
      call_fake update_telephony_queue (fv_inner p).
Definition delete_telephony (p : FakeVoiceManagerPort) (_id : TelephonyId) (_usage : string)
  : io (Store FakeVoiceManagerInner) (result unit VmError) :=
      call_fake delete_telephony_queue (fv_inner p).

#[export] Instance FakeVoiceManager_port : VoiceManagerPort FakeVoiceManagerPort
    (Store FakeVoiceManagerInner) := {|
  port_start_voice_session := start_voice_session;
  port_stop_voice_session := stop_voice_session;
  port_issue_test_token := issue_test_token;
  port_create_telephony := create_telephony;
  port_list_telephonies := list_telephonies;
  port_get_telephony := get_telephony;
  port_update_telephony := update_telephony;
  port_delete_telephony := delete_telephony
|}.

(** ** [fake/post_call.rs] *)

Record FakePostCallInner := mkFakePostCallInner {
  fp_get_transcript : list (Outcome Transcript);
  fp_get_summary : list (Outcome Summary);
  fp_get_sentiment : list (Outcome Sentiment);
  fp_get_output_extraction : list (Outcome OutputExtraction);
  fp_list_agent_call_logs : list (Outcome (Page CallLog));
  fp_list_org_call_logs : list (Outcome (Page CallLog))
}.

Record FakePostCallPort := mkFakePostCallPort { fp_inner : positive }.

Definition FakePostCallPort_new (s : Store FakePostCallInner)
    : FakePostCallPort * Store FakePostCallInner :=
  let '(addr, s') := alloc (mkFakePostCallInner [] [] [] [] [] []) s in
      (mkFakePostCallPort addr, s').

Definition FakePostCallPort_default := FakePostCallPort_new.
Definition FakePostCallPort_clone (p : FakePostCallPort) : FakePostCallPort :=
    mkFakePostCallPort (fp_inner p).

Definition get_transcript_queue : QueueField FakePostCallInner Transcript :=
  mkQueue fp_get_transcript (λ q i, mkFakePostCallInner q (fp_get_summary i) (fp_get_sentiment i)
      (fp_get_output_extraction i) (fp_list_agent_call_logs i) (fp_list_org_call_logs i)).
Definition get_summary_queue : QueueField FakePostCallInner Summary :=
  mkQueue fp_get_summary (λ q i, mkFakePostCallInner (fp_get_transcript i) q (fp_get_sentiment i)
      (fp_get_output_extraction i) (fp_list_agent_call_logs i) (fp_list_org_call_logs i)).
Definition get_sentiment_queue : QueueField FakePostCallInner Sentiment :=
  mkQueue fp_get_sentiment (λ q i, mkFakePostCallInner (fp_get_transcript i) (fp_get_summary i) q
      (fp_get_output_extraction i) (fp_list_agent_call_logs i) (fp_list_org_call_logs i)).
Definition get_output_extraction_queue : QueueField FakePostCallInner OutputExtraction :=
  mkQueue fp_get_output_extraction (λ q i,
      mkFakePostCallInner (fp_get_transcript i) (fp_get_summary i) (fp_get_sentiment i) q
      (fp_list_agent_call_logs i) (fp_list_org_call_logs i)).
Definition list_agent_call_logs_queue : QueueField FakePostCallInner (Page CallLog) :=
  mkQueue fp_list_agent_call_logs (λ q i,
      mkFakePostCallInner (fp_get_transcript i) (fp_get_summary i) (fp_get_sentiment i)
      (fp_get_output_extraction i) q (fp_list_org_call_logs i)).
Definition list_org_call_logs_queue : QueueField FakePostCallInner (Page CallLog) :=
  mkQueue fp_list_org_call_logs (λ q i, mkFakePostCallInner (fp_get_transcript i)
      (fp_get_summary i) (fp_get_sentiment i) (fp_get_output_extraction i)
      (fp_list_agent_call_logs i) q).

Definition push_get_transcript (p : FakePostCallPort) (outcome : Outcome Transcript)
  : io (Store FakePostCallInner) unit := push_back get_transcript_queue outcome (fp_inner p).
Definition push_get_summary (p : FakePostCallPort) (outcome : Outcome Summary)
  : io (Store FakePostCallInner) unit := push_back get_summary_queue outcome (fp_inner p).
Definition push_get_sentiment (p : FakePostCallPort) (outcome : Outcome Sentiment)
  : io (Store FakePostCallInner) unit := push_back get_sentiment_queue outcome (fp_inner p).
Definition push_get_output_extraction (p : FakePostCallPort) (outcome : Outcome OutputExtraction)
  : io (Store FakePostCallInner) unit := push_back get_output_extraction_queue outcome (fp_inner p).
Definition push_list_agent_call_logs (p : FakePostCallPort) (outcome : Outcome (Page CallLog))
  : io (Store FakePostCallInner) unit := push_back list_agent_call_logs_queue outcome (fp_inner p).
Definition push_list_org_call_logs (p : FakePostCallPort) (outcome : Outcome (Page CallLog))
  : io (Store FakePostCallInner) unit := push_back list_org_call_logs_queue outcome (fp_inner p).

Definition get_transcript (p : FakePostCallPort) (_eng : EngagementId)
  : io (Store FakePostCallInner) (result Transcript PostCallError) :=
      call_fake get_transcript_queue (fp_inner p).
Definition get_summary (p : FakePostCallPort) (_eng : EngagementId)
  : io (Store FakePostCallInner) (result Summary PostCallError) :=
      call_fake get_summary_queue (fp_inner p).
Definition get_sentiment (p : FakePostCallPort) (_eng : EngagementId)
  : io (Store FakePostCallInner) (result Sentiment PostCallError) :=
      call_fake get_sentiment_queue (fp_inner p).
Definition get_output_extraction (p : FakePostCallPort) (_eng : EngagementId)
  : io (Store FakePostCallInner) (result OutputExtraction PostCallError) :=
      call_fake get_output_extraction_queue (fp_inner p).
Definition list_agent_call_logs (p : FakePostCallPort) (_req : ListAgentCallLogsReq)
  : io (Store FakePostCallInner) (result (Page CallLog) PostCallError) :=
      call_fake list_agent_call_logs_queue (fp_inner p).
Definition list_org_call_logs (p : FakePostCallPort) (_req : ListOrgCallLogsReq)
  : io (Store FakePostCallInner) (result (Page CallLog) PostCallError) :=
      call_fake list_org_call_logs_queue (fp_inner p).

#[export] Instance FakePostCall_port : PostCallPort FakePostCallPort (Store FakePostCallInner) := {|
  port_get_transcript := get_transcript;
  port_get_summary := get_summary;
  port_get_sentiment := get_sentiment;
  port_get_output_extraction := get_output_extraction;
  port_list_agent_call_logs := list_agent_call_logs;
  port_list_org_call_logs := list_org_call_logs
|}.

(** ** [fake/analytics.rs] *)

Record FakeAnalyticsInner := mkFakeAnalyticsInner {
  fa_get_agent_analytics : list (Outcome Analytics);
  fa_get_agent_metrics : list (Outcome Metrics);
  fa_get_org_analytics : list (Outcome Analytics);
  fa_get_org_metrics : list (Outcome Metrics)
}.

Record FakeAnalyticsPort := mkFakeAnalyticsPort { fa_inner : positive }.

Definition FakeAnalyticsPort_new (s : Store FakeAnalyticsInner)
    : FakeAnalyticsPort * Store FakeAnalyticsInner :=
  let '(addr, s') := alloc (mkFakeAnalyticsInner [] [] [] []) s in (mkFakeAnalyticsPort addr, s').

Definition FakeAnalyticsPort_default := FakeAnalyticsPort_new.
Definition FakeAnalyticsPort_clone (p : FakeAnalyticsPort) : FakeAnalyticsPort :=
    mkFakeAnalyticsPort (fa_inner p).

Definition get_agent_analytics_queue : QueueField FakeAnalyticsInner Analytics :=
  mkQueue fa_get_agent_analytics (λ q i, mkFakeAnalyticsInner q (fa_get_agent_metrics i)
      (fa_get_org_analytics i) (fa_get_org_metrics i)).
Definition get_agent_metrics_queue : QueueField FakeAnalyticsInner Metrics :=
  mkQueue fa_get_agent_metrics (λ q i, mkFakeAnalyticsInner (fa_get_agent_analytics i) q
      (fa_get_org_analytics i) (fa_get_org_metrics i)).
Definition get_org_analytics_queue : QueueField FakeAnalyticsInner Analytics :=
  mkQueue fa_get_org_analytics (λ q i, mkFakeAnalyticsInner (fa_get_agent_analytics i)
      (fa_get_agent_metrics i) q (fa_get_org_metrics i)).
Definition get_org_metrics_queue : QueueField FakeAnalyticsInner Metrics :=
  mkQueue fa_get_org_metrics (λ q i, mkFakeAnalyticsInner (fa_get_agent_analytics i)
      (fa_get_agent_metrics i) (fa_get_org_analytics i) q).

Definition push_get_agent_analytics (p : FakeAnalyticsPort) (outcome : Outcome Analytics)
  : io (Store FakeAnalyticsInner) unit := push_back get_agent_analytics_queue outcome (fa_inner p).
Definition push_get_agent_metrics (p : FakeAnalyticsPort) (outcome : Outcome Metrics)
  : io (Store FakeAnalyticsInner) unit := push_back get_agent_metrics_queue outcome (fa_inner p).
Definition push_get_org_analytics (p : FakeAnalyticsPort) (outcome : Outcome Analytics)
  : io (Store FakeAnalyticsInner) unit := push_back get_org_analytics_queue outcome (fa_inner p).
Definition push_get_org_metrics (p : FakeAnalyticsPort) (outcome : Outcome Metrics)
  : io (Store FakeAnalyticsInner) unit := push_back get_org_metrics_queue outcome (fa_inner p).

Definition get_agent_analytics (p : FakeAnalyticsPort) (_req : GetAgentAnalyticsReq)
  : io (Store FakeAnalyticsInner) (result Analytics AnalyticsError) :=
      call_fake get_agent_analytics_queue (fa_inner p).
Definition get_agent_metrics (p : FakeAnalyticsPort) (_req : GetAgentMetricsReq)
  : io (Store FakeAnalyticsInner) (result Metrics AnalyticsError) :=
      call_fake get_agent_metrics_queue (fa_inner p).
Definition get_org_analytics (p : FakeAnalyticsPort) (_req : GetOrgAnalyticsReq)
  : io (Store FakeAnalyticsInner) (result Analytics AnalyticsError) :=
      call_fake get_org_analytics_queue (fa_inner p).
Definition get_org_metrics (p : FakeAnalyticsPort) (_req : GetOrgMetricsReq)
  : io (Store FakeAnalyticsInner) (result Metrics AnalyticsError) :=
      call_fake get_org_metrics_queue (fa_inner p).

#[export] Instance FakeAnalytics_port : AnalyticsPort FakeAnalyticsPort (Store FakeAnalyticsInner)
    := {|
  port_get_agent_analytics := get_agent_analytics;
  port_get_agent_metrics := get_agent_metrics;
  port_get_org_analytics := get_org_analytics;
  port_get_org_metrics := get_org_metrics
|}.

(** ** The queues obey the lens laws *)

(** The first laws hold by computation, the last by cases on the state. *)
Ltac queue_laws :=
  split; intros; try done; match goal with x : _ |- _ => by destruct x end.

#[export] Instance resolve_snapshot_queue_laws : QueueLaws resolve_snapshot_queue.
Proof. queue_laws. Qed.
#[export] Instance get_voice_profile_queue_laws : QueueLaws get_voice_profile_queue.
Proof. queue_laws. Qed.
#[export] Instance create_execution_queue_laws : QueueLaws create_execution_queue.
Proof. queue_laws. Qed.
#[export] Instance cancel_execution_queue_laws : QueueLaws cancel_execution_queue.
Proof. queue_laws. Qed.
#[export] Instance get_execution_timeline_queue_laws : QueueLaws get_execution_timeline_queue.
Proof. queue_laws. Qed.
#[export] Instance start_voice_session_queue_laws : QueueLaws start_voice_session_queue.
Proof. queue_laws. Qed.
#[export] Instance stop_voice_session_queue_laws : QueueLaws stop_voice_session_queue.
Proof. queue_laws. Qed.
#[export] Instance issue_test_token_queue_laws : QueueLaws issue_test_token_queue.
Proof. queue_laws. Qed.
#[export] Instance create_telephony_queue_laws : QueueLaws create_telephony_queue.
Proof. queue_laws. Qed.
#[export] Instance list_telephonies_queue_laws : QueueLaws list_telephonies_queue.
Proof. queue_laws. Qed.
#[export] Instance get_telephony_queue_laws : QueueLaws get_telephony_queue.
Proof. queue_laws. Qed.
#[export] Instance update_telephony_queue_laws : QueueLaws update_telephony_queue.
Proof. queue_laws. Qed.
#[export] Instance delete_telephony_queue_laws : QueueLaws delete_telephony_queue.
Proof. queue_laws. Qed.
#[export] Instance get_transcript_queue_laws : QueueLaws get_transcript_queue.
Proof. queue_laws. Qed.
#[export] Instance get_summary_queue_laws : QueueLaws get_summary_queue.
Proof. queue_laws. Qed.
#[export] Instance get_sentiment_queue_laws : QueueLaws get_sentiment_queue.
Proof. queue_laws. Qed.
#[export] Instance get_output_extraction_queue_laws : QueueLaws get_output_extraction_queue.
Proof. queue_laws. Qed.
#[export] Instance list_agent_call_logs_queue_laws : QueueLaws list_agent_call_logs_queue.
Proof. queue_laws. Qed.
#[export] Instance list_org_call_logs_queue_laws : QueueLaws list_org_call_logs_queue.
Proof. queue_laws. Qed.
#[export] Instance get_agent_analytics_queue_laws : QueueLaws get_agent_analytics_queue.
Proof. queue_laws. Qed.
#[export] Instance get_agent_metrics_queue_laws : QueueLaws get_agent_metrics_queue.
Proof. queue_laws. Qed.
#[export] Instance get_org_analytics_queue_laws : QueueLaws get_org_analytics_queue.
Proof. queue_laws. Qed.
#[export] Instance get_org_metrics_queue_laws : QueueLaws get_org_metrics_queue.
Proof. queue_laws. Qed.

End Fakes.

(** ** Properties *)

(** The answer a queued outcome stands for; [Panic] stands for none. *)
Definition outcome_reply {T E} `{PortError E} (o : Outcome T) : option (result T E) :=
  match o with
  | Success v => Some (Ok v)
  | Transient msg => Some (Err (mk_transient msg))
  | Permanent msg => Some (Err (mk_permanent msg))
  | Unavailable => Some (Err mk_unavailable)
  | Panic => None
  end.

(** Run a computation once per element of a list, collecting the values. *)
Fixpoint io_mapM {S A B} (m : A → io S B) (l : list A) : io S (list B) :=
  match l with
  | [] => io_ret []
  | a :: l' => do b <- m a ;; do bs <- io_mapM m l' ;; io_ret (b :: bs)
  end.

Section FakeFacts.
Context {I T E : Type} `{PortError E} (q : QueueField I T) `{!QueueLaws q}.
Implicit Types (s : Store I) (addr : positive).

Lemma with_lock_value {A} addr (body : I → exec A * I) s i a i' :
  s !! addr = Some (mkMutex false i) → body i = (Value a, i') →
  with_lock addr body s = (Value a, <[addr := mkMutex false i']> s).
Proof. intros Hs Hb. unfold with_lock. rewrite Hs; simpl. by rewrite Hb. Qed.

Lemma push_all_spec addr (os : list (Outcome T)) s i :
  s !! addr = Some (mkMutex false i) →
  io_mapM (λ o, push_back q o addr) os s
  = (Value (map (λ _, tt) os), <[addr := mkMutex false (q_set q (q_get q i ++ os) i)]> s).
Proof.
  revert s i. induction os as [|o os IH]; intros s i Hs; simpl.
  - unfold io_ret. by rewrite app_nil_r, q_set_get, insert_id.
  - unfold io_bind at 1, push_back.
    rewrite (with_lock_value addr _ s i tt (q_set q (q_get q i ++ [o]) i) Hs eq_refl).
    unfold io_bind. rewrite (IH _ (q_set q (q_get q i ++ [o]) i)) by apply lookup_insert_eq.
    rewrite q_get_set, q_set_set, insert_insert_eq, <- (assoc_L (++)). done.
Qed.

Lemma call_all_spec addr (os rest : list (Outcome T)) (rs : list (result T E)) s i :
  s !! addr = Some (mkMutex false i) → q_get q i = os ++ rest →
  Forall2 (λ o r, outcome_reply o = Some r) os rs →
  io_mapM (λ _, call_fake q addr) os s
  = (Value rs, <[addr := mkMutex false (q_set q rest i)]> s).
Proof.
  intros Hs Hq Hrs. revert s i Hs Hq. induction Hrs as [|o r os rs Ho Hrs IH]; intros s i Hs Hq.
  - simpl in *. unfold io_ret. by rewrite <- Hq, q_set_get, insert_id.
  - simpl in *. unfold io_bind at 1, call_fake.
    assert (Hpop : pop_reply (E := E) q i = (Value r, q_set q (os ++ rest) i))
      by (unfold pop_reply; rewrite Hq; destruct o; simplify_eq/=; done).
    rewrite (with_lock_value addr _ s i r _ Hs Hpop).
    unfold io_bind. fold (call_fake (E := E) q addr).
    rewrite (IH _ (q_set q (os ++ rest) i)); [|apply lookup_insert_eq|apply q_get_set].
    by rewrite q_set_set, insert_insert_eq.
Qed.

(** FIFO: after pushing a list of outcomes onto a method's empty queue,
    calling the method that many times answers them in the order they were
    pushed (the value, or the matching error), and leaves the fake as it was;
    fakes at other addresses are untouched. *)
Theorem fake_fifo addr (os : list (Outcome T)) (rs : list (result T E)) s i :
  s !! addr = Some (mkMutex false i) → q_get q i = [] →
  Forall2 (λ o r, outcome_reply o = Some r) os rs →
  ∃ s1, io_mapM (λ o, push_back q o addr) os s = (Value (map (λ _, tt) os), s1)
  ∧ io_mapM (λ _, call_fake q addr) os s1 = (Value rs, s)
  ∧ ∀ addr', addr' ≠ addr → s1 !! addr' = s !! addr'.
Proof.
  intros Hs Hq Hrs. eexists. rewrite (push_all_spec addr os s i Hs), Hq.
  split_and!; [done| |intros; by rewrite lookup_insert_ne].
  rewrite (call_all_spec addr os [] rs _ (q_set q os i)); [|apply lookup_insert_eq| |done].
  - simpl. rewrite q_set_set, insert_insert_eq, <- Hq, q_set_get. by rewrite insert_id.
  - by rewrite q_get_set, app_nil_r.
Qed.

(** C30. Poisoning: calling a method whose queue is empty or starts with
    [Panic] panics and poisons the fake; from then on every call of every
    method and every push on this fake or a clone of it panics and changes
    nothing, even when outcomes are still queued. *)
Theorem fake_panic_poisons addr s i :
  s !! addr = Some (mkMutex false i) →
  (q_get q i = [] ∨ ∃ rest, q_get q i = Panic :: rest) →
  ∃ s1, call_fake (E := E) q addr s = (Panicked, s1)
  ∧ (∀ T' (q' : QueueField I T'), call_fake (E := E) q' addr s1 = (Panicked, s1))
  ∧ (∀ T' (q' : QueueField I T') o, push_back q' o addr s1 = (Panicked, s1)).
Proof.
  intros Hs Hq. unfold call_fake, push_back.
  assert (∃ i', pop_reply (E := E) q i = (Panicked, i')) as [i' Hpop].
  { unfold pop_reply. destruct Hq as [->|[rest ->]]; by eexists. }
  exists (<[addr := mkMutex true i']> s). split_and!.
  - unfold with_lock. rewrite Hs; simpl. by rewrite Hpop.
  - intros T' q'. unfold with_lock. by rewrite lookup_insert_eq.
  - intros T' q' o. unfold with_lock. by rewrite lookup_insert_eq.
Qed.

End FakeFacts.

(** The hypotheses of the two properties on a fresh Journey Manager fake. *)
Section FakeWitness.
Local Existing Instance Uuid36.lib.

Definition jm_store : Store FakeJourneyManagerInner :=
  {[ 1%positive := mkMutex false (mkFakeJourneyManagerInner [] [] []) ]}.

Lemma fake_fifo_witness :
  ∃ s1, io_mapM (λ o, push_cancel_execution (mkFakeJourneyManagerPort 1) o)
          [Transient "first"; Success tt] jm_store = (Value [tt; tt], s1)
  ∧ io_mapM (λ _, cancel_execution (mkFakeJourneyManagerPort 1)
               (mkExecutionRef Uuid36.nil_uuid) UserRequested)
          [Transient "first"; Success tt] s1
    = (Value [Err (JmErr.Transient "first"); Ok tt], jm_store)
  ∧ ∀ addr', addr' ≠ 1%positive → s1 !! addr' = jm_store !! addr'.
Proof.
  apply (fake_fifo cancel_execution_queue 1 [Transient "first"; Success tt]
    [Err (JmErr.Transient "first"); Ok tt] jm_store (mkFakeJourneyManagerInner [] [] []));
    [reflexivity|reflexivity|repeat constructor].
Defined.

Lemma fake_panic_poisons_witness :
  ∃ s1, cancel_execution (mkFakeJourneyManagerPort 1)
          (mkExecutionRef Uuid36.nil_uuid) UserRequested jm_store = (Panicked, s1)
  ∧ (∀ T' (q' : QueueField FakeJourneyManagerInner T'),
       call_fake (E := JmError) q' 1 s1 = (Panicked, s1))
  ∧ (∀ T' (q' : QueueField FakeJourneyManagerInner T') o, push_back q' o 1 s1 = (Panicked, s1)).
Proof.
  apply (fake_panic_poisons cancel_execution_queue 1 jm_store
    (mkFakeJourneyManagerInner [] [] [])); [reflexivity|by left].
Defined.

End FakeWitness.
