(* ===== verification/FakeRegistryTests.v ===== *)
(** * The unit tests of [fake/registry.rs]

    Each method of the fake is driven through its outcomes: the value, the three
    errors, an injected panic, the order of queued outcomes and an empty queue. *)
From Stdlib Require Import ZArith Floats.SpecFloat.
From stdpp Require Import base list gmap strings.
From S2P Require Import Prelude Uuids UnitTest Errors PortTypes Ports Fakes.

Section Tests.
Context `{U : UuidLib} {W : Type} `{!UuidGen W}.

(** The random source and the fakes allocated so far. *)
Local Abbreviation World := (W * Store FakeRegistryInner)%type.

Definition resolve_snapshot_success : test World :=
  do fake <- allocate FakeRegistryPort_new ;;
  do _ <- on_subject (push_resolve_snapshot fake (Success {| rs_snapshot_id := "snap-1"%string;
      rs_journey_version := "v1"%string |})) ;;
  do result <- on_subject (Fakes.resolve_snapshot fake {| rsq_org_id := "org-1"%string;
      rsq_journey_version := "v1"%string |}) ;;
  assert_ (is_ok result).

Definition resolve_snapshot_transient : test World :=
  do fake <- allocate FakeRegistryPort_new ;;
  do _ <- on_subject (push_resolve_snapshot fake (Transient "timeout"%string)) ;;
  do result <- on_subject (Fakes.resolve_snapshot fake {| rsq_org_id := "org-1"%string;
      rsq_journey_version := "v1"%string |}) ;;
  assert_ (match result with Err (RegistryErr.Transient _) => true | _ => false end).

Definition resolve_snapshot_permanent : test World :=
  do fake <- allocate FakeRegistryPort_new ;;
  do _ <- on_subject (push_resolve_snapshot fake (Permanent "not found"%string)) ;;
  do result <- on_subject (Fakes.resolve_snapshot fake {| rsq_org_id := "org-1"%string;
      rsq_journey_version := "v1"%string |}) ;;
  assert_ (match result with Err (RegistryErr.Permanent _) => true | _ => false end).

Definition resolve_snapshot_unavailable : test World :=
  do fake <- allocate FakeRegistryPort_new ;;
  do _ <- on_subject (push_resolve_snapshot fake Unavailable) ;;
  do result <- on_subject (Fakes.resolve_snapshot fake {| rsq_org_id := "org-1"%string;
      rsq_journey_version := "v1"%string |}) ;;
  assert_ (match result with Err RegistryErr.Unavailable => true | _ => false end).

Definition resolve_snapshot_panic : test World :=
  do fake <- allocate FakeRegistryPort_new ;;
  do _ <- on_subject (push_resolve_snapshot fake Panic) ;;
  do result <- spawn_await (on_subject (Fakes.resolve_snapshot fake {| rsq_org_id :=
      "org-1"%string; rsq_journey_version := "v1"%string |})) ;;
  do e <- unwrap_err result ;;
  assert_ (is_panic e).

Definition get_voice_profile_success : test World :=
  do fake <- allocate FakeRegistryPort_new ;;
  do id <- draw voice_profile_id_new ;;
  do _ <- on_subject (push_get_voice_profile fake (Success {| vp_id := id; vp_name :=
      "test-profile"%string |})) ;;
  do id <- draw voice_profile_id_new ;;
  do result <- on_subject (Fakes.get_voice_profile fake id) ;;
  assert_ (is_ok result).

Definition get_voice_profile_transient : test World :=
  do fake <- allocate FakeRegistryPort_new ;;
  do _ <- on_subject (push_get_voice_profile fake (Transient "timeout"%string)) ;;
  do id <- draw voice_profile_id_new ;;
  do result <- on_subject (Fakes.get_voice_profile fake id) ;;
  assert_ (match result with Err (RegistryErr.Transient _) => true | _ => false end).

Definition get_voice_profile_permanent : test World :=
  do fake <- allocate FakeRegistryPort_new ;;
  do _ <- on_subject (push_get_voice_profile fake (Permanent "not found"%string)) ;;
  do id <- draw voice_profile_id_new ;;
  do result <- on_subject (Fakes.get_voice_profile fake id) ;;
  assert_ (match result with Err (RegistryErr.Permanent _) => true | _ => false end).

Definition get_voice_profile_panic : test World :=
  do fake <- allocate FakeRegistryPort_new ;;
  do _ <- on_subject (push_get_voice_profile fake Panic) ;;
  do id <- draw voice_profile_id_new ;;
  do result <- spawn_await (on_subject (Fakes.get_voice_profile fake id)) ;;
  do e <- unwrap_err result ;;
  assert_ (is_panic e).

Definition test_resolve_snapshot_queue_ordering : test World :=
  do fake <- allocate FakeRegistryPort_new ;;
  do _ <- on_subject (push_resolve_snapshot fake (Transient "first"%string)) ;;
  do _ <- on_subject (push_resolve_snapshot fake (Success {| rs_snapshot_id := "snap-1"%string;
      rs_journey_version := "v1"%string |})) ;;
  do first <- on_subject (Fakes.resolve_snapshot fake {| rsq_org_id := "org-1"%string;
      rsq_journey_version := "v1"%string |}) ;;
  do _ <- assert_ (match first with Err (RegistryErr.Transient msg) => bool_decide (msg =
      "first"%string) | _ => false end) ;;
  do second <- on_subject (Fakes.resolve_snapshot fake {| rsq_org_id := "org-1"%string;
      rsq_journey_version := "v1"%string |}) ;;
  assert_ (is_ok second).

Definition test_resolve_snapshot_empty_queue_panics : test World :=
  do fake <- allocate FakeRegistryPort_new ;;
  do result <- spawn_await (on_subject (Fakes.resolve_snapshot fake {| rsq_org_id :=
      "org-1"%string; rsq_journey_version := "v1"%string |})) ;;
  do e <- unwrap_err result ;;
  assert_ (is_panic e).

#[local] Hint Unfold FakeRegistryPort_new with_lock push_back call_fake pop_reply
  get_voice_profile push_get_voice_profile push_resolve_snapshot resolve_snapshot
  engagement_id_new voice_profile_id_new telephony_id_new 
  : run_test.

Definition registry_tests : list (test World) :=
  [resolve_snapshot_success;
   resolve_snapshot_transient;
   resolve_snapshot_permanent;
   resolve_snapshot_unavailable;
   resolve_snapshot_panic;
   get_voice_profile_success;
   get_voice_profile_transient;
   get_voice_profile_permanent;
   get_voice_profile_panic;
   test_resolve_snapshot_queue_ordering;
   test_resolve_snapshot_empty_queue_panics].

Lemma fake_registry_tests_pass w s : Forall (λ t, passes t (w, s) = true) registry_tests.
Proof. unfold registry_tests. repeat constructor; run_test. Qed.

End Tests.
