(* ===== verification/FakeJourneyManagerTests.v ===== *)
(** * The unit tests of [fake/journey_manager.rs]

    Each method of the fake is driven through its outcomes: the value, the three
    errors, an injected panic, the order of queued outcomes and an empty queue. *)
From Stdlib Require Import ZArith Floats.SpecFloat.
From stdpp Require Import base list gmap strings.
From S2P Require Import Prelude Uuids UnitTest Errors PortTypes Ports Fakes.

Section Tests.
Context `{U : UuidLib} {W : Type} `{!UuidGen W}.

(** The random source and the fakes allocated so far. *)
Local Abbreviation World := (W * Store FakeJourneyManagerInner)%type.

Definition exec_ref : io World ExecutionRef :=
  do uid <- draw_uuid ;;
  io_ret (execution_ref_new uid).

Definition create_req : io World CreateExecutionReq :=
  do id <- draw engagement_id_new ;;
  io_ret {| ce_journey_version := "v1"%string; ce_org_id := "org-1"%string; ce_engagement_id :=
      id |}.

Definition create_execution_success : test World :=
  do fake <- allocate FakeJourneyManagerPort_new ;;
  do id <- draw_uuid ;;
  do _ <- on_subject (push_create_execution fake (Success (execution_ref_new id))) ;;
  do x_create_req <- create_req ;;
  do r <- on_subject (Fakes.create_execution fake x_create_req) ;;
  do result <- unwrap r ;;
  assert_eq (execution_ref_as_uuid result) id.

Definition create_execution_transient : test World :=
  do fake <- allocate FakeJourneyManagerPort_new ;;
  do _ <- on_subject (push_create_execution fake (Transient "timeout"%string)) ;;
  do x_create_req <- create_req ;;
  do result <- on_subject (Fakes.create_execution fake x_create_req) ;;
  assert_ (match result with Err (JmErr.Transient _) => true | _ => false end).

Definition create_execution_permanent : test World :=
  do fake <- allocate FakeJourneyManagerPort_new ;;
  do _ <- on_subject (push_create_execution fake (Permanent "invalid"%string)) ;;
  do x_create_req <- create_req ;;
  do result <- on_subject (Fakes.create_execution fake x_create_req) ;;
  assert_ (match result with Err (JmErr.Permanent _) => true | _ => false end).

Definition create_execution_unavailable : test World :=
  do fake <- allocate FakeJourneyManagerPort_new ;;
  do _ <- on_subject (push_create_execution fake Unavailable) ;;
  do x_create_req <- create_req ;;
  do result <- on_subject (Fakes.create_execution fake x_create_req) ;;
  assert_ (match result with Err JmErr.Unavailable => true | _ => false end).

Definition create_execution_panic : test World :=
  do fake <- allocate FakeJourneyManagerPort_new ;;
  do _ <- on_subject (push_create_execution fake Panic) ;;
  do result <- spawn_await (do x_create_req <- create_req ;; on_subject (Fakes.create_execution
      fake x_create_req)) ;;
  do e <- unwrap_err result ;;
  assert_ (is_panic e).

Definition cancel_execution_success : test World :=
  do fake <- allocate FakeJourneyManagerPort_new ;;
  do _ <- on_subject (push_cancel_execution fake (Success tt)) ;;
  do ref_ <- exec_ref ;;
  do result <- on_subject (Fakes.cancel_execution fake ref_ UserRequested) ;;
  assert_ (is_ok result).

Definition cancel_execution_transient : test World :=
  do fake <- allocate FakeJourneyManagerPort_new ;;
  do _ <- on_subject (push_cancel_execution fake (Transient "timeout"%string)) ;;
  do ref_ <- exec_ref ;;
  do result <- on_subject (Fakes.cancel_execution fake ref_ UserRequested) ;;
  assert_ (match result with Err (JmErr.Transient _) => true | _ => false end).

Definition cancel_execution_permanent : test World :=
  do fake <- allocate FakeJourneyManagerPort_new ;;
  do _ <- on_subject (push_cancel_execution fake (Permanent "not found"%string)) ;;
  do ref_ <- exec_ref ;;
  do result <- on_subject (Fakes.cancel_execution fake ref_ UserRequested) ;;
  assert_ (match result with Err (JmErr.Permanent _) => true | _ => false end).

Definition cancel_execution_panic : test World :=
  do fake <- allocate FakeJourneyManagerPort_new ;;
  do _ <- on_subject (push_cancel_execution fake Panic) ;;
  do ref_ <- exec_ref ;;
  do result <- spawn_await (on_subject (Fakes.cancel_execution fake ref_ UserRequested)) ;;
  do e <- unwrap_err result ;;
  assert_ (is_panic e).

Definition timeline_opts : io World TimelineOpts :=
  io_ret {| to_after_sequence := None |}.

Definition get_execution_timeline_success : test World :=
  do fake <- allocate FakeJourneyManagerPort_new ;;
  do _ <- on_subject (push_get_execution_timeline fake (Success {| tl_events := [] |})) ;;
  do ref_ <- exec_ref ;;
  do x_timeline_opts <- timeline_opts ;;
  do result <- on_subject (Fakes.get_execution_timeline fake ref_ x_timeline_opts) ;;
  assert_ (is_ok result).

Definition get_execution_timeline_transient : test World :=
  do fake <- allocate FakeJourneyManagerPort_new ;;
  do _ <- on_subject (push_get_execution_timeline fake (Transient "timeout"%string)) ;;
  do ref_ <- exec_ref ;;
  do x_timeline_opts <- timeline_opts ;;
  do result <- on_subject (Fakes.get_execution_timeline fake ref_ x_timeline_opts) ;;
  assert_ (match result with Err (JmErr.Transient _) => true | _ => false end).

Definition get_execution_timeline_permanent : test World :=
  do fake <- allocate FakeJourneyManagerPort_new ;;
  do _ <- on_subject (push_get_execution_timeline fake (Permanent "not found"%string)) ;;
  do ref_ <- exec_ref ;;
  do x_timeline_opts <- timeline_opts ;;
  do result <- on_subject (Fakes.get_execution_timeline fake ref_ x_timeline_opts) ;;
  assert_ (match result with Err (JmErr.Permanent _) => true | _ => false end).

Definition get_execution_timeline_panic : test World :=
  do fake <- allocate FakeJourneyManagerPort_new ;;
  do _ <- on_subject (push_get_execution_timeline fake Panic) ;;
  do ref_ <- exec_ref ;;
  do result <- spawn_await (do x_timeline_opts <- timeline_opts ;; on_subject
      (Fakes.get_execution_timeline fake ref_ x_timeline_opts)) ;;
  do e <- unwrap_err result ;;
  assert_ (is_panic e).

Definition test_create_execution_queue_ordering : test World :=
  do fake <- allocate FakeJourneyManagerPort_new ;;
  do _ <- on_subject (push_create_execution fake (Transient "first"%string)) ;;
  do x_exec_ref <- exec_ref ;;
  do _ <- on_subject (push_create_execution fake (Success x_exec_ref)) ;;
  do x_create_req <- create_req ;;
  do first <- on_subject (Fakes.create_execution fake x_create_req) ;;
  do _ <- assert_ (match first with Err (JmErr.Transient msg) => bool_decide (msg =
      "first"%string) | _ => false end) ;;
  do x_create_req2 <- create_req ;;
  do second <- on_subject (Fakes.create_execution fake x_create_req2) ;;
  assert_ (is_ok second).

Definition test_create_execution_empty_queue_panics : test World :=
  do fake <- allocate FakeJourneyManagerPort_new ;;
  do result <- spawn_await (do x_create_req <- create_req ;; on_subject (Fakes.create_execution
      fake x_create_req)) ;;
  do e <- unwrap_err result ;;
  assert_ (is_panic e).

#[local] Hint Unfold FakeJourneyManagerPort_new with_lock push_back call_fake pop_reply
  cancel_execution create_execution get_execution_timeline push_cancel_execution
  push_create_execution push_get_execution_timeline
  engagement_id_new voice_profile_id_new telephony_id_new exec_ref create_req timeline_opts
  : run_test.

Definition journey_manager_tests : list (test World) :=
  [create_execution_success;
   create_execution_transient;
   create_execution_permanent;
   create_execution_unavailable;
   create_execution_panic;
   cancel_execution_success;
   cancel_execution_transient;
   cancel_execution_permanent;
   cancel_execution_panic;
   get_execution_timeline_success;
   get_execution_timeline_transient;
   get_execution_timeline_permanent;
   get_execution_timeline_panic;
   test_create_execution_queue_ordering;
   test_create_execution_empty_queue_panics].

Lemma fake_journey_manager_tests_pass w s
    : Forall (λ t, passes t (w, s) = true) journey_manager_tests.
Proof. unfold journey_manager_tests. repeat constructor; run_test. Qed.

End Tests.
