(* ===== verification/FakeVoiceManagerTests.v ===== *)
(** * The unit tests of [fake/voice_manager.rs]

    Each method of the fake is driven through its outcomes: the value, the three
    errors, an injected panic, the order of queued outcomes and an empty queue. *)
From Stdlib Require Import ZArith Floats.SpecFloat.
From stdpp Require Import base list gmap strings.
From S2P Require Import Prelude Uuids UnitTest Errors PortTypes Ports Fakes.

Section Tests.
Context `{U : UuidLib} {W : Type} `{!UuidGen W}.

(** The random source and the fakes allocated so far. *)
Local Abbreviation World := (W * Store FakeVoiceManagerInner)%type.

Definition session_ref : io World VoiceSessionRef :=
  do uid <- draw_uuid ;;
  io_ret (voice_session_ref_new uid).

Definition telephony : io World Telephony :=
  do id <- draw telephony_id_new ;;
  io_ret {| tel_id := id; tel_org_id := "org-1"%string; tel_phone_number := "+1234567890"%string
      |}.

Definition start_req : io World StartVoiceSessionReq :=
  do id <- draw engagement_id_new ;;
  io_ret {| sv_engagement_id := id; sv_org_id := "org-1"%string |}.

Definition issue_token_req : io World IssueTestTokenReq :=
  io_ret {| it_org_id := "org-1"%string |}.

Definition create_telephony_req : io World CreateTelephonyReq :=
  io_ret {| ct_org_id := "org-1"%string; ct_phone_number := "+1234567890"%string |}.

Definition list_telephonies_req : io World ListTelephoniesReq :=
  io_ret {| lt_org_id := "org-1"%string; lt_page_token := None |}.

Definition update_telephony_req : io World UpdateTelephonyReq :=
  do id <- draw telephony_id_new ;;
  io_ret {| ut_id := id; ut_phone_number := "+0987654321"%string |}.

Definition start_voice_session_success : test World :=
  do fake <- allocate FakeVoiceManagerPort_new ;;
  do id <- draw_uuid ;;
  do _ <- on_subject (push_start_voice_session fake (Success (voice_session_ref_new id))) ;;
  do x_start_req <- start_req ;;
  do r <- on_subject (Fakes.start_voice_session fake x_start_req) ;;
  do result <- unwrap r ;;
  assert_eq (voice_session_ref_as_uuid result) id.

Definition start_voice_session_transient : test World :=
  do fake <- allocate FakeVoiceManagerPort_new ;;
  do _ <- on_subject (push_start_voice_session fake (Transient "timeout"%string)) ;;
  do x_start_req <- start_req ;;
  do result <- on_subject (Fakes.start_voice_session fake x_start_req) ;;
  assert_ (match result with Err (VmErr.Transient _) => true | _ => false end).

Definition start_voice_session_permanent : test World :=
  do fake <- allocate FakeVoiceManagerPort_new ;;
  do _ <- on_subject (push_start_voice_session fake (Permanent "invalid"%string)) ;;
  do x_start_req <- start_req ;;
  do result <- on_subject (Fakes.start_voice_session fake x_start_req) ;;
  assert_ (match result with Err (VmErr.Permanent _) => true | _ => false end).

Definition start_voice_session_unavailable : test World :=
  do fake <- allocate FakeVoiceManagerPort_new ;;
  do _ <- on_subject (push_start_voice_session fake Unavailable) ;;
  do x_start_req <- start_req ;;
  do result <- on_subject (Fakes.start_voice_session fake x_start_req) ;;
  assert_ (match result with Err VmErr.Unavailable => true | _ => false end).

Definition start_voice_session_panic : test World :=
  do fake <- allocate FakeVoiceManagerPort_new ;;
  do _ <- on_subject (push_start_voice_session fake Panic) ;;
  do result <- spawn_await (do x_start_req <- start_req ;; on_subject (Fakes.start_voice_session
      fake x_start_req)) ;;
  do e <- unwrap_err result ;;
  assert_ (is_panic e).

Definition stop_voice_session_success : test World :=
  do fake <- allocate FakeVoiceManagerPort_new ;;
  do _ <- on_subject (push_stop_voice_session fake (Success tt)) ;;
  do ref_ <- session_ref ;;
  do result <- on_subject (Fakes.stop_voice_session fake ref_ Graceful) ;;
  assert_ (is_ok result).

Definition stop_voice_session_transient : test World :=
  do fake <- allocate FakeVoiceManagerPort_new ;;
  do _ <- on_subject (push_stop_voice_session fake (Transient "timeout"%string)) ;;
  do ref_ <- session_ref ;;
  do result <- on_subject (Fakes.stop_voice_session fake ref_ Graceful) ;;
  assert_ (match result with Err (VmErr.Transient _) => true | _ => false end).

Definition stop_voice_session_permanent : test World :=
  do fake <- allocate FakeVoiceManagerPort_new ;;
  do _ <- on_subject (push_stop_voice_session fake (Permanent "not found"%string)) ;;
  do ref_ <- session_ref ;;
  do result <- on_subject (Fakes.stop_voice_session fake ref_ Graceful) ;;
  assert_ (match result with Err (VmErr.Permanent _) => true | _ => false end).

Definition stop_voice_session_panic : test World :=
  do fake <- allocate FakeVoiceManagerPort_new ;;
  do _ <- on_subject (push_stop_voice_session fake Panic) ;;
  do ref_ <- session_ref ;;
  do result <- spawn_await (on_subject (Fakes.stop_voice_session fake ref_ Graceful)) ;;
  do e <- unwrap_err result ;;
  assert_ (is_panic e).

Definition issue_test_token_success : test World :=
  do fake <- allocate FakeVoiceManagerPort_new ;;
  do _ <- on_subject (push_issue_test_token fake (Success {| tt_token := "tok123"%string |})) ;;
  do x_issue_token_req <- issue_token_req ;;
  do r <- on_subject (Fakes.issue_test_token fake x_issue_token_req) ;;
  do result <- unwrap r ;;
  assert_eq (tt_token result) "tok123"%string.

Definition issue_test_token_transient : test World :=
  do fake <- allocate FakeVoiceManagerPort_new ;;
  do _ <- on_subject (push_issue_test_token fake (Transient "timeout"%string)) ;;
  do x_issue_token_req <- issue_token_req ;;
  do result <- on_subject (Fakes.issue_test_token fake x_issue_token_req) ;;
  assert_ (match result with Err (VmErr.Transient _) => true | _ => false end).

Definition issue_test_token_permanent : test World :=
  do fake <- allocate FakeVoiceManagerPort_new ;;
  do _ <- on_subject (push_issue_test_token fake (Permanent "denied"%string)) ;;
  do x_issue_token_req <- issue_token_req ;;
  do result <- on_subject (Fakes.issue_test_token fake x_issue_token_req) ;;
  assert_ (match result with Err (VmErr.Permanent _) => true | _ => false end).

Definition issue_test_token_panic : test World :=
  do fake <- allocate FakeVoiceManagerPort_new ;;
  do _ <- on_subject (push_issue_test_token fake Panic) ;;
  do result <- spawn_await (do x_issue_token_req <- issue_token_req ;; on_subject
      (Fakes.issue_test_token fake x_issue_token_req)) ;;
  do e <- unwrap_err result ;;
  assert_ (is_panic e).

Definition create_telephony_success : test World :=
  do fake <- allocate FakeVoiceManagerPort_new ;;
  do expected_id <- draw telephony_id_new ;;
  do _ <- on_subject (push_create_telephony fake (Success {| tel_id := expected_id; tel_org_id
      := "org-1"%string; tel_phone_number := "+1234567890"%string |})) ;;
  do x_create_telephony_req <- create_telephony_req ;;
  do r <- on_subject (Fakes.create_telephony fake x_create_telephony_req) ;;
  do result <- unwrap r ;;
  assert_eq (tel_id result) expected_id.

Definition create_telephony_transient : test World :=
  do fake <- allocate FakeVoiceManagerPort_new ;;
  do _ <- on_subject (push_create_telephony fake (Transient "timeout"%string)) ;;
  do x_create_telephony_req <- create_telephony_req ;;
  do result <- on_subject (Fakes.create_telephony fake x_create_telephony_req) ;;
  assert_ (match result with Err (VmErr.Transient _) => true | _ => false end).

Definition create_telephony_permanent : test World :=
  do fake <- allocate FakeVoiceManagerPort_new ;;
  do _ <- on_subject (push_create_telephony fake (Permanent "invalid"%string)) ;;
  do x_create_telephony_req <- create_telephony_req ;;
  do result <- on_subject (Fakes.create_telephony fake x_create_telephony_req) ;;
  assert_ (match result with Err (VmErr.Permanent _) => true | _ => false end).

Definition create_telephony_panic : test World :=
  do fake <- allocate FakeVoiceManagerPort_new ;;
  do _ <- on_subject (push_create_telephony fake Panic) ;;
  do result <- spawn_await (do x_create_telephony_req <- create_telephony_req ;; on_subject
      (Fakes.create_telephony fake x_create_telephony_req)) ;;
  do e <- unwrap_err result ;;
  assert_ (is_panic e).

Definition list_telephonies_success : test World :=
  do fake <- allocate FakeVoiceManagerPort_new ;;
  do x_telephony <- telephony ;;
  do _ <- on_subject (push_list_telephonies fake (Success [x_telephony])) ;;
  do x_list_telephonies_req <- list_telephonies_req ;;
  do result <- on_subject (Fakes.list_telephonies fake x_list_telephonies_req) ;;
  assert_ (is_ok result).

Definition list_telephonies_transient : test World :=
  do fake <- allocate FakeVoiceManagerPort_new ;;
  do _ <- on_subject (push_list_telephonies fake (Transient "timeout"%string)) ;;
  do x_list_telephonies_req <- list_telephonies_req ;;
  do result <- on_subject (Fakes.list_telephonies fake x_list_telephonies_req) ;;
  assert_ (match result with Err (VmErr.Transient _) => true | _ => false end).

Definition list_telephonies_permanent : test World :=
  do fake <- allocate FakeVoiceManagerPort_new ;;
  do _ <- on_subject (push_list_telephonies fake (Permanent "forbidden"%string)) ;;
  do x_list_telephonies_req <- list_telephonies_req ;;
  do result <- on_subject (Fakes.list_telephonies fake x_list_telephonies_req) ;;
  assert_ (match result with Err (VmErr.Permanent _) => true | _ => false end).

Definition list_telephonies_panic : test World :=
  do fake <- allocate FakeVoiceManagerPort_new ;;
  do _ <- on_subject (push_list_telephonies fake Panic) ;;
  do result <- spawn_await (do x_list_telephonies_req <- list_telephonies_req ;; on_subject
      (Fakes.list_telephonies fake x_list_telephonies_req)) ;;
  do e <- unwrap_err result ;;
  assert_ (is_panic e).

Definition get_telephony_success : test World :=
  do fake <- allocate FakeVoiceManagerPort_new ;;
  do expected_id <- draw telephony_id_new ;;
  do _ <- on_subject (push_get_telephony fake (Success {| tel_id := expected_id; tel_org_id :=
      "org-1"%string; tel_phone_number := "+1234567890"%string |})) ;;
  do lookup_id <- draw telephony_id_new ;;
  do r <- on_subject (Fakes.get_telephony fake lookup_id) ;;
  do result <- unwrap r ;;
  assert_eq (tel_id result) expected_id.

Definition get_telephony_transient : test World :=
  do fake <- allocate FakeVoiceManagerPort_new ;;
  do _ <- on_subject (push_get_telephony fake (Transient "timeout"%string)) ;;
  do id <- draw telephony_id_new ;;
  do result <- on_subject (Fakes.get_telephony fake id) ;;
  assert_ (match result with Err (VmErr.Transient _) => true | _ => false end).

Definition get_telephony_permanent : test World :=
  do fake <- allocate FakeVoiceManagerPort_new ;;
  do _ <- on_subject (push_get_telephony fake (Permanent "not found"%string)) ;;
  do id <- draw telephony_id_new ;;
  do result <- on_subject (Fakes.get_telephony fake id) ;;
  assert_ (match result with Err (VmErr.Permanent _) => true | _ => false end).

Definition get_telephony_panic : test World :=
  do fake <- allocate FakeVoiceManagerPort_new ;;
  do _ <- on_subject (push_get_telephony fake Panic) ;;
  do id <- draw telephony_id_new ;;
  do result <- spawn_await (on_subject (Fakes.get_telephony fake id)) ;;
  do e <- unwrap_err result ;;
  assert_ (is_panic e).

Definition update_telephony_success : test World :=
  do fake <- allocate FakeVoiceManagerPort_new ;;
  do expected_id <- draw telephony_id_new ;;
  do _ <- on_subject (push_update_telephony fake (Success {| tel_id := expected_id; tel_org_id
      := "org-1"%string; tel_phone_number := "+0987654321"%string |})) ;;
  do x_update_telephony_req <- update_telephony_req ;;
  do r <- on_subject (Fakes.update_telephony fake x_update_telephony_req) ;;
  do result <- unwrap r ;;
  assert_eq (tel_id result) expected_id.

Definition update_telephony_transient : test World :=
  do fake <- allocate FakeVoiceManagerPort_new ;;
  do _ <- on_subject (push_update_telephony fake (Transient "timeout"%string)) ;;
  do x_update_telephony_req <- update_telephony_req ;;
  do result <- on_subject (Fakes.update_telephony fake x_update_telephony_req) ;;
  assert_ (match result with Err (VmErr.Transient _) => true | _ => false end).

Definition update_telephony_permanent : test World :=
  do fake <- allocate FakeVoiceManagerPort_new ;;
  do _ <- on_subject (push_update_telephony fake (Permanent "conflict"%string)) ;;
  do x_update_telephony_req <- update_telephony_req ;;
  do result <- on_subject (Fakes.update_telephony fake x_update_telephony_req) ;;
  assert_ (match result with Err (VmErr.Permanent _) => true | _ => false end).

Definition update_telephony_panic : test World :=
  do fake <- allocate FakeVoiceManagerPort_new ;;
  do _ <- on_subject (push_update_telephony fake Panic) ;;
  do result <- spawn_await (do x_update_telephony_req <- update_telephony_req ;; on_subject
      (Fakes.update_telephony fake x_update_telephony_req)) ;;
  do e <- unwrap_err result ;;
  assert_ (is_panic e).

Definition delete_telephony_success : test World :=
  do fake <- allocate FakeVoiceManagerPort_new ;;
  do _ <- on_subject (push_delete_telephony fake (Success tt)) ;;
  do id <- draw telephony_id_new ;;
  do result <- on_subject (Fakes.delete_telephony fake id "none"%string) ;;
  assert_ (is_ok result).

Definition delete_telephony_transient : test World :=
  do fake <- allocate FakeVoiceManagerPort_new ;;
  do _ <- on_subject (push_delete_telephony fake (Transient "timeout"%string)) ;;
  do id <- draw telephony_id_new ;;
  do result <- on_subject (Fakes.delete_telephony fake id "none"%string) ;;
  assert_ (match result with Err (VmErr.Transient _) => true | _ => false end).

Definition delete_telephony_permanent : test World :=
  do fake <- allocate FakeVoiceManagerPort_new ;;
  do _ <- on_subject (push_delete_telephony fake (Permanent "not found"%string)) ;;
  do id <- draw telephony_id_new ;;
  do result <- on_subject (Fakes.delete_telephony fake id "none"%string) ;;
  assert_ (match result with Err (VmErr.Permanent _) => true | _ => false end).

Definition delete_telephony_panic : test World :=
  do fake <- allocate FakeVoiceManagerPort_new ;;
  do _ <- on_subject (push_delete_telephony fake Panic) ;;
  do id <- draw telephony_id_new ;;
  do result <- spawn_await (on_subject (Fakes.delete_telephony fake id "none"%string)) ;;
  do e <- unwrap_err result ;;
  assert_ (is_panic e).

Definition test_start_voice_session_queue_ordering : test World :=
  do fake <- allocate FakeVoiceManagerPort_new ;;
  do _ <- on_subject (push_start_voice_session fake (Transient "first"%string)) ;;
  do x_session_ref <- session_ref ;;
  do _ <- on_subject (push_start_voice_session fake (Success x_session_ref)) ;;
  do x_start_req <- start_req ;;
  do first <- on_subject (Fakes.start_voice_session fake x_start_req) ;;
  do _ <- assert_ (match first with Err (VmErr.Transient msg) => bool_decide (msg =
      "first"%string) | _ => false end) ;;
  do x_start_req2 <- start_req ;;
  do second <- on_subject (Fakes.start_voice_session fake x_start_req2) ;;
  assert_ (is_ok second).

Definition test_start_voice_session_empty_queue_panics : test World :=
  do fake <- allocate FakeVoiceManagerPort_new ;;
  do result <- spawn_await (do x_start_req <- start_req ;; on_subject (Fakes.start_voice_session
      fake x_start_req)) ;;
  do e <- unwrap_err result ;;
  assert_ (is_panic e).

#[local] Hint Unfold FakeVoiceManagerPort_new with_lock push_back call_fake pop_reply
  create_telephony delete_telephony get_telephony issue_test_token list_telephonies
  push_create_telephony push_delete_telephony push_get_telephony push_issue_test_token
  push_list_telephonies push_start_voice_session push_stop_voice_session push_update_telephony
  start_voice_session stop_voice_session update_telephony
  engagement_id_new voice_profile_id_new telephony_id_new session_ref telephony start_req
  issue_token_req create_telephony_req list_telephonies_req update_telephony_req
  : run_test.

Definition voice_manager_tests : list (test World) :=
  [start_voice_session_success;
   start_voice_session_transient;
   start_voice_session_permanent;
   start_voice_session_unavailable;
   start_voice_session_panic;
   stop_voice_session_success;
   stop_voice_session_transient;
   stop_voice_session_permanent;
   stop_voice_session_panic;
   issue_test_token_success;
   issue_test_token_transient;
   issue_test_token_permanent;
   issue_test_token_panic;
   create_telephony_success;
   create_telephony_transient;
   create_telephony_permanent;
   create_telephony_panic;
   list_telephonies_success;
   list_telephonies_transient;
   list_telephonies_permanent;
   list_telephonies_panic;
   get_telephony_success;
   get_telephony_transient;
   get_telephony_permanent;
   get_telephony_panic;
   update_telephony_success;
   update_telephony_transient;
   update_telephony_permanent;
   update_telephony_panic;
   delete_telephony_success;
   delete_telephony_transient;
   delete_telephony_permanent;
   delete_telephony_panic;
   test_start_voice_session_queue_ordering;
   test_start_voice_session_empty_queue_panics].

Lemma fake_voice_manager_tests_pass w s : Forall (λ t, passes t (w, s) = true) voice_manager_tests.
Proof. unfold voice_manager_tests. repeat constructor; run_test. Qed.

End Tests.
