(* ===== verification/FakePostCallTests.v ===== *)
(** * The unit tests of [fake/post_call.rs]

    Each method of the fake is driven through its outcomes: the value, the three
    errors, an injected panic, the order of queued outcomes and an empty queue. *)
From Stdlib Require Import ZArith Floats.SpecFloat.
From stdpp Require Import base list gmap strings.
From S2P Require Import Prelude Uuids UnitTest Errors PortTypes Ports Fakes.

Section Tests.
Context `{U : UuidLib} {W : Type} `{!UuidGen W}.

(** The random source and the fakes allocated so far. *)
Local Abbreviation World := (W * Store FakePostCallInner)%type.

Definition eng_id : io World EngagementId :=
  do id <- draw engagement_id_new ;;
  io_ret id.

Definition empty_page : io World (Page CallLog) :=
  io_ret {| pg_items := []; pg_total_size := (Some 0); pg_next_page_token := None |}.

Definition agent_req : io World ListAgentCallLogsReq :=
  io_ret {| la_agent_id := "agent-1"%string; la_skip := None; la_limit := None; la_start_date :=
      None; la_end_date := None; la_identity := None; la_id := None; la_batch_id := None |}.

Definition org_req : io World ListOrgCallLogsReq :=
  io_ret {| lo_org_id := "org-1"%string; lo_skip := None; lo_limit := None; lo_start_date :=
      None; lo_end_date := None; lo_contact_number := None; lo_call_id := None |}.

Definition get_transcript_success : test World :=
  do fake <- allocate FakePostCallPort_new ;;
  do _ <- on_subject (push_get_transcript fake (Success {| tr_messages := []; tr_total_size := 3
      |})) ;;
  do x_eng_id <- eng_id ;;
  do r <- on_subject (Fakes.get_transcript fake x_eng_id) ;;
  do result <- unwrap r ;;
  do _ <- assert_eq (tr_total_size result) 3 ;;
  assert_ (match tr_messages result with [] => true | _ => false end).

Definition get_transcript_transient : test World :=
  do fake <- allocate FakePostCallPort_new ;;
  do _ <- on_subject (push_get_transcript fake (Transient "timeout"%string)) ;;
  do x_eng_id <- eng_id ;;
  do result <- on_subject (Fakes.get_transcript fake x_eng_id) ;;
  assert_ (match result with Err (PostCallErr.Transient _) => true | _ => false end).

Definition get_transcript_permanent : test World :=
  do fake <- allocate FakePostCallPort_new ;;
  do _ <- on_subject (push_get_transcript fake (Permanent "not found"%string)) ;;
  do x_eng_id <- eng_id ;;
  do result <- on_subject (Fakes.get_transcript fake x_eng_id) ;;
  assert_ (match result with Err (PostCallErr.Permanent _) => true | _ => false end).

Definition get_transcript_unavailable : test World :=
  do fake <- allocate FakePostCallPort_new ;;
  do _ <- on_subject (push_get_transcript fake Unavailable) ;;
  do x_eng_id <- eng_id ;;
  do result <- on_subject (Fakes.get_transcript fake x_eng_id) ;;
  assert_ (match result with Err PostCallErr.Unavailable => true | _ => false end).

Definition get_transcript_panic : test World :=
  do fake <- allocate FakePostCallPort_new ;;
  do _ <- on_subject (push_get_transcript fake Panic) ;;
  do id <- eng_id ;;
  do result <- spawn_await (on_subject (Fakes.get_transcript fake id)) ;;
  do e <- unwrap_err result ;;
  assert_ (is_panic e).

Definition get_summary_success : test World :=
  do fake <- allocate FakePostCallPort_new ;;
  do _ <- on_subject (push_get_summary fake (Success {| sum_summary := "test summary"%string;
      sum_resolution := None; sum_resolution_explanation := None |})) ;;
  do x_eng_id <- eng_id ;;
  do r <- on_subject (Fakes.get_summary fake x_eng_id) ;;
  do result <- unwrap r ;;
  assert_eq (sum_summary result) "test summary"%string.

Definition get_summary_transient : test World :=
  do fake <- allocate FakePostCallPort_new ;;
  do _ <- on_subject (push_get_summary fake (Transient "timeout"%string)) ;;
  do x_eng_id <- eng_id ;;
  do result <- on_subject (Fakes.get_summary fake x_eng_id) ;;
  assert_ (match result with Err (PostCallErr.Transient _) => true | _ => false end).

Definition get_summary_permanent : test World :=
  do fake <- allocate FakePostCallPort_new ;;
  do _ <- on_subject (push_get_summary fake (Permanent "not found"%string)) ;;
  do x_eng_id <- eng_id ;;
  do result <- on_subject (Fakes.get_summary fake x_eng_id) ;;
  assert_ (match result with Err (PostCallErr.Permanent _) => true | _ => false end).

Definition get_summary_panic : test World :=
  do fake <- allocate FakePostCallPort_new ;;
  do _ <- on_subject (push_get_summary fake Panic) ;;
  do id <- eng_id ;;
  do result <- spawn_await (on_subject (Fakes.get_summary fake id)) ;;
  do e <- unwrap_err result ;;
  assert_ (is_panic e).

Definition get_sentiment_success : test World :=
  do fake <- allocate FakePostCallPort_new ;;
  do _ <- on_subject (push_get_sentiment fake (Success {| sen_label := "neutral"%string;
      sen_justification := "no data"%string |})) ;;
  do x_eng_id <- eng_id ;;
  do r <- on_subject (Fakes.get_sentiment fake x_eng_id) ;;
  do result <- unwrap r ;;
  assert_eq (sen_label result) "neutral"%string.

Definition get_sentiment_transient : test World :=
  do fake <- allocate FakePostCallPort_new ;;
  do _ <- on_subject (push_get_sentiment fake (Transient "timeout"%string)) ;;
  do x_eng_id <- eng_id ;;
  do result <- on_subject (Fakes.get_sentiment fake x_eng_id) ;;
  assert_ (match result with Err (PostCallErr.Transient _) => true | _ => false end).

Definition get_sentiment_permanent : test World :=
  do fake <- allocate FakePostCallPort_new ;;
  do _ <- on_subject (push_get_sentiment fake (Permanent "not found"%string)) ;;
  do x_eng_id <- eng_id ;;
  do result <- on_subject (Fakes.get_sentiment fake x_eng_id) ;;
  assert_ (match result with Err (PostCallErr.Permanent _) => true | _ => false end).

Definition get_sentiment_panic : test World :=
  do fake <- allocate FakePostCallPort_new ;;
  do _ <- on_subject (push_get_sentiment fake Panic) ;;
  do id <- eng_id ;;
  do result <- spawn_await (on_subject (Fakes.get_sentiment fake id)) ;;
  do e <- unwrap_err result ;;
  assert_ (is_panic e).

Definition get_output_extraction_success : test World :=
  do fake <- allocate FakePostCallPort_new ;;
  do _ <- on_subject (push_get_output_extraction fake (Success {| oe_fields := [] |})) ;;
  do x_eng_id <- eng_id ;;
  do result <- on_subject (Fakes.get_output_extraction fake x_eng_id) ;;
  assert_ (is_ok result).

Definition get_output_extraction_transient : test World :=
  do fake <- allocate FakePostCallPort_new ;;
  do _ <- on_subject (push_get_output_extraction fake (Transient "timeout"%string)) ;;
  do x_eng_id <- eng_id ;;
  do result <- on_subject (Fakes.get_output_extraction fake x_eng_id) ;;
  assert_ (match result with Err (PostCallErr.Transient _) => true | _ => false end).

Definition get_output_extraction_permanent : test World :=
  do fake <- allocate FakePostCallPort_new ;;
  do _ <- on_subject (push_get_output_extraction fake (Permanent "not found"%string)) ;;
  do x_eng_id <- eng_id ;;
  do result <- on_subject (Fakes.get_output_extraction fake x_eng_id) ;;
  assert_ (match result with Err (PostCallErr.Permanent _) => true | _ => false end).

Definition get_output_extraction_panic : test World :=
  do fake <- allocate FakePostCallPort_new ;;
  do _ <- on_subject (push_get_output_extraction fake Panic) ;;
  do id <- eng_id ;;
  do result <- spawn_await (on_subject (Fakes.get_output_extraction fake id)) ;;
  do e <- unwrap_err result ;;
  assert_ (is_panic e).

Definition list_agent_call_logs_success : test World :=
  do fake <- allocate FakePostCallPort_new ;;
  do x_empty_page <- empty_page ;;
  do _ <- on_subject (push_list_agent_call_logs fake (Success x_empty_page)) ;;
  do x_agent_req <- agent_req ;;
  do result <- on_subject (Fakes.list_agent_call_logs fake x_agent_req) ;;
  assert_ (is_ok result).

Definition list_agent_call_logs_transient : test World :=
  do fake <- allocate FakePostCallPort_new ;;
  do _ <- on_subject (push_list_agent_call_logs fake (Transient "timeout"%string)) ;;
  do x_agent_req <- agent_req ;;
  do result <- on_subject (Fakes.list_agent_call_logs fake x_agent_req) ;;
  assert_ (match result with Err (PostCallErr.Transient _) => true | _ => false end).

Definition list_agent_call_logs_permanent : test World :=
  do fake <- allocate FakePostCallPort_new ;;
  do _ <- on_subject (push_list_agent_call_logs fake (Permanent "forbidden"%string)) ;;
  do x_agent_req <- agent_req ;;
  do result <- on_subject (Fakes.list_agent_call_logs fake x_agent_req) ;;
  assert_ (match result with Err (PostCallErr.Permanent _) => true | _ => false end).

Definition list_agent_call_logs_panic : test World :=
  do fake <- allocate FakePostCallPort_new ;;
  do _ <- on_subject (push_list_agent_call_logs fake Panic) ;;
  do result <- spawn_await (do x_agent_req <- agent_req ;; on_subject
      (Fakes.list_agent_call_logs fake x_agent_req)) ;;
  do e <- unwrap_err result ;;
  assert_ (is_panic e).

Definition list_org_call_logs_success : test World :=
  do fake <- allocate FakePostCallPort_new ;;
  do x_empty_page <- empty_page ;;
  do _ <- on_subject (push_list_org_call_logs fake (Success x_empty_page)) ;;
  do x_org_req <- org_req ;;
  do result <- on_subject (Fakes.list_org_call_logs fake x_org_req) ;;
  assert_ (is_ok result).

Definition list_org_call_logs_transient : test World :=
  do fake <- allocate FakePostCallPort_new ;;
  do _ <- on_subject (push_list_org_call_logs fake (Transient "timeout"%string)) ;;
  do x_org_req <- org_req ;;
  do result <- on_subject (Fakes.list_org_call_logs fake x_org_req) ;;
  assert_ (match result with Err (PostCallErr.Transient _) => true | _ => false end).

Definition list_org_call_logs_permanent : test World :=
  do fake <- allocate FakePostCallPort_new ;;
  do _ <- on_subject (push_list_org_call_logs fake (Permanent "forbidden"%string)) ;;
  do x_org_req <- org_req ;;
  do result <- on_subject (Fakes.list_org_call_logs fake x_org_req) ;;
  assert_ (match result with Err (PostCallErr.Permanent _) => true | _ => false end).

Definition list_org_call_logs_panic : test World :=
  do fake <- allocate FakePostCallPort_new ;;
  do _ <- on_subject (push_list_org_call_logs fake Panic) ;;
  do result <- spawn_await (do x_org_req <- org_req ;; on_subject (Fakes.list_org_call_logs fake
      x_org_req)) ;;
  do e <- unwrap_err result ;;
  assert_ (is_panic e).

Definition test_get_transcript_queue_ordering : test World :=
  do fake <- allocate FakePostCallPort_new ;;
  do _ <- on_subject (push_get_transcript fake (Transient "first"%string)) ;;
  do _ <- on_subject (push_get_transcript fake (Success {| tr_messages := []; tr_total_size := 0
      |})) ;;
  do x_eng_id <- eng_id ;;
  do first <- on_subject (Fakes.get_transcript fake x_eng_id) ;;
  do _ <- assert_ (match first with Err (PostCallErr.Transient msg) => bool_decide (msg =
      "first"%string) | _ => false end) ;;
  do x_eng_id2 <- eng_id ;;
  do second <- on_subject (Fakes.get_transcript fake x_eng_id2) ;;
  assert_ (is_ok second).

Definition test_get_transcript_empty_queue_panics : test World :=
  do fake <- allocate FakePostCallPort_new ;;
  do id <- eng_id ;;
  do result <- spawn_await (on_subject (Fakes.get_transcript fake id)) ;;
  do e <- unwrap_err result ;;
  assert_ (is_panic e).

#[local] Hint Unfold FakePostCallPort_new with_lock push_back call_fake pop_reply
  get_output_extraction get_sentiment get_summary get_transcript list_agent_call_logs
  list_org_call_logs push_get_output_extraction push_get_sentiment push_get_summary
  push_get_transcript push_list_agent_call_logs push_list_org_call_logs
  engagement_id_new voice_profile_id_new telephony_id_new eng_id empty_page agent_req org_req
  : run_test.

Definition post_call_tests : list (test World) :=
  [get_transcript_success;
   get_transcript_transient;
   get_transcript_permanent;
   get_transcript_unavailable;
   get_transcript_panic;
   get_summary_success;
   get_summary_transient;
   get_summary_permanent;
   get_summary_panic;
   get_sentiment_success;
   get_sentiment_transient;
   get_sentiment_permanent;
   get_sentiment_panic;
   get_output_extraction_success;
   get_output_extraction_transient;
   get_output_extraction_permanent;
   get_output_extraction_panic;
   list_agent_call_logs_success;
   list_agent_call_logs_transient;
   list_agent_call_logs_permanent;
   list_agent_call_logs_panic;
   list_org_call_logs_success;
   list_org_call_logs_transient;
   list_org_call_logs_permanent;
   list_org_call_logs_panic;
   test_get_transcript_queue_ordering;
   test_get_transcript_empty_queue_panics].

Lemma fake_post_call_tests_pass w s : Forall (λ t, passes t (w, s) = true) post_call_tests.
Proof. unfold post_call_tests. repeat constructor; run_test. Qed.

End Tests.
