(* ===== verification/FakeAnalyticsTests.v ===== *)
(** * The unit tests of [fake/analytics.rs]

    Each method of the fake is driven through its outcomes: the value, the three
    errors, an injected panic, the order of queued outcomes and an empty queue. *)
From Stdlib Require Import ZArith Floats.SpecFloat.
From stdpp Require Import base list gmap strings.
From S2P Require Import Prelude Uuids UnitTest Errors PortTypes Ports Fakes.

Section Tests.
Context `{U : UuidLib} {W : Type} `{!UuidGen W}.

(** The random source and the fakes allocated so far. *)
Local Abbreviation World := (W * Store FakeAnalyticsInner)%type.

Definition empty_analytics : io World Analytics :=
  io_ret {| an_average_conversation_duration := (S754_zero false); an_containment_rate :=
      (S754_zero false); an_customer_satisfaction_rate := (S754_zero false); an_dropoff_rate :=
      (S754_zero false); an_escalation_rate := (S754_zero false); an_total_inquiries := 0;
      an_category_counts := ∅ |}.

Definition empty_metrics : io World Metrics :=
  io_ret {| me_categories := []; me_series := [] |}.

Definition agent_analytics_req : io World GetAgentAnalyticsReq :=
  io_ret {| gaa_agent_id := "agent-1"%string; gaa_metric := None; gaa_granularity := None;
      gaa_start_date := None; gaa_end_date := None |}.

Definition agent_metrics_req : io World GetAgentMetricsReq :=
  io_ret {| gam_agent_id := "agent-1"%string; gam_metric := None; gam_granularity := None;
      gam_start_date := None; gam_end_date := None |}.

Definition org_analytics_req : io World GetOrgAnalyticsReq :=
  io_ret {| goa_org_id := "org-1"%string; goa_metric := None; goa_granularity := None;
      goa_start_date := None; goa_end_date := None |}.

Definition org_metrics_req : io World GetOrgMetricsReq :=
  io_ret {| gom_org_id := "org-1"%string; gom_metric := None; gom_granularity := None;
      gom_start_date := None; gom_end_date := None |}.

Definition get_agent_analytics_success : test World :=
  do fake <- allocate FakeAnalyticsPort_new ;;
  do x_empty_analytics <- empty_analytics ;;
  do _ <- on_subject (push_get_agent_analytics fake (Success x_empty_analytics)) ;;
  do x_agent_analytics_req <- agent_analytics_req ;;
  do result <- on_subject (Fakes.get_agent_analytics fake x_agent_analytics_req) ;;
  assert_ (is_ok result).

Definition get_agent_analytics_transient : test World :=
  do fake <- allocate FakeAnalyticsPort_new ;;
  do _ <- on_subject (push_get_agent_analytics fake (Transient "timeout"%string)) ;;
  do x_agent_analytics_req <- agent_analytics_req ;;
  do result <- on_subject (Fakes.get_agent_analytics fake x_agent_analytics_req) ;;
  assert_ (match result with Err (AnalyticsErr.Transient _) => true | _ => false end).

Definition get_agent_analytics_permanent : test World :=
  do fake <- allocate FakeAnalyticsPort_new ;;
  do _ <- on_subject (push_get_agent_analytics fake (Permanent "forbidden"%string)) ;;
  do x_agent_analytics_req <- agent_analytics_req ;;
  do result <- on_subject (Fakes.get_agent_analytics fake x_agent_analytics_req) ;;
  assert_ (match result with Err (AnalyticsErr.Permanent _) => true | _ => false end).

Definition get_agent_analytics_unavailable : test World :=
  do fake <- allocate FakeAnalyticsPort_new ;;
  do _ <- on_subject (push_get_agent_analytics fake Unavailable) ;;
  do x_agent_analytics_req <- agent_analytics_req ;;
  do result <- on_subject (Fakes.get_agent_analytics fake x_agent_analytics_req) ;;
  assert_ (match result with Err AnalyticsErr.Unavailable => true | _ => false end).

Definition get_agent_analytics_panic : test World :=
  do fake <- allocate FakeAnalyticsPort_new ;;
  do _ <- on_subject (push_get_agent_analytics fake Panic) ;;
  do result <- spawn_await (do x_agent_analytics_req <- agent_analytics_req ;; on_subject
      (Fakes.get_agent_analytics fake x_agent_analytics_req)) ;;
  do e <- unwrap_err result ;;
  assert_ (is_panic e).

Definition get_agent_metrics_success : test World :=
  do fake <- allocate FakeAnalyticsPort_new ;;
  do x_empty_metrics <- empty_metrics ;;
  do _ <- on_subject (push_get_agent_metrics fake (Success x_empty_metrics)) ;;
  do x_agent_metrics_req <- agent_metrics_req ;;
  do result <- on_subject (Fakes.get_agent_metrics fake x_agent_metrics_req) ;;
  assert_ (is_ok result).

Definition get_agent_metrics_transient : test World :=
  do fake <- allocate FakeAnalyticsPort_new ;;
  do _ <- on_subject (push_get_agent_metrics fake (Transient "timeout"%string)) ;;
  do x_agent_metrics_req <- agent_metrics_req ;;
  do result <- on_subject (Fakes.get_agent_metrics fake x_agent_metrics_req) ;;
  assert_ (match result with Err (AnalyticsErr.Transient _) => true | _ => false end).

Definition get_agent_metrics_permanent : test World :=
  do fake <- allocate FakeAnalyticsPort_new ;;
  do _ <- on_subject (push_get_agent_metrics fake (Permanent "forbidden"%string)) ;;
  do x_agent_metrics_req <- agent_metrics_req ;;
  do result <- on_subject (Fakes.get_agent_metrics fake x_agent_metrics_req) ;;
  assert_ (match result with Err (AnalyticsErr.Permanent _) => true | _ => false end).

Definition get_agent_metrics_panic : test World :=
  do fake <- allocate FakeAnalyticsPort_new ;;
  do _ <- on_subject (push_get_agent_metrics fake Panic) ;;
  do result <- spawn_await (do x_agent_metrics_req <- agent_metrics_req ;; on_subject
      (Fakes.get_agent_metrics fake x_agent_metrics_req)) ;;
  do e <- unwrap_err result ;;
  assert_ (is_panic e).

Definition get_org_analytics_success : test World :=
  do fake <- allocate FakeAnalyticsPort_new ;;
  do x_empty_analytics <- empty_analytics ;;
  do _ <- on_subject (push_get_org_analytics fake (Success x_empty_analytics)) ;;
  do x_org_analytics_req <- org_analytics_req ;;
  do result <- on_subject (Fakes.get_org_analytics fake x_org_analytics_req) ;;
  assert_ (is_ok result).

Definition get_org_analytics_transient : test World :=
  do fake <- allocate FakeAnalyticsPort_new ;;
  do _ <- on_subject (push_get_org_analytics fake (Transient "timeout"%string)) ;;
  do x_org_analytics_req <- org_analytics_req ;;
  do result <- on_subject (Fakes.get_org_analytics fake x_org_analytics_req) ;;
  assert_ (match result with Err (AnalyticsErr.Transient _) => true | _ => false end).

Definition get_org_analytics_permanent : test World :=
  do fake <- allocate FakeAnalyticsPort_new ;;
  do _ <- on_subject (push_get_org_analytics fake (Permanent "forbidden"%string)) ;;
  do x_org_analytics_req <- org_analytics_req ;;
  do result <- on_subject (Fakes.get_org_analytics fake x_org_analytics_req) ;;
  assert_ (match result with Err (AnalyticsErr.Permanent _) => true | _ => false end).

Definition get_org_analytics_panic : test World :=
  do fake <- allocate FakeAnalyticsPort_new ;;
  do _ <- on_subject (push_get_org_analytics fake Panic) ;;
  do result <- spawn_await (do x_org_analytics_req <- org_analytics_req ;; on_subject
      (Fakes.get_org_analytics fake x_org_analytics_req)) ;;
  do e <- unwrap_err result ;;
  assert_ (is_panic e).

Definition get_org_metrics_success : test World :=
  do fake <- allocate FakeAnalyticsPort_new ;;
  do x_empty_metrics <- empty_metrics ;;
  do _ <- on_subject (push_get_org_metrics fake (Success x_empty_metrics)) ;;
  do x_org_metrics_req <- org_metrics_req ;;
  do result <- on_subject (Fakes.get_org_metrics fake x_org_metrics_req) ;;
  assert_ (is_ok result).

Definition get_org_metrics_transient : test World :=
  do fake <- allocate FakeAnalyticsPort_new ;;
  do _ <- on_subject (push_get_org_metrics fake (Transient "timeout"%string)) ;;
  do x_org_metrics_req <- org_metrics_req ;;
  do result <- on_subject (Fakes.get_org_metrics fake x_org_metrics_req) ;;
  assert_ (match result with Err (AnalyticsErr.Transient _) => true | _ => false end).

Definition get_org_metrics_permanent : test World :=
  do fake <- allocate FakeAnalyticsPort_new ;;
  do _ <- on_subject (push_get_org_metrics fake (Permanent "forbidden"%string)) ;;
  do x_org_metrics_req <- org_metrics_req ;;
  do result <- on_subject (Fakes.get_org_metrics fake x_org_metrics_req) ;;
  assert_ (match result with Err (AnalyticsErr.Permanent _) => true | _ => false end).

Definition get_org_metrics_panic : test World :=
  do fake <- allocate FakeAnalyticsPort_new ;;
  do _ <- on_subject (push_get_org_metrics fake Panic) ;;
  do result <- spawn_await (do x_org_metrics_req <- org_metrics_req ;; on_subject
      (Fakes.get_org_metrics fake x_org_metrics_req)) ;;
  do e <- unwrap_err result ;;
  assert_ (is_panic e).

Definition test_get_agent_analytics_queue_ordering : test World :=
  do fake <- allocate FakeAnalyticsPort_new ;;
  do _ <- on_subject (push_get_agent_analytics fake (Transient "first"%string)) ;;
  do x_empty_analytics <- empty_analytics ;;
  do _ <- on_subject (push_get_agent_analytics fake (Success x_empty_analytics)) ;;
  do x_agent_analytics_req <- agent_analytics_req ;;
  do first <- on_subject (Fakes.get_agent_analytics fake x_agent_analytics_req) ;;
  do _ <- assert_ (match first with Err (AnalyticsErr.Transient msg) => bool_decide (msg =
      "first"%string) | _ => false end) ;;
  do x_agent_analytics_req2 <- agent_analytics_req ;;
  do second <- on_subject (Fakes.get_agent_analytics fake x_agent_analytics_req2) ;;
  assert_ (is_ok second).

Definition test_get_agent_analytics_empty_queue_panics : test World :=
  do fake <- allocate FakeAnalyticsPort_new ;;
  do result <- spawn_await (do x_agent_analytics_req <- agent_analytics_req ;; on_subject
      (Fakes.get_agent_analytics fake x_agent_analytics_req)) ;;
  do e <- unwrap_err result ;;
  assert_ (is_panic e).

#[local] Hint Unfold FakeAnalyticsPort_new with_lock push_back call_fake pop_reply
  get_agent_analytics get_agent_metrics get_org_analytics get_org_metrics
  push_get_agent_analytics push_get_agent_metrics push_get_org_analytics push_get_org_metrics
  engagement_id_new voice_profile_id_new telephony_id_new empty_analytics empty_metrics
  agent_analytics_req agent_metrics_req org_analytics_req org_metrics_req
  : run_test.

Definition analytics_tests : list (test World) :=
  [get_agent_analytics_success;
   get_agent_analytics_transient;
   get_agent_analytics_permanent;
   get_agent_analytics_unavailable;
   get_agent_analytics_panic;
   get_agent_metrics_success;
   get_agent_metrics_transient;
   get_agent_metrics_permanent;
   get_agent_metrics_panic;
   get_org_analytics_success;
   get_org_analytics_transient;
   get_org_analytics_permanent;
   get_org_analytics_panic;
   get_org_metrics_success;
   get_org_metrics_transient;
   get_org_metrics_permanent;
   get_org_metrics_panic;
   test_get_agent_analytics_queue_ordering;
   test_get_agent_analytics_empty_queue_panics].

Lemma fake_analytics_tests_pass w s : Forall (λ t, passes t (w, s) = true) analytics_tests.
Proof. unfold analytics_tests. repeat constructor; run_test. Qed.

End Tests.
