(* ===== verification/FakeTests.v ===== *)
(** * The unit tests of the fakes, together *)
From stdpp Require Import base list gmap.
From S2P Require Import Prelude Uuids UnitTest PortTypes Fakes.
From S2P Require Import FakeRegistryTests FakeJourneyManagerTests FakeVoiceManagerTests.
From S2P Require Import FakePostCallTests FakeAnalyticsTests.

(** C40. The fakes pass their 107 unit tests ([mod tests] of the five files of
    [crates/engagement-hub-ports/src/fake]), translated statement by statement,
    whatever ids the random source draws and whatever fakes were allocated
    before: each method returns the value and the three errors pushed for it,
    an injected panic and an empty queue end the task that called, and queued
    outcomes come in order. *)
Theorem fake_tests_pass `{U : UuidLib} {W : Type} `{!UuidGen W} (w : W)
    (s1 : Store FakeRegistryInner) (s2 : Store FakeJourneyManagerInner)
    (s3 : Store FakeVoiceManagerInner) (s4 : Store FakePostCallInner)
    (s5 : Store FakeAnalyticsInner) :
  Forall (λ t, passes t (w, s1) = true) registry_tests
  ∧ Forall (λ t, passes t (w, s2) = true) journey_manager_tests
  ∧ Forall (λ t, passes t (w, s3) = true) voice_manager_tests
  ∧ Forall (λ t, passes t (w, s4) = true) post_call_tests
  ∧ Forall (λ t, passes t (w, s5) = true) analytics_tests.
Proof.
  split_and!; [apply fake_registry_tests_pass|apply fake_journey_manager_tests_pass
    |apply fake_voice_manager_tests_pass|apply fake_post_call_tests_pass
    |apply fake_analytics_tests_pass].
Qed.
