(* ===== verification/Net.v ===== *)
(** * Calls of an adapter to its peer

    What the seven network adapters share.  [Net] is the state an adapter
    works on: the environment (clock, random source, and the peer), the calls
    sent so far, oldest first, and the shared [AdapterMetrics].  One attempt
    sends one call and settles with the peer's answer; [retrying] runs attempts
    under a retry policy, as every adapter method does.  [follows] is the
    abstract specification of such a method, and [retrying_follows] the
    refinement theorem every adapter uses. *)
From Stdlib Require Import ZArith Lia.
From stdpp Require Import base sets list strings.
From S2P Require Import Prelude Errors Uuids Saga Policies Ports.

(** How one call to the peer ends: a reply, a failure reported by the client
    library, or a panic of the library's future. *)
Inductive wire (M F : Type) :=
| Replied (m : M)
| Failed (failure : F)
| Crashed.
Arguments Replied {M F} m.
Arguments Failed {M F} failure.
Arguments Crashed {M F}.

Record Net (W Call : Type) := mkNet {
  net_env : W;
  net_sent : list Call;
  net_metrics : AdapterMetrics
}.
Arguments mkNet {W Call}.
Arguments net_env {W Call}.
Arguments net_sent {W Call}.
Arguments net_metrics {W Call}.

(** [Ok] replies go to [on_reply], failures to [on_fail]. *)
Definition settle {M F T E} (on_reply : M → result T E) (on_fail : F → E) (x : wire M F)
  : attempt T E :=
  match x with
  | Replied m => FutureReturned (on_reply m)
  | Failed failure => FutureReturned (Err (on_fail failure))
  | Crashed => PanicInPoll
  end.

(** What the caller gets when [x] is the answer that counts. *)
Definition settled {M F T E} `{FromPanic E} (on_reply : M → result T E) (on_fail : F → E)
  (x : wire M F) : result T E := catch_panics (settle on_reply on_fail x).

Section Net.
Context {W Call : Type} `{RetryEnv W}.

(** One attempt: send the request [r], recorded as the call [tag r], and wait
    for the peer. *)
Definition attempt_call {R M F T E} (peer : R → W → wire M F * W) (tag : R → Call) (r : R)
  (on_reply : M → result T E) (on_fail : F → E) (s : W * list Call)
  : attempt T E * (W * list Call) :=
  let '(x, w') := peer r s.1 in (settle on_reply on_fail x, (w', s.2 ++ [tag r])).

(** [with_retry(config, None, target, Some(&metrics), f)] on an adapter's state. *)
Definition retrying {T E} `{IsRetryable E} `{FromPanic E} `{FromDeadline E}
  (config : RetryConfig) (target : string)
  (f : W * list Call → attempt T E * (W * list Call)) : io (Net W Call) (result T E) := λ s,
  let '(o, ((w', sent'), m')) :=
    with_retry config None target f ((net_env s, net_sent s), Some (net_metrics s)) in
  (o, mkNet w' sent' (default (net_metrics s) m')).

(** [Self { .., metrics }] in the constructors of the adapters: the shared
    metrics are part of the state. *)
Definition with_metrics {A} (adapter : A) (m : AdapterMetrics) : io (Net W Call) A := λ s,
  (Value adapter, mkNet (net_env s) (net_sent s) m).

(** [Uuid::new_v4().to_string()]. *)
Definition fresh_request_id `{U : UuidLib} `{!UuidGen W} : io (Net W Call) string := λ s,
  let '(u, w') := new_v4 (net_env s) in
  (Value (uuid_to_string u), mkNet w' (net_sent s) (net_metrics s)).

(** The id the next [fresh_request_id] gives. *)
Definition next_id `{U : UuidLib} `{!UuidGen W} (s : Net W Call) : string :=
  uuid_to_string (new_v4 (net_env s)).1.

(** ** Specification of an adapter method

    The method returns.  It sends the same request [1 .. max_attempts] times and
    nothing else; every answer before the last is retryable; it returns what
    the last answer settles to, and a retryable one only when the attempts are
    used up; the retry counters of the retries made are incremented. *)
Definition follows {R M F T E} `{IsRetryable E} `{FromPanic E}
  (cfg : RetryConfig) (target : string) (peer : R → W → wire M F * W) (tag : R → Call)
  (req : Net W Call → R)
  (on_reply : M → result T E) (on_fail : F → E) (method : io (Net W Call) (result T E)) : Prop :=
  ∀ s, ∃ before last s',
    method s = (Value (settled on_reply on_fail last), s')
    ∧ net_sent s' = net_sent s ++ replicate (S (length before)) (tag (req s))
    ∧ (S (length before) ≤ max_attempts cfg)%nat
    ∧ Forall (λ x, ∃ w, (peer (req s) w).1 = x) (before ++ [last])
    ∧ Forall (λ x, retryable_error (settled on_reply on_fail x) = true) before
    ∧ (retryable_error (settled on_reply on_fail last) = true →
       S (length before) = max_attempts cfg)
    ∧ Some (net_metrics s')
      = record_retries target 0 (length before) (Some (net_metrics s)).

Section Facts.
Context {R M F T E : Type} `{IsRetryable E} `{FromPanic E} `{FromDeadline E}.
Context (peer : R → W → wire M F * W) (tag : R → Call) (on_reply : M → result T E)
    (on_fail : F → E).

(** The history of a run: one answer of the peer and one call per attempt. *)
Definition history (sent : list Call) (r : R) (rs : list (result T E))
    (s : W * list Call) : Prop :=
  ∃ xs, rs = map (settled on_reply on_fail) xs
    ∧ Forall (λ x, ∃ w, (peer r w).1 = x) xs ∧ s.2 = sent ++ replicate (length xs) (tag r).

Lemma history_attempt sent r rs s :
  history sent r rs s →
  let x := attempt_call peer tag r on_reply on_fail s in
  history sent r (rs ++ [catch_panics x.1]) x.2.
Proof.
  destruct s as [w sent1]. intros (xs & -> & Hpeer & Hs). unfold attempt_call; simpl in *.
  destruct (peer r w) as [x w'] eqn:Hx; simpl. exists (xs ++ [x]). split_and!.
  - by rewrite map_app.
  - apply Forall_app. split; [done|]. constructor; [|done]. exists w. by rewrite Hx.
  - simpl. rewrite Hs, length_app, Nat.add_comm; simpl.
    by rewrite <- (assoc_L (++)), replicate_cons_app.
Qed.

Lemma retrying_follows cfg target (r : R) :
  config_safe cfg →
  follows cfg target peer tag (λ _, r) on_reply on_fail
    (retrying cfg target (attempt_call peer tag r on_reply on_fail)).
Proof.
  intros Hsafe [w sent m]. unfold retrying; cbn [net_env net_sent net_metrics].
  destruct (with_retry_rule (history sent r) (attempt_call peer tag r on_reply on_fail)
    (history_attempt sent r)) with (w := (w, sent)) (m := Some m) (cfg := cfg) (target := target)
    as (prev & final & [w' sent'] & -> & (xs & Hxs & Hpeer & Hsent) & Hlen & Hprev & Hmax);
    [done|intros rs b [w1 s1] Hs; simpl; by destruct (gen_range b w1)|done| |].
  { exists []. simpl. by rewrite app_nil_r. }
  destruct (exists_last (l := xs)) as (before & last & ->); [by intros ->; destruct prev|].
  rewrite map_app in Hxs. apply app_inj_tail in Hxs as [-> ->].
  rewrite length_map in *. rewrite length_app, Nat.add_comm in Hsent. simpl in Hsent.
  exists before, last. eexists. split_and!; [done|done|lia|done| |done|].
  - by apply Forall_map in Hprev.
  - simpl. by destruct (record_retries_Some target 0 (length before) m) as (m' & -> & _).
Qed.

(** Drawing a request id first changes which call is sent, nothing else. *)
Lemma follows_fresh `{U : UuidLib} `{!UuidGen W} cfg target (req : string → R)
  (method : string → io (Net W Call) (result T E)) :
  (∀ rid, follows cfg target peer tag (λ _, req rid) on_reply on_fail (method rid)) →
  follows cfg target peer tag (λ s, req (next_id s)) on_reply on_fail
    (do rid <- fresh_request_id ;; method rid).
Proof.
  intros Hm s. unfold io_bind, fresh_request_id, next_id.
  destruct (new_v4 (net_env s)) as [u w'].
  destruct (Hm (uuid_to_string u) (mkNet w' (net_sent s) (net_metrics s)))
    as (before & last & s' & -> & Hrest).
  by exists before, last, s'.
Qed.

End Facts.

(** ** Consequences of the specification *)

Section Consequences.
Context {R M F T E : Type} `{IsRetryable E} `{FromPanic E}.
Context {peer : R → W → wire M F * W} {tag : R → Call} {on_reply : M → result T E}.
Context {on_fail : F → E} {cfg : RetryConfig} {target : string} {req : Net W Call → R}.
Context {method : io (Net W Call) (result T E)}.
Context (Hm : follows cfg target peer tag req on_reply on_fail method).

Lemma follows_returns : returns method.
Proof using Hm. intros s. destruct (Hm s) as (? & ? & ? & -> & _). by eexists _, _. Qed.

(** With a single attempt the peer sees the call exactly once. *)
Lemma follows_once s :
  max_attempts cfg = 1%nat → net_sent (method s).2 = net_sent s ++ [tag (req s)].
Proof using Hm.
  intros Hone. destruct (Hm s) as (before & ? & ? & -> & Hs & Hle & _). simpl.
  rewrite Hs. by replace (length before) with 0%nat by lia.
Qed.

(** If every answer of the peer settles to the same result, the method returns
    it: after one call when it is final, else after all attempts. *)
Lemma follows_constant r s :
  (∀ w, settled on_reply on_fail (peer (req s) w).1 = r) →
  (method s).1 = Value r
  ∧ net_sent (method s).2
    = net_sent s
      ++ replicate (if retryable_error r then max_attempts cfg else 1%nat) (tag (req s)).
Proof using Hm.
  intros Hr.
  destruct (Hm s) as (before & last & s' & -> & Hs & _ & Hall & Hbefore & Hmax & _); simpl.
  apply Forall_app in Hall as [Hall [w Hw]%Forall_inv]. subst last. rewrite Hr in *.
  split; [done|]. rewrite Hs. f_equal. destruct (retryable_error r) eqn:Hretry.
  - by rewrite Hmax.
  - destruct before as [|x before]; [done|].
    apply Forall_inv in Hall as [w1 <-]. apply Forall_inv in Hbefore. by rewrite Hr, Hretry in
        Hbefore.
Qed.

(** A success comes from a reply of the peer that decodes to it. *)
Lemma follows_Ok s v :
  (method s).1 = Value (Ok v) →
  ∃ w m, (peer (req s) w).1 = Replied m ∧ on_reply m = Ok v.
Proof using Hm.
  intros Hv. destruct (Hm s) as (before & last & s' & Heq & _ & _ & Hall & _).
  rewrite Heq in Hv. simpl in Hv. injection Hv as Hv.
  apply Forall_app in Hall as [_ [w Hw]%Forall_inv].
  destruct last as [m| |]; simplify_eq/=. by exists w, m.
Qed.

(** All calls of one run are the same call, and their number is bounded. *)
Lemma follows_sent s :
  ∃ r k s', method s = (Value r, s') ∧ (1 ≤ k ≤ max_attempts cfg)%nat
  ∧ net_sent s' = net_sent s ++ replicate k (tag (req s)).
Proof using Hm.
  destruct (Hm s) as (before & last & s' & -> & Hs & Hle & _).
  eexists _, (S (length before)), s'. split_and!; [done|lia|done|done].
Qed.

End Consequences.
End Net.

Lemma shipped_safe cfg :
  cfg ∈ [REGISTRY_RESOLVE_RETRY; DEFAULT_RETRY; WRITE_RETRY; CLEANUP_RETRY; GRACEFUL_STOP_RETRY] →
  config_safe cfg.
Proof. pose proof shipped_configs_safe as Hall. rewrite Forall_forall in Hall. auto. Qed.

Ltac safe_config := apply shipped_safe; set_solver.

(** Refinement of one adapter method: strip the request id if it draws one,
    then the retry loop. *)
Ltac solve_follows :=
  first
  [ apply retrying_follows; safe_config
  | apply follows_fresh; intros rid; apply retrying_follows; safe_config ].

#[export] Hint Resolve follows_returns : hub.
