(* ===== verification/Grpc.v ===== *)
(** * gRPC status codes

    The part of [tonic] the three gRPC adapters use: [tonic::Code], the two
    fields of [tonic::Status], and the [Debug] text of a code, which is a
    parameter.  [classifies] is the shared specification of the adapters'
    [map_status] functions. *)
From stdpp Require Import base sets list strings.
From S2P Require Import Prelude Errors.

(** The seventeen gRPC codes. *)
Inductive Code :=
| OkCode | Cancelled | Unknown | InvalidArgument | DeadlineExceededCode | NotFound
| AlreadyExists | PermissionDenied | ResourceExhausted | FailedPrecondition | Aborted
| OutOfRange | Unimplemented | Internal | UnavailableCode | DataLoss | Unauthenticated.

#[export] Instance Code_eq_dec : EqDecision Code.
Proof. solve_decision. Defined.

Record Status := mkStatus { st_code : Code; st_message : string }.

Class TonicLib := { code_debug : Code → string }.

Section Classify.
Context `{TonicLib}.

(** [format!("{:?}: {}", s.code(), s.message())]. *)
Definition status_text (s : Status) : string :=
  code_debug (st_code s) +:+ ": " +:+ st_message s.

(** ** Specification of [map_status] *)

(** Business and authentication errors: never worth a retry. *)
Definition permanent_codes : list Code :=
  [NotFound; InvalidArgument; FailedPrecondition; AlreadyExists; PermissionDenied;
   Unauthenticated; Unimplemented; OutOfRange; Cancelled].

Definition classifies {E} `{PortError E} (map_status : Status → E) : Prop := ∀ s,
  map_status s =
    if decide (st_code s ∈ permanent_codes) then mk_permanent (status_text s)
    else if decide (st_code s = UnavailableCode) then mk_unavailable
    else mk_transient (status_text s).

(** A classified status is retried exactly when its code is not permanent. *)
Lemma classifies_retryable {E} `{PortErrorLaws E} (map_status : Status → E) s :
  classifies map_status → is_retryable (map_status s) = true ↔ st_code s ∉ permanent_codes.
Proof.
  intros ->. repeat case_decide;
    rewrite ?transient_retryable, ?permanent_final, ?unavailable_retryable; done.
Qed.

End Classify.
