(* ===== verification/RegistryGrpc.v ===== *)
(** * Registry over gRPC

    Models [crates/engagement-hub-adapters/src/registry_grpc.rs] and the
    messages of [proto/revocall/registry/v1/registry.proto] it uses.  The
    adapter handle's two fields (the channel and the shared metrics) are the
    peer class [RegistryClient] on the environment and [net_metrics]. *)
From Stdlib Require Import ZArith Lia.
From stdpp Require Import base sets list strings.
From S2P Require Import Prelude Errors Uuids PortTypes Saga Policies Ports Net Grpc.

(** ** Generated messages *)
Module Pb.
Record ResolveSnapshotRequest := mkResolveSnapshotRequest {
  rsr_org_id : string; rsr_journey_version : string }.
Record ResolvedSnapshotProto := mkResolvedSnapshotProto {
  rsp_snapshot_id : string; rsp_journey_version : string }.
Record ResolveSnapshotResponse := mkResolveSnapshotResponse {
  rsresp_snapshot : option ResolvedSnapshotProto }.
Record GetVoiceProfileRequest := mkGetVoiceProfileRequest { gvp_voice_profile_id : string }.
Record VoiceProfileProto := mkVoiceProfileProto { vpp_id : string; vpp_name : string }.
Record GetVoiceProfileResponse := mkGetVoiceProfileResponse {
  gvpr_profile : option VoiceProfileProto }.
End Pb.
Import Pb.

(** The calls of the service, as the peer sees them. *)
Inductive RegistryCall :=
| ResolveSnapshotCall (r : ResolveSnapshotRequest)
| GetVoiceProfileCall (r : GetVoiceProfileRequest).

Class RegistryClient (W : Type) := {
  rpc_resolve_snapshot : ResolveSnapshotRequest → W → wire ResolveSnapshotResponse Status * W;
  rpc_get_voice_profile : GetVoiceProfileRequest → W → wire GetVoiceProfileResponse Status * W
}.

Inductive RegistryGrpcAdapter : Set := mkRegistryGrpcAdapter.

(** [new]: the client is the peer of the state. *)
Definition registry_grpc_adapter_new {W} (metrics : AdapterMetrics)
    : io (Net W RegistryCall) RegistryGrpcAdapter :=
  with_metrics mkRegistryGrpcAdapter metrics.

Section Adapter.
Context `{U : UuidLib} `{TonicLib}.

Definition map_status (s : Status) : RegistryError :=
  match st_code s with
  | NotFound | InvalidArgument | FailedPrecondition | AlreadyExists | PermissionDenied
  | Unauthenticated | Unimplemented | OutOfRange | Cancelled =>
      RegistryErr.Permanent (status_text s)
  | UnavailableCode => RegistryErr.Unavailable
  | _ => RegistryErr.Transient (status_text s)
  end.

Definition snapshot_of_response (resp : ResolveSnapshotResponse)
  : result ResolvedSnapshot RegistryError :=
  let? snap := ok_or (rsresp_snapshot resp)
                 (RegistryErr.Permanent "registry: empty snapshot in response") in
  Ok {| rs_snapshot_id := rsp_snapshot_id snap; rs_journey_version := rsp_journey_version snap |}.

Definition profile_of_response (resp : GetVoiceProfileResponse)
  : result VoiceProfile RegistryError :=
  let? p := ok_or (gvpr_profile resp)
              (RegistryErr.Permanent "registry: empty profile in response") in
  let? uid := map_err (λ e, RegistryErr.Permanent ("bad uuid: " +:+ e))
                (result_map mkVoiceProfileId (uuid_parse (vpp_id p))) in
  Ok {| vp_id := uid; vp_name := vpp_name p |}.

Context {W : Type} `{RetryEnv W} `{RegistryClient W}.

Definition resolve_snapshot (_ : RegistryGrpcAdapter) (req : ResolveSnapshotReq)
  : io (Net W RegistryCall) (result ResolvedSnapshot RegistryError) :=
  let r := mkResolveSnapshotRequest (rsq_org_id req) (rsq_journey_version req) in
  retrying REGISTRY_RESOLVE_RETRY "registry"
    (attempt_call rpc_resolve_snapshot ResolveSnapshotCall r
       snapshot_of_response map_status).

Definition get_voice_profile (_ : RegistryGrpcAdapter) (id : VoiceProfileId)
  : io (Net W RegistryCall) (result VoiceProfile RegistryError) :=
  let id_str := uuid_to_string (voice_profile_uuid id) in
  let req := mkGetVoiceProfileRequest id_str in
  retrying DEFAULT_RETRY "registry"
    (attempt_call rpc_get_voice_profile GetVoiceProfileCall req
       profile_of_response map_status).

#[export] Instance registry_grpc_port : RegistryPort RegistryGrpcAdapter (Net W RegistryCall) :=
  {| port_resolve_snapshot := resolve_snapshot; port_get_voice_profile := get_voice_profile |}.

(** ** Facts *)

Lemma registry_map_status_classifies : classifies map_status.
Proof. intros [[] msg]; reflexivity. Qed.

Lemma resolve_snapshot_follows a req :
  let r := mkResolveSnapshotRequest (rsq_org_id req) (rsq_journey_version req) in
  follows REGISTRY_RESOLVE_RETRY "registry" rpc_resolve_snapshot ResolveSnapshotCall
    (λ _, r) snapshot_of_response map_status (resolve_snapshot a req).
Proof. solve_follows. Qed.

Lemma get_voice_profile_follows a id :
  let r := mkGetVoiceProfileRequest (uuid_to_string (voice_profile_uuid id)) in
  follows DEFAULT_RETRY "registry" rpc_get_voice_profile GetVoiceProfileCall
    (λ _, r) profile_of_response map_status (get_voice_profile a id).
Proof. solve_follows. Qed.

#[export] Instance registry_grpc_safe :
  RegistryPortSafe RegistryGrpcAdapter (Net W RegistryCall).
Proof.
  split; intros; eapply follows_returns;
    [apply resolve_snapshot_follows | apply get_voice_profile_follows].
Qed.

End Adapter.
