(* ===== verification/JourneyManagerGrpc.v ===== *)
(** * Journey Manager over gRPC

    Models [crates/engagement-hub-adapters/src/journey_manager_grpc.rs] and the
    messages of [proto/revocall/journey/v1/journey_manager.proto] it uses.
    Every method mints one request id and stamps it on all its attempts. *)
From Stdlib Require Import ZArith Lia.
From stdpp Require Import base sets list strings.
From S2P Require Import Prelude Errors Uuids PortTypes Saga Policies Ports Net Grpc.

(** ** Generated messages *)
Module Pb.
Record ExecutionRefProto := mkExecutionRefProto { erp_id : string }.
Record CreateExecutionRequest := mkCreateExecutionRequest {
  cer_request_id : string;
  cer_journey_version : string;
  cer_org_id : string;
  cer_engagement_id : string
}.
Record CreateExecutionResponse := mkCreateExecutionResponse {
  cersp_execution_ref : option ExecutionRefProto }.
Inductive CancelReason :=
| Unspecified | CompensateFailedBind | UserRequested | OrchestratorTimeout | AdminCancelled.
(** Enumeration fields are [i32]. *)
Record CancelExecutionRequest := mkCancelExecutionRequest {
  cxr_request_id : string;
  cxr_execution_ref : option ExecutionRefProto;
  cxr_reason : Z
}.
Record CancelExecutionResponse : Set := mkCancelExecutionResponse {}.
Record GetExecutionTimelineRequest := mkGetExecutionTimelineRequest {
  get_request_id : string;
  get_execution_ref : option ExecutionRefProto;
  get_after_sequence : option Z
}.
Record TimelineEventProto := mkTimelineEventProto { tep_sequence : Z; tep_kind : string }.
Record GetExecutionTimelineResponse := mkGetExecutionTimelineResponse {
  getr_events : list TimelineEventProto }.

(** [reason as i32]: the numbers of the proto file. *)
Definition cancel_reason_number (r : CancelReason) : Z :=
  match r with
  | Unspecified => 0 | CompensateFailedBind => 1 | UserRequested => 2
  | OrchestratorTimeout => 3 | AdminCancelled => 4
  end.
End Pb.

Inductive JourneyCall :=
| CreateExecutionCall (r : Pb.CreateExecutionRequest)
| CancelExecutionCall (r : Pb.CancelExecutionRequest)
| GetExecutionTimelineCall (r : Pb.GetExecutionTimelineRequest).

Class JourneyManagerClient (W : Type) := {
  rpc_create_execution :
    Pb.CreateExecutionRequest → W → wire Pb.CreateExecutionResponse Status * W;
  rpc_cancel_execution :
    Pb.CancelExecutionRequest → W → wire Pb.CancelExecutionResponse Status * W;
  rpc_get_execution_timeline :
    Pb.GetExecutionTimelineRequest → W → wire Pb.GetExecutionTimelineResponse Status * W
}.

Inductive JourneyManagerGrpcAdapter : Set := mkJourneyManagerGrpcAdapter.

(** [new]: the client is the peer of the state. *)
Definition journey_manager_grpc_adapter_new {W} (metrics : AdapterMetrics)
    : io (Net W JourneyCall) JourneyManagerGrpcAdapter :=
  with_metrics mkJourneyManagerGrpcAdapter metrics.

Definition cancel_reason_to_proto (r : CancelReason) : Pb.CancelReason :=
  match r with
  | CompensateFailedBind => Pb.CompensateFailedBind
  | UserRequested => Pb.UserRequested
  | OrchestratorTimeout => Pb.OrchestratorTimeout
  | AdminCancelled => Pb.AdminCancelled
  end.

Section Adapter.
Context `{U : UuidLib} `{TonicLib}.

Definition map_status (s : Status) : JmError :=
  match st_code s with
  | NotFound | InvalidArgument | FailedPrecondition | AlreadyExists | PermissionDenied
  | Unauthenticated | Unimplemented | OutOfRange | Cancelled =>
      JmErr.Permanent (status_text s)
  | UnavailableCode => JmErr.Unavailable
  | _ => JmErr.Transient (status_text s)
  end.

(** The requests the three closures build. *)
Definition create_execution_request (req : CreateExecutionReq) (request_id : string)
  : Pb.CreateExecutionRequest :=
  Pb.mkCreateExecutionRequest request_id (ce_journey_version req) (ce_org_id req)
    (engagement_id_display (ce_engagement_id req)).

Definition cancel_execution_request (ref_id : string) (reason_proto : Pb.CancelReason)
    (request_id : string) : Pb.CancelExecutionRequest :=
  Pb.mkCancelExecutionRequest request_id (Some (Pb.mkExecutionRefProto ref_id))
    (Pb.cancel_reason_number reason_proto).

Definition timeline_request (ref_id : string) (after : option Z) (request_id : string)
  : Pb.GetExecutionTimelineRequest :=
  Pb.mkGetExecutionTimelineRequest request_id (Some (Pb.mkExecutionRefProto ref_id)) after.

(** What they make of a reply. *)
Definition execution_of_response (resp : Pb.CreateExecutionResponse)
  : result ExecutionRef JmError :=
  let? er := ok_or (Pb.cersp_execution_ref resp)
               (JmErr.Permanent "journey_manager: empty execution_ref") in
  let? uid := map_err (λ e, JmErr.Permanent ("bad execution_ref uuid: " +:+ e))
                (uuid_parse (Pb.erp_id er)) in
  Ok (mkExecutionRef uid).

Definition cancelled_of_response (_ : Pb.CancelExecutionResponse) : result unit JmError := Ok tt.

Definition timeline_of_response (resp : Pb.GetExecutionTimelineResponse)
  : result Timeline JmError :=
  Ok {| tl_events :=
          map (λ e, {| te_sequence := Pb.tep_sequence e; te_kind := Pb.tep_kind e |})
            (Pb.getr_events resp) |}.

Context {W : Type} `{RetryEnv W} `{!UuidGen W} `{JourneyManagerClient W}.
Abbreviation M A := (io (Net W JourneyCall) A).

Definition create_execution (_ : JourneyManagerGrpcAdapter) (req : CreateExecutionReq)
  : M (result ExecutionRef JmError) :=
  do request_id <- fresh_request_id ;;
  let r := create_execution_request req request_id in
  retrying WRITE_RETRY "journey_manager"
    (attempt_call rpc_create_execution CreateExecutionCall r
       execution_of_response map_status).

Definition cancel_execution (_ : JourneyManagerGrpcAdapter) (ref : ExecutionRef)
    (reason : CancelReason) : M (result unit JmError) :=
  do request_id <- fresh_request_id ;;
  let ref_id := uuid_to_string (execution_uuid ref) in
  let r := cancel_execution_request ref_id (cancel_reason_to_proto reason) request_id in
  retrying CLEANUP_RETRY "journey_manager"
    (attempt_call rpc_cancel_execution CancelExecutionCall r
       cancelled_of_response map_status).

Definition get_execution_timeline (_ : JourneyManagerGrpcAdapter) (ref : ExecutionRef)
    (opts : TimelineOpts) : M (result Timeline JmError) :=
  do request_id <- fresh_request_id ;;
  let ref_id := uuid_to_string (execution_uuid ref) in
  let r := timeline_request ref_id (to_after_sequence opts) request_id in
  retrying DEFAULT_RETRY "journey_manager"
    (attempt_call rpc_get_execution_timeline GetExecutionTimelineCall r
       timeline_of_response map_status).

#[export] Instance journey_manager_grpc_port :
  JourneyManagerPort JourneyManagerGrpcAdapter (Net W JourneyCall) :=
  {| port_create_execution := create_execution; port_cancel_execution := cancel_execution;
     port_get_execution_timeline := get_execution_timeline |}.

(** ** Facts *)

Lemma jm_map_status_classifies : classifies map_status.
Proof. intros [[] msg]; reflexivity. Qed.

Lemma create_execution_follows a req :
  follows WRITE_RETRY "journey_manager" rpc_create_execution CreateExecutionCall
    (λ s, create_execution_request req (next_id s)) execution_of_response map_status
    (create_execution a req).
Proof. solve_follows. Qed.

Lemma cancel_execution_follows a ref reason :
  follows CLEANUP_RETRY "journey_manager" rpc_cancel_execution CancelExecutionCall
    (λ s, cancel_execution_request (uuid_to_string (execution_uuid ref))
            (cancel_reason_to_proto reason) (next_id s))
    cancelled_of_response map_status (cancel_execution a ref reason).
Proof. solve_follows. Qed.

Lemma get_execution_timeline_follows a ref opts :
  follows DEFAULT_RETRY "journey_manager" rpc_get_execution_timeline GetExecutionTimelineCall
    (λ s, timeline_request (uuid_to_string (execution_uuid ref)) (to_after_sequence opts)
            (next_id s))
    timeline_of_response map_status (get_execution_timeline a ref opts).
Proof. solve_follows. Qed.

#[export] Instance journey_manager_grpc_safe :
  JourneyManagerPortSafe JourneyManagerGrpcAdapter (Net W JourneyCall).
Proof.
  split; intros; eapply follows_returns;
    [apply create_execution_follows | apply cancel_execution_follows
    | apply get_execution_timeline_follows].
Qed.

End Adapter.
