(* ===== verification/VoiceManagerGrpc.v ===== *)
(** * Voice Manager over gRPC

    Models [crates/engagement-hub-adapters/src/voice_manager_grpc.rs] and the
    messages of [proto/revocall/voice/v1/voice_manager.proto] it uses. *)
From Stdlib Require Import ZArith Lia.
From stdpp Require Import base sets list strings.
From S2P Require Import Prelude Errors Uuids PortTypes Saga Policies Ports Net Grpc.

(** ** Generated messages *)
Module Pb.
Record VoiceSessionRefProto := mkVoiceSessionRefProto { vsr_id : string }.
Record StartVoiceSessionRequest := mkStartVoiceSessionRequest {
  svr_request_id : string; svr_engagement_id : string; svr_org_id : string }.
Record StartVoiceSessionResponse := mkStartVoiceSessionResponse {
  svrsp_session_ref : option VoiceSessionRefProto }.
Inductive StopMode := Unspecified | Abort | Graceful.
Record StopVoiceSessionRequest := mkStopVoiceSessionRequest {
  stp_request_id : string; stp_session_ref : option VoiceSessionRefProto; stp_mode : Z }.
Record StopVoiceSessionResponse : Set := mkStopVoiceSessionResponse {}.
Record IssueTestTokenRequest := mkIssueTestTokenRequest {
  itr_request_id : string; itr_org_id : string }.
Record IssueTestTokenResponse := mkIssueTestTokenResponse { itrsp_token : string }.
Record TelephonyProto := mkTelephonyProto {
  tp_id : string; tp_org_id : string; tp_phone_number : string }.
Record CreateTelephonyRequest := mkCreateTelephonyRequest {
  ctr_request_id : string; ctr_org_id : string; ctr_phone_number : string }.
(** The create, get and update responses have the same single field. *)
Record TelephonyResponse := mkTelephonyResponse { trsp_telephony : option TelephonyProto }.
Record ListTelephoniesRequest := mkListTelephoniesRequest {
  ltr_request_id : string; ltr_org_id : string; ltr_page_token : option string }.
Record ListTelephoniesResponse := mkListTelephoniesResponse {
  ltrsp_telephonies : list TelephonyProto }.
Record GetTelephonyRequest := mkGetTelephonyRequest {
  gtr_request_id : string; gtr_telephony_id : string }.
Record UpdateTelephonyRequest := mkUpdateTelephonyRequest {
  utr_request_id : string; utr_telephony_id : string; utr_phone_number : string }.
Record DeleteTelephonyRequest := mkDeleteTelephonyRequest {
  dtr_request_id : string; dtr_telephony_id : string; dtr_usage : string }.
Record DeleteTelephonyResponse : Set := mkDeleteTelephonyResponse {}.

(** [mode as i32]: the numbers of the proto file. *)
Definition stop_mode_number (m : StopMode) : Z :=
  match m with Unspecified => 0 | Abort => 1 | Graceful => 2 end.
End Pb.

Inductive VoiceCall :=
| StartVoiceSessionCall (r : Pb.StartVoiceSessionRequest)
| StopVoiceSessionCall (r : Pb.StopVoiceSessionRequest)
| IssueTestTokenCall (r : Pb.IssueTestTokenRequest)
| CreateTelephonyCall (r : Pb.CreateTelephonyRequest)
| ListTelephoniesCall (r : Pb.ListTelephoniesRequest)
| GetTelephonyCall (r : Pb.GetTelephonyRequest)
| UpdateTelephonyCall (r : Pb.UpdateTelephonyRequest)
| DeleteTelephonyCall (r : Pb.DeleteTelephonyRequest).

Class VoiceManagerClient (W : Type) := {
  rpc_start_voice_session :
    Pb.StartVoiceSessionRequest → W → wire Pb.StartVoiceSessionResponse Status * W;
  rpc_stop_voice_session :
    Pb.StopVoiceSessionRequest → W → wire Pb.StopVoiceSessionResponse Status * W;
  rpc_issue_test_token :
    Pb.IssueTestTokenRequest → W → wire Pb.IssueTestTokenResponse Status * W;
  rpc_create_telephony : Pb.CreateTelephonyRequest → W → wire Pb.TelephonyResponse Status * W;
  rpc_list_telephonies :
    Pb.ListTelephoniesRequest → W → wire Pb.ListTelephoniesResponse Status * W;
  rpc_get_telephony : Pb.GetTelephonyRequest → W → wire Pb.TelephonyResponse Status * W;
  rpc_update_telephony : Pb.UpdateTelephonyRequest → W → wire Pb.TelephonyResponse Status * W;
  rpc_delete_telephony :
    Pb.DeleteTelephonyRequest → W → wire Pb.DeleteTelephonyResponse Status * W
}.

Inductive VoiceManagerGrpcAdapter : Set := mkVoiceManagerGrpcAdapter.

(** [new]: the client is the peer of the state. *)
Definition voice_manager_grpc_adapter_new {W} (metrics : AdapterMetrics)
    : io (Net W VoiceCall) VoiceManagerGrpcAdapter :=
  with_metrics mkVoiceManagerGrpcAdapter metrics.

Definition stop_mode_to_proto (m : StopMode) : Pb.StopMode :=
  match m with Abort => Pb.Abort | Graceful => Pb.Graceful end.

(** Graceful is not idempotent: a single attempt. *)
Definition stop_policy (m : StopMode) : RetryConfig :=
  match m with Abort => CLEANUP_RETRY | Graceful => GRACEFUL_STOP_RETRY end.

Section Adapter.
Context `{U : UuidLib} `{TonicLib}.

Definition map_status (s : Status) : VmError :=
  match st_code s with
  | NotFound | InvalidArgument | FailedPrecondition | AlreadyExists | PermissionDenied
  | Unauthenticated | Unimplemented | OutOfRange | Cancelled =>
      VmErr.Permanent (status_text s)
  | UnavailableCode => VmErr.Unavailable
  | _ => VmErr.Transient (status_text s)
  end.

Definition telephony_from_proto (t : Pb.TelephonyProto) : result Telephony VmError :=
  let? id := map_err (λ e, VmErr.Permanent ("bad telephony id: " +:+ e))
               (result_map mkTelephonyId (uuid_parse (Pb.tp_id t))) in
  Ok {| tel_id := id; tel_org_id := Pb.tp_org_id t; tel_phone_number := Pb.tp_phone_number t |}.

(** The requests the closures build. *)
Definition start_request (req : StartVoiceSessionReq) (request_id : string) :=
  Pb.mkStartVoiceSessionRequest request_id
    (engagement_id_display (sv_engagement_id req)) (sv_org_id req).
Definition stop_request (ref_id : string) (mode_proto : Pb.StopMode) (request_id : string) :=
  Pb.mkStopVoiceSessionRequest request_id (Some (Pb.mkVoiceSessionRefProto ref_id))
    (Pb.stop_mode_number mode_proto).
Definition token_request (req : IssueTestTokenReq) (request_id : string) :=
  Pb.mkIssueTestTokenRequest request_id (it_org_id req).
Definition create_request (req : CreateTelephonyReq) (request_id : string) :=
  Pb.mkCreateTelephonyRequest request_id (ct_org_id req) (ct_phone_number req).
Definition list_request (req : ListTelephoniesReq) (request_id : string) :=
  Pb.mkListTelephoniesRequest request_id (lt_org_id req) (lt_page_token req).
Definition get_request (tid : string) (request_id : string) :=
  Pb.mkGetTelephonyRequest request_id tid.
Definition update_request (tid : string) (req : UpdateTelephonyReq) (request_id : string) :=
  Pb.mkUpdateTelephonyRequest request_id tid (ut_phone_number req).
Definition delete_request (tid usage : string) (request_id : string) :=
  Pb.mkDeleteTelephonyRequest request_id tid usage.

(** What they make of a reply. *)
Definition session_of_response (resp : Pb.StartVoiceSessionResponse)
  : result VoiceSessionRef VmError :=
  let? sr := ok_or (Pb.svrsp_session_ref resp)
               (VmErr.Permanent "voice_manager: empty session_ref") in
  let? uid := map_err (λ e, VmErr.Permanent ("bad session_ref uuid: " +:+ e))
                (uuid_parse (Pb.vsr_id sr)) in
  Ok (mkVoiceSessionRef uid).
Definition stopped_of_response (_ : Pb.StopVoiceSessionResponse) : result unit VmError := Ok tt.
Definition token_of_response (resp : Pb.IssueTestTokenResponse) : result TestToken VmError :=
  Ok {| tt_token := Pb.itrsp_token resp |}.
Definition telephony_of_response (resp : Pb.TelephonyResponse) : result Telephony VmError :=
  let? t := ok_or (Pb.trsp_telephony resp)
              (VmErr.Permanent "voice_manager: empty telephony") in
  telephony_from_proto t.
Definition telephonies_of_response (resp : Pb.ListTelephoniesResponse)
  : result (list Telephony) VmError :=
  collect_results (map telephony_from_proto (Pb.ltrsp_telephonies resp)).
Definition deleted_of_response (_ : Pb.DeleteTelephonyResponse) : result unit VmError := Ok tt.

Context {W : Type} `{RetryEnv W} `{!UuidGen W} `{VoiceManagerClient W}.
Abbreviation M A := (io (Net W VoiceCall) A).

Definition start_voice_session (_ : VoiceManagerGrpcAdapter) (req : StartVoiceSessionReq)
  : M (result VoiceSessionRef VmError) :=
  do request_id <- fresh_request_id ;;
  let r := start_request req request_id in
  retrying WRITE_RETRY "voice_manager"
    (attempt_call rpc_start_voice_session StartVoiceSessionCall r
       session_of_response map_status).

Definition stop_voice_session (_ : VoiceManagerGrpcAdapter) (ref : VoiceSessionRef)
    (mode : StopMode) : M (result unit VmError) :=
  do request_id <- fresh_request_id ;;
  let ref_id := uuid_to_string (voice_session_uuid ref) in
  let mode_proto := stop_mode_to_proto mode in
  let policy := stop_policy mode in
  let r := stop_request ref_id mode_proto request_id in
  retrying policy "voice_manager"
    (attempt_call rpc_stop_voice_session StopVoiceSessionCall r
       stopped_of_response map_status).

Definition issue_test_token (_ : VoiceManagerGrpcAdapter) (req : IssueTestTokenReq)
  : M (result TestToken VmError) :=
  do request_id <- fresh_request_id ;;
  let r := token_request req request_id in
  retrying DEFAULT_RETRY "voice_manager"
    (attempt_call rpc_issue_test_token IssueTestTokenCall r token_of_response map_status).

Definition create_telephony (_ : VoiceManagerGrpcAdapter) (req : CreateTelephonyReq)
  : M (result Telephony VmError) :=
  do request_id <- fresh_request_id ;;
  let r := create_request req request_id in
  retrying WRITE_RETRY "voice_manager"
    (attempt_call rpc_create_telephony CreateTelephonyCall r telephony_of_response map_status).

Definition list_telephonies (_ : VoiceManagerGrpcAdapter) (req : ListTelephoniesReq)
  : M (result (list Telephony) VmError) :=
  do request_id <- fresh_request_id ;;
  let r := list_request req request_id in
  retrying DEFAULT_RETRY "voice_manager"
    (attempt_call rpc_list_telephonies ListTelephoniesCall r telephonies_of_response map_status).

Definition get_telephony (_ : VoiceManagerGrpcAdapter) (id : TelephonyId)
  : M (result Telephony VmError) :=
  do request_id <- fresh_request_id ;;
  let tid := uuid_to_string (telephony_uuid id) in
  let r := get_request tid request_id in
  retrying DEFAULT_RETRY "voice_manager"
    (attempt_call rpc_get_telephony GetTelephonyCall r telephony_of_response map_status).

Definition update_telephony (_ : VoiceManagerGrpcAdapter) (req : UpdateTelephonyReq)
  : M (result Telephony VmError) :=
  do request_id <- fresh_request_id ;;
  let tid := uuid_to_string (telephony_uuid (ut_id req)) in
  let r := update_request tid req request_id in
  retrying WRITE_RETRY "voice_manager"
    (attempt_call rpc_update_telephony UpdateTelephonyCall r telephony_of_response map_status).

Definition delete_telephony (_ : VoiceManagerGrpcAdapter) (id : TelephonyId) (usage : string)
  : M (result unit VmError) :=
  do request_id <- fresh_request_id ;;
  let tid := uuid_to_string (telephony_uuid id) in
  let r := delete_request tid usage request_id in
  retrying WRITE_RETRY "voice_manager"
    (attempt_call rpc_delete_telephony DeleteTelephonyCall r deleted_of_response map_status).

#[export] Instance voice_manager_grpc_port :
  VoiceManagerPort VoiceManagerGrpcAdapter (Net W VoiceCall) :=
  {| port_start_voice_session := start_voice_session;
     port_stop_voice_session := stop_voice_session;
     port_issue_test_token := issue_test_token;
     port_create_telephony := create_telephony;
     port_list_telephonies := list_telephonies;
     port_get_telephony := get_telephony;
     port_update_telephony := update_telephony;
     port_delete_telephony := delete_telephony |}.

(** ** Facts *)

Lemma vm_map_status_classifies : classifies map_status.
Proof. intros [[] msg]; reflexivity. Qed.

Lemma start_voice_session_follows a req :
  follows WRITE_RETRY "voice_manager" rpc_start_voice_session StartVoiceSessionCall
    (λ s, start_request req (next_id s)) session_of_response map_status
    (start_voice_session a req).
Proof. solve_follows. Qed.

Lemma stop_voice_session_follows a ref mode :
  follows (stop_policy mode) "voice_manager" rpc_stop_voice_session StopVoiceSessionCall
    (λ s, stop_request (uuid_to_string (voice_session_uuid ref)) (stop_mode_to_proto mode)
            (next_id s))
    stopped_of_response map_status (stop_voice_session a ref mode).
Proof. destruct mode; solve_follows. Qed.

Lemma issue_test_token_follows a req :
  follows DEFAULT_RETRY "voice_manager" rpc_issue_test_token IssueTestTokenCall
    (λ s, token_request req (next_id s)) token_of_response map_status (issue_test_token a req).
Proof. solve_follows. Qed.

Lemma create_telephony_follows a req :
  follows WRITE_RETRY "voice_manager" rpc_create_telephony CreateTelephonyCall
    (λ s, create_request req (next_id s)) telephony_of_response map_status
    (create_telephony a req).
Proof. solve_follows. Qed.

Lemma list_telephonies_follows a req :
  follows DEFAULT_RETRY "voice_manager" rpc_list_telephonies ListTelephoniesCall
    (λ s, list_request req (next_id s)) telephonies_of_response map_status
    (list_telephonies a req).
Proof. solve_follows. Qed.

Lemma get_telephony_follows a id :
  follows DEFAULT_RETRY "voice_manager" rpc_get_telephony GetTelephonyCall
    (λ s, get_request (uuid_to_string (telephony_uuid id)) (next_id s))
    telephony_of_response map_status (get_telephony a id).
Proof. solve_follows. Qed.

Lemma update_telephony_follows a req :
  follows WRITE_RETRY "voice_manager" rpc_update_telephony UpdateTelephonyCall
    (λ s, update_request (uuid_to_string (telephony_uuid (ut_id req))) req (next_id s))
    telephony_of_response map_status (update_telephony a req).
Proof. solve_follows. Qed.

Lemma delete_telephony_follows a id usage :
  follows WRITE_RETRY "voice_manager" rpc_delete_telephony DeleteTelephonyCall
    (λ s, delete_request (uuid_to_string (telephony_uuid id)) usage (next_id s))
    deleted_of_response map_status (delete_telephony a id usage).
Proof. solve_follows. Qed.

#[export] Instance voice_manager_grpc_safe :
  VoiceManagerPortSafe VoiceManagerGrpcAdapter (Net W VoiceCall).
Proof.
  split; intros; eapply follows_returns;
    eauto using start_voice_session_follows, stop_voice_session_follows,
      issue_test_token_follows, create_telephony_follows, list_telephonies_follows,
      get_telephony_follows, update_telephony_follows, delete_telephony_follows.
Qed.

(** Decoding a list of telephonies keeps order and length and drops none. *)
Lemma telephonies_of_response_Ok resp ts :
  telephonies_of_response resp = Ok ts ↔
  Forall2 (λ p t, telephony_from_proto p = Ok t) (Pb.ltrsp_telephonies resp) ts.
Proof. unfold telephonies_of_response. by rewrite collect_results_Ok, Forall2_fmap_l. Qed.

End Adapter.
