(* ===== verification/MockPeer.v ===== *)
(** * Adapters against a mock peer

    What the unit tests of the network adapters share: the world of a test is
    an adapter's state [Net] whose environment is a clock and random source [B]
    next to the mock's state [M]; the mock answers in the place of the peer.
    The transport between them (tonic's channel and server on a loopback
    address, or wiremock's) delivers every request and every answer. *)
From Stdlib Require Import ZArith Lia Ascii.
From stdpp Require Import base list gmap strings pretty.
From S2P Require Import Prelude Uuids UnitTest Errors Saga Prometheus Policies Net.

(** The mock does not disturb the random source. *)
#[export] Instance pair_uuid_gen {B M} `{U : UuidLib} `{!UuidGen B} : UuidGen (B * M) := λ s,
  let '(u, b) := new_v4 s.1 in (u, (b, s.2)).

(** The [n]-th id drawn from now on. *)
Definition draw_at {B} `{U : UuidLib} `{!UuidGen B} (n : nat) (b : B) : Uuid :=
  (new_v4 (Nat.iter n (λ b, (new_v4 b).2) b)).1.

Section Peer.
Context {B M Call : Type}.
Abbreviation World := (Net (B * M) Call).

(** A handler of the mock as the adapter's peer. *)
Definition served {R Resp F} (handler : R → M → result Resp F * M) (r : R) (s : B * M)
  : wire Resp F * (B * M) :=
  let '(x, m) := handler r s.2 in
  (match x with Ok resp => Replied resp | Err e => Failed e end, (s.1, m)).

(** Start the mock, and look at it. *)
Definition start_server (mock : M) : io World unit := λ s,
  (Value tt, mkNet ((net_env s).1, mock) (net_sent s) (net_metrics s)).
Definition mock : io World M := λ s, (Value (net_env s).2, s).

Definition index {A W S} (l : list A) (i : nat) : io (Net W S) A := λ s,
  (match l !! i with Some a => Value a | None => Panicked end, s).
Definition assert_ne {A S} `{!EqDecision A} (x y : A) : io S unit :=
  assert_ (negb (bool_decide (x = y))).

Definition new_uuid `{U : UuidLib} `{!UuidGen B} : io World Uuid := λ s,
  let '(u, w) := new_v4 (net_env s) in (Value u, mkNet w (net_sent s) (net_metrics s)).

End Peer.

Arguments start_server {B M Call} mock _ /.
Arguments mock {B M Call} _ /.
Arguments with_metrics {W Call A} adapter m _ /.
Arguments new_uuid {B M Call U UuidGen0} _ /.

Lemma new_v4_pair {B M} `{U : UuidLib} `{!UuidGen B} (b : B) (m : M) :
  new_v4 (b, m) = let '(u, b') := new_v4 b in (u, (b', m)).
Proof. done. Qed.

#[export] Hint Unfold adapter_metrics_for_test retrying with_retry : run_test.

(** Run such a test on a symbolic clock, random source and past: reduce, name
    what is drawn, compute durations, and parse back displayed ids. *)
Ltac run_peer_step B :=
  match goal with
  | H : adapter_metrics_new ?r = _ |- context [adapter_metrics_new ?r] => rewrite H
  | |- context [duration_mul ?a ?b] =>
      let v := eval vm_compute in (duration_mul a b) in change (duration_mul a b) with v
  | |- context [@gen_range B _ ?b ?v] => destruct (@gen_range B _ b v) as [? ?]
  | |- context [uuid_parse (uuid_to_string ?u)] => rewrite (uuid_parse_to_string u)
  | |- context [bool_decide (?x = ?x)] => rewrite (bool_decide_eq_true_2 (x = x) eq_refl)
  | |- context [new_v4 (_, _)] => rewrite new_v4_pair
  | |- context [@new_v4 B _ _ ?b] => destruct (@new_v4 B _ _ b) as [? ?] eqn:?
  end.
Ltac run_peer B :=
  unfold passes; hnf;
  repeat (progress cbn -[bool_decide counter_get counter_inc inc_retries duration_mul
      adapter_metrics_new]
          || run_peer_step B
          || (progress autounfold with run_test)).

(** The ids such a run drew. *)
Ltac drawn :=
  unfold draw_at; cbn [Nat.iter nat_rect];
  repeat (match goal with H : new_v4 _ = _ |- _ => rewrite H end; cbn [fst snd]).

(** ** An environment for which the hypotheses hold

    A clock next to a counter whose last two digits end the id. *)
Module CountingEnv.
Import Uuid36.
Local Open Scope nat_scope.

Definition digit (n : nat) : ascii := Ascii.ascii_of_nat (48 + n mod 10).
Definition counted_text (n : nat) : string :=
  ("00000000-0000-4000-8000-0000000000" ++
   String (digit (n / 10)) (String (digit n) EmptyString))%string.

Definition counted_uuid (n : nat) : Uuid36.t := exist _ (counted_text n) eq_refl.

#[export] Instance env : RetryEnv (Z * nat) := {|
  instant_now w := w.1;
  tokio_sleep d w := ((w.1 + Z.max 0 d)%Z, w.2);
  gen_range b w := (b, w)
|}.
#[export] Instance uuids : UuidGen (Z * nat) := λ w, (counted_uuid w.2, (w.1, S w.2)).

Lemma digit_inj n m : digit n = digit m → n mod 10 = m mod 10.
Proof.
  intros H%(f_equal Ascii.nat_of_ascii). unfold digit in H.
  pose proof (Nat.mod_upper_bound n 10). pose proof (Nat.mod_upper_bound m 10).
  rewrite !Ascii.nat_ascii_embedding in H by lia. lia.
Qed.

Lemma draw_at_counted n w : draw_at n w = counted_uuid (n + w.2).
Proof.
  assert (H : ∀ w, Nat.iter n (λ b, (new_v4 (W := Z * nat) b).2) w = (w.1, n + w.2)%nat).
  { induction n as [|n IH]; intros [z k]; simpl; [done|]. by rewrite IH. }
  unfold draw_at. by rewrite H.
Qed.

(** Ids drawn less than sixteen draws apart differ. *)
Lemma draw_at_inj (w : Z * nat) i j :
  i < 16 → j < 16 → draw_at i w = draw_at j w → i = j.
Proof.
  intros Hi Hj. rewrite !draw_at_counted.
  set (n := i + w.2). set (m := j + w.2). intros H%(f_equal (λ u : Uuid36.t, `u)).
  injection H as H1 H2. apply digit_inj in H1, H2.
  change ((n / 10) mod 10 = (m / 10) mod 10) in H1.
  assert (n - m < 16 ∧ m - n < 16) as [? ?] by lia.
  assert (n = m); [|lia].
  pose proof (Nat.div_mod_eq n 10). pose proof (Nat.div_mod_eq m 10).
  pose proof (Nat.div_mod_eq (n / 10) 10). pose proof (Nat.div_mod_eq (m / 10) 10). lia.
Qed.

End CountingEnv.
