(* ===== verification/RegistryGrpcTests.v ===== *)
(** * The unit tests of [registry_grpc.rs] *)
From Stdlib Require Import ZArith Lia.
From stdpp Require Import base list gmap strings pretty.
From S2P Require Import Prelude Uuids UnitTest Errors PortTypes Saga Prometheus Policies Ports Net.
From S2P Require Import Grpc RegistryGrpc MockPeer.
Import RegistryGrpc.Pb.

(** [MockRegistry] answers with what it was built with. *)
Record MockRegistry := mkMockRegistry {
  snap_result : result ResolvedSnapshotProto Status;
  profile_result : result VoiceProfileProto Status
}.

Definition mock_resolve_snapshot (_req : ResolveSnapshotRequest) (self : MockRegistry)
  : result ResolveSnapshotResponse Status * MockRegistry :=
  (result_map (λ r, mkResolveSnapshotResponse (Some r)) (snap_result self), self).
Definition mock_get_voice_profile (_req : GetVoiceProfileRequest) (self : MockRegistry)
  : result GetVoiceProfileResponse Status * MockRegistry :=
  (result_map (λ r, mkGetVoiceProfileResponse (Some r)) (profile_result self), self).

Section Tests.
Context `{U : UuidLib, UL : !UuidLaws} `{TL : TonicLib} `{PL : PrometheusLaws}.
Context {B : Type} `{!RetryEnv B} `{!UuidGen B}.
Local Abbreviation World := (Net (B * MockRegistry) RegistryCall).

#[local] Instance mock_client : RegistryClient (B * MockRegistry) := {|
  rpc_resolve_snapshot := served mock_resolve_snapshot;
  rpc_get_voice_profile := served mock_get_voice_profile
|}.

(** The adapter on a freshly started mock. *)
Definition adapter_on (mock : MockRegistry) : io World RegistryGrpcAdapter :=
  do _ <- start_server mock ;;
  do m <- adapter_metrics_for_test ;;
  registry_grpc_adapter_new m.

Definition resolve_snapshot_success : test World :=
  do adapter <- adapter_on (mkMockRegistry (Ok (mkResolvedSnapshotProto "snap-grpc" "v1"))
                              (Err (mkStatus NotFound "n/a"))) ;;
  do r <- resolve_snapshot adapter {| rsq_org_id := "o1"; rsq_journey_version := "v1" |} ;;
  do snap <- unwrap r ;;
  assert_eq (rs_snapshot_id snap) "snap-grpc"%string.

Definition not_found_maps_to_permanent : test World :=
  do adapter <- adapter_on (mkMockRegistry (Err (mkStatus NotFound "unknown"))
                              (Err (mkStatus NotFound "n/a"))) ;;
  do r <- resolve_snapshot adapter {| rsq_org_id := "o1"; rsq_journey_version := "vX" |} ;;
  do err <- unwrap_err r ;;
  assert_ (match err with RegistryErr.Permanent _ => true | _ => false end).

Definition unavailable_maps_correctly : test World :=
  do adapter <- adapter_on (mkMockRegistry (Err (mkStatus UnavailableCode "down"))
                              (Err (mkStatus NotFound "n/a"))) ;;
  do r <- resolve_snapshot adapter {| rsq_org_id := "o1"; rsq_journey_version := "v1" |} ;;
  do err <- unwrap_err r ;;
  assert_ (match err with RegistryErr.Unavailable => true | _ => false end).

Definition get_voice_profile_success : test World :=
  do profile_id <- new_uuid ;;
  do adapter <- adapter_on (mkMockRegistry (Err (mkStatus NotFound "n/a"))
                              (Ok (mkVoiceProfileProto (uuid_to_string profile_id) "grpc-bot"))) ;;
  do r <- get_voice_profile adapter (voice_profile_id_from profile_id) ;;
  do vp <- unwrap r ;;
  assert_eq (vp_name vp) "grpc-bot"%string.

Definition permission_denied_maps_to_permanent : test World :=
  do adapter <- adapter_on (mkMockRegistry (Err (mkStatus PermissionDenied "not allowed"))
                              (Err (mkStatus NotFound "n/a"))) ;;
  do r <- resolve_snapshot adapter {| rsq_org_id := "o1"; rsq_journey_version := "v1" |} ;;
  do err <- unwrap_err r ;;
  assert_ (match err with RegistryErr.Permanent _ => true | _ => false end).

Definition registry_grpc_tests : list (test World) :=
  [resolve_snapshot_success; not_found_maps_to_permanent; unavailable_maps_correctly;
   get_voice_profile_success; permission_denied_maps_to_permanent].

#[local] Hint Unfold resolve_snapshot_success not_found_maps_to_permanent
  unavailable_maps_correctly get_voice_profile_success permission_denied_maps_to_permanent
  registry_grpc_adapter_new adapter_on adapter_metrics_for_test resolve_snapshot get_voice_profile
      retrying with_retry : run_test.

Lemma registry_grpc_tests_pass w : Forall (λ t, passes t w = true) registry_grpc_tests.
Proof.
  destruct adapter_metrics_registers as [r Hr]. destruct w as [[b m] sent metrics].
  unfold registry_grpc_tests.
  repeat constructor; run_peer B; reflexivity.
Qed.

End Tests.
