(* ===== verification/JourneyManagerGrpcTests.v ===== *)
(** * The unit tests of [journey_manager_grpc.rs]

    The test of a slow downstream is about time: it runs on a clock that only
    sleeping advances. *)
From Stdlib Require Import ZArith Lia.
From stdpp Require Import base list gmap strings pretty.
From S2P Require Import Prelude Uuids UnitTest Errors PortTypes Saga Prometheus Policies Ports Net.
From S2P Require Import Grpc JourneyManagerGrpc MockPeer.

Record CallCounters := mkCounters { c_create : nat; c_cancel : nat; c_timeline : nat }.
Definition counters_default : CallCounters := mkCounters 0 0 0.

Record MockJm := mkMockJm {
  create_result : result Pb.ExecutionRefProto Status;
  cancel_result : result unit Status;
  timeline_result : result (list Pb.TimelineEventProto) Status;
  seen_request_ids : list string;
  counters : CallCounters
}.

Definition with_seen (id : string) (c : CallCounters) (self : MockJm) : MockJm :=
  mkMockJm (create_result self) (cancel_result self) (timeline_result self)
    (seen_request_ids self ++ [id]) c.

Definition mock_create_execution (req : Pb.CreateExecutionRequest) (self : MockJm)
  : result Pb.CreateExecutionResponse Status * MockJm :=
  let c := counters self in
  (result_map (λ r, Pb.mkCreateExecutionResponse (Some r)) (create_result self),
   with_seen (Pb.cer_request_id req) (mkCounters (S (c_create c)) (c_cancel c) (c_timeline c))
       self).
Definition mock_cancel_execution (req : Pb.CancelExecutionRequest) (self : MockJm)
  : result Pb.CancelExecutionResponse Status * MockJm :=
  let c := counters self in
  (result_map (λ _, Pb.mkCancelExecutionResponse) (cancel_result self),
   with_seen (Pb.cxr_request_id req) (mkCounters (c_create c) (S (c_cancel c)) (c_timeline c))
       self).
Definition mock_get_execution_timeline (req : Pb.GetExecutionTimelineRequest) (self : MockJm)
  : result Pb.GetExecutionTimelineResponse Status * MockJm :=
  let c := counters self in
  (result_map Pb.mkGetExecutionTimelineResponse (timeline_result self),
   with_seen (Pb.get_request_id req) (mkCounters (c_create c) (c_cancel c) (S (c_timeline c)))
       self).

Section Tests.
Context `{U : UuidLib, UL : !UuidLaws} `{TL : TonicLib} `{PL : PrometheusLaws}.
Context {B : Type} `{!RetryEnv B} `{!UuidGen B}.
Local Abbreviation World := (Net (B * MockJm) JourneyCall).

#[local] Instance mock_jm_client : JourneyManagerClient (B * MockJm) := {|
  rpc_create_execution := served mock_create_execution;
  rpc_cancel_execution := served mock_cancel_execution;
  rpc_get_execution_timeline := served mock_get_execution_timeline
|}.

Definition always_ok_create (ref_id : Uuid) : MockJm :=
  mkMockJm (Ok (Pb.mkExecutionRefProto (uuid_to_string ref_id))) (Ok tt) (Ok []) []
    counters_default.

Definition adapter_on (mock : MockJm) : io World JourneyManagerGrpcAdapter :=
  do _ <- start_server mock ;;
  do m <- adapter_metrics_for_test ;;
  journey_manager_grpc_adapter_new m.

Definition create_req (journey_version : string) : io World CreateExecutionReq :=
  do id <- new_uuid ;;
  io_ret {| ce_journey_version := journey_version; ce_org_id := "org-1"%string;
            ce_engagement_id := engagement_id_from id |}.

Definition create_execution_happy_path : test World :=
  do exec_id <- new_uuid ;;
  do adapter <- adapter_on (always_ok_create exec_id) ;;
  do req <- create_req "v1" ;;
  do res <- create_execution adapter req ;;
  do r <- unwrap res ;;
  do _ <- assert_eq (execution_ref_as_uuid r) exec_id ;;
  do mk <- mock ;;
  let ids := seen_request_ids mk in
  do _ <- assert_eq (length ids) 1%nat ;;
  do id <- index ids 0 ;;
  do _ <- unwrap (uuid_parse id) ;;
  io_ret tt.

(** A mock whose [create_execution] always fails. *)
Definition failing_create (s : Status) : MockJm :=
  mkMockJm (Err s) (Ok tt) (Ok []) [] counters_default.

Definition create_execution_invalid_argument_maps_to_permanent : test World :=
  do adapter <- adapter_on (failing_create (mkStatus InvalidArgument "bad journey_version")) ;;
  do req <- create_req "bogus" ;;
  do res <- create_execution adapter req ;;
  do err <- unwrap_err res ;;
  assert_ (match err with JmErr.Permanent _ => true | _ => false end).

Definition create_execution_unavailable_maps_to_unavailable : test World :=
  do adapter <- adapter_on (failing_create (mkStatus UnavailableCode "down")) ;;
  do req <- create_req "v1" ;;
  do res <- create_execution adapter req ;;
  do err <- unwrap_err res ;;
  assert_ (match err with JmErr.Unavailable => true | _ => false end).

Definition create_execution_retries_exactly_twice_on_transient : test World :=
  do adapter <- adapter_on (failing_create (mkStatus UnavailableCode "flaky")) ;;
  do req <- create_req "v1" ;;
  do _ <- create_execution adapter req ;;
  do mk <- mock ;;
  assert_eq (c_create (counters mk)) 2%nat.

Definition create_execution_request_id_is_stable_across_retries : test World :=
  do adapter <- adapter_on (failing_create (mkStatus UnavailableCode "flaky")) ;;
  do req <- create_req "v1" ;;
  do _ <- create_execution adapter req ;;
  do mk <- mock ;;
  let ids := seen_request_ids mk in
  do _ <- assert_eq (length ids) 2%nat ;;
  do id0 <- index ids 0 ;;
  do id1 <- index ids 1 ;;
  assert_eq id0 id1.

Definition cancel_execution_happy_path : test World :=
  do id <- new_uuid ;;
  do adapter <- adapter_on (always_ok_create id) ;;
  do ref <- new_uuid ;;
  do r <- cancel_execution adapter (execution_ref_new ref) CompensateFailedBind ;;
  do _ <- unwrap r ;;
  do mk <- mock ;;
  assert_eq (c_cancel (counters mk)) 1%nat.

Definition cancel_execution_retries_five_times_on_transient : test World :=
  do id <- new_uuid ;;
  do adapter <- adapter_on
    (mkMockJm (Ok (Pb.mkExecutionRefProto (uuid_to_string id)))
       (Err (mkStatus UnavailableCode "flaky")) (Ok []) [] counters_default) ;;
  do ref <- new_uuid ;;
  do _ <- cancel_execution adapter (execution_ref_new ref) CompensateFailedBind ;;
  do mk <- mock ;;
  assert_eq (c_cancel (counters mk)) 5%nat.

Definition get_execution_timeline_returns_events_in_order : test World :=
  do adapter <- adapter_on
    (mkMockJm (Err (mkStatus NotFound "n/a")) (Ok tt)
       (Ok [Pb.mkTimelineEventProto 1 "node_entered"; Pb.mkTimelineEventProto 2 "node_exited"])
       [] counters_default) ;;
  do ref <- new_uuid ;;
  do r <- get_execution_timeline adapter (execution_ref_new ref) {| to_after_sequence := None |} ;;
  do t <- unwrap r ;;
  do _ <- assert_eq (length (tl_events t)) 2%nat ;;
  do e <- index (tl_events t) 0 ;;
  do _ <- assert_eq (te_sequence e) 1 ;;
  assert_eq (te_kind e) "node_entered"%string.

Definition cross_call_request_ids_are_distinct : test World :=
  do id <- new_uuid ;;
  do adapter <- adapter_on (always_ok_create id) ;;
  do req <- create_req "v1" ;;
  do _ <- create_execution adapter req ;;
  do ref <- new_uuid ;;
  do _ <- cancel_execution adapter (execution_ref_new ref) CompensateFailedBind ;;
  do mk <- mock ;;
  let ids := seen_request_ids mk in
  do _ <- assert_eq (length ids) 2%nat ;;
  do id0 <- index ids 0 ;;
  do id1 <- index ids 1 ;;
  assert_ne id0 id1.

Definition journey_manager_grpc_tests : list (test World) :=
  [create_execution_happy_path; create_execution_invalid_argument_maps_to_permanent;
   create_execution_unavailable_maps_to_unavailable;
   create_execution_retries_exactly_twice_on_transient;
   create_execution_request_id_is_stable_across_retries; cancel_execution_happy_path;
   cancel_execution_retries_five_times_on_transient;
   get_execution_timeline_returns_events_in_order].

#[local] Hint Unfold create_execution_happy_path
  create_execution_invalid_argument_maps_to_permanent
  create_execution_unavailable_maps_to_unavailable
  create_execution_retries_exactly_twice_on_transient
  create_execution_request_id_is_stable_across_retries cancel_execution_happy_path
  cancel_execution_retries_five_times_on_transient
  get_execution_timeline_returns_events_in_order cross_call_request_ids_are_distinct
  journey_manager_grpc_adapter_new adapter_on create_req failing_create create_execution
      cancel_execution get_execution_timeline
  fresh_request_id index assert_eq assert_ne : run_test.

Lemma journey_manager_grpc_tests_pass w :
  Forall (λ t, passes t w = true) journey_manager_grpc_tests.
Proof.
  destruct adapter_metrics_registers as [r Hr]. destruct w as [[b m] sent metrics].
  unfold journey_manager_grpc_tests. repeat constructor; run_peer B; reflexivity.
Qed.

(** The two request ids are the third and the fifth id the test draws. *)
Lemma cross_call_passes w :
  passes cross_call_request_ids_are_distinct w = true
  ↔ draw_at 2 (net_env w).1 ≠ draw_at 4 (net_env w).1.
Proof.
  destruct adapter_metrics_registers as [r Hr]. destruct w as [[b m] sent metrics].
  run_peer B. drawn. case_bool_decide as Heq; simpl.
  - by apply uuid_to_string_inj in Heq as ->.
  - split; [intros _; congruence|done].
Qed.

End Tests.

(** ** A slow downstream behind a channel with a timeout *)
Section Slow.
Import Uuid36 CountingEnv ListRegistry.
Context `{TL : TonicLib} (expired : Status).
Local Abbreviation B := (Z * nat)%type.
Local Abbreviation World := (Net B JourneyCall).

Definition SlowMockJm_create_execution (_ : Pb.CreateExecutionRequest) (b : B)
  : wire Pb.CreateExecutionResponse Status * B :=
  let b := tokio_sleep (from_secs 5) b in
  let '(u, b) := new_v4 b in
  (Replied (Pb.mkCreateExecutionResponse (Some (Pb.mkExecutionRefProto (uuid_to_string u)))), b).

(** [Channel::timeout]: a call that takes longer is dropped when the time is
    up and ends in a status of tonic's choice. *)
Definition with_timeout {R M} (limit : Duration) (call : R → B → wire M Status * B) (r : R) (b : B)
  : wire M Status * B :=
  let '(x, b') := call r b in
  if limit <? instant_now b' - instant_now b then (Failed expired, tokio_sleep limit b) else
      (x, b').

(** [unimplemented!()] in a handler resets the stream. *)
Definition reset_stream {M} (_ : B) : wire M Status := Failed (mkStatus Internal "stream reset").
#[local] Instance slow_client : JourneyManagerClient B := {|
  rpc_create_execution := with_timeout (from_millis 200) SlowMockJm_create_execution;
  rpc_cancel_execution _ b := (reset_stream b, b);
  rpc_get_execution_timeline _ b := (reset_stream b, b)
|}.

Definition now : io World Z := λ s, (Value (instant_now (net_env s)), s).

Definition slow_downstream_does_not_hang_forever_when_caller_adds_timeout : test World :=
  do m <- adapter_metrics_for_test ;;
  do adapter <- journey_manager_grpc_adapter_new m ;;
  do start <- now ;;
  do id <- (λ s, let '(i, b) := engagement_id_default (net_env s) in
                 (Value i, mkNet b (net_sent s) (net_metrics s))) ;;
  do res <- create_execution adapter
    {| ce_journey_version := "v1"; ce_org_id := "org-1"; ce_engagement_id := id |} ;;
  do err <- unwrap_err res ;;
  do stop <- now ;;
  assert_ (stop - start <? from_secs 2).

End Slow.

(** Whatever status the expired call ends in. *)
Lemma slow_downstream_passes `{TL : TonicLib} (expired : Status) :
  passes (slow_downstream_does_not_hang_forever_when_caller_adds_timeout expired)
    (mkNet (0, 0%nat) [] empty_metrics) = true.
Proof. destruct expired as [[] msg]; vm_compute; reflexivity. Qed.
