(* ===== verification/VoiceManagerGrpcTests.v ===== *)
(** * The unit tests of [voice_manager_grpc.rs] *)
From Stdlib Require Import ZArith Lia.
From stdpp Require Import base list gmap strings pretty.
From S2P Require Import Prelude Uuids UnitTest Errors PortTypes Saga Prometheus Policies Ports Net.
From S2P Require Import Grpc VoiceManagerGrpc MockPeer.

Record VmCounters := mkVmCounters {
  vc_start : nat; vc_stop : nat; vc_token : nat; vc_create_tel : nat; vc_list_tel
      : nat; vc_get_tel : nat; vc_update_tel : nat; vc_delete_tel : nat
}.
Definition vm_counters_default : VmCounters := mkVmCounters 0 0 0 0 0 0 0 0.

Record MockVm := mkMockVm {
  start_result : result Pb.VoiceSessionRefProto Status;
  stop_result : result unit Status;
  token_result : result string Status;
  telephony_result : result Pb.TelephonyProto Status;
  list_result : result (list Pb.TelephonyProto) Status;
  seen_request_ids : list string;
  seen_stop_modes : list Z;
  counters : VmCounters
}.

(** A handler first counts the call and notes its request id. *)
Definition noted (bump : VmCounters → VmCounters) (id : string) (modes : list Z) (self : MockVm)
  : MockVm :=
  mkMockVm (start_result self) (stop_result self) (token_result self) (telephony_result self)
    (list_result self) (seen_request_ids self ++ [id]) (seen_stop_modes self ++ modes)
    (bump (counters self)).

Definition bump_start (c : VmCounters) : VmCounters :=
  mkVmCounters (S (vc_start c)) (vc_stop c) (vc_token c) (vc_create_tel c) (vc_list_tel c)
      (vc_get_tel c) (vc_update_tel c) (vc_delete_tel c).
Definition bump_stop (c : VmCounters) : VmCounters :=
  mkVmCounters (vc_start c) (S (vc_stop c)) (vc_token c) (vc_create_tel c) (vc_list_tel c)
      (vc_get_tel c) (vc_update_tel c) (vc_delete_tel c).
Definition bump_token (c : VmCounters) : VmCounters :=
  mkVmCounters (vc_start c) (vc_stop c) (S (vc_token c)) (vc_create_tel c) (vc_list_tel c)
      (vc_get_tel c) (vc_update_tel c) (vc_delete_tel c).
Definition bump_create_tel (c : VmCounters) : VmCounters :=
  mkVmCounters (vc_start c) (vc_stop c) (vc_token c) (S (vc_create_tel c)) (vc_list_tel c)
      (vc_get_tel c) (vc_update_tel c) (vc_delete_tel c).
Definition bump_list_tel (c : VmCounters) : VmCounters :=
  mkVmCounters (vc_start c) (vc_stop c) (vc_token c) (vc_create_tel c) (S (vc_list_tel c))
      (vc_get_tel c) (vc_update_tel c) (vc_delete_tel c).
Definition bump_get_tel (c : VmCounters) : VmCounters :=
  mkVmCounters (vc_start c) (vc_stop c) (vc_token c) (vc_create_tel c) (vc_list_tel c)
      (S (vc_get_tel c)) (vc_update_tel c) (vc_delete_tel c).
Definition bump_update_tel (c : VmCounters) : VmCounters :=
  mkVmCounters (vc_start c) (vc_stop c) (vc_token c) (vc_create_tel c) (vc_list_tel c)
      (vc_get_tel c) (S (vc_update_tel c)) (vc_delete_tel c).
Definition bump_delete_tel (c : VmCounters) : VmCounters :=
  mkVmCounters (vc_start c) (vc_stop c) (vc_token c) (vc_create_tel c) (vc_list_tel c)
      (vc_get_tel c) (vc_update_tel c) (S (vc_delete_tel c)).

Definition mock_start_voice_session (req : Pb.StartVoiceSessionRequest) (self : MockVm)
  : result Pb.StartVoiceSessionResponse Status * MockVm :=
  (result_map (λ r, Pb.mkStartVoiceSessionResponse (Some r)) (start_result self),
   noted bump_start (Pb.svr_request_id req) [] self).
Definition mock_stop_voice_session (req : Pb.StopVoiceSessionRequest) (self : MockVm)
  : result Pb.StopVoiceSessionResponse Status * MockVm :=
  (result_map (λ _, Pb.mkStopVoiceSessionResponse) (stop_result self),
   noted bump_stop (Pb.stp_request_id req) [Pb.stp_mode req] self).
Definition mock_issue_test_token (req : Pb.IssueTestTokenRequest) (self : MockVm)
  : result Pb.IssueTestTokenResponse Status * MockVm :=
  (result_map Pb.mkIssueTestTokenResponse (token_result self),
   noted bump_token (Pb.itr_request_id req) [] self).
Definition mock_create_telephony (req : Pb.CreateTelephonyRequest) (self : MockVm)
  : result Pb.TelephonyResponse Status * MockVm :=
  (result_map (λ t, Pb.mkTelephonyResponse (Some t)) (telephony_result self),
   noted bump_create_tel (Pb.ctr_request_id req) [] self).
Definition mock_list_telephonies (req : Pb.ListTelephoniesRequest) (self : MockVm)
  : result Pb.ListTelephoniesResponse Status * MockVm :=
  (result_map Pb.mkListTelephoniesResponse (list_result self),
   noted bump_list_tel (Pb.ltr_request_id req) [] self).
Definition mock_get_telephony (req : Pb.GetTelephonyRequest) (self : MockVm)
  : result Pb.TelephonyResponse Status * MockVm :=
  (result_map (λ t, Pb.mkTelephonyResponse (Some t)) (telephony_result self),
   noted bump_get_tel (Pb.gtr_request_id req) [] self).
Definition mock_update_telephony (req : Pb.UpdateTelephonyRequest) (self : MockVm)
  : result Pb.TelephonyResponse Status * MockVm :=
  (result_map (λ t, Pb.mkTelephonyResponse (Some t)) (telephony_result self),
   noted bump_update_tel (Pb.utr_request_id req) [] self).
Definition mock_delete_telephony (req : Pb.DeleteTelephonyRequest) (self : MockVm)
  : result Pb.DeleteTelephonyResponse Status * MockVm :=
  (result_map (λ _, Pb.mkDeleteTelephonyResponse) (stop_result self),
   noted bump_delete_tel (Pb.dtr_request_id req) [] self).

Section Tests.
Context `{U : UuidLib, UL : !UuidLaws} `{TL : TonicLib} `{PL : PrometheusLaws}.
Context {B : Type} `{!RetryEnv B} `{!UuidGen B}.
Local Abbreviation World := (Net (B * MockVm) VoiceCall).

#[local] Instance mock_vm_client : VoiceManagerClient (B * MockVm) := {|
  rpc_start_voice_session := served mock_start_voice_session;
  rpc_stop_voice_session := served mock_stop_voice_session;
  rpc_issue_test_token := served mock_issue_test_token;
  rpc_create_telephony := served mock_create_telephony;
  rpc_list_telephonies := served mock_list_telephonies;
  rpc_get_telephony := served mock_get_telephony;
  rpc_update_telephony := served mock_update_telephony;
  rpc_delete_telephony := served mock_delete_telephony
|}.

Definition happy (default_id : Uuid) : MockVm :=
  mkMockVm (Ok (Pb.mkVoiceSessionRefProto (uuid_to_string default_id))) (Ok tt)
      (Ok "token-abc"%string)
    (Ok (Pb.mkTelephonyProto (uuid_to_string default_id) "org-1" "+60123456789")) (Ok []) [] []
    vm_counters_default.

(** [MockVm { stop_result: .., ..MockVm::happy(id) }] and the like. *)
Definition with_stop_result (r : result unit Status) (m : MockVm) : MockVm :=
  mkMockVm (start_result m) r (token_result m) (telephony_result m) (list_result m)
    (seen_request_ids m) (seen_stop_modes m) (counters m).
Definition with_token_result (r : result string Status) (m : MockVm) : MockVm :=
  mkMockVm (start_result m) (stop_result m) r (telephony_result m) (list_result m)
    (seen_request_ids m) (seen_stop_modes m) (counters m).
Definition with_telephony_result (r : result Pb.TelephonyProto Status) (m : MockVm) : MockVm :=
  mkMockVm (start_result m) (stop_result m) (token_result m) r (list_result m)
    (seen_request_ids m) (seen_stop_modes m) (counters m).

Definition adapter_on (mock : MockVm) : io World VoiceManagerGrpcAdapter :=
  do _ <- start_server mock ;;
  do m <- adapter_metrics_for_test ;;
  voice_manager_grpc_adapter_new m.

Definition start_voice_session_happy : test World :=
  do sid <- new_uuid ;;
  do adapter <- adapter_on (happy sid) ;;
  do eng <- new_uuid ;;
  do res <- start_voice_session adapter
              {| sv_engagement_id := engagement_id_from eng; sv_org_id := "org-1" |} ;;
  do r <- unwrap res ;;
  assert_eq (voice_session_ref_as_uuid r) sid.

Definition stop_voice_session_abort_uses_5_attempts_on_transient : test World :=
  do id <- new_uuid ;;
  do adapter <- adapter_on
    (with_stop_result (Err (mkStatus UnavailableCode "flaky")) (happy id)) ;;
  do ref <- new_uuid ;;
  do _ <- stop_voice_session adapter (voice_session_ref_new ref) Abort ;;
  do mk <- mock ;;
  assert_eq (vc_stop (counters mk)) 5%nat.

Definition stop_voice_session_graceful_uses_1_attempt_on_transient : test World :=
  do id <- new_uuid ;;
  do adapter <- adapter_on
    (with_stop_result (Err (mkStatus UnavailableCode "flaky")) (happy id)) ;;
  do ref <- new_uuid ;;
  do _ <- stop_voice_session adapter (voice_session_ref_new ref) Graceful ;;
  do mk <- mock ;;
  assert_eq (vc_stop (counters mk)) 1%nat.

Definition stop_voice_session_passes_mode_correctly : test World :=
  do id <- new_uuid ;;
  do adapter <- adapter_on (happy id) ;;
  do ref <- new_uuid ;;
  do r <- stop_voice_session adapter (voice_session_ref_new ref) Abort ;;
  do _ <- unwrap r ;;
  do ref2 <- new_uuid ;;
  do r2 <- stop_voice_session adapter (voice_session_ref_new ref2) Graceful ;;
  do _ <- unwrap r2 ;;
  do mk <- mock ;;
  let modes := seen_stop_modes mk in
  do m0 <- index modes 0 ;;
  do _ <- assert_eq m0 (Pb.stop_mode_number Pb.Abort) ;;
  do m1 <- index modes 1 ;;
  assert_eq m1 (Pb.stop_mode_number Pb.Graceful).

Definition issue_test_token_happy : test World :=
  do id <- new_uuid ;;
  do adapter <- adapter_on (happy id) ;;
  do r <- issue_test_token adapter {| it_org_id := "org-1" |} ;;
  do t <- unwrap r ;;
  assert_eq (tt_token t) "token-abc"%string.

Definition telephony_crud_roundtrip : test World :=
  do tid <- new_uuid ;;
  do adapter <- adapter_on (happy tid) ;;
  do r <- create_telephony adapter
            {| ct_org_id := "org-1"; ct_phone_number := "+60123456789" |} ;;
  do created <- unwrap r ;;
  do _ <- assert_eq (tel_org_id created) "org-1"%string ;;
  do r <- get_telephony adapter (telephony_id_from tid) ;;
  do got <- unwrap r ;;
  do _ <- assert_eq (tel_phone_number got) "+60123456789"%string ;;
  do r <- update_telephony adapter
            {| ut_id := telephony_id_from tid; ut_phone_number := "+60111111111" |} ;;
  do updated <- unwrap r ;;
  do _ <- assert_eq (tel_org_id updated) "org-1"%string ;;
  do r <- delete_telephony adapter (telephony_id_from tid) "decommissioned" ;;
  do _ <- unwrap r ;;
  do mk <- mock ;;
  assert_eq (vc_delete_tel (counters mk)) 1%nat.

Definition list_telephonies_passes_page_token : test World :=
  do id <- new_uuid ;;
  do adapter <- adapter_on (happy id) ;;
  do r <- list_telephonies adapter
            {| lt_org_id := "org-1"; lt_page_token := Some "next-page"%string |} ;;
  do v <- unwrap r ;;
  assert_ (match v with [] => true | _ => false end).

Definition create_telephony_retries_twice_on_transient : test World :=
  do id <- new_uuid ;;
  do adapter <- adapter_on
    (with_telephony_result (Err (mkStatus UnavailableCode "flaky")) (happy id)) ;;
  do _ <- create_telephony adapter
            {| ct_org_id := "org-1"; ct_phone_number := "+60123456789" |} ;;
  do mk <- mock ;;
  assert_eq (vc_create_tel (counters mk)) 2%nat.

Definition issue_test_token_invalid_argument_maps_to_permanent : test World :=
  do id <- new_uuid ;;
  do adapter <- adapter_on
    (with_token_result (Err (mkStatus InvalidArgument "bad org_id")) (happy id)) ;;
  do r <- issue_test_token adapter {| it_org_id := "bad" |} ;;
  do e <- unwrap_err r ;;
  assert_ (match e with VmErr.Permanent _ => true | _ => false end).

Definition voice_manager_grpc_tests : list (test World) :=
  [start_voice_session_happy;
   stop_voice_session_abort_uses_5_attempts_on_transient;
   stop_voice_session_graceful_uses_1_attempt_on_transient;
   stop_voice_session_passes_mode_correctly;
   issue_test_token_happy;
   telephony_crud_roundtrip;
   list_telephonies_passes_page_token;
   create_telephony_retries_twice_on_transient;
   issue_test_token_invalid_argument_maps_to_permanent].

#[local] Hint Unfold
  start_voice_session_happy
  stop_voice_session_abort_uses_5_attempts_on_transient
  stop_voice_session_graceful_uses_1_attempt_on_transient
  stop_voice_session_passes_mode_correctly
  issue_test_token_happy
  telephony_crud_roundtrip
  list_telephonies_passes_page_token
  create_telephony_retries_twice_on_transient
  issue_test_token_invalid_argument_maps_to_permanent
  start_voice_session stop_voice_session issue_test_token create_telephony
  list_telephonies get_telephony update_telephony delete_telephony
  voice_manager_grpc_adapter_new adapter_on telephony_from_proto fresh_request_id index assert_eq
      : run_test.

Lemma voice_manager_grpc_tests_pass w : Forall (λ t, passes t w = true) voice_manager_grpc_tests.
Proof.
  destruct adapter_metrics_registers as [r Hr]. destruct w as [[b m] sent metrics].
  unfold voice_manager_grpc_tests. repeat constructor; run_peer B; reflexivity.
Qed.

End Tests.
