(* ===== verification/GrpcTests.v ===== *)
(** * The unit tests of the gRPC adapters, together *)
From Stdlib Require Import ZArith Lia.
From stdpp Require Import base list gmap strings.
From S2P Require Import Prelude Uuids UnitTest Saga Prometheus Policies Net Grpc.
From S2P Require Import JourneyManagerGrpc RegistryGrpc VoiceManagerGrpc MockPeer.
From S2P Require Import RegistryGrpcTests JourneyManagerGrpcTests VoiceManagerGrpcTests.

(** C38. The three gRPC adapters and their 24 unit tests, translated statement by
    statement with their mock servers. On every clock and random source and
    from every state, 22 of them pass: the values and errors a caller
    sees, how often each method calls the mock, one request id for all attempts of a
    call, and the stop modes. The test that two calls carry different request
    ids passes exactly when the two ids the adapter draws for them, the
    third and the fifth of the test, differ. The test of a slow downstream passes
    on a clock that only sleeping advances. *)
Theorem grpc_tests_pass `{U : UuidLib, UL : !UuidLaws} `{TL : TonicLib} `{PL : PrometheusLaws}
    {B : Type} `{!RetryEnv B} `{!UuidGen B} (w1 w2 w3 : _) :
  Forall (λ t : test (Net (B * MockRegistry) RegistryCall), passes t w1 = true)
    registry_grpc_tests
  ∧ Forall (λ t : test (Net (B * MockJm) JourneyCall), passes t w2 = true)
      journey_manager_grpc_tests
  ∧ (passes cross_call_request_ids_are_distinct w2 = true
     ↔ draw_at 2 (net_env w2).1 ≠ draw_at 4 (net_env w2).1)
  ∧ Forall (λ t : test (Net (B * MockVm) VoiceCall), passes t w3 = true)
      voice_manager_grpc_tests
  ∧ ∀ expired, passes (slow_downstream_does_not_hang_forever_when_caller_adds_timeout expired)
      (mkNet (0, 0%nat) [] empty_metrics) = true.
Proof.
  split_and!; [apply registry_grpc_tests_pass|apply journey_manager_grpc_tests_pass
    |apply cross_call_passes|apply voice_manager_grpc_tests_pass
    |apply slow_downstream_passes]; assumption.
Qed.

Section Witness.
Import ListRegistry Uuid36 CountingEnv.
Local Instance witness_tonic : TonicLib := {| code_debug _ := "Internal"%string |}.

Definition start_net {M C} (m : M) : Net ((Z * nat) * M) C :=
  mkNet ((0%Z, 0%nat), m) [] empty_metrics.

Lemma grpc_tests_pass_witness :
  Forall (λ t, passes t (start_net (always_ok_create (U := lib) nil_uuid)) = true)
    journey_manager_grpc_tests
  ∧ passes cross_call_request_ids_are_distinct
      (start_net (always_ok_create (U := lib) nil_uuid)) = true.
Proof.
  destruct (grpc_tests_pass (PL := list_prometheus_laws) (B := Z * nat)
    (start_net (mkMockRegistry (Err (mkStatus NotFound "n/a")) (Err (mkStatus NotFound "n/a"))))
    (start_net (always_ok_create (U := lib) nil_uuid)) (start_net (happy (U := lib) nil_uuid))) as
        (_ & H & Hcross & _).
  split; [exact H|]. apply Hcross. intros Heq.
  apply draw_at_inj in Heq; lia.
Defined.

End Witness.
