(* ===== verification/SerdeJson.v ===== *)
(** * Derived JSON decoding

    What [#[derive(Deserialize)]] makes of a struct when [serde_json] reads it:
    a decoder per field type, and for a struct a loop over the members of an
    object that ignores unknown names and refuses a known name met twice,
    followed by the fields that were not met, in their declared order.  A
    struct also decodes from an array of its fields.  [serde]'s error texts are
    the class [SerdeErrors]; reading a text is the class [JsonText]. *)
From Stdlib Require Import ZArith Lia Floats.SpecFloat.
From stdpp Require Import base list gmap strings.
From S2P Require Import Prelude.

(** A number without fraction and exponent that fits 64 bits is a [JInt]. *)
Inductive Json :=
| JNull | JBool (b : bool) | JInt (i : Z) | JFloat (f : spec_float) | JString (s : string)
| JArray (l : list Json) | JObject (o : list (string * Json)).

(** [serde_json::from_str::<Value>]. *)
Class JsonText := parse_json_text : string → result Json string.

Class SerdeErrors := {
  invalid_type : Json → string → string;
  invalid_value : Json → string → string;
  invalid_length : string → string;
  missing_field : string → string;
  duplicate_field : string → string;
  trailing_characters : string
}.

(** A decoder and the value of an absent field, [None] if that is an error. *)
Class Deserialize `{SerdeErrors} (T : Type) := {
  deserialize : Json → result T string;
  when_missing : option T
}.

Section Decoders.
Context `{SE : SerdeErrors}.

(** ** Field types *)

#[export] Instance de_string : Deserialize string := {|
  deserialize v := match v with JString s => Ok s | _ => Err (invalid_type v "a string") end;
  when_missing := None
|}.

Definition int_between (lo hi : Z) (expected : string) (v : Json) : result Z string :=
  match v with
  | JInt i =>
      if bool_decide (lo ≤ i ≤ hi) then Ok i else Err (invalid_value v expected)
  | _ => Err (invalid_type v expected)
  end.
Definition de_i32 : Deserialize Z :=
  {| deserialize := int_between (-2147483648) 2147483647 "i32"; when_missing := None |}.
Definition de_u32 : Deserialize Z :=
  {| deserialize := int_between 0 4294967295 "u32"; when_missing := None |}.

(** [as f64] of an integer rounds to nearest even. *)
Definition f64_of_int (i : Z) : spec_float := binary_normalize 53 1024 i 0 false.
Definition de_f64 : Deserialize spec_float := {|
  deserialize v :=
    match v with
    | JFloat f => Ok f
    | JInt i => Ok (f64_of_int i)
    | _ => Err (invalid_type v "f64")
    end;
  when_missing := None
|}.

(** [null] and an absent field are [None]. *)
Definition de_option {T} (D : Deserialize T) : Deserialize (option T) := {|
  deserialize v := match v with JNull => Ok None | _ => result_map Some (deserialize v) end;
  when_missing := Some None
|}.
#[export] Instance de_option_instance {T} `{D : !Deserialize T} : Deserialize (option T) :=
  de_option D.

Definition de_list {T} (D : Deserialize T) : Deserialize (list T) := {|
  deserialize v :=
    match v with
    | JArray l => collect_results (map deserialize l)
    | _ => Err (invalid_type v "a sequence")
    end;
  when_missing := None
|}.
#[export] Instance de_list_instance {T} `{D : !Deserialize T} : Deserialize (list T) := de_list D.

(** [HashMap<String, T>]: a name met twice keeps the last value. *)
Fixpoint insert_all {T} (D : Deserialize T) (o : list (string * Json)) (m : gmap string T)
  : result (gmap string T) string :=
  match o with
  | [] => Ok m
  | (k, v) :: o' => let? x := deserialize v in insert_all D o' (<[k := x]> m)
  end.
Definition de_map {T} (D : Deserialize T) : Deserialize (gmap string T) := {|
  deserialize v :=
    match v with JObject o => insert_all D o ∅ | _ => Err (invalid_type v "a map") end;
  when_missing := None
|}.

(** ** Structs *)

(** The fields of a struct that yield a [T]: their names with their decoders,
    and how the value is made from members and from array elements. *)
Record Fields (T : Type) := mkFields {
  known : list (string * (Json → result unit string));
  of_members : list (string * Json) → result T string;
  of_elements : list Json → result (T * list Json) string
}.
Arguments mkFields {T}.
Arguments known {T}.
Arguments of_members {T}.
Arguments of_elements {T}.

Fixpoint member {A} (name : string) (o : list (string * A)) : option A :=
  match o with
  | [] => None
  | (k, v) :: o' => if decide (k = name) then Some v else member name o'
  end.

Definition fields_of {T} (make : T) : Fields T :=
  mkFields [] (λ _, Ok make) (λ l, Ok (make, l)).

(** Add a field: the value when it is absent from an object, and from an array. *)
Definition add_field {A B} (D : Deserialize A) (name : string)
    (absent : result A string) (short : result A string) (fs : Fields (A → B)) : Fields B :=
  mkFields (known fs ++ [(name, λ v, result_map (λ _, tt) (deserialize v))])
    (λ o, let? make := of_members fs o in
      let? a := match member name o with Some v => deserialize v | None => absent end in
      Ok (make a))
    (λ l, let? p := of_elements fs l in
      match p.2 with
      | v :: l' => let? a := deserialize v in Ok (p.1 a, l')
      | [] => let? a := short in Ok (p.1 a, [])
      end).

Definition field {A B} (D : Deserialize A) (name : string) (fs : Fields (A → B)) : Fields B :=
  add_field D name (ok_or when_missing (missing_field name)) (Err (invalid_length name)) fs.
(** [#[serde(default)]]. *)
Definition default_field {A B} (D : Deserialize A) (d : A) (name : string)
    (fs : Fields (A → B)) : Fields B :=
  add_field D name (Ok d) (Ok d) fs.

(** The loop over the members: [seen] are the known names met so far. *)
Fixpoint scan (decoders : list (string * (Json → result unit string))) (seen : list string)
    (o : list (string * Json)) : result unit string :=
  match o with
  | [] => Ok tt
  | (k, v) :: o' =>
      match member k decoders with
      | None => scan decoders seen o'
      | Some dec =>
          if decide (k ∈ seen) then Err (duplicate_field k)
          else let? _ := dec v in scan decoders (k :: seen) o'
      end
  end.

Definition de_struct {T} (expected : string) (fs : Fields T) : Deserialize T := {|
  deserialize v :=
    match v with
    | JObject o => let? _ := scan (known fs) [] o in of_members fs o
    | JArray l =>
        let? p := of_elements fs l in
        match p.2 with [] => Ok p.1 | _ => Err trailing_characters end
    | _ => Err (invalid_type v expected)
    end;
  when_missing := None
|}.

End Decoders.
Arguments mkFields {T}.
Arguments known {T}.
Arguments of_members {T}.
Arguments of_elements {T}.



Declare Scope serde_scope.
Delimit Scope serde_scope with serde.
Notation "fs |> f" := (f fs) (at level 50, left associativity, only parsing) : serde_scope.

(** ** What a struct decodes from *)

Section Facts.
Context `{SE : SerdeErrors}.

Lemma member_Some {A} name (o : list (string * A)) v : member name o = Some v → (name, v) ∈ o.
Proof.
  induction o as [|[k w] o IH]; simpl; [done|]. case_decide as Hd.
  - intros [= <-]. subst. by left.
  - intros H. right. by apply IH.
Qed.

Lemma member_None {A} name (o : list (string * A)) : member name o = None ↔ name ∉ o.*1.
Proof.
  induction o as [|[k w] o IH]; simpl; [split; [intros _; apply not_elem_of_nil|done]|].
  rewrite not_elem_of_cons. case_decide as Hd; [split; [done|by intros [[] _]; done]|].
      rewrite IH. split; [intros Hn; split; [congruence|done]|by intros [_ ?]].
Qed.

(** The members of [o] whose names are known. *)
Definition known_in {A} (decoders : list (string * A)) (o : list (string * Json)) :=
  filter (λ kv, kv.1 ∈ decoders.*1) o.

Lemma scan_Ok decoders seen o :
  scan decoders seen o = Ok tt ↔
  NoDup (known_in decoders o).*1 ∧ (∀ k, k ∈ (known_in decoders o).*1 → k ∉ seen)
  ∧ Forall (λ kv, ∀ dec, member kv.1 decoders = Some dec → dec kv.2 = Ok tt) o.
Proof.
  revert seen. induction o as [|[k v] o IH]; intros seen; cbn [scan].
  { split; [|done]. intros _. split_and!;
      [constructor|intros k Hk; by apply elem_of_nil in Hk|done]. }
  unfold known_in. rewrite filter_cons, Forall_cons. cbn.
  destruct (member k decoders) as [dec|] eqn:Hdec.
  - assert (Hk : k ∈ decoders.*1).
    { apply member_Some in Hdec. apply list_elem_of_fmap. by exists (k, dec). }
    destruct (decide (k ∈ decoders.*1)) as [_|]; [|done]. cbn. rewrite NoDup_cons.
    destruct (decide (k ∈ seen)) as [Hs|Hs].
    + split; [done|]. intros (_ & Hd & _). exfalso. apply (Hd k); [by left|done].
    + destruct (dec v) as [[]|e] eqn:Hv; cbn.
      * rewrite IH. unfold known_in. split.
        -- intros (Hn & Hd & Hf). split_and!; try done.
           ++ intros Hin. apply (Hd k Hin). by left.
           ++ intros k' [->|Hin]%elem_of_cons; [done|]. intros Hs'. apply (Hd k' Hin). by right.
           ++ intros dec' [= <-]. done.
        -- intros ((Hn1 & Hn2) & Hd & _ & Hf). split_and!; [done| |done].
           intros k' Hin [->|Hs']%elem_of_cons; [done|]. apply (Hd k'); [by right|done].
      * split; [done|]. intros (_ & _ & Hd & _). specialize (Hd dec eq_refl). congruence.
  - apply member_None in Hdec. destruct (decide (k ∈ decoders.*1)) as [|_]; [done|]. rewrite IH.
      unfold known_in.
    split; [|by intros (? & ? & _ & ?)]. intros (Hn & Hd & Hf). by split_and!.
Qed.

(** A field list whose value from members depends on its own names only. *)
Class Local {T} (fs : Fields T) : Prop := of_members_local : ∀ o o',
  (∀ k, k ∈ (known fs).*1 → member k o = member k o') → of_members fs o = of_members fs o'.

#[export] Instance fields_of_local {T} (make : T) : Local (fields_of make).
Proof. by intros o o' _. Qed.
#[export] Instance add_field_local {A B} (D : Deserialize A) name absent short
    (fs : Fields (A → B)) : Local fs → Local (add_field D name absent short fs).
Proof.
  intros Hfs o o' Heq. cbn in *. rewrite fmap_app in Heq.
  rewrite (Hfs o o') by (intros k Hk; apply Heq, elem_of_app; by left).
  rewrite (Heq name); [done|]. apply elem_of_app. right. by left.
Qed.
#[export] Instance field_local {A B} (D : Deserialize A) name (fs : Fields (A → B)) :
  Local fs → Local (field D name fs).
Proof. apply add_field_local. Qed.
#[export] Instance default_field_local {A B} (D : Deserialize A) d name (fs : Fields (A → B)) :
  Local fs → Local (default_field D d name fs).
Proof. apply add_field_local. Qed.

Lemma member_nodup {A} name (o : list (string * A)) v :
  NoDup o.*1 → (name, v) ∈ o → member name o = Some v.
Proof.
  intros Hn Hin. destruct (member name o) as [w|] eqn:Hm.
  - apply member_Some in Hm. f_equal.
    apply list_elem_of_lookup in Hin as [i Hi], Hm as [j Hj].
    assert (i = j) as ->; [|congruence].
    eapply NoDup_lookup; [exact Hn| |]; rewrite list_lookup_fmap, ?Hi, ?Hj; done.
  - apply member_None in Hm. exfalso. apply Hm, list_elem_of_fmap. by exists (name, v).
Qed.

Lemma member_known {A} (decoders : list (string * A)) name o :
  name ∈ decoders.*1 → member name o = member name (known_in decoders o).
Proof.
  intros Hk. unfold known_in. induction o as [|[k v] o IH]; [done|]. rewrite filter_cons.
      cbn [member fst].
  destruct (decide (k ∈ decoders.*1)) as [Hd|Hd]; cbn; rewrite IH; [done|].
  by rewrite decide_False by (intros ->; done).
Qed.

(** Order and unknown members do not matter: what a struct decodes from an
    object, it decodes from every object with these members in another order
    and further members of other names. *)
Lemma decode_unordered {T} expected (fs : Fields T) `{!Local fs} o o' extra x :
  deserialize (Deserialize := de_struct expected fs) (JObject o) = Ok x →
  o' ≡ₚ o ++ extra → Forall (λ kv, kv.1 ∉ (known fs).*1) extra →
  deserialize (Deserialize := de_struct expected fs) (JObject o') = Ok x.
Proof.
  cbn. intros Hx Hp Hextra. destruct (scan (known fs) [] o) as [[]|] eqn:Hs; [|done]. cbn in Hx.
  apply scan_Ok in Hs as (Hn & _ & Hf).
  assert (Hk : known_in (known fs) o' ≡ₚ known_in (known fs) o).
  { unfold known_in. rewrite Hp, filter_app.
    assert (filter (λ kv, kv.1 ∈ (known fs).*1) extra = []) as ->; [|by rewrite app_nil_r].
    clear -Hextra. induction Hextra as [|kv l Hkv _ IH]; [done|].
    rewrite filter_cons. by destruct (decide _). }
  assert (scan (known fs) [] o' = Ok tt) as ->.
  { apply scan_Ok. split_and!.
    - by rewrite Hk.
    - intros k _. apply not_elem_of_nil.
    - rewrite Hp. apply Forall_app. split; [done|]. eapply Forall_impl; [exact Hextra|].
      intros [k v] Hnot dec Hm%member_Some. exfalso. apply Hnot, list_elem_of_fmap.
          by exists (k, dec). }
  cbn. rewrite <- Hx. apply of_members_local. intros k Hin.
  rewrite (member_known (known fs) k o), (member_known (known fs) k o') by done.
  destruct (member k (known_in (known fs) o)) as [v|] eqn:Hm.
  - apply member_nodup; [by rewrite Hk|]. rewrite Hk. by apply member_Some.
  - apply member_None. rewrite Hk. by apply member_None.
Qed.

End Facts.

(** ** Round trips: what is written by [encode] decodes *)

Class Encodes `{SE : SerdeErrors} {T} (D : Deserialize T) (encode : T → Json) (ok : T → Prop) :=
  decode_encode : ∀ x, ok x → deserialize (encode x) = Ok x.

Section Encode.
Context `{SE : SerdeErrors}.

Definition always {T} (_ : T) : Prop := True.

#[export] Instance encodes_string : Encodes de_string JString always.
Proof. done. Qed.
Definition is_i32 (i : Z) : Prop := -2147483648 ≤ i ≤ 2147483647.
Definition is_u32 (i : Z) : Prop := 0 ≤ i ≤ 4294967295.
#[export] Instance encodes_i32 : Encodes de_i32 JInt is_i32.
Proof. intros i Hi. cbn. by rewrite bool_decide_eq_true_2. Qed.
#[export] Instance encodes_u32 : Encodes de_u32 JInt is_u32.
Proof. intros i Hi. cbn. by rewrite bool_decide_eq_true_2. Qed.
#[export] Instance encodes_f64 : Encodes de_f64 JFloat always.
Proof. done. Qed.

Definition encode_option {T} (encode : T → Json) (o : option T) : Json :=
  match o with Some x => encode x | None => JNull end.
Definition ok_option {T} (ok : T → Prop) (o : option T) : Prop :=
  match o with Some x => ok x | None => True end.
Lemma encodes_option {T} (D : Deserialize T) encode ok :
  Encodes D encode ok → (∀ x, encode x ≠ JNull) →
  Encodes (de_option D) (encode_option encode) (ok_option ok).
Proof.
  intros HD Hnull [x|] Hx; [|done]. cbn. specialize (Hnull x). destruct (encode x) eqn:He; try done;
    by rewrite <- He, (HD x Hx).
Qed.

Definition encode_list {T} (encode : T → Json) (l : list T) : Json := JArray (map encode l).
#[export] Instance encodes_list {T} (D : Deserialize T) encode ok :
  Encodes D encode ok → Encodes (de_list D) (encode_list encode) (Forall ok).
Proof.
  intros HD l Hl. cbn. induction Hl as [|x l Hx _ IH]; [done|]. cbn [map collect_results].
  rewrite (HD x Hx). cbn. by rewrite IH.
Qed.

Definition encode_map {T} (encode : T → Json) (m : gmap string T) : Json :=
  JObject (prod_map id encode <$> map_to_list m).
#[export] Instance encodes_map {T} (D : Deserialize T) encode ok :
  Encodes D encode ok → Encodes (de_map D) (encode_map encode) (map_Forall (λ _, ok)).
Proof.
  intros HD m Hm. cbn.
  assert (Hok : Forall (λ kx, ok kx.2) (map_to_list m)).
  { apply Forall_forall. intros [k x] Hin%elem_of_map_to_list. by apply (Hm k). }
  pose proof (NoDup_fst_map_to_list m) as Hnd.
  rewrite <- (list_to_map_to_list m) at 2. rewrite <- (right_id_L ∅ (∪) (list_to_map _)).
  revert Hok Hnd. generalize (map_to_list m) as l. clear Hm m.
  assert (H : ∀ l m0, Forall (λ kx, ok kx.2) l → NoDup l.*1 →
    insert_all D (prod_map id encode <$> l) m0 = Ok (list_to_map l ∪ m0)).
  2:{ intros l Hok Hnd. by apply H. }
  induction l as [|[k x] l IH]; intros m0 Hok Hnd; cbn.
  { by rewrite (left_id_L ∅ (∪)). }
  apply Forall_cons in Hok as [Hx Hok]. apply NoDup_cons in Hnd as [Hk Hnd].
  rewrite (HD x Hx). cbn. rewrite IH by done. f_equal.
  rewrite <- insert_union_l. rewrite insert_union_r; [done|]. by apply not_elem_of_list_to_map.
Qed.

End Encode.

(** ** Decoding field by field *)

Section Fields.
Context `{SE : SerdeErrors}.

(** Reading the fields has run every decoder of a member that is there. *)
Class Reads {T} (fs : Fields T) : Prop := of_members_reads : ∀ o x k dec v,
  of_members fs o = Ok x → (k, dec) ∈ known fs → member k o = Some v → dec v = Ok tt.

#[export] Instance fields_of_reads {T} (make : T) : Reads (fields_of make).
Proof. intros o x k dec v _ Hin. by apply elem_of_nil in Hin. Qed.
Lemma add_field_reads {A B} (D : Deserialize A) name absent short (fs : Fields (A → B)) :
  Reads fs → Reads (add_field D name absent short fs).
Proof.
  intros Hfs o x k dec v Hx Hin Hm. cbn in *.
  destruct (of_members fs o) as [make|] eqn:Hmake; [|done]. cbn in Hx.
  apply elem_of_app in Hin as [Hin|Hin]; [by eapply Hfs|].
  apply list_elem_of_singleton in Hin. injection Hin as -> ->. rewrite Hm in Hx.
  by destruct (deserialize v).
Qed.
#[export] Instance field_reads {A B} (D : Deserialize A) name (fs : Fields (A → B)) :
  Reads fs → Reads (field D name fs).
Proof. apply add_field_reads. Qed.
#[export] Instance default_field_reads {A B} (D : Deserialize A) d name (fs : Fields (A → B)) :
  Reads fs → Reads (default_field D d name fs).
Proof. apply add_field_reads. Qed.

Lemma decode_struct {T} expected (fs : Fields T) `{!Reads fs} o x :
  NoDup o.*1 → of_members fs o = Ok x →
  deserialize (Deserialize := de_struct expected fs) (JObject o) = Ok x.
Proof.
  intros Hn Hx. cbn. assert (scan (known fs) [] o = Ok tt) as ->; [|done].
  apply scan_Ok. split_and!.
  - eapply sublist_NoDup; [exact Hn|]. apply fmap_sublist, sublist_filter.
  - intros k _. apply not_elem_of_nil.
  - apply Forall_forall. intros [k v] Hin dec Hdec%member_Some.
    eapply of_members_reads; [exact Hx|exact Hdec|]. by apply member_nodup.
Qed.

Lemma field_members {A B} (D : Deserialize A) name (fs : Fields (A → B)) o make v a :
  of_members fs o = Ok make → member name o = Some v → deserialize v = Ok a →
  of_members (field D name fs) o = Ok (make a).
Proof. intros Hmake Hm Ha. cbn. by rewrite Hmake, Hm; cbn; rewrite Ha. Qed.
Lemma default_field_members {A B} (D : Deserialize A) d name (fs : Fields (A → B)) o make v a :
  of_members fs o = Ok make → member name o = Some v → deserialize v = Ok a →
  of_members (default_field D d name fs) o = Ok (make a).
Proof. intros Hmake Hm Ha. cbn. by rewrite Hmake, Hm; cbn; rewrite Ha. Qed.
Lemma default_field_absent {A B} (D : Deserialize A) d name (fs : Fields (A → B)) o make :
  of_members fs o = Ok make → member name o = None →
  of_members (default_field D d name fs) o = Ok (make d).
Proof. intros Hmake Hm. cbn. by rewrite Hmake, Hm. Qed.

End Fields.

(** Names are concrete; what is left are the fields' own round trips. *)
Ltac decode_fields :=
  apply decode_struct;
  [ try (apply _); repeat (apply field_reads || apply default_field_reads || apply fields_of_reads)
  | apply (bool_decide_unpack _); vm_compute; exact I
  | repeat first [ eapply field_members; [|reflexivity|]
                 | eapply default_field_absent; [|reflexivity]
                 | eapply default_field_members; [|reflexivity|] ];
    [reflexivity|..] ].
