(* ===== verification/Http.v ===== *)
(** * HTTP requests and replies

    The part of [reqwest], [serde_json] and [urlencoding] the three HTTP
    adapters use.  A status code is its number; its tests, its [Display] text,
    the decoding of bodies and percent-encoding are parameters, with the
    documented ranges of the tests as laws. *)
From Stdlib Require Import ZArith Lia.
From stdpp Require Import base sets list strings pretty.
From S2P Require Import Prelude Errors Net.

Inductive Method := GET | POST | PATCH | DELETE.

(** A request as built by the client's builder methods: [.header("X-Request-Id", _)],
    [.query(&params)] and [.json(&body)], the body being the object a derived
    [Serialize] makes of a struct of strings. *)
Record HttpRequest := mkHttpRequest {
  hq_method : Method;
  hq_url : string;
  hq_request_id : option string;
  hq_query : list (string * string);
  hq_json : option (list (string * string))
}.

Class HttpLib := {
  Body : Type;
  is_success : Z → bool;
  is_client_error : Z → bool;
  (** [Display] of a status, such as "404 Not Found". *)
  status_display : Z → string;
  (** [resp.text()]. *)
  body_text : Body → result string string;
  (** [urlencoding::encode]. *)
  urlencode : string → string
}.

Class HttpLaws `{HttpLib} : Prop := {
  is_success_range : ∀ s, is_success s = true ↔ 200 ≤ s < 300;
  is_client_error_range : ∀ s, is_client_error s = true ↔ 400 ≤ s < 500
}.

(** [resp.json::<T>()] and [serde_json::from_str::<T>]; errors as texts. *)
Class DecodeBody `{HttpLib} (T : Type) := body_json : Body → result T string.
Class DecodeText (T : Type) := from_str : string → result T string.

Record HttpResponse `{HttpLib} := mkHttpResponse { hr_status : Z; hr_body : Body }.

(** An adapter's calls are its requests. *)
Definition as_call (r : HttpRequest) : HttpRequest := r.

(** [client.execute(request)]: a response, or the text of a transport error. *)
Class HttpClient `{HttpLib} (W : Type) :=
  http_send : HttpRequest → W → wire HttpResponse string * W.

(** [StatusCode] constants. *)
Definition NOT_FOUND : Z := 404.
Definition BAD_REQUEST : Z := 400.
Definition UNPROCESSABLE_ENTITY : Z := 422.
Definition SERVICE_UNAVAILABLE : Z := 503.

Section Http.
Context `{HttpLib}.

(** The [if resp.status().is_success() { .. } else { .. }] of every method. *)
Definition on_response {T E} (parse : Body → result T E) (map_http_status : Z → string → E)
    (resp : HttpResponse) : result T E :=
  if is_success (hr_status resp) then parse (hr_body resp)
  else
    let body := match body_text (hr_body resp) with Ok t => t | Err _ => "" end in
    Err (map_http_status (hr_status resp) body).

(** [resp.json().await.map_err(|e| Permanent(e.to_string()))]. *)
Definition parse_json {T E} `{DecodeBody T} `{PortError E} (b : Body) : result T E :=
  map_err mk_permanent (body_json b).

(** [if let Some(v) = o { qp.push((name, v)) }]. *)
Definition push_param (name : string) (o : option string) (qp : list (string * string))
  : list (string * string) :=
  match o with Some v => qp ++ [(name, v)] | None => qp end.

(** ** Specification of the post-call and analytics [map_http_status] *)

Definition final_statuses : list Z := [NOT_FOUND; BAD_REQUEST; UNPROCESSABLE_ENTITY].

Definition three_final {E} `{PortError E} (map_http_status : Z → string → E) : Prop :=
  ∀ status body, map_http_status status body =
    if decide (status ∈ final_statuses)
    then mk_permanent (status_display status +:+ ": " +:+ body)
    else if decide (status = SERVICE_UNAVAILABLE) then mk_unavailable
    else mk_transient (status_display status +:+ ": " +:+ body).

(** Only 404, 400 and 422 are final: every other failure is retried. *)
Lemma three_final_retryable {E} `{PortErrorLaws E} (m : Z → string → E) status body :
  three_final m → is_retryable (m status body) = true ↔ status ∉ final_statuses.
Proof.
  intros ->. repeat case_decide;
    rewrite ?transient_retryable, ?permanent_final, ?unavailable_retryable; done.
Qed.

End Http.

(** The three equality tests of the code, as one membership test. *)
Lemma final_test status :
  ((status =? NOT_FOUND) || (status =? BAD_REQUEST) || (status =? UNPROCESSABLE_ENTITY))%bool
  = bool_decide (status ∈ final_statuses).
Proof.
  apply eq_bool_prop_intro.
  rewrite !orb_True, bool_decide_spec, !Is_true_true, !Z.eqb_eq.
  unfold final_statuses. rewrite !elem_of_cons, elem_of_nil. tauto.
Qed.

(** ** Query strings *)

Definition push_params (ps : list (string * option string)) : list (string * string) :=
  foldl (λ qp p, push_param p.1 p.2 qp) [] ps.

Lemma foldl_push_param ps qp :
  foldl (λ qp p, push_param p.1 p.2 qp) qp ps
  = qp ++ omap (λ p, (λ v, (p.1, v)) <$> p.2) ps.
Proof.
  revert qp. induction ps as [|[n [v|]] ps IH]; intros qp; simpl.
  - by rewrite app_nil_r.
  - by rewrite IH, <- (assoc_L (++)).
  - apply IH.
Qed.

(** The query has exactly the given values, each under its name, in order. *)
Lemma push_params_spec ps : push_params ps = omap (λ p, (λ v, (p.1, v)) <$> p.2) ps.
Proof. unfold push_params. by rewrite foldl_push_param. Qed.

Lemma push_params_elem ps n v : (n, v) ∈ push_params ps ↔ (n, Some v) ∈ ps.
Proof.
  rewrite push_params_spec, list_elem_of_omap. split.
  - intros ([n' [v'|]] & Hin & ?); by simplify_eq/=.
  - intros Hin. by exists (n, Some v).
Qed.

Lemma push_params_names ps : map fst (push_params ps) `sublist_of` map fst ps.
Proof.
  rewrite push_params_spec.
  induction ps as [|[n [v|]] ps IH]; simpl; by constructor.
Qed.

(** ** A small concrete library, for the witnesses *)
Module TextHttp.
#[export] Instance lib : HttpLib := {|
  Body := string;
  is_success s := (200 <=? s) && (s <? 300);
  is_client_error s := (400 <=? s) && (s <? 500);
  status_display s := pretty s;
  body_text b := Ok b;
  urlencode s := s
|}.
#[export] Instance laws : HttpLaws.
Proof. split; intros s; simpl; rewrite andb_true_iff, Z.leb_le, Z.ltb_lt; done. Qed.
End TextHttp.
