(* ===== verification/VoiceManagerHttp.v ===== *)
(** * Voice Manager over HTTP

    Models [crates/engagement-hub-adapters/src/voice_manager_http.rs].  The
    adapter's [client] and [metrics] are the peer class [HttpClient] and
    [net_metrics]; [base_url] is the handle's field. *)
From Stdlib Require Import ZArith Lia.
From stdpp Require Import base sets list strings.
From S2P Require Import Prelude Errors Uuids PortTypes Saga Policies Ports Net Http.

(** ** Response bodies (derived [Deserialize]) *)
Record ErrorInner := { ei_code : string; ei_message : string }.
Record ErrorBody := { eb_error : option ErrorInner }.
Record VoiceSessionRefDto := { vsd_id : string }.
Record StartVoiceSessionResp := { svs_session_ref : VoiceSessionRefDto }.
Record IssueTestTokenResp := { its_token : string }.
Record TelephonyDto := { td_id : string; td_org_id : string; td_phone_number : string }.
Record TelephonyResp := { tresp_telephony : TelephonyDto }.
Record ListTelephoniesResp := { ltresp_telephonies : list TelephonyDto }.

(** ** Request bodies (derived [Serialize]) *)
Record StartVoiceSessionBody := { svb_engagement_id : string; svb_org_id : string }.
Record IssueTestTokenBody := { itb_org_id : string }.
Record CreateTelephonyBody := { ctb_org_id : string; ctb_phone_number : string }.
Record UpdateTelephonyBody := { utb_phone_number : string }.

Definition start_body_json (b : StartVoiceSessionBody) : list (string * string) :=
  [("engagement_id", svb_engagement_id b); ("org_id", svb_org_id b)].
Definition token_body_json (b : IssueTestTokenBody) : list (string * string) :=
  [("org_id", itb_org_id b)].
Definition create_body_json (b : CreateTelephonyBody) : list (string * string) :=
  [("org_id", ctb_org_id b); ("phone_number", ctb_phone_number b)].
Definition update_body_json (b : UpdateTelephonyBody) : list (string * string) :=
  [("phone_number", utb_phone_number b)].

Record VoiceManagerHttpAdapter := mkVoiceManagerHttpAdapter { base_url : string }.

(** [new]: the client is the peer of the state. *)
Definition voice_manager_http_adapter_new {W} (base_url : string) (metrics : AdapterMetrics)
  : io (Net W HttpRequest) VoiceManagerHttpAdapter :=
      with_metrics (mkVoiceManagerHttpAdapter base_url) metrics.

Definition mode_str (m : StopMode) : string :=
  match m with Abort => "abort" | Graceful => "graceful" end.

Definition stop_policy (m : StopMode) : RetryConfig :=
  match m with Abort => CLEANUP_RETRY | Graceful => GRACEFUL_STOP_RETRY end.

Section Adapter.
Context `{U : UuidLib} `{HttpLib} `{!DecodeText ErrorBody}.
Context `{!DecodeBody StartVoiceSessionResp, !DecodeBody IssueTestTokenResp}.
Context `{!DecodeBody TelephonyResp, !DecodeBody ListTelephoniesResp}.

(** The error object's code and message when the body parses as one, else the
    body itself. *)
Definition error_detail (body : string) : string :=
  match from_str body with
  | Ok b =>
      match eb_error b with
      | Some e => ei_code e +:+ ": " +:+ ei_message e
      | None => body
      end
  | Err _ => body
  end.

Definition map_http_status (status : Z) (body : string) : VmError :=
  let detail := error_detail body in
  if is_client_error status then VmErr.Permanent (status_display status +:+ ": " +:+ detail)
  else if status =? SERVICE_UNAVAILABLE then VmErr.Unavailable
  else VmErr.Transient (status_display status +:+ ": " +:+ detail).

Definition telephony_from_dto (t : TelephonyDto) : result Telephony VmError :=
  let? id := map_err (λ e, VmErr.Permanent ("bad telephony id: " +:+ e))
               (result_map mkTelephonyId (uuid_parse (td_id t))) in
  Ok {| tel_id := id; tel_org_id := td_org_id t; tel_phone_number := td_phone_number t |}.

(** What the closures make of a response. *)
Definition session_of_response : HttpResponse → result VoiceSessionRef VmError :=
  on_response (λ b,
    let? parsed := parse_json (T := StartVoiceSessionResp) b in
    let? uid := map_err (λ e, VmErr.Permanent ("bad session_ref uuid: " +:+ e))
                  (uuid_parse (vsd_id (svs_session_ref parsed))) in
    Ok (mkVoiceSessionRef uid)) map_http_status.
Definition unit_of_response : HttpResponse → result unit VmError :=
  on_response (λ _, Ok tt) map_http_status.
Definition token_of_response : HttpResponse → result TestToken VmError :=
  on_response (λ b,
    let? parsed := parse_json (T := IssueTestTokenResp) b in
    Ok {| tt_token := its_token parsed |}) map_http_status.
Definition telephony_of_response : HttpResponse → result Telephony VmError :=
  on_response (λ b,
    let? parsed := parse_json (T := TelephonyResp) b in
    telephony_from_dto (tresp_telephony parsed)) map_http_status.
Definition telephonies_of_response : HttpResponse → result (list Telephony) VmError :=
  on_response (λ b,
    let? parsed := parse_json (T := ListTelephoniesResp) b in
    collect_results (map telephony_from_dto (ltresp_telephonies parsed))) map_http_status.

(** The requests of the eight methods. *)
Definition start_request (a : VoiceManagerHttpAdapter) (req : StartVoiceSessionReq)
    (request_id : string) : HttpRequest :=
  let url := base_url a +:+ "/v1/voice/sessions" in
  let body := {| svb_engagement_id := engagement_id_display (sv_engagement_id req);
                 svb_org_id := sv_org_id req |} in
  mkHttpRequest POST url (Some request_id) [] (Some (start_body_json body)).
Definition stop_request (a : VoiceManagerHttpAdapter) (ref : VoiceSessionRef) (mode : StopMode)
    (request_id : string) : HttpRequest :=
  let url := base_url a +:+ "/v1/voice/sessions/" +:+ uuid_to_string (voice_session_uuid ref)
             +:+ "?mode=" +:+ mode_str mode in
  mkHttpRequest DELETE url (Some request_id) [] None.
Definition token_request (a : VoiceManagerHttpAdapter) (req : IssueTestTokenReq)
    (request_id : string) : HttpRequest :=
  let url := base_url a +:+ "/v1/voice/test_tokens" in
  mkHttpRequest POST url (Some request_id) []
    (Some (token_body_json {| itb_org_id := it_org_id req |})).
Definition create_request (a : VoiceManagerHttpAdapter) (req : CreateTelephonyReq)
    (request_id : string) : HttpRequest :=
  let url := base_url a +:+ "/v1/telephonies" in
  let body := {| ctb_org_id := ct_org_id req; ctb_phone_number := ct_phone_number req |} in
  mkHttpRequest POST url (Some request_id) [] (Some (create_body_json body)).
Definition list_request (a : VoiceManagerHttpAdapter) (req : ListTelephoniesReq)
    (request_id : string) : HttpRequest :=
  let url := base_url a +:+ "/v1/telephonies?org_id=" +:+ urlencode (lt_org_id req) in
  let url := match lt_page_token req with
             | Some pt => url +:+ "&page=" +:+ urlencode pt
             | None => url
             end in
  mkHttpRequest GET url (Some request_id) [] None.
Definition telephony_url (a : VoiceManagerHttpAdapter) (id : TelephonyId) : string :=
  base_url a +:+ "/v1/telephonies/" +:+ uuid_to_string (telephony_uuid id).
Definition get_request (a : VoiceManagerHttpAdapter) (id : TelephonyId) (request_id : string)
  : HttpRequest := mkHttpRequest GET (telephony_url a id) (Some request_id) [] None.
Definition update_request (a : VoiceManagerHttpAdapter) (req : UpdateTelephonyReq)
    (request_id : string) : HttpRequest :=
  let body := {| utb_phone_number := ut_phone_number req |} in
  mkHttpRequest PATCH (telephony_url a (ut_id req)) (Some request_id) []
    (Some (update_body_json body)).
Definition delete_request (a : VoiceManagerHttpAdapter) (id : TelephonyId) (usage : string)
    (request_id : string) : HttpRequest :=
  let url := telephony_url a id +:+ "?usage=" +:+ urlencode usage in
  mkHttpRequest DELETE url (Some request_id) [] None.

Context {W : Type} `{RetryEnv W} `{!UuidGen W} `{!HttpClient W}.
Abbreviation M A := (io (Net W HttpRequest) A).

(** Every request is its own record in [net_sent]. *)
Definition http_call {T} (on_reply : HttpResponse → result T VmError) (r : HttpRequest) :=
  attempt_call (E := VmError) http_send as_call r on_reply VmErr.Transient.

Definition start_voice_session (a : VoiceManagerHttpAdapter) (req : StartVoiceSessionReq)
  : M (result VoiceSessionRef VmError) :=
  do request_id <- fresh_request_id ;;
  retrying WRITE_RETRY "voice_manager_http"
    (http_call session_of_response (start_request a req request_id)).

Definition stop_voice_session (a : VoiceManagerHttpAdapter) (ref : VoiceSessionRef)
    (mode : StopMode)
  : M (result unit VmError) :=
  do request_id <- fresh_request_id ;;
  retrying (stop_policy mode) "voice_manager_http"
    (http_call unit_of_response (stop_request a ref mode request_id)).

Definition issue_test_token (a : VoiceManagerHttpAdapter) (req : IssueTestTokenReq)
  : M (result TestToken VmError) :=
  do request_id <- fresh_request_id ;;
  retrying DEFAULT_RETRY "voice_manager_http"
    (http_call token_of_response (token_request a req request_id)).

Definition create_telephony (a : VoiceManagerHttpAdapter) (req : CreateTelephonyReq)
  : M (result Telephony VmError) :=
  do request_id <- fresh_request_id ;;
  retrying WRITE_RETRY "voice_manager_http"
    (http_call telephony_of_response (create_request a req request_id)).

Definition list_telephonies (a : VoiceManagerHttpAdapter) (req : ListTelephoniesReq)
  : M (result (list Telephony) VmError) :=
  do request_id <- fresh_request_id ;;
  retrying DEFAULT_RETRY "voice_manager_http"
    (http_call telephonies_of_response (list_request a req request_id)).

Definition get_telephony (a : VoiceManagerHttpAdapter) (id : TelephonyId)
  : M (result Telephony VmError) :=
  do request_id <- fresh_request_id ;;
  retrying DEFAULT_RETRY "voice_manager_http"
    (http_call telephony_of_response (get_request a id request_id)).

Definition update_telephony (a : VoiceManagerHttpAdapter) (req : UpdateTelephonyReq)
  : M (result Telephony VmError) :=
  do request_id <- fresh_request_id ;;
  retrying WRITE_RETRY "voice_manager_http"
    (http_call telephony_of_response (update_request a req request_id)).

Definition delete_telephony (a : VoiceManagerHttpAdapter) (id : TelephonyId) (usage : string)
  : M (result unit VmError) :=
  do request_id <- fresh_request_id ;;
  retrying WRITE_RETRY "voice_manager_http"
    (http_call unit_of_response (delete_request a id usage request_id)).

#[export] Instance voice_manager_http_port :
  VoiceManagerPort VoiceManagerHttpAdapter (Net W HttpRequest) :=
  {| port_start_voice_session := start_voice_session;
     port_stop_voice_session := stop_voice_session;
     port_issue_test_token := issue_test_token;
     port_create_telephony := create_telephony;
     port_list_telephonies := list_telephonies;
     port_get_telephony := get_telephony;
     port_update_telephony := update_telephony;
     port_delete_telephony := delete_telephony |}.

(** ** Facts *)

Lemma http_start_voice_session_follows a req :
  follows WRITE_RETRY "voice_manager_http" http_send as_call (λ s, start_request a req (next_id s))
    session_of_response VmErr.Transient (start_voice_session a req).
Proof. solve_follows. Qed.

Lemma http_stop_voice_session_follows a ref mode :
  follows (stop_policy mode) "voice_manager_http" http_send as_call
      (λ s, stop_request a ref mode (next_id s))
    unit_of_response VmErr.Transient (stop_voice_session a ref mode).
Proof. destruct mode; solve_follows. Qed.

Lemma http_issue_test_token_follows a req :
  follows DEFAULT_RETRY "voice_manager_http" http_send as_call
      (λ s, token_request a req (next_id s))
    token_of_response VmErr.Transient (issue_test_token a req).
Proof. solve_follows. Qed.

Lemma http_create_telephony_follows a req :
  follows WRITE_RETRY "voice_manager_http" http_send as_call (λ s, create_request a req (next_id s))
    telephony_of_response VmErr.Transient (create_telephony a req).
Proof. solve_follows. Qed.

Lemma http_list_telephonies_follows a req :
  follows DEFAULT_RETRY "voice_manager_http" http_send as_call (λ s, list_request a req (next_id s))
    telephonies_of_response VmErr.Transient (list_telephonies a req).
Proof. solve_follows. Qed.

Lemma http_get_telephony_follows a id :
  follows DEFAULT_RETRY "voice_manager_http" http_send as_call (λ s, get_request a id (next_id s))
    telephony_of_response VmErr.Transient (get_telephony a id).
Proof. solve_follows. Qed.

Lemma http_update_telephony_follows a req :
  follows WRITE_RETRY "voice_manager_http" http_send as_call (λ s, update_request a req (next_id s))
    telephony_of_response VmErr.Transient (update_telephony a req).
Proof. solve_follows. Qed.

Lemma http_delete_telephony_follows a id usage :
  follows WRITE_RETRY "voice_manager_http" http_send as_call
      (λ s, delete_request a id usage (next_id s))
    unit_of_response VmErr.Transient (delete_telephony a id usage).
Proof. solve_follows. Qed.

#[export] Instance voice_manager_http_safe :
  VoiceManagerPortSafe VoiceManagerHttpAdapter (Net W HttpRequest).
Proof.
  split; intros; eapply follows_returns;
    eauto using http_start_voice_session_follows, http_stop_voice_session_follows,
      http_issue_test_token_follows, http_create_telephony_follows, http_list_telephonies_follows,
      http_get_telephony_follows, http_update_telephony_follows, http_delete_telephony_follows.
Qed.

(** A failure status is final exactly for the 4xx range. *)
Lemma map_http_status_retryable `{!HttpLaws} status body :
  is_retryable (map_http_status status body) = true ↔ ¬ (400 ≤ status < 500).
Proof.
  rewrite <- is_client_error_range. unfold map_http_status.
  destruct (is_client_error status); [done|].
  by destruct (status =? SERVICE_UNAVAILABLE).
Qed.

End Adapter.
