(* ===== verification/PostCallHttp.v ===== *)
(** * Post-call service over HTTP

    Models [crates/engagement-hub-adapters/src/post_call_http.rs].  These
    requests carry no request id. *)
From Stdlib Require Import ZArith Lia.
From stdpp Require Import base sets list strings pretty.
From S2P Require Import Prelude Errors Uuids PortTypes Saga Policies Ports Net Http.

(** ** Response bodies (derived [Deserialize]) *)
Record TranscriptionItem := {
  ti_message : string; ti_role : string; ti_audio_url : option string;
  ti_emotion : option string }.
Record TranscriptionsResp := { trs_data : list TranscriptionItem; trs_total_size : option Z }.
Record SummaryData := {
  sd_summary : string; sd_resolution : option string;
  sd_resolution_explanation : option string }.
Record SummaryResp := { sr_data : option SummaryData }.
Record SentimentData := { se_sentiment : string; se_justification : string }.
Record SentimentResp := { ser_data : option SentimentData }.
Record OutputExtractionItem := { oi_key : string; oi_value : string }.
Record OutputExtractionResp := { oer_data : list OutputExtractionItem }.
Record CallLogItem := {
  ci_id : string; ci_room_name : option string; ci_batch_id : option string;
  ci_duration : option Z; ci_identity : option string; ci_created_at : string }.
Record CallLogListResp := { clr_data : option (list CallLogItem); clr_total_size : option Z }.

Record PostCallHttpAdapter := mkPostCallHttpAdapter { base_url : string }.

(** [new]: the client is the peer of the state. *)
Definition post_call_http_adapter_new {W} (base_url : string) (metrics : AdapterMetrics)
  : io (Net W HttpRequest) PostCallHttpAdapter :=
      with_metrics (mkPostCallHttpAdapter base_url) metrics.

Definition transcript_message (i : TranscriptionItem) : TranscriptMessage :=
  {| tm_message := ti_message i; tm_role := ti_role i;
     tm_audio_url := ti_audio_url i; tm_emotion := ti_emotion i |}.
Definition transcript_of (r : TranscriptionsResp) : Transcript :=
  {| tr_messages := map transcript_message (trs_data r);
     tr_total_size := default 0 (trs_total_size r) |}.
Definition summary_of (r : SummaryResp) : result Summary PostCallError :=
  let? d := ok_or (sr_data r) (PostCallErr.Permanent "empty summary data") in
  Ok {| sum_summary := sd_summary d; sum_resolution := sd_resolution d;
        sum_resolution_explanation := sd_resolution_explanation d |}.
Definition sentiment_of (r : SentimentResp) : result Sentiment PostCallError :=
  let? d := ok_or (ser_data r) (PostCallErr.Permanent "empty sentiment data") in
  Ok {| sen_label := se_sentiment d; sen_justification := se_justification d |}.
Definition output_of (r : OutputExtractionResp) : OutputExtraction :=
  {| oe_fields := map (λ f, {| of_key := oi_key f; of_value := oi_value f |}) (oer_data r) |}.
Definition call_log_of (l : CallLogItem) : CallLog :=
  {| cl_id := ci_id l; cl_room_name := ci_room_name l; cl_batch_id := ci_batch_id l;
     cl_duration := ci_duration l; cl_identity := ci_identity l;
     cl_created_at := ci_created_at l |}.
(** [data] may be absent or null: an empty page. *)
Definition call_log_page (r : CallLogListResp) : Page CallLog :=
  mkPage (map call_log_of (default [] (clr_data r))) (clr_total_size r) None.

(** The query parameters of the two listings; [u32]s print in decimal. *)
Definition agent_query (req : ListAgentCallLogsReq) : list (string * string) :=
  push_params
    [("skip", pretty <$> la_skip req); ("limit", pretty <$> la_limit req);
     ("start_date", la_start_date req); ("end_date", la_end_date req);
     ("identity", la_identity req); ("id", la_id req); ("batch_id", la_batch_id req)].
Definition org_query (req : ListOrgCallLogsReq) : list (string * string) :=
  push_params
    [("skip", pretty <$> lo_skip req); ("limit", pretty <$> lo_limit req);
     ("start_date", lo_start_date req); ("end_date", lo_end_date req);
     ("contact_number", lo_contact_number req); ("call_id", lo_call_id req)].

Section Adapter.
Context `{U : UuidLib} `{HttpLib}.
Context `{!DecodeBody TranscriptionsResp, !DecodeBody SummaryResp, !DecodeBody SentimentResp}.
Context `{!DecodeBody OutputExtractionResp, !DecodeBody CallLogListResp}.

Definition map_http_status (status : Z) (body : string) : PostCallError :=
  if (status =? NOT_FOUND) || (status =? BAD_REQUEST) || (status =? UNPROCESSABLE_ENTITY)
  then PostCallErr.Permanent (status_display status +:+ ": " +:+ body)
  else if status =? SERVICE_UNAVAILABLE then PostCallErr.Unavailable
  else PostCallErr.Transient (status_display status +:+ ": " +:+ body).

(** [get_json] is one GET ([get_request]) whose response decodes to [T]. *)
Definition get_request (url : string) : HttpRequest := mkHttpRequest GET url None [] None.
Definition get_json {T} `{!DecodeBody T} (resp : HttpResponse) : result T PostCallError :=
  on_response parse_json map_http_status resp.

Definition transcript_of_response (resp : HttpResponse) : result Transcript PostCallError :=
  let? r := get_json resp in Ok (transcript_of r).
Definition summary_of_response (resp : HttpResponse) : result Summary PostCallError :=
  let? r := get_json resp in summary_of r.
Definition sentiment_of_response (resp : HttpResponse) : result Sentiment PostCallError :=
  let? r := get_json resp in sentiment_of r.
Definition output_of_response (resp : HttpResponse) : result OutputExtraction PostCallError :=
  let? r := get_json resp in Ok (output_of r).
Definition call_logs_of_response (resp : HttpResponse) : result (Page CallLog) PostCallError :=
  on_response (λ b, let? r := parse_json b in Ok (call_log_page r)) map_http_status resp.

Definition call_url (a : PostCallHttpAdapter) (eng : EngagementId) (what : string) : string :=
  base_url a +:+ "/calls/" +:+ engagement_id_display eng +:+ what.
Definition agent_logs_request (a : PostCallHttpAdapter) (req : ListAgentCallLogsReq)
  : HttpRequest :=
  mkHttpRequest GET (base_url a +:+ "/calls/" +:+ la_agent_id req +:+ "/history-call")
    None (agent_query req) None.
Definition org_logs_request (a : PostCallHttpAdapter) (req : ListOrgCallLogsReq) : HttpRequest :=
  mkHttpRequest GET (base_url a +:+ "/calls/organizations/" +:+ lo_org_id req)
    None (org_query req) None.

Context {W : Type} `{RetryEnv W} `{!HttpClient W}.
Abbreviation M A := (io (Net W HttpRequest) A).

Definition http_call {T} (on_reply : HttpResponse → result T PostCallError) (r : HttpRequest) :=
  attempt_call (E := PostCallError) http_send as_call r on_reply PostCallErr.Transient.

Definition get_transcript (a : PostCallHttpAdapter) (eng : EngagementId)
  : M (result Transcript PostCallError) :=
  let url := call_url a eng "/transcription" in
  retrying DEFAULT_RETRY "post_call" (http_call transcript_of_response (get_request url)).

Definition get_summary (a : PostCallHttpAdapter) (eng : EngagementId)
  : M (result Summary PostCallError) :=
  let url := call_url a eng "/summary" in
  retrying DEFAULT_RETRY "post_call" (http_call summary_of_response (get_request url)).

Definition get_sentiment (a : PostCallHttpAdapter) (eng : EngagementId)
  : M (result Sentiment PostCallError) :=
  let url := call_url a eng "/sentiment" in
  retrying DEFAULT_RETRY "post_call" (http_call sentiment_of_response (get_request url)).

Definition get_output_extraction (a : PostCallHttpAdapter) (eng : EngagementId)
  : M (result OutputExtraction PostCallError) :=
  let url := call_url a eng "/state" in
  retrying DEFAULT_RETRY "post_call" (http_call output_of_response (get_request url)).

Definition list_agent_call_logs (a : PostCallHttpAdapter) (req : ListAgentCallLogsReq)
  : M (result (Page CallLog) PostCallError) :=
  retrying DEFAULT_RETRY "post_call"
    (http_call call_logs_of_response (agent_logs_request a req)).

Definition list_org_call_logs (a : PostCallHttpAdapter) (req : ListOrgCallLogsReq)
  : M (result (Page CallLog) PostCallError) :=
  retrying DEFAULT_RETRY "post_call"
    (http_call call_logs_of_response (org_logs_request a req)).

#[export] Instance post_call_http_port : PostCallPort PostCallHttpAdapter (Net W HttpRequest) :=
  {| port_get_transcript := get_transcript;
     port_get_summary := get_summary;
     port_get_sentiment := get_sentiment;
     port_get_output_extraction := get_output_extraction;
     port_list_agent_call_logs := list_agent_call_logs;
     port_list_org_call_logs := list_org_call_logs |}.

(** ** Facts *)

Abbreviation sends req dec m :=
  (follows DEFAULT_RETRY "post_call" http_send as_call (λ _, req) dec PostCallErr.Transient m).

Lemma get_transcript_follows a eng :
  sends (get_request (call_url a eng "/transcription")) transcript_of_response
    (get_transcript a eng).
Proof. solve_follows. Qed.

Lemma get_summary_follows a eng :
  sends (get_request (call_url a eng "/summary")) summary_of_response (get_summary a eng).
Proof. solve_follows. Qed.

Lemma get_sentiment_follows a eng :
  sends (get_request (call_url a eng "/sentiment")) sentiment_of_response (get_sentiment a eng).
Proof. solve_follows. Qed.

Lemma get_output_extraction_follows a eng :
  sends (get_request (call_url a eng "/state")) output_of_response (get_output_extraction a eng).
Proof. solve_follows. Qed.

Lemma list_agent_call_logs_follows a req :
  sends (agent_logs_request a req) call_logs_of_response (list_agent_call_logs a req).
Proof. solve_follows. Qed.

Lemma list_org_call_logs_follows a req :
  sends (org_logs_request a req) call_logs_of_response (list_org_call_logs a req).
Proof. solve_follows. Qed.

#[export] Instance post_call_http_safe :
  PostCallPortSafe PostCallHttpAdapter (Net W HttpRequest).
Proof.
  split; intros; eapply follows_returns;
    eauto using get_transcript_follows, get_summary_follows, get_sentiment_follows,
      get_output_extraction_follows, list_agent_call_logs_follows, list_org_call_logs_follows.
Qed.

Lemma post_call_three_final : three_final map_http_status.
Proof.
  intros status body. unfold map_http_status. rewrite final_test.
  case_bool_decide; case_decide; try done.
  case_decide as Hs; [by rewrite Hs | by rewrite (proj2 (Z.eqb_neq _ _) Hs)].
Qed.

End Adapter.
