(* ===== verification/AnalyticsHttp.v ===== *)
(** * Analytics service over HTTP

    Models [crates/engagement-hub-adapters/src/analytics_http.rs].  These
    requests carry no request id. *)
From Stdlib Require Import ZArith Lia Floats.SpecFloat.
From stdpp Require Import base sets list strings gmap.
From S2P Require Import Prelude Errors Uuids PortTypes Saga Policies Ports Net Http.

(** ** Response bodies (derived [Deserialize]) *)
Record AnalyticsResp := {
  ar_average_conversation_duration : spec_float;
  ar_containment_rate : spec_float;
  ar_customer_satisfaction_rate : spec_float;
  ar_dropoff_rate : spec_float;
  ar_escalation_rate : spec_float;
  ar_total_inquiries : Z;
  (** [#[serde(default)]]: empty when absent. *)
  ar_category_counts : gmap string Z
}.
Record MetricData := { md_categories : list string; md_series : list spec_float }.
Record MetricsResp := { mr_data : MetricData }.

Record AnalyticsHttpAdapter := mkAnalyticsHttpAdapter { base_url : string }.

(** [new]: the client is the peer of the state. *)
Definition analytics_http_adapter_new {W} (base_url : string) (metrics : AdapterMetrics)
  : io (Net W HttpRequest) AnalyticsHttpAdapter :=
      with_metrics (mkAnalyticsHttpAdapter base_url) metrics.

Definition analytics_of (r : AnalyticsResp) : Analytics :=
  {| an_average_conversation_duration := ar_average_conversation_duration r;
     an_containment_rate := ar_containment_rate r;
     an_customer_satisfaction_rate := ar_customer_satisfaction_rate r;
     an_dropoff_rate := ar_dropoff_rate r;
     an_escalation_rate := ar_escalation_rate r;
     an_total_inquiries := ar_total_inquiries r;
     an_category_counts := ar_category_counts r |}.
Definition metrics_of (r : MetricsResp) : Metrics :=
  {| me_categories := md_categories (mr_data r); me_series := md_series (mr_data r) |}.

(** The four parameters every method pushes. *)
Definition query (metric granularity start_date end_date : option string)
  : list (string * string) :=
  push_params [("metric", metric); ("granularity", granularity);
               ("startDate", start_date); ("endDate", end_date)].

Section Adapter.
Context `{HttpLib} `{!DecodeBody AnalyticsResp, !DecodeBody MetricsResp}.

Definition map_http_status (status : Z) (body : string) : AnalyticsError :=
  if (status =? NOT_FOUND) || (status =? BAD_REQUEST) || (status =? UNPROCESSABLE_ENTITY)
  then AnalyticsErr.Permanent (status_display status +:+ ": " +:+ body)
  else if status =? SERVICE_UNAVAILABLE then AnalyticsErr.Unavailable
  else AnalyticsErr.Transient (status_display status +:+ ": " +:+ body).

Definition analytics_of_response (resp : HttpResponse) : result Analytics AnalyticsError :=
  on_response (λ b, let? r := parse_json b in Ok (analytics_of r)) map_http_status resp.
Definition metrics_of_response (resp : HttpResponse) : result Metrics AnalyticsError :=
  on_response (λ b, let? r := parse_json b in Ok (metrics_of r)) map_http_status resp.

Definition agent_analytics_request (a : AnalyticsHttpAdapter) (req : GetAgentAnalyticsReq)
    : HttpRequest :=
  let base := base_url a +:+ "/calls/agents/" +:+ gaa_agent_id req +:+ "/analytics" in
  mkHttpRequest GET base None
    (query (gaa_metric req) (gaa_granularity req) (gaa_start_date req) (gaa_end_date req)) None.
Definition agent_metrics_request (a : AnalyticsHttpAdapter) (req : GetAgentMetricsReq)
    : HttpRequest :=
  let base := base_url a +:+ "/calls/agents/" +:+ gam_agent_id req +:+ "/metrics" in
  mkHttpRequest GET base None
    (query (gam_metric req) (gam_granularity req) (gam_start_date req) (gam_end_date req)) None.
Definition org_analytics_request (a : AnalyticsHttpAdapter) (req : GetOrgAnalyticsReq)
    : HttpRequest :=
  let base := base_url a +:+ "/calls/organizations/" +:+ goa_org_id req +:+ "/analytics" in
  mkHttpRequest GET base None
    (query (goa_metric req) (goa_granularity req) (goa_start_date req) (goa_end_date req)) None.
Definition org_metrics_request (a : AnalyticsHttpAdapter) (req : GetOrgMetricsReq) : HttpRequest :=
  let base := base_url a +:+ "/calls/organizations/" +:+ gom_org_id req +:+ "/metrics" in
  mkHttpRequest GET base None
    (query (gom_metric req) (gom_granularity req) (gom_start_date req) (gom_end_date req)) None.

Context {W : Type} `{RetryEnv W} `{!HttpClient W}.
Abbreviation M A := (io (Net W HttpRequest) A).

Definition http_call {T} (on_reply : HttpResponse → result T AnalyticsError) (r : HttpRequest) :=
  attempt_call (E := AnalyticsError) http_send as_call r on_reply AnalyticsErr.Transient.

Definition get_agent_analytics (a : AnalyticsHttpAdapter) (req : GetAgentAnalyticsReq)
  : M (result Analytics AnalyticsError) :=
  retrying DEFAULT_RETRY "analytics"
    (http_call analytics_of_response (agent_analytics_request a req)).

Definition get_agent_metrics (a : AnalyticsHttpAdapter) (req : GetAgentMetricsReq)
  : M (result Metrics AnalyticsError) :=
  retrying DEFAULT_RETRY "analytics"
    (http_call metrics_of_response (agent_metrics_request a req)).

Definition get_org_analytics (a : AnalyticsHttpAdapter) (req : GetOrgAnalyticsReq)
  : M (result Analytics AnalyticsError) :=
  retrying DEFAULT_RETRY "analytics"
    (http_call analytics_of_response (org_analytics_request a req)).

Definition get_org_metrics (a : AnalyticsHttpAdapter) (req : GetOrgMetricsReq)
  : M (result Metrics AnalyticsError) :=
  retrying DEFAULT_RETRY "analytics"
    (http_call metrics_of_response (org_metrics_request a req)).

#[export] Instance analytics_http_port :
  AnalyticsPort AnalyticsHttpAdapter (Net W HttpRequest) :=
  {| port_get_agent_analytics := get_agent_analytics;
     port_get_agent_metrics := get_agent_metrics;
     port_get_org_analytics := get_org_analytics;
     port_get_org_metrics := get_org_metrics |}.

(** ** Facts *)

Abbreviation sends req dec m :=
  (follows DEFAULT_RETRY "analytics" http_send as_call (λ _, req) dec AnalyticsErr.Transient m).

Lemma get_agent_analytics_follows a req :
  sends (agent_analytics_request a req) analytics_of_response (get_agent_analytics a req).
Proof. solve_follows. Qed.

Lemma get_agent_metrics_follows a req :
  sends (agent_metrics_request a req) metrics_of_response (get_agent_metrics a req).
Proof. solve_follows. Qed.

Lemma get_org_analytics_follows a req :
  sends (org_analytics_request a req) analytics_of_response (get_org_analytics a req).
Proof. solve_follows. Qed.

Lemma get_org_metrics_follows a req :
  sends (org_metrics_request a req) metrics_of_response (get_org_metrics a req).
Proof. solve_follows. Qed.

#[export] Instance analytics_http_safe :
  AnalyticsPortSafe AnalyticsHttpAdapter (Net W HttpRequest).
Proof.
  split; intros; eapply follows_returns;
    eauto using get_agent_analytics_follows, get_agent_metrics_follows,
      get_org_analytics_follows, get_org_metrics_follows.
Qed.

Lemma analytics_three_final : three_final map_http_status.
Proof.
  intros status body. unfold map_http_status. rewrite final_test.
  case_bool_decide; case_decide; try done.
  case_decide as Hs; [by rewrite Hs | by rewrite (proj2 (Z.eqb_neq _ _) Hs)].
Qed.

End Adapter.
