(* ===== verification/HttpDtos.v ===== *)
(** * The bodies of the HTTP adapters' replies

    The derived decoders of the response structs of [voice_manager_http.rs],
    [post_call_http.rs] and [analytics_http.rs] (crate
    [engagement-hub-adapters]), as instances of the decoding classes the
    adapters use, and what they mean for a reply.  Reading the bytes of a body
    is the class [BodyJson]. *)
From Stdlib Require Import ZArith Lia Floats.SpecFloat.
From stdpp Require Import base list gmap strings.
From S2P Require Import Prelude Errors Uuids PortTypes Saga Policies Ports Net SerdeJson Http.
From S2P Require Import VoiceManagerHttp PostCallHttp AnalyticsHttp.

Section Dtos.
Context `{SE : SerdeErrors}.
Local Open Scope serde_scope.

(** ** [voice_manager_http.rs] *)

Definition de_ErrorInner : Deserialize ErrorInner :=
  de_struct "struct ErrorInner"
    (fields_of Build_ErrorInner |> field de_string "code" |> field de_string "message").
Definition de_ErrorBody : Deserialize ErrorBody :=
  de_struct "struct ErrorBody" (fields_of Build_ErrorBody
      |> field (de_option de_ErrorInner) "error").
Definition de_VoiceSessionRefDto : Deserialize VoiceSessionRefDto :=
  de_struct "struct VoiceSessionRefDto" (fields_of Build_VoiceSessionRefDto
      |> field de_string "id").
Definition de_StartVoiceSessionResp : Deserialize StartVoiceSessionResp :=
  de_struct "struct StartVoiceSessionResp"
    (fields_of Build_StartVoiceSessionResp |> field de_VoiceSessionRefDto "session_ref").
Definition de_IssueTestTokenResp : Deserialize IssueTestTokenResp :=
  de_struct "struct IssueTestTokenResp" (fields_of Build_IssueTestTokenResp
      |> field de_string "token").
Definition de_TelephonyDto : Deserialize TelephonyDto :=
  de_struct "struct TelephonyDto"
    (fields_of Build_TelephonyDto |> field de_string "id" |> field de_string "org_id"
       |> field de_string "phone_number").
Definition de_TelephonyResp : Deserialize TelephonyResp :=
  de_struct "struct TelephonyResp" (fields_of Build_TelephonyResp
      |> field de_TelephonyDto "telephony").
Definition de_ListTelephoniesResp : Deserialize ListTelephoniesResp :=
  de_struct "struct ListTelephoniesResp"
    (fields_of Build_ListTelephoniesResp |> field (de_list de_TelephonyDto) "telephonies").

(** ** [post_call_http.rs] *)

Definition de_TranscriptionItem : Deserialize TranscriptionItem :=
  de_struct "struct TranscriptionItem"
    (fields_of Build_TranscriptionItem |> field de_string "message" |> field de_string "role"
       |> field (de_option de_string) "audio_url" |> field (de_option de_string) "emotion").
(** [rename_all = "camelCase"]. *)
Definition de_TranscriptionsResp : Deserialize TranscriptionsResp :=
  de_struct "struct TranscriptionsResp"
    (fields_of Build_TranscriptionsResp |> field (de_list de_TranscriptionItem) "data"
       |> field (de_option de_i32) "totalSize").
Definition de_SummaryData : Deserialize SummaryData :=
  de_struct "struct SummaryData"
    (fields_of Build_SummaryData |> field de_string "summary"
       |> field (de_option de_string) "resolution"
       |> field (de_option de_string) "resolution_explanation").
Definition de_SummaryResp : Deserialize SummaryResp :=
  de_struct "struct SummaryResp" (fields_of Build_SummaryResp
      |> field (de_option de_SummaryData) "data").
Definition de_SentimentData : Deserialize SentimentData :=
  de_struct "struct SentimentData"
    (fields_of Build_SentimentData |> field de_string "sentiment"
        |> field de_string "justification").
Definition de_SentimentResp : Deserialize SentimentResp :=
  de_struct "struct SentimentResp"
    (fields_of Build_SentimentResp |> field (de_option de_SentimentData) "data").
Definition de_OutputExtractionItem : Deserialize OutputExtractionItem :=
  de_struct "struct OutputExtractionItem"
    (fields_of Build_OutputExtractionItem |> field de_string "key" |> field de_string "value").
Definition de_OutputExtractionResp : Deserialize OutputExtractionResp :=
  de_struct "struct OutputExtractionResp"
    (fields_of Build_OutputExtractionResp |> field (de_list de_OutputExtractionItem) "data").
Definition de_CallLogItem : Deserialize CallLogItem :=
  de_struct "struct CallLogItem"
    (fields_of Build_CallLogItem |> field de_string "id" |> field (de_option de_string) "room_name"
       |> field (de_option de_string) "batch_id" |> field (de_option de_i32) "duration"
       |> field (de_option de_string) "identity" |> field de_string "created_at").
Definition de_CallLogListResp : Deserialize CallLogListResp :=
  de_struct "struct CallLogListResp"
    (fields_of Build_CallLogListResp |> field (de_option (de_list de_CallLogItem)) "data"
       |> field (de_option de_u32) "total_size").

(** ** [analytics_http.rs] *)

Definition de_AnalyticsResp : Deserialize AnalyticsResp :=
  de_struct "struct AnalyticsResp"
    (fields_of Build_AnalyticsResp
       |> field de_f64 "average_conversation_duration" |> field de_f64 "containment_rate"
       |> field de_f64 "customer_satisfaction_rate" |> field de_f64 "dropoff_rate"
       |> field de_f64 "escalation_rate" |> field de_u32 "total_inquiries"
       |> default_field (de_map de_u32) ∅ "category_counts").
Definition de_MetricData : Deserialize MetricData :=
  de_struct "struct MetricData"
    (fields_of Build_MetricData |> field (de_list de_string) "categories"
       |> field (de_list de_f64) "series").
Definition de_MetricsResp : Deserialize MetricsResp :=
  de_struct "struct MetricsResp" (fields_of Build_MetricsResp |> field de_MetricData "data").

End Dtos.

(** ** As the adapters use them *)

Class BodyJson `{HttpLib} := body_value : Body → result Json string.

Section Decode.
Context `{SE : SerdeErrors} `{HL : HttpLib} `{!BodyJson} `{!JsonText}.

Definition json_body {T} (D : Deserialize T) : DecodeBody T := λ b,
  let? v := body_value b in deserialize v.

#[export] Instance text_ErrorBody : DecodeText ErrorBody := λ s,
  let? v := parse_json_text s in deserialize (Deserialize := de_ErrorBody) v.
#[export] Instance body_StartVoiceSessionResp : DecodeBody StartVoiceSessionResp :=
  json_body de_StartVoiceSessionResp.
#[export] Instance body_IssueTestTokenResp : DecodeBody IssueTestTokenResp :=
  json_body de_IssueTestTokenResp.
#[export] Instance body_TelephonyResp : DecodeBody TelephonyResp := json_body de_TelephonyResp.
#[export] Instance body_ListTelephoniesResp : DecodeBody ListTelephoniesResp :=
  json_body de_ListTelephoniesResp.
#[export] Instance body_TranscriptionsResp : DecodeBody TranscriptionsResp :=
  json_body de_TranscriptionsResp.
#[export] Instance body_SummaryResp : DecodeBody SummaryResp := json_body de_SummaryResp.
#[export] Instance body_SentimentResp : DecodeBody SentimentResp := json_body de_SentimentResp.
#[export] Instance body_OutputExtractionResp : DecodeBody OutputExtractionResp :=
  json_body de_OutputExtractionResp.
#[export] Instance body_CallLogListResp : DecodeBody CallLogListResp :=
    json_body de_CallLogListResp.
#[export] Instance body_AnalyticsResp : DecodeBody AnalyticsResp := json_body de_AnalyticsResp.
#[export] Instance body_MetricsResp : DecodeBody MetricsResp := json_body de_MetricsResp.

End Decode.

(** ** What a service that writes these structs sends *)

Section Encode.
Context `{SE : SerdeErrors}.

Definition encode_telephony (t : TelephonyDto) : Json :=
  JObject [("id", JString (td_id t)); ("org_id", JString (td_org_id t));
           ("phone_number", JString (td_phone_number t))]%string.
Definition telephony_members (r : TelephonyResp) : list (string * Json) :=
  [("telephony"%string, encode_telephony (tresp_telephony r))].

Definition optional_string : option string → Json := encode_option JString.
Definition encode_transcription (i : TranscriptionItem) : Json :=
  JObject [("message", JString (ti_message i)); ("role", JString (ti_role i));
           ("audio_url", optional_string (ti_audio_url i));
           ("emotion", optional_string (ti_emotion i))]%string.
Definition transcriptions_members (r : TranscriptionsResp) : list (string * Json) :=
  [("data", encode_list encode_transcription (trs_data r));
   ("totalSize", encode_option JInt (trs_total_size r))]%string.

Definition encode_call_log (c : CallLogItem) : Json :=
  JObject [("id", JString (ci_id c)); ("room_name", optional_string (ci_room_name c));
           ("batch_id", optional_string (ci_batch_id c));
           ("duration", encode_option JInt (ci_duration c));
           ("identity", optional_string (ci_identity c));
           ("created_at", JString (ci_created_at c))]%string.
Definition call_log_ok (c : CallLogItem) : Prop := ok_option is_i32 (ci_duration c).
Definition call_logs_members (r : CallLogListResp) : list (string * Json) :=
  [("data", encode_option (encode_list encode_call_log) (clr_data r));
   ("total_size", encode_option JInt (clr_total_size r))]%string.

(** [category_counts] is left out when it is empty. *)
Definition analytics_members (r : AnalyticsResp) : list (string * Json) :=
  ([("average_conversation_duration", JFloat (ar_average_conversation_duration r));
   ("containment_rate", JFloat (ar_containment_rate r));
   ("customer_satisfaction_rate", JFloat (ar_customer_satisfaction_rate r));
   ("dropoff_rate", JFloat (ar_dropoff_rate r)); ("escalation_rate", JFloat (ar_escalation_rate r));
   ("total_inquiries", JInt (ar_total_inquiries r))]%string
  ++ if decide (ar_category_counts r = ∅) then []
     else [("category_counts"%string, encode_map JInt (ar_category_counts r))])%list.

Lemma encodes_telephony : Encodes de_TelephonyDto encode_telephony always.
Proof. by intros []. Qed.

Lemma encodes_optional_string : Encodes (de_option de_string) optional_string (ok_option always).
Proof. by apply encodes_option; [apply _|]. Qed.
Lemma encodes_optional_i32 : Encodes (de_option de_i32) (encode_option JInt) (ok_option is_i32).
Proof. by apply encodes_option; [apply _|]. Qed.
Lemma encodes_optional_u32 : Encodes (de_option de_u32) (encode_option JInt) (ok_option is_u32).
Proof. by apply encodes_option; [apply _|]. Qed.

Lemma decode_optional_string o :
  deserialize (Deserialize := de_option de_string) (optional_string o) = Ok o.
Proof. apply encodes_optional_string. by destruct o. Qed.

Lemma encodes_transcription : Encodes de_TranscriptionItem encode_transcription always.
Proof. by intros [m r [a|] [e|]] _. Qed.

Lemma encodes_call_log : Encodes de_CallLogItem encode_call_log call_log_ok.
Proof.
  intros [i r b d ident c] Hd.
  decode_fields; try apply decode_optional_string; try done. by apply encodes_optional_i32.
Qed.

(** The members of each reply decode to it. *)
Lemma decode_telephony_members r :
  deserialize (Deserialize := de_TelephonyResp) (JObject (telephony_members r)) = Ok r.
Proof. by destruct r as [[]]. Qed.

Lemma decode_transcriptions_members r :
  ok_option is_i32 (trs_total_size r) →
  deserialize (Deserialize := de_TranscriptionsResp) (JObject (transcriptions_members r)) = Ok r.
Proof.
  destruct r as [data total]. intros Ht. decode_fields; [|by apply encodes_optional_i32].
  apply (encodes_list _ _ _ encodes_transcription), Forall_true. done.
Qed.

Definition call_logs_ok (r : CallLogListResp) : Prop :=
  ok_option (Forall call_log_ok) (clr_data r) ∧ ok_option is_u32 (clr_total_size r).

Lemma decode_call_logs_members r :
  call_logs_ok r →
  deserialize (Deserialize := de_CallLogListResp) (JObject (call_logs_members r)) = Ok r.
Proof.
  destruct r as [data total]. intros [Hd Ht]. decode_fields; [|by apply encodes_optional_u32].
  by apply (encodes_option _ _ _ (encodes_list _ _ _ encodes_call_log)).
Qed.

Definition analytics_ok (r : AnalyticsResp) : Prop :=
  is_u32 (ar_total_inquiries r) ∧ map_Forall (λ _, is_u32) (ar_category_counts r).

Lemma decode_analytics_members r :
  analytics_ok r →
  deserialize (Deserialize := de_AnalyticsResp) (JObject (analytics_members r)) = Ok r.
Proof.
  destruct r as [a b c d e n m]. intros [Hn Hm]. unfold analytics_members.
  cbn [ar_total_inquiries ar_category_counts] in *.
  destruct (decide (m = ∅)) as [->|Hne].
  - decode_fields; try done. by apply encodes_u32.
  - decode_fields; try done; [by apply encodes_u32|]. by apply (encodes_map _ _ _ encodes_u32).
Qed.

End Encode.

(** ** Replies *)

Section Replies.
Context `{U : UuidLib} `{SE : SerdeErrors} `{HL : HttpLib} `{!BodyJson} `{!JsonText}.

(** A response of success whose body reads as an object with the members [o],
    in any order, and further ones under other names than the struct's. *)
Definition replies_with (names : list string) (o : list (string * Json)) (resp : HttpResponse)
  : Prop :=
  is_success (hr_status resp) = true
  ∧ ∃ o' extra, body_value (hr_body resp) = Ok (JObject o') ∧ o' ≡ₚ o ++ extra
    ∧ Forall (λ kv, kv.1 ∉ names) extra.

Lemma body_json_members {T} expected (fs : Fields T) `{!Local fs} names o x resp :
  deserialize (Deserialize := de_struct expected fs) (JObject o) = Ok x →
  replies_with names o resp → (known fs).*1 = names →
  json_body (de_struct expected fs) (hr_body resp) = Ok x.
Proof.
  intros Hx (_ & o' & extra & Hb & Hp & Hextra) <-. unfold json_body. rewrite Hb. cbn.
  by eapply (decode_unordered expected fs o o' extra).
Qed.

Definition analytics_names : list string :=
  ["average_conversation_duration"; "containment_rate"; "customer_satisfaction_rate";
   "dropoff_rate"; "escalation_rate"; "total_inquiries"; "category_counts"].

(** C28. What the adapters make of a reply.  A 2xx body that has the members of
    a telephony, transcript, call-log or analytics reply, in any order and next
    to unknown ones, decodes to exactly that reply: the id parsed, messages and
    calls in their order, absent and [null] options as [None], an absent page
    as an empty one, numbers within their widths unchanged, absent category
    counts as none. *)
Theorem replies_decode (tresp : TelephonyResp) (trs : TranscriptionsResp)
    (cl : CallLogListResp) (an : AnalyticsResp) (r1 r2 r3 r4 : HttpResponse) (u : Uuid) :
  uuid_parse (td_id (tresp_telephony tresp)) = Ok u →
  ok_option is_i32 (trs_total_size trs) → call_logs_ok cl → analytics_ok an →
  replies_with ["telephony"%string] (telephony_members tresp) r1 →
  replies_with ["data"; "totalSize"]%string (transcriptions_members trs) r2 →
  replies_with ["data"; "total_size"]%string (call_logs_members cl) r3 →
  replies_with analytics_names (analytics_members an) r4 →
  VoiceManagerHttp.telephony_of_response r1
    = Ok {| tel_id := mkTelephonyId u; tel_org_id := td_org_id (tresp_telephony tresp);
            tel_phone_number := td_phone_number (tresp_telephony tresp) |}
  ∧ PostCallHttp.transcript_of_response r2
    = Ok {| tr_messages := map transcript_message (trs_data trs);
            tr_total_size := default 0 (trs_total_size trs) |}
  ∧ PostCallHttp.call_logs_of_response r3
    = Ok (mkPage (map call_log_of (default [] (clr_data cl))) (clr_total_size cl) None)
  ∧ AnalyticsHttp.analytics_of_response r4 = Ok (analytics_of an).
Proof.
  intros Hu Ht Hc Ha H1 H2 H3 H4.
  pose proof (body_json_members _ _ _ _ _ _ (decode_telephony_members tresp) H1 eq_refl) as B1.
  pose proof (body_json_members _ _ _ _ _ _ (decode_transcriptions_members trs Ht) H2 eq_refl) as
      B2.
  pose proof (body_json_members _ _ _ _ _ _ (decode_call_logs_members cl Hc) H3 eq_refl) as B3.
  pose proof (body_json_members _ _ _ _ _ _ (decode_analytics_members an Ha) H4 eq_refl) as B4.
  destruct H1 as [S1 _], H2 as [S2 _], H3 as [S3 _], H4 as [S4 _].
  unfold telephony_of_response, transcript_of_response, get_json, call_logs_of_response,
    analytics_of_response, on_response, parse_json, body_json, body_TelephonyResp,
    body_TranscriptionsResp, body_CallLogListResp, body_AnalyticsResp, de_TelephonyResp,
    de_TranscriptionsResp, de_CallLogListResp, de_AnalyticsResp.
  rewrite S1, S2, S3, S4, B1, B2, B3, B4. cbn. unfold telephony_from_dto. rewrite Hu. done.
Qed.

End Replies.

(** ** A reply of success is final *)

Section Final.
Context `{U : UuidLib} `{HL : HttpLib} {W : Type} `{RetryEnv W} `{!UuidGen W} `{!HttpClient W}.
Context `{!DecodeText ErrorBody, !DecodeBody StartVoiceSessionResp, !DecodeBody IssueTestTokenResp}.
Context `{!DecodeBody TelephonyResp, !DecodeBody ListTelephoniesResp}.
Context `{!DecodeBody TranscriptionsResp, !DecodeBody SummaryResp, !DecodeBody SentimentResp}.
Context `{!DecodeBody OutputExtractionResp, !DecodeBody CallLogListResp}.
Context `{!DecodeBody AnalyticsResp, !DecodeBody MetricsResp}.

(** A method returns what [decode] makes of [resp] after one request. *)
Definition answered_by {T E} (resp : HttpResponse) (decode : HttpResponse → result T E)
    (method : io (Net W HttpRequest) (result T E)) : Prop := ∀ s,
  (method s).1 = Value (decode resp)
  ∧ length (net_sent (method s).2) = S (length (net_sent s)).

(** Errors of a decoder are final. *)
Definition final_errors {A T E} `{IsRetryable E} (f : A → result T E) : Prop :=
  ∀ a, retryable_error (f a) = false.

Lemma answered {T E} `{IsRetryable E} `{FromPanic E} {target req on_fail cfg}
    {decode : HttpResponse → result T E} {method} resp :
  follows cfg target http_send as_call req decode on_fail method →
  (∀ r w, (http_send r w).1 = Replied resp) → retryable_error (decode resp) = false →
  answered_by resp decode method.
Proof.
  intros Hm Hall Hd s. destruct (follows_constant Hm (decode resp) s) as [Hv Hsent].
  { intros w. by rewrite Hall. }
  split; [done|]. rewrite Hsent, Hd, length_app. cbn. lia.
Qed.

Lemma on_response_final {T E} `{IsRetryable E} (parse : Body → result T E) m resp :
  is_success (hr_status resp) = true → final_errors parse →
  retryable_error (on_response parse m resp) = false.
Proof. intros Hs Hp. unfold on_response. rewrite Hs. apply Hp. Qed.

Lemma bind_final {A T E} `{IsRetryable E} (r : result A E) (k : A → result T E) :
  retryable_error r = false → final_errors k → retryable_error (result_bind r k) = false.
Proof. destruct r; cbn; [by intros _|done]. Qed.

Lemma collect_final {A T E} `{IsRetryable E} (f : A → result T E) l :
  final_errors f → retryable_error (collect_results (map f l)) = false.
Proof.
  intros Hf. induction l as [|a l IH]; [done|]. cbn. apply bind_final; [apply Hf|].
  intros v. by apply bind_final.
Qed.

Lemma map_err_final {T E F} `{PortErrorLaws E} (r : result T F) (f : F → string) :
  retryable_error (map_err (λ e, mk_permanent (f e)) r) = false.
Proof. destruct r; [done|]. apply permanent_final. Qed.

Lemma parse_json_final {T E} `{!DecodeBody T} `{PortErrorLaws E} :
  final_errors (parse_json (T := T) (E := E)).
Proof. intros b. apply (map_err_final _ id). Qed.

Lemma telephony_from_dto_final : final_errors telephony_from_dto.
Proof.
  intros t. apply bind_final; [|done]. by destruct
      (result_map mkTelephonyId (uuid_parse (td_id t))).
Qed.

Ltac solve_final :=
  lazymatch goal with
  | |- final_errors _ => intros ?; solve_final
  | |- retryable_error (on_response _ _ _) = false => apply on_response_final;
      [assumption|solve_final]
  | |- retryable_error (result_bind _ _) = false => apply bind_final; solve_final
  | |- retryable_error (parse_json _) = false => apply parse_json_final
  | |- retryable_error (collect_results _) = false => apply collect_final, telephony_from_dto_final
  | |- retryable_error (telephony_from_dto _) = false => apply telephony_from_dto_final
  | |- retryable_error (Ok _) = false => reflexivity
  | |- retryable_error (map_err _ ?r) = false => destruct r; reflexivity
  | |- retryable_error (ok_or ?o _) = false => destruct o; reflexivity
  end.

(** C29. A reply of success ends a call.  Against a server that answers every
    request with the same 2xx response, each of the eighteen methods of the
    HTTP adapters sends exactly one request and returns what its decoder makes
    of the response: a body that cannot be read, has the wrong shape, lacks its
    data or carries a malformed id is an error, but never one to retry. *)
Theorem success_reply_final (resp : HttpResponse) va pa aa
    vs vref vmode vtok vcre vlist tid vupd usage eng alogs ologs q1 q2 q3 q4 :
  is_success (hr_status resp) = true →
  (∀ r w, (http_send r w).1 = Replied resp) →
  (answered_by resp session_of_response (VoiceManagerHttp.start_voice_session va vs)
   ∧ answered_by resp unit_of_response (VoiceManagerHttp.stop_voice_session va vref vmode)
   ∧ answered_by resp token_of_response (VoiceManagerHttp.issue_test_token va vtok)
   ∧ answered_by resp telephony_of_response (VoiceManagerHttp.create_telephony va vcre)
   ∧ answered_by resp telephonies_of_response (VoiceManagerHttp.list_telephonies va vlist)
   ∧ answered_by resp telephony_of_response (VoiceManagerHttp.get_telephony va tid)
   ∧ answered_by resp telephony_of_response (VoiceManagerHttp.update_telephony va vupd)
   ∧ answered_by resp unit_of_response (VoiceManagerHttp.delete_telephony va tid usage))
  ∧ (answered_by resp transcript_of_response (PostCallHttp.get_transcript pa eng)
   ∧ answered_by resp summary_of_response (PostCallHttp.get_summary pa eng)
   ∧ answered_by resp sentiment_of_response (PostCallHttp.get_sentiment pa eng)
   ∧ answered_by resp output_of_response (PostCallHttp.get_output_extraction pa eng)
   ∧ answered_by resp call_logs_of_response (PostCallHttp.list_agent_call_logs pa alogs)
   ∧ answered_by resp call_logs_of_response (PostCallHttp.list_org_call_logs pa ologs))
  ∧ answered_by resp analytics_of_response (AnalyticsHttp.get_agent_analytics aa q1)
  ∧ answered_by resp metrics_of_response (AnalyticsHttp.get_agent_metrics aa q2)
  ∧ answered_by resp analytics_of_response (AnalyticsHttp.get_org_analytics aa q3)
  ∧ answered_by resp metrics_of_response (AnalyticsHttp.get_org_metrics aa q4).
Proof.
  intros Hs Hall. split_and!;
    (eapply answered;
     [ first [ apply http_start_voice_session_follows | apply http_stop_voice_session_follows
             | apply http_issue_test_token_follows | apply http_create_telephony_follows
             | apply http_list_telephonies_follows | apply http_get_telephony_follows
             | apply http_update_telephony_follows | apply http_delete_telephony_follows
             | apply get_transcript_follows | apply get_summary_follows
             | apply get_sentiment_follows | apply get_output_extraction_follows
             | apply list_agent_call_logs_follows | apply list_org_call_logs_follows
             | apply get_agent_analytics_follows | apply get_agent_metrics_follows
             | apply get_org_analytics_follows | apply get_org_metrics_follows ]
     | exact Hall
     | unfold session_of_response, unit_of_response, token_of_response, telephony_of_response,
         telephonies_of_response, transcript_of_response, summary_of_response,
         sentiment_of_response, output_of_response, call_logs_of_response,
         analytics_of_response, metrics_of_response, get_json, summary_of, sentiment_of;
       solve_final ]).
Qed.

End Final.

(** ** Concrete replies *)
Section Witness.
Import Uuid36.
Local Existing Instance TextHttp.lib.
Local Existing Instance Clock.env.
Local Open Scope string_scope.

Local Instance short_errors : SerdeErrors := {|
  invalid_type _ e := "invalid type: expected " ++ e;
  invalid_value _ e := "invalid value: expected " ++ e;
  invalid_length n := "invalid length at " ++ n;
  missing_field n := "missing field " ++ n;
  duplicate_field n := "duplicate field " ++ n;
  trailing_characters := "trailing characters"
|}.

Definition nil_id : @Uuid lib := nil_uuid.

Definition a_telephony : TelephonyResp :=
  {| tresp_telephony := {| td_id := uuid_to_string nil_id; td_org_id := "org-1";
                           td_phone_number := "+60123456789" |} |}.
Definition a_transcript : TranscriptionsResp :=
  {| trs_data := [{| ti_message := "hello"; ti_role := "agent"; ti_audio_url := None;
                     ti_emotion := Some "calm" |}]; trs_total_size := None |}.
Definition a_call_log : CallLogListResp := {| clr_data := None; clr_total_size := Some 0 |}.
Definition an_analytics : AnalyticsResp :=
  let zero := S754_zero false in
  {| ar_average_conversation_duration := zero; ar_containment_rate := zero;
     ar_customer_satisfaction_rate := zero; ar_dropoff_rate := zero;
     ar_escalation_rate := zero; ar_total_inquiries := 100; ar_category_counts := ∅ |}.

(** Texts that stand for the four bodies; the second has an unknown member first. *)
Local Instance witness_body : BodyJson := λ b : string,
  if decide (b = "telephony") then Ok (JObject (telephony_members a_telephony))
  else if decide (b = "transcript")
  then Ok (JObject (("page", JInt 1) :: transcriptions_members a_transcript))
  else if decide (b = "calls") then Ok (JObject (call_logs_members a_call_log))
  else if decide (b = "analytics") then Ok (JObject (analytics_members an_analytics))
  else Err "expected value".
Definition ok_response (b : string) : HttpResponse := mkHttpResponse TextHttp.lib 200 b.
Local Instance witness_text : JsonText := λ _, Err "expected value".

Lemma replies_decode_witness :
  transcript_of_response (ok_response "transcript")
  = Ok {| tr_messages := [{| tm_message := "hello"; tm_role := "agent"; tm_audio_url := None;
                             tm_emotion := Some "calm" |}]; tr_total_size := 0 |}.
Proof.
  destruct (replies_decode a_telephony a_transcript a_call_log an_analytics
    (ok_response "telephony") (ok_response "transcript")
    (ok_response "calls") (ok_response "analytics") nil_id)
    as (_ & H & _); [..|exact H].
  - apply uuid_parse_to_string.
  - exact I.
  - split; [exact I|]. split; discriminate.
  - split; [split; discriminate|]. apply map_Forall_empty.
  - split; [reflexivity|]. exists (telephony_members a_telephony), []. by rewrite app_nil_r.
  - split; [reflexivity|].
    exists (("page", JInt 1) :: transcriptions_members a_transcript), [("page", JInt 1)].
    split; [reflexivity|]. split; [apply Permutation_cons_append|].
    repeat constructor. by apply (bool_decide_unpack _).
  - split; [reflexivity|]. exists (call_logs_members a_call_log), []. by rewrite app_nil_r.
  - split; [reflexivity|]. exists (analytics_members an_analytics), []. by rewrite app_nil_r.
Defined.

Local Instance garbled : HttpClient Z := λ _ w, (Replied (ok_response "<html>"), w + 1).
Local Instance counted : UuidGen Z := λ w, (nil_id, w + 1).

Lemma success_reply_final_witness :
  let o := get_summary (mkPostCallHttpAdapter "http://pc") (mkEngagementId nil_id)
             (mkNet 0 [] empty_metrics) in
  o.1 = Value (Err (PostCallErr.Permanent "expected value")) ∧ length (net_sent o.2) = 1%nat.
Proof.
  destruct (success_reply_final (ok_response "<html>")
    (mkVoiceManagerHttpAdapter "http://vm") (mkPostCallHttpAdapter "http://pc")
    (mkAnalyticsHttpAdapter "http://an")
    {| sv_engagement_id := mkEngagementId nil_id; sv_org_id := "org" |}
    (mkVoiceSessionRef nil_id) Abort {| it_org_id := "org" |}
    {| ct_org_id := "org"; ct_phone_number := "1" |}
    {| lt_org_id := "org"; lt_page_token := None |} (mkTelephonyId nil_id)
    {| ut_id := mkTelephonyId nil_id; ut_phone_number := "1" |} "done"
    (mkEngagementId nil_id)
    {| la_agent_id := "a"; la_skip := None; la_limit := None; la_start_date := None;
       la_end_date := None; la_identity := None; la_id := None; la_batch_id := None |}
    {| lo_org_id := "o"; lo_skip := None; lo_limit := None; lo_start_date := None;
       lo_end_date := None; lo_contact_number := None; lo_call_id := None |}
    {| gaa_agent_id := "a"; gaa_metric := None; gaa_granularity := None;
       gaa_start_date := None; gaa_end_date := None |}
    {| gam_agent_id := "a"; gam_metric := None; gam_granularity := None;
       gam_start_date := None; gam_end_date := None |}
    {| goa_org_id := "o"; goa_metric := None; goa_granularity := None;
       goa_start_date := None; goa_end_date := None |}
    {| gom_org_id := "o"; gom_metric := None; gom_granularity := None;
       gom_start_date := None; gom_end_date := None |})
    as (_ & (_ & H & _) & _); [reflexivity|reflexivity|].
  exact (H (mkNet 0 [] empty_metrics)).
Defined.

End Witness.
