(* ===== verification/RegistryStub.v ===== *)
(** * The fixture registry

    Models [crates/engagement-hub-adapters/src/registry_stub.rs]: a
    [RegistryPort] over two maps built from fixture lists. *)
From Stdlib Require Import ZArith Lia.
From stdpp Require Import base sets list strings gmap.
From S2P Require Import Prelude Errors Uuids PortTypes Ports.

Section Stub.
Context `{U : UuidLib}.

Record RegistryStubAdapter := mkRegistryStubAdapter {
  snapshots : gmap string ResolvedSnapshot;
  profiles : gmap string VoiceProfile
}.

(** [.into_iter().map(|x| (key(x), x)).collect()]: inserted in order. *)
Definition collect_map {A} (key : A → string) (l : list A) : gmap string A :=
  foldl (λ m x, <[key x := x]> m) ∅ l.

Definition profile_key (p : VoiceProfile) : string :=
  uuid_to_string (voice_profile_uuid (vp_id p)).

Definition stub_new (snaps : list ResolvedSnapshot) (profs : list VoiceProfile)
  : RegistryStubAdapter :=
  mkRegistryStubAdapter (collect_map rs_journey_version snaps) (collect_map profile_key profs).

Definition with_default_fixtures : RegistryStubAdapter :=
  stub_new [{| rs_snapshot_id := "fixture-snap-v1"; rs_journey_version := "v1-fixture" |}] [].

Definition resolve_snapshot {S} (a : RegistryStubAdapter) (req : ResolveSnapshotReq)
  : io S (result ResolvedSnapshot RegistryError) :=
  io_ret (ok_or (snapshots a !! rsq_journey_version req)
    (RegistryErr.Permanent ("stub: journey_version '" +:+ rsq_journey_version req
                            +:+ "' not found in fixtures"))).

Definition get_voice_profile {S} (a : RegistryStubAdapter) (id : VoiceProfileId)
  : io S (result VoiceProfile RegistryError) :=
  io_ret (ok_or (profiles a !! uuid_to_string (voice_profile_uuid id))
    (RegistryErr.Permanent ("stub: voice_profile_id '" +:+ voice_profile_id_display id
                            +:+ "' not found in fixtures"))).

#[export] Instance registry_stub_port S : RegistryPort RegistryStubAdapter S :=
  {| port_resolve_snapshot := resolve_snapshot; port_get_voice_profile := get_voice_profile |}.

#[export] Instance registry_stub_safe S : RegistryPortSafe RegistryStubAdapter S.
Proof. split; intros a x s; by eexists _, s. Qed.

(** ** Properties *)

(** The last element of [l] that [f] keeps. *)
Definition find_last {A} (f : A → bool) (l : list A) : option A := head (filter f (rev l)).

Lemma collect_map_snoc {A} (key : A → string) l x :
  collect_map key (l ++ [x]) = <[key x := x]> (collect_map key l).
Proof. unfold collect_map. by rewrite foldl_app. Qed.

Lemma collect_map_lookup {A} (key : A → string) l k :
  collect_map key l !! k = find_last (λ x, bool_decide (key x = k)) l.
Proof.
  unfold find_last. induction l as [|x l IH] using rev_ind; [apply lookup_empty|].
  rewrite collect_map_snoc, rev_app_distr. simpl.
  destruct (decide (key x = k)) as [<-|Hne].
  - rewrite lookup_insert_eq. rewrite filter_cons_True; [done|by apply bool_decide_pack].
  - rewrite lookup_insert_ne by done. rewrite IH.
    rewrite filter_cons_False; [done|]. by intros ?%bool_decide_unpack.
Qed.

(** The stub answers from its fixture lists: a snapshot request gets the
    last snapshot with the requested journey version (the organisation is
    ignored), a profile request the last profile with that id, and a request
    without a fixture the permanent error naming the key; no state changes. *)
Theorem stub_answers_fixtures `{!UuidLaws} {S} snaps profs req id (s : S) :
  resolve_snapshot (stub_new snaps profs) req s
  = (Value (ok_or (find_last (λ x, bool_decide (rs_journey_version x = rsq_journey_version req))
                     snaps)
       (RegistryErr.Permanent ("stub: journey_version '" +:+ rsq_journey_version req
                               +:+ "' not found in fixtures"))), s)
  ∧ get_voice_profile (stub_new snaps profs) id s
    = (Value (ok_or (find_last
                (λ p, bool_decide (voice_profile_uuid (vp_id p) = voice_profile_uuid id)) profs)
         (RegistryErr.Permanent ("stub: voice_profile_id '" +:+ voice_profile_id_display id
                                 +:+ "' not found in fixtures"))), s).
Proof.
  unfold resolve_snapshot, get_voice_profile, io_ret; simpl. rewrite !collect_map_lookup.
  split; [done|]. do 3 f_equal. unfold find_last. f_equal.
  apply list_filter_iff. intros p. rewrite !bool_decide_spec. unfold profile_key.
  split; [apply uuid_to_string_inj | by intros ->].
Qed.

End Stub.

(** The last of two fixtures with the same version is the answer. *)
Section Witness.
Local Existing Instance Uuid36.lib.

Definition two_snaps : list ResolvedSnapshot :=
  [{| rs_snapshot_id := "old"; rs_journey_version := "v1" |};
   {| rs_snapshot_id := "new"; rs_journey_version := "v1" |}].

Lemma stub_answers_fixtures_witness :
  resolve_snapshot (stub_new two_snaps []) {| rsq_org_id := "o"; rsq_journey_version := "v1" |} tt
  = (Value (Ok {| rs_snapshot_id := "new"; rs_journey_version := "v1" |}), tt).
Proof.
  exact (proj1 (stub_answers_fixtures (H := Uuid36.laws) two_snaps []
    {| rsq_org_id := "o"; rsq_journey_version := "v1" |} (mkVoiceProfileId Uuid36.nil_uuid) tt)).
Defined.
End Witness.
