(* ===== verification/RegistryStubTests.v ===== *)
(** * The unit tests of [registry_stub.rs] *)
From Stdlib Require Import ZArith.
From stdpp Require Import base list gmap strings.
From S2P Require Import Prelude Uuids UnitTest Errors PortTypes Ports RegistryStub MockPeer.
Import Uuid36 CountingEnv.
Local Open Scope string_scope.

(** The stub has no state; the random source counts from 1 (0 is the nil id). *)
Local Abbreviation World := ((Z * nat) * unit)%type.

Definition stub : RegistryStubAdapter (U := lib) :=
  stub_new
    [{| rs_snapshot_id := "snap-1"; rs_journey_version := "v1" |};
     {| rs_snapshot_id := "snap-2"; rs_journey_version := "v2" |}]
    [{| vp_id := voice_profile_id_from (U := lib) nil_uuid; vp_name := "bot" |}].

Definition resolve_known_version : test World :=
  do r <- resolve_snapshot stub {| rsq_org_id := "org1"; rsq_journey_version := "v1" |} ;;
  do snap <- unwrap r ;;
  assert_eq (rs_snapshot_id snap) "snap-1".

Definition resolve_unknown_version_returns_permanent : test World :=
  do r <- resolve_snapshot stub {| rsq_org_id := "org1"; rsq_journey_version := "vX" |} ;;
  do err <- unwrap_err r ;;
  assert_ (match err with RegistryErr.Permanent _ => true | _ => false end).

Definition get_known_profile : test World :=
  do r <- get_voice_profile stub (voice_profile_id_from (U := lib) nil_uuid) ;;
  do vp <- unwrap r ;;
  assert_eq (vp_name vp) "bot".

Definition get_unknown_profile_returns_permanent : test World :=
  do id <- draw voice_profile_id_new ;;
  do r <- get_voice_profile stub id ;;
  do err <- unwrap_err r ;;
  assert_ (match err with RegistryErr.Permanent _ => true | _ => false end).

Definition default_fixtures_resolves_v1_fixture : test World :=
  let s := with_default_fixtures in
  do r <- resolve_snapshot s {| rsq_org_id := "org1"; rsq_journey_version := "v1-fixture" |} ;;
  do snap <- unwrap r ;;
  assert_eq (rs_snapshot_id snap) "fixture-snap-v1".

Definition registry_stub_tests : list (test World) :=
  [resolve_known_version; resolve_unknown_version_returns_permanent; get_known_profile;
   get_unknown_profile_returns_permanent; default_fixtures_resolves_v1_fixture].

Lemma registry_stub_tests_pass :
  Forall (λ t, passes t ((0, 1%nat), tt) = true) registry_stub_tests.
Proof. unfold registry_stub_tests. run_closed_tests. Qed.
