(* ===== verification/Adapters.v ===== *)
(** * Properties of the adapters

    What the network adapters guarantee to the orchestration code that calls
    them through the port traits, proved from each method's [follows] lemma. *)
From Stdlib Require Import ZArith Lia.
From stdpp Require Import base sets list strings gmap pretty.
From S2P Require Import Prelude Errors Uuids PortTypes Saga Policies Ports Net Grpc Http.
From S2P Require Import RegistryGrpc JourneyManagerGrpc VoiceManagerGrpc.
From S2P Require Import VoiceManagerHttp PostCallHttp AnalyticsHttp.

Section Grpc.
Context `{U : UuidLib} `{TonicLib} {W : Type} `{RetryEnv W} `{!UuidGen W}.
Context `{!RegistryClient W, !JourneyManagerClient W, !VoiceManagerClient W}.

(** C8. One [create_execution] call sends one request, at most twice: the
    repeated request is identical, request id included, and carries the
    caller's journey version, organisation and engagement.  It never panics,
    and a success is an execution reference the Journey Manager answered. *)
Theorem create_execution_calls a (req : CreateExecutionReq) (s : Net W JourneyCall) :
  ∃ r k s', JourneyManagerGrpc.create_execution a req s = (Value r, s')
  ∧ (1 ≤ k ≤ 2)%nat
  ∧ net_sent s' = net_sent s ++ replicate k
      (CreateExecutionCall (JourneyManagerGrpc.Pb.mkCreateExecutionRequest (next_id s)
         (ce_journey_version req) (ce_org_id req)
         (engagement_id_display (ce_engagement_id req))))
  ∧ ∀ ref, r = Ok ref → ∃ w resp er,
      (rpc_create_execution (create_execution_request req (next_id s)) w).1 = Replied resp
      ∧ JourneyManagerGrpc.Pb.cersp_execution_ref resp = Some er
      ∧ uuid_parse (JourneyManagerGrpc.Pb.erp_id er) = Ok (execution_uuid ref).
Proof.
  pose proof (create_execution_follows a req) as Hf.
  destruct (follows_sent Hf s) as (r & k & s' & Heq & Hk & Hs).
  exists r, k, s'. split_and!; [done|simpl in Hk; lia|simpl in Hk; lia|done|]. intros ref ->.
  destruct (follows_Ok Hf s ref) as (w & resp & Hw & Hresp);
    [by rewrite Heq|].
  exists w, resp. unfold execution_of_response in Hresp.
  destruct (JourneyManagerGrpc.Pb.cersp_execution_ref resp) as [er|]; [|done].
  exists er. simpl in Hresp. destruct (uuid_parse _) as [u|] eqn:Hu; [|done].
  by simplify_eq/=.
Qed.

(** C26. A status that the peer keeps answering: the permanent codes reach the
    caller after a single call, [Unavailable] and all other codes after all
    attempts of the method's policy (5 to resolve a snapshot or cancel an
    execution, 2 to start a voice session); the error is the classified one. *)
Theorem grpc_status_attempts (st : Status) snap_req ref reason start_req
    (s1 : Net W RegistryCall) (s2 : Net W JourneyCall) (s3 : Net W VoiceCall) :
  (∀ r w, (rpc_resolve_snapshot r w).1 = Failed st) →
  (∀ r w, (rpc_cancel_execution r w).1 = Failed st) →
  (∀ r w, (rpc_start_voice_session r w).1 = Failed st) →
  let attempts n := if decide (st_code st ∈ permanent_codes) then 1%nat else n in
  let o1 := RegistryGrpc.resolve_snapshot mkRegistryGrpcAdapter snap_req s1 in
  let o2 := JourneyManagerGrpc.cancel_execution mkJourneyManagerGrpcAdapter ref reason s2 in
  let o3 := VoiceManagerGrpc.start_voice_session mkVoiceManagerGrpcAdapter start_req s3 in
  o1.1 = Value (Err (RegistryGrpc.map_status st))
  ∧ length (net_sent o1.2) = (length (net_sent s1) + attempts 5)%nat
  ∧ o2.1 = Value (Err (JourneyManagerGrpc.map_status st))
  ∧ length (net_sent o2.2) = (length (net_sent s2) + attempts 5)%nat
  ∧ o3.1 = Value (Err (VoiceManagerGrpc.map_status st))
  ∧ length (net_sent o3.2) = (length (net_sent s3) + attempts 2)%nat.
Proof.
  intros H1 H2 H3 attempts o1 o2 o3. subst o1 o2 o3.
  assert (Hat : ∀ E `{PortErrorLaws E} (m : Status → E) T n, classifies m →
    (if retryable_error (Err (m st) : result T E) then n else 1%nat) = attempts n).
  { intros E ? ? ? m T n Hm. unfold attempts, retryable_error.
    pose proof (classifies_retryable m st Hm).
    destruct (is_retryable (m st)), (decide (st_code st ∈ permanent_codes)); intuition done. }
  destruct (follows_constant (resolve_snapshot_follows mkRegistryGrpcAdapter snap_req)
    (Err (RegistryGrpc.map_status st)) s1) as [-> Hs1];
    [intros w; by rewrite H1|].
  destruct (follows_constant (cancel_execution_follows mkJourneyManagerGrpcAdapter ref reason)
    (Err (JourneyManagerGrpc.map_status st)) s2) as [-> Hs2];
    [intros w; by rewrite H2|].
  destruct (follows_constant (VoiceManagerGrpc.start_voice_session_follows
      mkVoiceManagerGrpcAdapter start_req)
    (Err (VoiceManagerGrpc.map_status st)) s3) as [-> Hs3];
    [intros w; by rewrite H3|].
  rewrite Hs1, Hs2, Hs3, !length_app, !length_replicate.
  rewrite (Hat _ _ _ _ _ _ _ RegistryGrpc.registry_map_status_classifies).
  rewrite (Hat _ _ _ _ _ _ _ JourneyManagerGrpc.jm_map_status_classifies).
  rewrite (Hat _ _ _ _ _ _ _ VoiceManagerGrpc.vm_map_status_classifies).
  done.
Qed.

(** Listing telephonies over gRPC: the reply decodes to a list exactly when
    every entry has a well-formed id, entry by entry in the same order;
    otherwise the whole call fails with the permanent error of the first entry
    whose id does not parse. *)
Theorem telephony_list_all_or_nothing (resp : VoiceManagerGrpc.Pb.ListTelephoniesResponse) :
  match VoiceManagerGrpc.telephonies_of_response resp with
  | Ok ts => Forall2 (λ p t, uuid_parse (VoiceManagerGrpc.Pb.tp_id p) = Ok
      (telephony_uuid (tel_id t))
                        ∧ tel_org_id t = VoiceManagerGrpc.Pb.tp_org_id p
                        ∧ tel_phone_number t = VoiceManagerGrpc.Pb.tp_phone_number p)
               (VoiceManagerGrpc.Pb.ltrsp_telephonies resp) ts
  | Err e => ∃ good bad rest msg,
      VoiceManagerGrpc.Pb.ltrsp_telephonies resp = good ++ bad :: rest
      ∧ Forall (λ p, is_ok (uuid_parse (VoiceManagerGrpc.Pb.tp_id p)) = true) good
      ∧ uuid_parse (VoiceManagerGrpc.Pb.tp_id bad) = Err msg
      ∧ e = VmErr.Permanent ("bad telephony id: " +:+ msg)
  end.
Proof.
  destruct (VoiceManagerGrpc.telephonies_of_response resp) as [ts|e] eqn:Hr.
  - apply VoiceManagerGrpc.telephonies_of_response_Ok in Hr. eapply Forall2_impl; [done|].
    intros p t. unfold VoiceManagerGrpc.telephony_from_proto.
    destruct (uuid_parse _) as [u|]; [|done]. intros ?. by simplify_eq/=.
  - unfold VoiceManagerGrpc.telephonies_of_response in Hr.
    apply collect_results_Err in Hr as (vs & rest & Hmap).
    apply fmap_app_inv in Hmap as (good & tl & Hgood & Htl & ->).
    symmetry in Htl. apply fmap_cons_inv in Htl as (bad & rest' & Hbad & _ & ->).
    unfold VoiceManagerGrpc.telephony_from_proto in Hbad.
    destruct (uuid_parse (VoiceManagerGrpc.Pb.tp_id bad)) as [u|msg] eqn:Hu; simplify_eq/=.
    exists good, bad, rest', msg. split_and!; [done| |done|done].
    apply Forall_forall. intros p Hp.
    assert (Hin : VoiceManagerGrpc.telephony_from_proto p ∈ map Ok vs)
      by (rewrite Hgood; by apply list_elem_of_fmap_2).
    apply list_elem_of_fmap in Hin as (t & Ht & _).
    unfold VoiceManagerGrpc.telephony_from_proto in Ht.
    by destruct (uuid_parse (VoiceManagerGrpc.Pb.tp_id p)).
Qed.

End Grpc.

Section Stop.
Context `{U : UuidLib} `{TonicLib} `{HttpLib} {W : Type} `{RetryEnv W} `{!UuidGen W}.
Context `{!VoiceManagerClient W} `{!HttpClient W} `{!DecodeText ErrorBody}.

(** C3. Stopping a voice session: over either transport a graceful stop sends
    its request exactly once, whatever the Voice Manager does, and an abort
    sends one and the same request one to five times; the request names the
    session and the mode (2 or ["graceful"], 1 or ["abort"]). *)
Theorem stop_voice_session_calls ga ha ref mode (s1 : Net W VoiceCall) (s2 : Net W HttpRequest) :
  let sid := uuid_to_string (voice_session_uuid ref) in
  ∃ r1 r2 k1 k2 s1' s2',
    VoiceManagerGrpc.stop_voice_session ga ref mode s1 = (Value r1, s1')
    ∧ VoiceManagerHttp.stop_voice_session ha ref mode s2 = (Value r2, s2')
    ∧ net_sent s1' = net_sent s1 ++ replicate k1
        (StopVoiceSessionCall (VoiceManagerGrpc.Pb.mkStopVoiceSessionRequest (next_id s1)
           (Some (VoiceManagerGrpc.Pb.mkVoiceSessionRefProto sid))
           (match mode with Abort => 1 | Graceful => 2 end)))
    ∧ net_sent s2' = net_sent s2 ++ replicate k2
        (mkHttpRequest DELETE
           (VoiceManagerHttp.base_url ha +:+ "/v1/voice/sessions/" +:+ sid
            +:+ "?mode=" +:+ (match mode with Abort => "abort" | Graceful => "graceful" end))
           (Some (next_id s2)) [] None)
    ∧ match mode with
      | Graceful => k1 = 1%nat ∧ k2 = 1%nat
      | Abort => (1 ≤ k1 ≤ 5)%nat ∧ (1 ≤ k2 ≤ 5)%nat
      end.
Proof.
  intros sid.
  destruct (follows_sent (VoiceManagerGrpc.stop_voice_session_follows ga ref mode) s1)
    as (r1 & k1 & s1' & Heq1 & Hk1 & Hs1).
  destruct (follows_sent (VoiceManagerHttp.http_stop_voice_session_follows ha ref mode) s2)
    as (r2 & k2 & s2' & Heq2 & Hk2 & Hs2).
  exists r1, r2, k1, k2, s1', s2'.
  split_and!; [done|done|rewrite Hs1; by destruct mode|rewrite Hs2; by destruct mode|].
  destruct mode; simpl in *; lia.
Qed.

End Stop.

Section Http.
Context `{U : UuidLib} `{HttpLib} `{!HttpLaws} {W : Type} `{RetryEnv W} `{!UuidGen W}.
Context `{!HttpClient W} `{!DecodeText ErrorBody, !DecodeBody TelephonyResp}.
Context `{!DecodeBody SummaryResp, !DecodeBody MetricsResp}.

Lemma on_failed_response {T E} `{FromPanic E} (parse : Body → result T E)
    (m : Z → string → E) (on_fail : string → E) resp :
  is_success (hr_status resp) = false →
  settled (on_response parse m) on_fail (Replied resp)
  = Err (m (hr_status resp) (match body_text (hr_body resp) with Ok t => t
      | Err _ => ""%string end)).
Proof. intros Hs. unfold settled, on_response; simpl. by rewrite Hs. Qed.

(** C27. A failure response that the peer keeps giving.  The Voice Manager
    adapter gives up after one request exactly on the 4xx range, the post-call
    and analytics adapters only on 404, 400 and 422; all other statuses (for
    the latter also 401, 403, 409 and 429) use all attempts (3 here). *)
Theorem http_status_attempts (resp : HttpResponse) va pa aa tid eng mreq
    (s1 s2 s3 : Net W HttpRequest) :
  ¬ (200 ≤ hr_status resp < 300) →
  (∀ r w, (http_send r w).1 = Replied resp) →
  let n1 := if decide (400 ≤ hr_status resp < 500) then 1%nat else 3%nat in
  let n2 := if decide (hr_status resp ∈ [404; 400; 422]) then 1%nat else 3%nat in
  length (net_sent (VoiceManagerHttp.get_telephony va tid s1).2) = (length (net_sent s1) + n1)%nat
  ∧ length (net_sent (PostCallHttp.get_summary pa eng s2).2) = (length (net_sent s2) + n2)%nat
  ∧ length (net_sent (AnalyticsHttp.get_org_metrics aa mreq s3).2)
    = (length (net_sent s3) + n2)%nat.
Proof.
  intros Hns Hall n1 n2.
  assert (Hs : is_success (hr_status resp) = false)
    by (apply not_true_is_false; by rewrite is_success_range).
  set (body := match body_text (hr_body resp) with Ok t => t | Err _ => ""%string end).
  destruct (follows_constant (VoiceManagerHttp.http_get_telephony_follows va tid)
    (Err (VoiceManagerHttp.map_http_status (hr_status resp) body)) s1) as [_ ->];
    [intros w; rewrite Hall; by apply on_failed_response|].
  destruct (follows_constant (PostCallHttp.get_summary_follows pa eng)
    (Err (PostCallHttp.map_http_status (hr_status resp) body)) s2) as [_ ->].
  { intros w. rewrite Hall. unfold settled, PostCallHttp.summary_of_response; simpl.
    unfold PostCallHttp.get_json, on_response. by rewrite Hs. }
  destruct (follows_constant (AnalyticsHttp.get_org_metrics_follows aa mreq)
    (Err (AnalyticsHttp.map_http_status (hr_status resp) body)) s3) as [_ ->];
    [intros w; rewrite Hall; by apply on_failed_response|].
  rewrite !length_app, !length_replicate. simpl.
  pose proof (VoiceManagerHttp.map_http_status_retryable (hr_status resp) body).
  pose proof (three_final_retryable _ (hr_status resp) body PostCallHttp.post_call_three_final).
  pose proof (three_final_retryable _ (hr_status resp) body AnalyticsHttp.analytics_three_final).
  unfold n1, n2. change [404; 400; 422] with final_statuses.
  split_and!; case_decide; case_match; intuition done.
Qed.

End Http.

(** The listings' query strings: [/history-call] and [/organizations] get
    exactly the filters the caller set, each once, under its own name; unset
    filters do not appear, and a page never has a next-page token. *)
Theorem call_log_queries (ra : ListAgentCallLogsReq) (ro : ListOrgCallLogsReq) n v
    (r : CallLogListResp) :
  ((n, v) ∈ agent_query ra ↔
     (n = "skip" ∧ pretty <$> la_skip ra = Some v) ∨ (n = "limit" ∧ pretty <$> la_limit ra = Some v)
     ∨ (n = "start_date" ∧ la_start_date ra = Some v) ∨ (n = "end_date" ∧ la_end_date ra = Some v)
     ∨ (n = "identity" ∧ la_identity ra = Some v) ∨ (n = "id" ∧ la_id ra = Some v)
     ∨ (n = "batch_id" ∧ la_batch_id ra = Some v))%string
  ∧ ((n, v) ∈ org_query ro ↔
     (n = "skip" ∧ pretty <$> lo_skip ro = Some v) ∨ (n = "limit" ∧ pretty <$> lo_limit ro = Some v)
     ∨ (n = "start_date" ∧ lo_start_date ro = Some v) ∨ (n = "end_date" ∧ lo_end_date ro = Some v)
     ∨ (n = "contact_number" ∧ lo_contact_number ro = Some v)
     ∨ (n = "call_id" ∧ lo_call_id ro = Some v))%string
  ∧ NoDup (map fst (agent_query ra)) ∧ NoDup (map fst (org_query ro))
  ∧ pg_next_page_token (call_log_page r) = None
  ∧ length (pg_items (call_log_page r)) = length (default [] (clr_data r)).
Proof.
  assert (Hnd : ∀ ps, NoDup (map fst ps) → NoDup (map fst (push_params ps))).
  { intros ps Hps. eapply sublist_NoDup; [exact Hps|apply push_params_names]. }
  split_and!; [| | | |done|apply length_map].
  1-2: unfold agent_query, org_query; rewrite push_params_elem;
       rewrite !elem_of_cons, elem_of_nil, !pair_equal_spec; intuition congruence.
  1-2: apply Hnd; apply (bool_decide_unpack _); reflexivity.
Qed.

(** C9. No method of the six network adapters lets a panic escape: for every
    peer, clock and state, each of the 31 methods returns a [Result]. *)
Theorem adapters_never_panic `{U : UuidLib} `{TonicLib} `{HttpLib} {W} `{RetryEnv W}
    `{!UuidGen W, !RegistryClient W, !JourneyManagerClient W, !VoiceManagerClient W}
    `{!HttpClient W} `{!DecodeText ErrorBody, !DecodeBody StartVoiceSessionResp}
    `{!DecodeBody IssueTestTokenResp, !DecodeBody TelephonyResp, !DecodeBody ListTelephoniesResp}
    `{!DecodeBody TranscriptionsResp, !DecodeBody SummaryResp, !DecodeBody SentimentResp}
    `{!DecodeBody OutputExtractionResp, !DecodeBody CallLogListResp}
    `{!DecodeBody AnalyticsResp, !DecodeBody MetricsResp} :
  RegistryPortSafe RegistryGrpcAdapter (Net W RegistryCall)
  ∧ JourneyManagerPortSafe JourneyManagerGrpcAdapter (Net W JourneyCall)
  ∧ VoiceManagerPortSafe VoiceManagerGrpcAdapter (Net W VoiceCall)
  ∧ VoiceManagerPortSafe VoiceManagerHttpAdapter (Net W HttpRequest)
  ∧ PostCallPortSafe PostCallHttpAdapter (Net W HttpRequest)
  ∧ AnalyticsPortSafe AnalyticsHttpAdapter (Net W HttpRequest).
Proof. split_and!; apply _. Qed.

(** ** The properties' hypotheses at concrete inputs

    Peers on the nanosecond clock that always give the same failure. *)
Section Witness.
Local Existing Instance Clock.env.
Local Existing Instance Uuid36.lib.
Local Existing Instance TextHttp.lib.
Local Existing Instance TextHttp.laws.

Local Instance witness_tonic : TonicLib := {| code_debug _ := "NotFound" |}.
Local Instance witness_ids : UuidGen Z := λ w, (Uuid36.one_uuid, w).
Definition not_found : Status := mkStatus NotFound "no such thing".
Definition refuse {R M} (_ : R) (w : Z) : wire M Status * Z := (Failed not_found, w + 1).
Local Instance witness_registry : RegistryClient Z :=
  {| rpc_resolve_snapshot := refuse; rpc_get_voice_profile := refuse |}.
Local Instance witness_journey : JourneyManagerClient Z :=
  {| rpc_create_execution := refuse; rpc_cancel_execution := refuse;
     rpc_get_execution_timeline := refuse |}.
Local Instance witness_voice : VoiceManagerClient Z :=
  {| rpc_start_voice_session := refuse; rpc_stop_voice_session := refuse;
     rpc_issue_test_token := refuse; rpc_create_telephony := refuse;
     rpc_list_telephonies := refuse; rpc_get_telephony := refuse;
     rpc_update_telephony := refuse; rpc_delete_telephony := refuse |}.

Definition nil_execution : ExecutionRef := mkExecutionRef Uuid36.nil_uuid.
Definition nil_engagement : EngagementId := mkEngagementId Uuid36.nil_uuid.
Definition nil_telephony : TelephonyId := mkTelephonyId Uuid36.nil_uuid.

Definition start_net {C} : Net Z C := mkNet 0 [] empty_metrics.

Lemma grpc_status_attempts_witness :
  let o1 := RegistryGrpc.resolve_snapshot mkRegistryGrpcAdapter
              {| rsq_org_id := "org"; rsq_journey_version := "v1" |} start_net in
  o1.1 = Value (Err (RegistryGrpc.map_status not_found)) ∧ length (net_sent o1.2) = 1%nat.
Proof.
  destruct (grpc_status_attempts not_found {| rsq_org_id := "org"; rsq_journey_version := "v1" |}
    nil_execution UserRequested
    {| sv_engagement_id := nil_engagement; sv_org_id := "org" |}
    start_net start_net start_net) as (H1 & H2 & _); [reflexivity..|].
  split; [exact H1|exact H2].
Defined.

Definition unauthorized : HttpResponse := mkHttpResponse _ 401 "login first".
Local Instance witness_http : HttpClient Z := λ _ w, (Replied unauthorized, w + 1).
Local Instance witness_text : DecodeText ErrorBody := λ _, Err "not json"%string.
Local Instance witness_body {T} : DecodeBody T := λ _, Err "not json"%string.

Lemma http_status_attempts_witness :
  length (net_sent (PostCallHttp.get_summary (mkPostCallHttpAdapter "http://pc")
    nil_engagement start_net).2) = 3%nat.
Proof.
  destruct (http_status_attempts unauthorized (mkVoiceManagerHttpAdapter "http://vm")
    (mkPostCallHttpAdapter "http://pc") (mkAnalyticsHttpAdapter "http://an")
    nil_telephony nil_engagement
    {| gom_org_id := "org"; gom_metric := None; gom_granularity := None;
       gom_start_date := None; gom_end_date := None |} start_net start_net start_net)
    as (_ & H2 & _); [simpl; lia|reflexivity|exact H2].
Defined.

End Witness.
