(* ===== verification/Idempotency.v ===== *)
(** * Idempotency of mutating RPCs

    Models [crates/engagement-hub/src/idempotency.rs]: the canonical JSON and
    hash of a [StartEngagement] request, and [IdempotencyChecker::check].
    [serde_json::to_string], SHA-256 and PostgreSQL's [LIMIT 1] are parameters:
    the first is injective (JSON text determines the object), the second gives
    32 bytes, the third some row if there is one. *)
From Stdlib Require Import ZArith Lia.
From Stdlib Require Import Strings.Ascii Strings.String Strings.Byte.
From stdpp Require Import base sets list strings gmap pretty countable.
From S2P Require Import Prelude Bytes Uuids.

(** ** Payload hashes: 32 bytes *)

(** The Rust type is [[u8; 32]]: see [payload_hash_wf]. *)
Record PayloadHash := mkPayloadHash { hash_bytes : list u8 }.

#[export] Instance PayloadHash_eq_dec : EqDecision PayloadHash.
Proof. solve_decision. Defined.

Definition payload_hash_wf (h : PayloadHash) : Prop := length (hash_bytes h) = 32%nat.

Definition as_bytes (h : PayloadHash) : list u8 := hash_bytes h.

Definition from_vec (v : list u8) : option PayloadHash :=
  if decide (length v = 32%nat) then Some (mkPayloadHash v) else None.

Definition to_hex (h : PayloadHash) : string :=
  hex_of_bytes (hash_bytes h).
Definition payload_hash_display (h : PayloadHash) : string := to_hex h.

(** ** Canonical JSON *)

(** The two kinds of [serde_json::Value] the code builds. *)
Inductive Value := VString (s : string) | VBool (b : bool).

#[export] Instance Value_eq_dec : EqDecision Value.
Proof. solve_decision. Defined.
#[export] Instance Value_countable : Countable Value.
Proof.
  apply (inj_countable' (λ v, match v with VString s => inl s | VBool b => inr b end)
    (λ x, match x with inl s => VString s | inr b => VBool b end)).
  by intros [].
Defined.

(** [BTreeMap<&str, Value>]: its entries in key order. *)
Abbreviation BTreeMap := (list (string * Value)).

Fixpoint btree_insert (k : string) (v : Value) (m : BTreeMap) : BTreeMap :=
  match m with
  | [] => [(k, v)]
  | (k', v') :: m' =>
      match String.compare k k' with
      | Lt => (k, v) :: m
      | Eq => (k, v) :: m'
      | Gt => (k', v') :: btree_insert k v m'
      end
  end.

Record StartEngagementFields := {
  org_id : string;
  channel : string;
  mode : string;
  journey_version : string;
  contact_kind : string;
  contact_id : option string;
  contact_phone : option string;
  batch_id : option string;
  voice_profile_id : option string;
  test_mode : bool;
  language : option string
}.

(** [if let Some(ref x) = o { map.insert(k, Value::String(x.clone())); }]. *)
Definition insert_opt (k : string) (o : option string) (m : BTreeMap) : BTreeMap :=
  match o with Some s => btree_insert k (VString s) m | None => m end.

(** The inserts of lines 151-182, in order. *)
Definition canonical_map (f : StartEngagementFields) : BTreeMap :=
  let map := [] in
  let map := btree_insert "channel" (VString (channel f)) map in
  let map := btree_insert "contact_kind" (VString (contact_kind f)) map in
  let map := insert_opt "contact_id" (contact_id f) map in
  let map := insert_opt "contact_phone" (contact_phone f) map in
  let map := insert_opt "batch_id" (batch_id f) map in
  let map := insert_opt "language" (language f) map in
  let map := btree_insert "journey_version" (VString (journey_version f)) map in
  let map := btree_insert "mode" (VString (mode f)) map in
  let map := btree_insert "org_id" (VString (org_id f)) map in
  let map := btree_insert "test_mode" (VBool (test_mode f)) map in
  insert_opt "voice_profile_id" (voice_profile_id f) map.

(** [serde_json::to_string] on such a map, and [Sha256::digest]. *)
Class HashLib := {
  json_to_string : BTreeMap → string;
  sha256 : string → list u8
}.
Class HashLaws `{HashLib} : Prop := {
  json_to_string_inj : ∀ m m', json_to_string m = json_to_string m' → m = m';
  sha256_length : ∀ s, length (sha256 s) = 32%nat
}.

Definition canonical_json_start_engagement `{HashLib} (f : StartEngagementFields) : string :=
  json_to_string (canonical_map f).

Definition canonical_hash_start_engagement `{HashLib} (f : StartEngagementFields) : PayloadHash :=
  mkPayloadHash (sha256 (canonical_json_start_engagement f)).

(** ** The checker *)

Section Checker.
Context `{U : UuidLib}.

Inductive IdempotencyResult :=
| New
| Replay (engagement_id : Uuid) (is_terminal : bool)
| Conflict.

(** The columns of table [engagements] the query uses. *)
Record EngagementRow := mkEngagementRow {
  er_engagement_id : Uuid;
  er_organization_id : Uuid;
  er_request_id : Uuid;
  er_payload_hash : list u8;
  er_status : Z
}.

(** [engagements_request_unique UNIQUE (organization_id, request_id)]. *)
Definition request_unique (rows : list EngagementRow) : Prop :=
  ∀ i j a b, rows !! i = Some a → rows !! j = Some b →
    er_organization_id a = er_organization_id b → er_request_id a = er_request_id b → i = j.

(** A row of the result of [... LIMIT 1], which has no [ORDER BY]. *)
Class PgLimit := limit1 : list EngagementRow → option EngagementRow.
Class PgLimitLaws `{!PgLimit} : Prop := {
  limit1_elem : ∀ l x, limit1 l = Some x → x ∈ l;
  limit1_some : ∀ l, limit1 l = None → l = []
}.

Definition TERMINAL_STATUSES : list Z := [4; 5; 6].

(** The pool answers a query over the committed rows, or fails. *)
Definition Pool : Type := result (list EngagementRow) string.

Definition select_row `{!PgLimit} (pool : Pool) (org request : Uuid)
  : result (option (list u8 * Z * Uuid)) string :=
  let? rows := pool in
  Ok ((λ r, (er_payload_hash r, er_status r, er_engagement_id r)) <$>
        limit1 (filter (λ r, er_organization_id r = org ∧ er_request_id r = request) rows)).

(** The checker holds no state. *)
Inductive IdempotencyChecker : Set := mkIdempotencyChecker.
Definition checker_new : IdempotencyChecker := mkIdempotencyChecker.
Definition checker_default : IdempotencyChecker := checker_new.

Definition check `{!PgLimit} (pool : Pool) (org request : Uuid) (computed_hash : PayloadHash)
  : result IdempotencyResult string :=
  let? row := select_row pool org request in
  match row with
  | None => Ok New
  | Some (stored_hash_bytes, status, engagement_id) =>
      let matches := bool_decide (stored_hash_bytes = as_bytes computed_hash) in
      if matches then Ok (Replay engagement_id (bool_decide (status ∈ TERMINAL_STATUSES)))
      else Ok Conflict
  end.

End Checker.

(** ** Facts about the canonical map *)

(** The allow-list in key order; absent fields have no entry. *)
Definition canonical_entries (f : StartEngagementFields) : list (string * option Value) :=
  [("batch_id", VString <$> batch_id f); ("channel", Some (VString (channel f)));
   ("contact_id", VString <$> contact_id f); ("contact_kind", Some (VString (contact_kind f)));
   ("contact_phone", VString <$> contact_phone f);
   ("journey_version", Some (VString (journey_version f)));
   ("language", VString <$> language f); ("mode", Some (VString (mode f)));
   ("org_id", Some (VString (org_id f))); ("test_mode", Some (VBool (test_mode f)));
   ("voice_profile_id", VString <$> voice_profile_id f)]%string.

Definition present (es : list (string * option Value)) : BTreeMap :=
  omap (λ e, (λ v, (e.1, v)) <$> e.2) es.

Lemma canonical_map_entries f : canonical_map f = present (canonical_entries f).
Proof. by destruct f as [? ? ? ? ? [] [] [] [] ? []]. Qed.

Lemma present_elem es k v : (k, v) ∈ present es ↔ (k, Some v) ∈ es.
Proof.
  unfold present. rewrite list_elem_of_omap. split.
  - intros ([k' [v'|]] & Hin & ?); by simplify_eq/=.
  - intros Hin. by exists (k, Some v).
Qed.

Lemma present_keys es : map fst (present es) `sublist_of` map fst es.
Proof. unfold present. induction es as [|[k [v|]] es IH]; simpl; by constructor. Qed.

(** The value an object has at a key. *)
Fixpoint json_get (k : string) (m : BTreeMap) : option Value :=
  match m with
  | [] => None
  | (k', v) :: m' => if decide (k = k') then Some v else json_get k m'
  end.

Lemma canonical_map_get f :
  Forall (λ e, json_get e.1 (canonical_map f) = e.2) (canonical_entries f).
Proof.
  rewrite canonical_map_entries. destruct f as [? ? ? ? ? [] [] [] [] ? []];
    repeat (constructor; [reflexivity|]); constructor.
Qed.

Lemma VString_fmap_inj (a b : option string) : VString <$> a = VString <$> b → a = b.
Proof. destruct a, b; intros ?; by simplify_eq/=. Qed.

Lemma canonical_map_inj f f' : canonical_map f = canonical_map f' → f = f'.
Proof.
  intros Heq. pose proof (canonical_map_get f) as H1. rewrite Heq in H1.
  pose proof (canonical_map_get f') as H2.
  assert (Hes : canonical_entries f = canonical_entries f').
  { clear Heq. unfold canonical_entries in *. decompose_Forall_hyps. congruence. }
  destruct f, f'. unfold canonical_entries in Hes; simpl in Hes. simplify_eq.
  f_equal; by apply VString_fmap_inj.
Qed.

(** ** Properties *)

(** A 32-byte vector and only that becomes a hash, and reading the bytes
    back gives the vector; the hex text has two digits per byte and determines
    the hash. *)
Theorem payload_hash_roundtrip (v : list u8) (h h' : PayloadHash) :
  match from_vec v with
  | Some p => length v = 32%nat ∧ as_bytes p = v ∧ payload_hash_wf p
  | None => length v ≠ 32%nat
  end
  ∧ (payload_hash_wf h → from_vec (as_bytes h) = Some h)
  ∧ String.length (to_hex h) = (2 * length (hash_bytes h))%nat
  ∧ (to_hex h = to_hex h' → h = h').
Proof.
  split_and!.
  - unfold from_vec. by case_decide.
  - intros Hwf. unfold from_vec. rewrite decide_True by exact Hwf. by destruct h.
  - apply hex_of_bytes_length.
  - destruct h, h'. unfold to_hex. simpl. by intros ->%(inj hex_of_bytes).
Qed.

(** C10. The canonical JSON object has its keys in strictly increasing byte
    order, has exactly one member per field that is present (an absent optional
    field has none, never [null]), and its text determines all eleven fields:
    two requests have the same canonical JSON exactly when they are equal. *)
Theorem canonical_json_determines `{HashLaws} (f f' : StartEngagementFields) :
  strictly_sorted (λ k k', String.compare k k' = Lt) (map fst (canonical_map f))
  ∧ (∀ k v, (k, v) ∈ canonical_map f ↔ (k, Some v) ∈ canonical_entries f)
  ∧ length (canonical_map f) = length (filter (λ e, is_Some e.2) (canonical_entries f))
  ∧ (canonical_json_start_engagement f = canonical_json_start_engagement f' ↔ f = f').
Proof.
  split_and!.
  - destruct f as [? ? ? ? ? [] [] [] [] ? []]; vm_compute canonical_map; cbn [map fst];
      repeat (apply strictly_sorted_cons; split; [repeat constructor|]); apply strictly_sorted_nil.
  - intros k v. by rewrite canonical_map_entries, present_elem.
  - rewrite canonical_map_entries. by destruct f as [? ? ? ? ? [] [] [] [] ? []].
  - split; [|by intros ->]. intros Heq%json_to_string_inj. by apply canonical_map_inj.
Qed.

(** The hash is a 32-byte value, and two requests with the same hash are
    the same request, unless their (different) canonical texts are a SHA-256
    collision. *)
Theorem canonical_hash_collision `{HashLaws} (f f' : StartEngagementFields) :
  payload_hash_wf (canonical_hash_start_engagement f)
  ∧ (canonical_hash_start_engagement f = canonical_hash_start_engagement f' →
     f = f' ∨ (canonical_json_start_engagement f ≠ canonical_json_start_engagement f'
               ∧ sha256 (canonical_json_start_engagement f)
                 = sha256 (canonical_json_start_engagement f'))).
Proof.
  split; [apply sha256_length|]. intros [= Heq].
  destruct (decide (canonical_json_start_engagement f = canonical_json_start_engagement f'))
    as [Hj|Hj]; [left|by right].
  by apply json_to_string_inj, canonical_map_inj in Hj.
Qed.

Section CheckFacts.
Context `{U : UuidLib} `{!PgLimit, !PgLimitLaws}.

(** With the unique constraint [LIMIT 1] has at most one row to choose. *)
Lemma select_row_unique rows org request row :
  request_unique rows → row ∈ rows →
  er_organization_id row = org → er_request_id row = request →
  select_row (Ok rows) org request
  = Ok (Some (er_payload_hash row, er_status row, er_engagement_id row)).
Proof.
  intros Huniq Hin Horg Hreq. unfold select_row; simpl. do 2 f_equal.
  set (P := λ r, er_organization_id r = org ∧ er_request_id r = request).
  destruct (limit1 _) as [x|] eqn:Hx.
  - apply limit1_elem, list_elem_of_filter in Hx as [[Hxo Hxr] Hxin].
    apply list_elem_of_lookup in Hin as [i Hi]. apply list_elem_of_lookup in Hxin as [j Hj].
    assert (i = j) as -> by (eapply Huniq; [done..|congruence|congruence]).
    by simplify_eq/=.
  - apply limit1_some in Hx. exfalso.
    assert (Hf : row ∈ filter P rows) by (by apply list_elem_of_filter).
    rewrite Hx in Hf. by apply elem_of_nil in Hf.
Qed.

Lemma select_row_none rows org request :
  Forall (λ r, ¬ (er_organization_id r = org ∧ er_request_id r = request)) rows →
  select_row (Ok rows) org request = Ok None.
Proof.
  intros Hnone. unfold select_row; simpl. do 2 f_equal.
  destruct (limit1 _) as [x|] eqn:Hx; [|done].
  apply limit1_elem, list_elem_of_filter in Hx as [Hxk Hxin].
  apply list_elem_of_lookup in Hxin as [i Hi].
  by destruct (Forall_lookup_1 _ _ _ _ Hnone Hi).
Qed.

(** C4. The check after a request was recorded.  A row stored for a key with
    the hash of the request [f] makes a later check of that key with request
    [f'] a replay of that engagement when [f' = f] (terminal exactly for status
    4, 5 or 6), and a conflict when [f' ≠ f], short of a SHA-256 collision; a
    key no row has is new; a failing query is passed on. *)
Theorem check_recorded `{HashLaws} rows row org request org' request' f f' e :
  request_unique rows → row ∈ rows →
  er_organization_id row = org → er_request_id row = request →
  er_payload_hash row = as_bytes (canonical_hash_start_engagement f) →
  Forall (λ r, ¬ (er_organization_id r = org' ∧ er_request_id r = request')) rows →
  (f' = f → check (Ok rows) org request (canonical_hash_start_engagement f')
     = Ok (Replay (er_engagement_id row) (bool_decide (4 ≤ er_status row ≤ 6))))
  ∧ (f' ≠ f → check (Ok rows) org request (canonical_hash_start_engagement f') = Ok Conflict
     ∨ (canonical_json_start_engagement f' ≠ canonical_json_start_engagement f
        ∧ sha256 (canonical_json_start_engagement f')
          = sha256 (canonical_json_start_engagement f)))
  ∧ check (Ok rows) org' request' (canonical_hash_start_engagement f') = Ok New
  ∧ check (Err e) org request (canonical_hash_start_engagement f') = Err e.
Proof.
  intros Huniq Hin Horg Hreq Hhash Hnone. unfold check.
  rewrite (select_row_unique rows org request row), (select_row_none rows org' request') by done.
  simpl. rewrite Hhash. split_and!; [| |done|done].
  - intros ->. rewrite bool_decide_eq_true_2 by done. do 2 f_equal.
    apply bool_decide_ext. unfold TERMINAL_STATUSES.
    rewrite !elem_of_cons, elem_of_nil. lia.
  - intros Hne. case_bool_decide as Hb; [right|by left]. simpl in Hb.
    split; [|done]. intros Hj%json_to_string_inj%canonical_map_inj. done.
Qed.

End CheckFacts.

(** ** The properties' hypotheses at concrete inputs *)
Section Witness.
Local Existing Instance Uuid36.lib.

(** An injective text, and a constant digest. *)
Definition text_lib : HashLib :=
  {| json_to_string m := pretty (N.pos (encode m)); sha256 _ := replicate 32 Byte.x00 |}.
Local Existing Instance text_lib.
Local Instance text_laws : HashLaws.
Proof.
  split; [|done]. simpl. intros m m' Heq%(inj pretty). apply (inj encode). congruence.
Qed.
Local Instance head_limit : PgLimit := head.
Local Instance head_limit_laws : PgLimitLaws.
Proof. split; [intros [|y l] x [= ->]; left | by intros []]. Qed.

Definition sample (lang : option string) : StartEngagementFields :=
  {| org_id := "o"; channel := "1"; mode := "1"; journey_version := "v1"; contact_kind := "1";
     contact_id := Some "c"%string; contact_phone := None; batch_id := None;
     voice_profile_id := None; test_mode := false; language := lang |}.
Definition sample_row : EngagementRow :=
  mkEngagementRow Uuid36.nil_uuid Uuid36.one_uuid Uuid36.two_uuid (replicate 32 Byte.x00) 5.

Lemma canonical_json_determines_witness :
  canonical_json_start_engagement (sample None)
  = canonical_json_start_engagement (sample (Some "en"%string))
  ↔ sample None = sample (Some "en"%string).
Proof.
  exact (proj2 (proj2 (proj2
    (canonical_json_determines (sample None) (sample (Some "en"%string)))))).
Defined.

Lemma canonical_hash_collision_witness :
  HashLaws ∧ payload_hash_wf (canonical_hash_start_engagement (sample None)).
Proof.
  split; [exact text_laws|].
  exact (proj1 (canonical_hash_collision (sample None) (sample (Some "en"%string)))).
Defined.

Lemma payload_hash_roundtrip_witness :
  from_vec (as_bytes (mkPayloadHash (replicate 32 Byte.x00)))
  = Some (mkPayloadHash (replicate 32 Byte.x00)).
Proof.
  apply (payload_hash_roundtrip [] (mkPayloadHash (replicate 32 Byte.x00)) (mkPayloadHash [])).
  reflexivity.
Defined.

Lemma check_recorded_witness :
  check (Ok [sample_row]) Uuid36.one_uuid Uuid36.two_uuid
    (canonical_hash_start_engagement (sample None)) = Ok (Replay Uuid36.nil_uuid true)
  ∧ check (Ok [sample_row]) Uuid36.two_uuid Uuid36.two_uuid
      (canonical_hash_start_engagement (sample None)) = Ok New.
Proof.
  destruct (check_recorded [sample_row] sample_row Uuid36.one_uuid Uuid36.two_uuid
    Uuid36.two_uuid Uuid36.two_uuid (sample None) (sample None) "down"%string)
    as (H1 & _ & H2 & _).
  - intros [|i] [|j] a b Ha Hb; simplify_eq/=; try done; by rewrite ?lookup_nil in *.
  - left.
  - reflexivity.
  - reflexivity.
  - reflexivity.
  - constructor; [|constructor]. intros [Hk _]. discriminate Hk.
  - split; [exact (H1 eq_refl)|exact H2].
Defined.

End Witness.
