(* ===== verification/Sha256.v ===== *)
(** * SHA-256, to run the unit tests with

    FIPS 180-4 over bytes, with words as numbers below [2^32].  It stands for
    [Sha256::digest] of the [sha2] crate in the unit tests of the payload hash;
    nothing else depends on it. *)
From Stdlib Require Import NArith Lia.
From Stdlib Require Import Strings.String Strings.Byte.
From stdpp Require Import base list strings.
From S2P Require Import Prelude Bytes.
Local Open Scope N_scope.

Definition word (n : N) : N := n mod 4294967296.
Definition rotr (k x : N) : N := N.lor (N.shiftr x k) (word (N.shiftl x (32 - k))).

(** The fractional parts of the cube and square roots of the first primes. *)
Definition round_constants : list N :=
  [1116352408; 1899447441; 3049323471; 3921009573; 961987163; 1508970993; 2453635748;
   2870763221; 3624381080; 310598401; 607225278; 1426881987; 1925078388; 2162078206;
   2614888103; 3248222580; 3835390401; 4022224774; 264347078; 604807628; 770255983;
   1249150122; 1555081692; 1996064986; 2554220882; 2821834349; 2952996808; 3210313671;
   3336571891; 3584528711; 113926993; 338241895; 666307205; 773529912; 1294757372;
   1396182291; 1695183700; 1986661051; 2177026350; 2456956037; 2730485921; 2820302411;
   3259730800; 3345764771; 3516065817; 3600352804; 4094571909; 275423344; 430227734;
   506948616; 659060556; 883997877; 958139571; 1322822218; 1537002063; 1747873779;
   1955562222; 2024104815; 2227730452; 2361852424; 2428436474; 2756734187; 3204031479;
   3329325298].
Definition initial_hash : list N :=
  [1779033703; 3144134277; 1013904242; 2773480762; 1359893119; 2600822924; 528734635;
   1541459225].

Definition big_sigma0 (x : N) : N := N.lxor (rotr 2 x) (N.lxor (rotr 13 x) (rotr 22 x)).
Definition big_sigma1 (x : N) : N := N.lxor (rotr 6 x) (N.lxor (rotr 11 x) (rotr 25 x)).
Definition small_sigma0 (x : N) : N := N.lxor (rotr 7 x) (N.lxor (rotr 18 x) (N.shiftr x 3)).
Definition small_sigma1 (x : N) : N := N.lxor (rotr 17 x) (N.lxor (rotr 19 x) (N.shiftr x 10)).
Definition choose (x y z : N) : N := N.lxor (N.land x y) (N.land (N.lxor x 4294967295) z).
Definition majority (x y z : N) : N :=
  N.lxor (N.land x y) (N.lxor (N.land x z) (N.land y z)).

(** ** Padding and words *)

Fixpoint big_endian (n : nat) (x : N) : list u8 :=
  match n with
  | O => []
  | S n' => big_endian n' (x / 256) ++ [default x00 (Byte.of_N (x mod 256))]
  end.

Definition padded (bytes : list u8) : list u8 :=
  let l := length bytes in
  bytes ++ x80 :: replicate ((119 - l mod 64) mod 64)%nat x00
  ++ big_endian 8 (8 * N.of_nat l).

Fixpoint words (fuel : nat) (bytes : list u8) : list N :=
  match fuel, bytes with
  | S fuel', a :: b :: c :: d :: rest =>
      foldl (λ n x, n * 256 + Byte.to_N x) 0 [a; b; c; d] :: words fuel' rest
  | _, _ => []
  end.

(** ** One block *)

(** The schedule, newest word first. *)
Fixpoint extend (n : nat) (ws : list N) : list N :=
  match n with
  | O => ws
  | S n' =>
      let at_ (k : nat) := default 0 (ws !! k) in
      extend n' (word (small_sigma1 (at_ 1%nat) + at_ 6%nat + small_sigma0 (at_ 14%nat) + at_
          15%nat) :: ws)
  end.

Definition round (s : list N) (kw : N * N) : list N :=
  match s with
  | [a; b; c; d; e; f; g; h] =>
      let t1 := h + big_sigma1 e + choose e f g + kw.1 + kw.2 in
      let t2 := big_sigma0 a + majority a b c in
      [word (t1 + t2); a; b; c; word (d + t1); e; f; g]
  | _ => s
  end.

Definition compress (hash block : list N) : list N :=
  let schedule := rev (extend 48 (rev block)) in
  zip_with (λ x y, word (x + y)) hash (foldl round hash (zip round_constants schedule)).

Fixpoint blocks (fuel : nat) (hash ws : list N) : list N :=
  match fuel, ws with
  | S fuel', _ :: _ => blocks fuel' (compress hash (take 16 ws)) (drop 16 ws)
  | _, _ => hash
  end.

Definition sha256_bytes (bytes : list u8) : list u8 :=
  let p := padded bytes in
  mjoin (big_endian 4 <$> blocks (length p) initial_hash (words (length p) p)).
Definition sha256_string (s : string) : list u8 := sha256_bytes (String.list_byte_of_string s).

(** Test vectors of the standard. *)
Lemma sha256_empty : hex_of_bytes (sha256_string "") =
  "e3b0c44298fc1c149afbf4c8996fb92427ae41e4649b934ca495991b7852b855"%string.
Proof. vm_compute. reflexivity. Qed.
Lemma sha256_abc : hex_of_bytes (sha256_string "abc") =
  "ba7816bf8f01cfea414140de5dae2223b00361a396177a9cb410ff61f20015ad"%string.
Proof. vm_compute. reflexivity. Qed.
Lemma sha256_two_blocks :
  hex_of_bytes (sha256_string "abcdbcdecdefdefgefghfghighijhijkijkljklmklmnlmnomnopnopq") =
  "248d6a61d20638b8e5c026930c3e6039a33ce45964ff2167f6ecedd419db06c1"%string.
Proof. vm_compute. reflexivity. Qed.
