(* ===== verification/AuditWriter.v ===== *)
(** * The two-phase audit writer

    Models [crates/engagement-hub/src/audit.rs] over the table
    [engagement_audit] (a map by its primary key).  PostgreSQL is the class
    [PgEnv]: each statement either runs, or fails and may or may not have taken
    effect; [now()] and [Utc::now()] read the environment's clocks.  The
    writer's metrics are two numbers: observations of the insert histogram and
    the failure counter. *)
From Stdlib Require Import ZArith Lia.
From stdpp Require Import base list gmap strings.
From S2P Require Import Prelude Errors Uuids Saga Policies.

(** ** Types *)

Inductive AuditOutcome := Pending | Success | ClientError | ServerError.
Definition outcome_as_i16 (o : AuditOutcome) : Z :=
  match o with Pending => 0 | Success => 1 | ClientError => 2 | ServerError => 3 end.

Inductive PrincipalKind := Unknown | User | ServiceAccount | System.
Definition principal_as_i16 (k : PrincipalKind) : Z :=
  match k with Unknown => 0 | User => 1 | ServiceAccount => 2 | System => 3 end.

(** [sqlx::query(..).execute(..)]: done, or failed with the statement applied
    or not (a connection lost after the commit reports an error too). *)
Inductive stmt_end := StmtOk | StmtFailed (applied : bool) (e : string).

Class PgEnv (W : Type) := {
  pg_execute : W → stmt_end * W;
  (** [now()], the transaction's start. *)
  pg_now : W → Z;
  (** [Utc::now()]. *)
  utc_now : W → Z
}.

Section Audit.
Context `{U : UuidLib} {Json : Type}.

Record AuditId := mkAuditId { audit_uuid : Uuid }.

Definition audit_id_new {W} `{!UuidGen W} (w : W) : AuditId * W :=
  let '(u, w') := new_v4 w in (mkAuditId u, w').
Definition audit_id_as_uuid (i : AuditId) : Uuid := audit_uuid i.
Definition audit_id_into_uuid (i : AuditId) : Uuid := audit_uuid i.
Definition audit_id_default {W} `{!UuidGen W} (w : W) : AuditId * W := audit_id_new w.
Definition audit_id_display (i : AuditId) : string := uuid_to_string (audit_uuid i).

Record AuditRow := mkAuditRow {
  audit_id : AuditId;
  organization_id : option Uuid;
  acting_principal_kind : PrincipalKind;
  acting_principal_id : string;
  acting_user_id : option Uuid;
  acting_via : string;
  rpc_name : string;
  engagement_id : option Uuid;
  request_id : option Uuid;
  request_summary : option Json;
  trace_id : option string
}.

(** A row of [engagement_audit], under its [audit_id]. *)
Record AuditRecord := mkAuditRecord {
  db_occurred_at : Z;
  db_finalized_at : option Z;
  db_organization_id : option Uuid;
  db_acting_principal_kind : Z;
  db_acting_principal_id : string;
  db_acting_user_id : option Uuid;
  db_acting_via : string;
  db_rpc_name : string;
  db_engagement_id : option Uuid;
  db_request_id : option Uuid;
  db_outcome : Z;
  db_error_code : option string;
  db_request_summary : option Json;
  db_trace_id : option string;
  db_archived_at : option Z
}.

Abbreviation AuditTable := (gmap Uuid AuditRecord).

Context {W : Type} `{!PgEnv W} `{!RetryEnv W}.

Record AuditWorld := mkAuditWorld {
  aw_env : W;
  aw_table : AuditTable;
  audit_insert_duration_count : Z;
  audit_insert_failures_total : Z
}.

(** The [VALUES] of the insert: pending, not finalised, not archived. *)
Definition pending_record (row : AuditRow) (now : Z) : AuditRecord :=
  mkAuditRecord now None (organization_id row) (principal_as_i16 (acting_principal_kind row))
    (acting_principal_id row) (acting_user_id row) (acting_via row) (rpc_name row)
    (engagement_id row) (request_id row) 0 None (request_summary row) (trace_id row) None.

(** The insert on the caller's connection: the primary key must be new. *)
Definition run_insert (row : AuditRow) (s : AuditWorld) : result unit string * AuditWorld :=
  let key := audit_uuid (audit_id row) in
  let '(e, w') := pg_execute (aw_env s) in
  let inserted := <[key := pending_record row (pg_now (aw_env s))]> (aw_table s) in
  let keep t := mkAuditWorld w' t (audit_insert_duration_count s) (audit_insert_failures_total s) in
  match aw_table s !! key, e with
  | Some _, StmtFailed _ m => (Err m, keep (aw_table s))
  | Some _, StmtOk => (Err "duplicate key value violates unique constraint"%string,
      keep (aw_table s))
  | None, StmtOk => (Ok tt, keep inserted)
  | None, StmtFailed applied m => (Err m, keep (if applied then inserted else aw_table s))
  end.

Definition observe_insert (s : AuditWorld) : AuditWorld :=
  mkAuditWorld (aw_env s) (aw_table s) (audit_insert_duration_count s + 1)
    (audit_insert_failures_total s).
Definition inc_failures (s : AuditWorld) : AuditWorld :=
  mkAuditWorld (aw_env s) (aw_table s) (audit_insert_duration_count s)
    (audit_insert_failures_total s + 1).

Definition phase1_insert (row : AuditRow) (s : AuditWorld) : result AuditId string * AuditWorld :=
  let '(result, s1) := run_insert row s in
  let s2 := observe_insert s1 in
  match result with
  | Ok _ => (Ok (audit_id row), s2)
  | Err e => (Err e, inc_failures s2)
  end.

(** The columns the update sets; there is no condition on [outcome]. *)
Definition finalize_record (outcome : AuditOutcome) (now : Z) (error_code : option string)
    (r : AuditRecord) : AuditRecord :=
  mkAuditRecord (db_occurred_at r) (Some now) (db_organization_id r)
    (db_acting_principal_kind r) (db_acting_principal_id r) (db_acting_user_id r)
    (db_acting_via r) (db_rpc_name r) (db_engagement_id r) (db_request_id r)
    (outcome_as_i16 outcome) error_code (db_request_summary r) (db_trace_id r)
    (db_archived_at r).

Definition phase2_attempt (id : AuditId) (outcome : AuditOutcome) (error_code : option string)
    (s : AuditWorld) : result unit string * AuditWorld :=
  let now := utc_now (aw_env s) in
  let '(e, w') := pg_execute (aw_env s) in
  let updated := alter (finalize_record outcome now error_code) (audit_uuid id) (aw_table s) in
  let keep t := mkAuditWorld w' t (audit_insert_duration_count s) (audit_insert_failures_total s) in
  match e with
  | StmtOk => (Ok tt, keep updated)
  | StmtFailed applied m => (Err m, keep (if applied then updated else aw_table s))
  end.

Definition MAX_ATTEMPTS : nat := 5.

Definition sleep_world (d : Duration) (s : AuditWorld) : AuditWorld :=
  mkAuditWorld (tokio_sleep d (aw_env s)) (aw_table s) (audit_insert_duration_count s)
    (audit_insert_failures_total s).

(** The loop [for attempt in 1..=MAX_ATTEMPTS] from [attempt] on; [fuel] is the
    number of iterations left.  [delay *= 2] would panic on overflow. *)
Fixpoint phase2_loop (id : AuditId) (outcome : AuditOutcome) (error_code : option string)
    (fuel attempt : nat) (delay : Duration) (s : AuditWorld) : exec unit * AuditWorld :=
  match fuel with
  | O => (Value tt, s)
  | S fuel' =>
      let '(r, s1) := phase2_attempt id outcome error_code s in
      match r with
      | Ok _ => (Value tt, s1)
      | Err e =>
          if (attempt <? MAX_ATTEMPTS)%nat then
            let s2 := sleep_world delay s1 in
            match duration_mul delay 2 with
            | None => (Panicked, s2)
            | Some delay' => phase2_loop id outcome error_code fuel' (S attempt) delay' s2
            end
          else phase2_loop id outcome error_code fuel' (S attempt) delay (inc_failures s1)
      end
  end.

Definition phase2_finalize (id : AuditId) (outcome : AuditOutcome) (error_code : option string)
  : io AuditWorld unit :=
  phase2_loop id outcome error_code MAX_ATTEMPTS 1 (from_millis 50).

(** ** The caller's transaction

    [phase1_insert] runs on the transaction's connection: the caller commits
    the table it sees, which the server may refuse ([committed]), or rolls it
    back. *)
Definition in_transaction {A} (commit : A → bool) (committed : bool)
    (body : AuditWorld → A * AuditWorld) (s : AuditWorld) : A * AuditWorld :=
  let '(a, s1) := body s in
  (a, if commit a && committed then s1
      else mkAuditWorld (aw_env s1) (aw_table s) (audit_insert_duration_count s1)
             (audit_insert_failures_total s1)).

End Audit.

(** ** Facts *)

Section Facts.
Context `{U : UuidLib} {Json W : Type} `{!PgEnv W} `{!RetryEnv W}.
Implicit Types (s : AuditWorld (Json := Json) (W := W)) (r : AuditRecord (Json := Json)).

Definition stmt_applied (e : stmt_end) : bool :=
  match e with StmtOk => true | StmtFailed applied _ => applied end.
Definition stmt_is_ok (e : stmt_end) : bool :=
  match e with StmtOk => true | StmtFailed _ _ => false end.

(** What the database answers to [n] attempts that follow each other with
    doubling delays, and the answers a run that stops at the first success
    gets to see. *)
Fixpoint answers (n : nat) (delay : Duration) (w : W) : list stmt_end :=
  match n with
  | O => []
  | S n' => let '(e, w') := pg_execute w in e :: answers n' (delay * 2) (tokio_sleep delay w')
  end.
Fixpoint seen (l : list stmt_end) : list stmt_end :=
  match l with
  | [] => []
  | e :: l' => if stmt_is_ok e then [e] else e :: seen l'
  end.

(** The row after some applied finalisations: itself, or finalised. *)
Definition finalized (outcome : AuditOutcome) (ec : option string) (applied : bool) r r' : Prop :=
  if applied then ∃ now, r' = finalize_record outcome now ec r else r' = r.

Lemma finalize_twice outcome ec n1 n2 r :
  finalize_record outcome n2 ec (finalize_record outcome n1 ec r) = finalize_record outcome n2 ec r.
Proof. done. Qed.

Lemma finalized_trans o ec b b' r r' r'' :
  finalized o ec b r r' → finalized o ec b' r' r'' → finalized o ec (b || b') r r''.
Proof.
  destruct b, b'; simpl.
  - intros [n1 ->] [n2 ->]. by exists n2.
  - intros [n1 ->] ->. by exists n1.
  - intros -> [n2 ->]. by exists n2.
  - by intros -> ->.
Qed.

(** How the table may change: the named row finalised if [applied], all other
    rows and the set of rows unchanged. *)
Definition row_finalized id outcome ec (applied : bool) (t t' : gmap Uuid AuditRecord) : Prop :=
  ∀ k, match t !! k with
       | None => t' !! k = None
       | Some x => ∃ x', t' !! k = Some x'
           ∧ finalized outcome ec (bool_decide (k = audit_uuid id) && applied) x x'
       end.

Lemma row_finalized_trans id o ec b b' t t' t'' :
  row_finalized id o ec b t t' → row_finalized id o ec b' t' t'' →
  row_finalized id o ec (b || b') t t''.
Proof.
  intros H1 H2 k. specialize (H1 k); specialize (H2 k).
  destruct (t !! k) as [x|]; [|by rewrite H1 in H2].
  destruct H1 as (x' & Hx' & Hf1). rewrite Hx' in H2. destruct H2 as (x'' & Hx'' & Hf2).
  exists x''. split; [done|]. rewrite andb_orb_distrib_r. by eapply finalized_trans.
Qed.

Lemma row_finalized_alter id o ec (b : bool) now (t : gmap Uuid AuditRecord) :
  row_finalized id o ec b t
    (if b then alter (finalize_record o now ec) (audit_uuid id) t else t).
Proof.
  intros k. destruct b; [destruct (decide (k = audit_uuid id)) as [->|Hne]|].
  - rewrite lookup_alter_eq, bool_decide_eq_true_2 by done.
    destruct (t !! _); [|done]. eexists. split; [done|]. by eexists.
  - rewrite lookup_alter_ne, bool_decide_eq_false_2 by done.
    destruct (t !! k); [|done]. by eexists.
  - rewrite andb_false_r. destruct (t !! k); [|done]. by eexists.
Qed.

(** One attempt changes at most the row it names. *)
Lemma phase2_attempt_spec id outcome ec s :
  let '(e, w') := pg_execute (aw_env s) in
  let '(r, s') := phase2_attempt id outcome ec s in
  is_ok r = stmt_is_ok e ∧ aw_env s' = w'
  ∧ audit_insert_failures_total s' = audit_insert_failures_total s
  ∧ row_finalized id outcome ec (stmt_applied e) (aw_table s) (aw_table s').
Proof.
  unfold phase2_attempt. destruct (pg_execute (aw_env s)) as [e w'].
  destruct e as [|applied m]; simpl; split_and!; try done.
  - apply (row_finalized_alter id outcome ec true).
  - apply (row_finalized_alter id outcome ec applied).
Qed.

Lemma phase2_loop_S id outcome ec fuel attempt delay s :
  phase2_loop id outcome ec (S fuel) attempt delay s
  = let '(r, s1) := phase2_attempt id outcome ec s in
    match r with
    | Ok _ => (Value tt, s1)
    | Err _ =>
        if (attempt <? MAX_ATTEMPTS)%nat then
          match duration_mul delay 2 with
          | None => (Panicked, sleep_world delay s1)
          | Some delay' =>
              phase2_loop id outcome ec fuel (S attempt) delay' (sleep_world delay s1)
          end
        else phase2_loop id outcome ec fuel (S attempt) delay (inc_failures s1)
    end.
Proof. done. Qed.

Lemma answers_S n delay w :
  answers (S n) delay w
  = let '(e, w') := pg_execute w in e :: answers n (delay * 2) (tokio_sleep delay w').
Proof. done. Qed.

Lemma phase2_loop_spec id outcome ec fuel attempt delay s :
  (S fuel + attempt = S MAX_ATTEMPTS)%nat →
  0 ≤ delay → delay * 2 ^ Z.of_nat fuel ≤ duration_max →
  let ends := seen (answers (S fuel) delay (aw_env s)) in
  ∃ s', phase2_loop id outcome ec (S fuel) attempt delay s = (Value tt, s')
  ∧ audit_insert_failures_total s' = audit_insert_failures_total s
      + (if existsb stmt_is_ok ends then 0 else 1)
  ∧ row_finalized id outcome ec (existsb stmt_applied ends) (aw_table s) (aw_table s').
Proof.
  revert attempt delay s. induction fuel as [|fuel IH]; intros attempt delay s Hsum Hd Hmax;
    pose proof (phase2_attempt_spec id outcome ec s) as Hat;
    rewrite phase2_loop_S, answers_S;
    destruct (pg_execute (aw_env s)) as [e w'];
    destruct (phase2_attempt id outcome ec s) as [res s1];
    destruct Hat as (Hok & Henv & Hfail & Htab); cbn [seen];
    (destruct res as [[]|m]; simpl in Hok; rewrite <- Hok; cbn [existsb]; rewrite <- Hok;
     [exists s1; rewrite !orb_false_r; split_and!; [done|simpl; lia|done]|]).
  - rewrite (proj2 (Nat.ltb_ge _ _)) by (unfold MAX_ATTEMPTS in *; lia).
    exists (inc_failures s1). rewrite !orb_false_r. split_and!; [done|simpl; lia|done].
  - rewrite (proj2 (Nat.ltb_lt _ _)) by lia.
    rewrite Nat2Z.inj_succ, Z.pow_succ_r in Hmax by lia.
    assert (1 ≤ 2 ^ Z.of_nat fuel) by (apply (Z.pow_le_mono_r 2 0); lia).
    unfold duration_mul. rewrite duration_in_range_Some by nia.
    destruct (IH (S attempt) (delay * 2) (sleep_world delay s1)) as (s' & Hrun & Hf & Ht);
      [lia|lia|lia|].
    exists s'. rewrite Hrun. cbn [aw_env sleep_world] in *. rewrite Henv in *. split_and!;
        [done| |].
    + rewrite Hf. simpl. lia.
    + eapply row_finalized_trans; [exact Htab|exact Ht].
Qed.

(** ** Properties *)


(** C5. Phase 2 always returns.  Let [ends] be the database's answers to up to
    five attempts with delays 50 ms, 100 ms, ... between them, up to the first
    success: the failure counter grows by one exactly when all five failed.  No
    row is added or removed and no other row changes; the named row, if present,
    ends finalised with the given outcome when some attempt took effect, and
    unchanged otherwise. *)
Theorem phase2_finalizes id outcome ec s :
  let ends := seen (answers 5 (from_millis 50) (aw_env s)) in
  ∃ s', phase2_finalize id outcome ec s = (Value tt, s')
  ∧ audit_insert_failures_total s' = audit_insert_failures_total s
      + (if existsb stmt_is_ok ends then 0 else 1)
  ∧ dom (aw_table s') = dom (aw_table s)
  ∧ (∀ k, k ≠ audit_uuid id → aw_table s' !! k = aw_table s !! k)
  ∧ (∀ x, aw_table s !! audit_uuid id = Some x → ∃ x', aw_table s' !! audit_uuid id = Some x'
       ∧ if existsb stmt_applied ends
         then ∃ now, x' = finalize_record outcome now ec x else x' = x).
Proof.
  intros ends. destruct (phase2_loop_spec id outcome ec 4 1 (from_millis 50) s) as
      (s' & Hr & Hf & Ht);
    [done|done|vm_compute; discriminate|].
  exists s'. split_and!; [done|done| | |].
  - apply set_eq. intros k. rewrite !elem_of_dom. specialize (Ht k).
    destruct (aw_table s !! k).
    + destruct Ht as (x' & -> & _). by split.
    + rewrite Ht. by split.
  - intros k Hk. specialize (Ht k). rewrite bool_decide_eq_false_2 in Ht by done.
    destruct (aw_table s !! k); [|done]. destruct Ht as (x' & -> & Hx'). by simpl in Hx'; subst.
  - intros x Hx. specialize (Ht (audit_uuid id)). rewrite Hx, bool_decide_eq_true_2 in Ht by done.
    exact Ht.
Qed.

(** A finalised row is not protected: the update has no condition on the
    outcome, so a second finalisation that succeeds replaces the outcome, time
    and error code of the first; and finalising an id without a row succeeds
    silently, changing nothing. *)
Theorem phase2_overwrites id o1 o2 ec1 ec2 now1 x s w' :
  pg_execute (aw_env s) = (StmtOk, w') →
  let s1 := mkAuditWorld (aw_env s) (<[audit_uuid id := finalize_record o1 now1 ec1 x]>
      (aw_table s))
              (audit_insert_duration_count s) (audit_insert_failures_total s) in
  let s0 := mkAuditWorld (aw_env s) (delete (audit_uuid id) (aw_table s))
              (audit_insert_duration_count s) (audit_insert_failures_total s) in
  aw_table (phase2_finalize id o2 ec2 s1).2 !! audit_uuid id
    = Some (finalize_record o2 (utc_now (aw_env s)) ec2 x)
  ∧ phase2_finalize id o2 ec2 s0
    = (Value tt, mkAuditWorld w' (aw_table s0) (audit_insert_duration_count s)
                   (audit_insert_failures_total s)).
Proof.
  intros Hok s1 s0. unfold phase2_finalize. cbn [phase2_loop MAX_ATTEMPTS]. unfold phase2_attempt.
  simpl. rewrite Hok. simpl. split.
  - by rewrite lookup_alter_eq, lookup_insert_eq.
  - do 2 f_equal. apply map_eq. intros k.
    destruct (decide (k = audit_uuid id)) as [->|Hne].
    + by rewrite lookup_alter_eq, lookup_delete_eq.
    + by rewrite lookup_alter_ne by done.
Qed.

End Facts.

(** The stored codes are distinct and non-negative [i16]s. *)
Lemma audit_codes (o o' : AuditOutcome) (k k' : PrincipalKind) :
  (outcome_as_i16 o = outcome_as_i16 o' → o = o') ∧ 0 ≤ outcome_as_i16 o ≤ 3
  ∧ (principal_as_i16 k = principal_as_i16 k' → k = k') ∧ 0 ≤ principal_as_i16 k ≤ 3.
Proof. by destruct o, o', k, k'. Qed.

(** ** The hypotheses at a concrete input *)
Section Witness.
Local Existing Instance Uuid36.lib.
Local Existing Instance Clock.env.
Local Instance healthy_pg : PgEnv Z :=
  {| pg_execute w := (StmtOk, w + 1); pg_now w := w; utc_now w := w |}.

Definition witness_row : AuditRow (Json := unit) :=
  mkAuditRow (mkAuditId Uuid36.one_uuid) None User "alice" None "grpc" "StartEngagement" None None
    None None.
Definition witness_world : AuditWorld (Json := unit) (W := Z) := mkAuditWorld 7 ∅ 0 0.

Lemma phase2_overwrites_witness :
  aw_table (phase2_finalize (mkAuditId Uuid36.one_uuid) ServerError (Some "E"%string)
    (mkAuditWorld 7 (<[Uuid36.one_uuid :=
        finalize_record Success 3 None (pending_record witness_row 1)]> ∅)
       0 0)).2 !! Uuid36.one_uuid
  = Some (finalize_record ServerError 7 (Some "E"%string) (pending_record witness_row 1)).
Proof.
  exact (proj1 (phase2_overwrites (mkAuditId Uuid36.one_uuid) Success ServerError None
    (Some "E"%string) 3 (pending_record witness_row 1) witness_world 8 eq_refl)).
Defined.

End Witness.
