(* ===== verification/Notify.v ===== *)
(** * LISTEN/NOTIFY fan-out

    Models [crates/engagement-hub/src/notify.rs]: the subscriber registry, the
    gap-fill query and fan-out, the handling of one notification, and the
    manager loop as a state machine driven by what its [select!]s observe.

    [tokio::sync::broadcast] is the class [Broadcast]: a channel, [send], which
    reports whether any receiver is alive, and [len]; [chan_log] observes what
    the channel accepted.  The registry holds senders, i.e. references into a
    store of channels whose receivers belong to the subscribers. *)
From Stdlib Require Import ZArith Lia.
From stdpp Require Import base sets list gmap sorting strings.
From S2P Require Import Prelude Uuids.

Definition CHANNEL_CAP : nat := 256.
Definition HEALTH_INTERVAL : Duration := from_secs 10.
Definition RECONNECT_DELAY : Duration := from_millis 100.

Section Types.
Context `{U : UuidLib}.

Record NotifyPayload := mkNotifyPayload {
  np_engagement_id : Uuid;
  np_organization_id : Uuid;
  np_batch_id : option Uuid;
  np_sequence : Z;
  np_event_pk : Z;
  np_event_type : Z;
  np_traceparent : option string
}.

Class Broadcast := {
  Channel : Type;
  (** [broadcast::channel(cap)], with its first receiver alive. *)
  channel : nat → Channel;
  (** [tx.send(p).is_ok()]. *)
  chan_send : NotifyPayload → Channel → bool * Channel;
  (** [tx.len()]. *)
  chan_len : Channel → nat;
  chan_alive : Channel → bool;
  chan_log : Channel → list NotifyPayload
}.

Class BroadcastLaws `{!Broadcast} : Prop := {
  channel_alive : ∀ n, chan_alive (channel n) = true;
  channel_log : ∀ n, chan_log (channel n) = [];
  send_reports : ∀ p c, (chan_send p c).1 = chan_alive c;
  send_alive : ∀ p c, chan_alive (chan_send p c).2 = chan_alive c;
  send_log : ∀ p c, chan_log (chan_send p c).2
             = if chan_alive c then chan_log c ++ [p] else chan_log c
}.

End Types.

(** ** The subscriber registry *)

Section Registry.
Context `{U : UuidLib} `{!Broadcast}.

(** A [Sender]: the address of its channel. *)
Abbreviation Sender := positive.
Abbreviation Channels := (gmap positive Channel).

Record RegistryInner := mkRegistryInner {
  by_engagement : gmap Uuid (list Sender);
  by_batch : gmap Uuid (list Sender)
}.

Record Registry := mkRegistry { inner : RegistryInner; channels : Channels }.

Definition registry_default : Registry := mkRegistry (mkRegistryInner ∅ ∅) ∅.

(** [map.entry(key).or_default().push(tx)]. *)
Definition push_entry (key : Uuid) (tx : Sender) (m : gmap Uuid (list Sender)) :=
  <[key := default [] (m !! key) ++ [tx]]> m.

Definition new_channel (s : Registry) : Sender * Channels :=
  let tx := fresh (dom (channels s)) in (tx, <[tx := channel CHANNEL_CAP]> (channels s)).

Definition subscribe_engagement (engagement_id : Uuid) (s : Registry) : Sender * Registry :=
  let '(tx, cs) := new_channel s in
  (tx, mkRegistry (mkRegistryInner (push_entry engagement_id tx (by_engagement (inner s)))
                     (by_batch (inner s))) cs).

Definition subscribe_batch (batch_id : Uuid) (s : Registry) : Sender * Registry :=
  let '(tx, cs) := new_channel s in
  (tx, mkRegistry (mkRegistryInner (by_engagement (inner s))
                     (push_entry batch_id tx (by_batch (inner s)))) cs).

(** [tx.send(payload.clone()).is_ok()]. *)
Definition send_to (p : NotifyPayload) (tx : Sender) (cs : Channels) : bool * Channels :=
  match cs !! tx with
  | Some c => let '(ok, c') := chan_send p c in (ok, <[tx := c']> cs)
  | None => (false, cs)
  end.

(** [senders.retain(|tx| tx.send(payload.clone()).is_ok())]. *)
Fixpoint retain_send (p : NotifyPayload) (senders : list Sender) (cs : Channels)
  : list Sender * Channels :=
  match senders with
  | [] => ([], cs)
  | tx :: rest =>
      let '(ok, cs1) := send_to p tx cs in
      let '(kept, cs2) := retain_send p rest cs1 in
      (if ok then tx :: kept else kept, cs2)
  end.

(** One of the two halves of [fanout]. *)
Definition fanout_key (p : NotifyPayload) (key : Uuid) (m : gmap Uuid (list Sender))
    (cs : Channels) : gmap Uuid (list Sender) * Channels :=
  match m !! key with
  | None => (m, cs)
  | Some senders =>
      let '(kept, cs') := retain_send p senders cs in
      (match kept with [] => delete key m | _ => <[key := kept]> m end, cs')
  end.

Definition fanout (p : NotifyPayload) (s : Registry) : Registry :=
  let '(be, cs1) := fanout_key p (np_engagement_id p) (by_engagement (inner s)) (channels s) in
  match np_batch_id p with
  | None => mkRegistry (mkRegistryInner be (by_batch (inner s))) cs1
  | Some batch_id =>
      let '(bb, cs2) := fanout_key p batch_id (by_batch (inner s)) cs1 in
      mkRegistry (mkRegistryInner be bb) cs2
  end.

Definition sender_len (cs : Channels) (tx : Sender) : nat :=
  match cs !! tx with Some c => chan_len c | None => 0%nat end.

(** [map.values().flat_map(|v| v.iter()).map(|tx| tx.len()).sum()]. *)
Definition queued_in (m : gmap Uuid (list Sender)) (cs : Channels) : nat :=
  map_fold (λ _ senders acc, (sum_list (sender_len cs <$> senders) + acc)%nat) 0%nat m.

Definition queued_event_count (s : Registry) : nat :=
  (queued_in (by_engagement (inner s)) (channels s)
   + queued_in (by_batch (inner s)) (channels s))%nat.

(** ** Gap fill *)

(** The columns of [engagement_events] and [engagements] the query reads. *)
Record EventRow := mkEventRow {
  ev_engagement_id : Uuid;
  ev_organization_id : Uuid;
  ev_sequence : Z;
  ev_event_pk : Z;
  ev_event_type : Z;
  ev_traceparent : option string
}.

Record Database := mkDatabase {
  db_events : list EventRow;
  (** [engagements.batch_id] by [engagement_id]. *)
  db_batches : gmap Uuid (option Uuid)
}.

Definition seq_le (a b : EventRow) : Prop := ev_sequence a ≤ ev_sequence b.
#[export] Instance seq_le_dec a b : Decision (seq_le a b).
Proof. unfold seq_le. apply _. Defined.

Definition payload_of_row (batch : option Uuid) (r : EventRow) : NotifyPayload :=
  mkNotifyPayload (ev_engagement_id r) (ev_organization_id r) batch (ev_sequence r)
    (ev_event_pk r) (ev_event_type r) (ev_traceparent r).

(** The query of lines 190-206: the join keeps events of known engagements. *)
Definition gap_rows (db : Database) (engagement_id : Uuid) (last_seen : Z) : list NotifyPayload :=
  match db_batches db !! engagement_id with
  | None => []
  | Some batch =>
      payload_of_row batch <$>
        merge_sort seq_le
          (filter (λ r, ev_engagement_id r = engagement_id ∧ last_seen < ev_sequence r)
             (db_events db))
  end.

Definition fanout_all (ps : list NotifyPayload) (s : Registry) : Registry :=
  foldl (λ s p, fanout p s) s ps.

(** The pool's answer is the database, or a query error. *)
Definition gap_fill_engagement (pool : result Database string) (engagement_id : Uuid)
    (last_seen : Z) (s : Registry) : result unit string * Registry :=
  match pool with
  | Err _ => (Err "gap-fill query failed"%string, s)
  | Ok db => (Ok tt, fanout_all (gap_rows db engagement_id last_seen) s)
  end.

End Registry.

(** ** The manager *)

Section Manager.
Context `{U : UuidLib} `{!Broadcast}.

(** [serde_json::from_str::<NotifyPayload>]. *)
Class PayloadJson := parse_payload : string → result NotifyPayload string.
Context `{!PayloadJson}.

(** The manager with its metrics; [connected_tx] tells whether the one-shot
    sender is still there, [signals] how often it fired. *)
Record ListenNotifyManager := mkManager {
  registry : Registry;
  listen_notify_reconnects_total : Z;
  consumer_lag_events : Z;
  connected_tx : bool;
  signals : nat
}.

Definition manager_new : ListenNotifyManager := mkManager registry_default 0 0 false 0.
Definition with_connected_signal (m : ListenNotifyManager) : ListenNotifyManager :=
  mkManager (registry m) (listen_notify_reconnects_total m) (consumer_lag_events m) true
      (signals m).

Definition set_registry (r : Registry) (m : ListenNotifyManager) : ListenNotifyManager :=
  mkManager r (listen_notify_reconnects_total m) (consumer_lag_events m) (connected_tx m)
      (signals m).
Definition inc_reconnects (m : ListenNotifyManager) : ListenNotifyManager :=
  mkManager (registry m) (listen_notify_reconnects_total m + 1) (consumer_lag_events m)
    (connected_tx m) (signals m).

Definition gap_fill (pool : result Database string) (engagement_id : Uuid) (last_seen : Z)
    (m : ListenNotifyManager) : result unit string * ListenNotifyManager :=
  let '(r, reg) := gap_fill_engagement pool engagement_id last_seen (registry m) in
  (r, set_registry reg m).

Definition handle_notification (payload_str : string) (m : ListenNotifyManager)
  : ListenNotifyManager :=
  if decide (payload_str = ""%string) then m
  else
    match parse_payload payload_str with
    | Ok payload =>
        let reg := fanout payload (registry m) in
        let lag := Z.of_nat (queued_event_count reg) in
        mkManager reg (listen_notify_reconnects_total m) lag (connected_tx m) (signals m)
    | Err _ => m
    end.

Definition manager_subscribe_engagement (engagement_id : Uuid) (m : ListenNotifyManager)
  : positive * ListenNotifyManager :=
  let r := subscribe_engagement engagement_id (registry m) in (r.1, set_registry r.2 m).
Definition manager_subscribe_batch (batch_id : Uuid) (m : ListenNotifyManager)
  : positive * ListenNotifyManager :=
  let r := subscribe_batch batch_id (registry m) in (r.1, set_registry r.2 m).

(** [connect_and_listen]; how the connection and its LISTEN command end is up
    to the server, and eager reconnects are off. *)
Definition connect_and_listen (connected listened : result unit string) : result unit string :=
  match connected with
  | Err _ => Err "failed to open LISTEN connection"%string
  | Ok _ => match listened with Err _ => Err "LISTEN command failed"%string | Ok _ => Ok tt end
  end.

(** [if let Some(tx) = self.connected_tx.take() { let _ = tx.send(()); }]. *)
Definition signal_connected (m : ListenNotifyManager) : ListenNotifyManager :=
  mkManager (registry m) (listen_notify_reconnects_total m) (consumer_lag_events m) false
    (if connected_tx m then S (signals m) else signals m).

(** Where [run] waits: at the head of the outer loop, sleeping after a failed
    connect, in the inner [select!], sleeping after a lost connection, done. *)
Inductive phase := AtTop | Backoff | Listening | Reconnecting | Stopped.

(** What it observes there. *)
Inductive input :=
| LoopHead (shutdown : bool) (connect : result unit string)  (** of [connect_and_listen] *)
| ShutdownChanged
| HealthTick (try_recv : result (option string) string)
| Received (recv : result string string)
| Slept.

(** One step of [run]; [None] when the code does not wait for that input. *)
Definition run_step (i : input) (st : phase * ListenNotifyManager)
  : option (phase * ListenNotifyManager) :=
  let '(ph, m) := st in
  match ph, i with
  | AtTop, LoopHead true _ => Some (Stopped, m)
  | AtTop, LoopHead false (Err _) => Some (Backoff, inc_reconnects m)
  | AtTop, LoopHead false (Ok _) => Some (Listening, signal_connected m)
  | Backoff, Slept => Some (AtTop, m)
  | Backoff, ShutdownChanged => Some (Stopped, m)
  | Listening, ShutdownChanged => Some (Stopped, m)
  | Listening, HealthTick (Ok (Some notif)) => Some (Listening, handle_notification notif m)
  | Listening, HealthTick (Ok None) => Some (Listening, m)
  | Listening, HealthTick (Err _) => Some (Reconnecting, inc_reconnects m)
  | Listening, Received (Ok notif) => Some (Listening, handle_notification notif m)
  | Listening, Received (Err _) => Some (Reconnecting, inc_reconnects m)
  | Reconnecting, Slept => Some (AtTop, m)
  | Reconnecting, ShutdownChanged => Some (Stopped, m)
  | _, _ => None
  end.

(** Runs of the manager, with the inputs they consumed; clients subscribe at any
    point in between. *)
Inductive runs (m0 : ListenNotifyManager) : list input → phase * ListenNotifyManager → Prop :=
| runs_start : runs m0 [] (AtTop, m0)
| runs_step ins st i st' :
    runs m0 ins st → run_step i st = Some st' → runs m0 (ins ++ [i]) st'
| runs_subscribe_engagement ins ph m id :
    runs m0 ins (ph, m) →
    runs m0 ins (ph, (manager_subscribe_engagement id m).2)
| runs_subscribe_batch ins ph m id :
    runs m0 ins (ph, m) →
    runs m0 ins (ph, (manager_subscribe_batch id m).2).

End Manager.

(** ** Registry facts *)

Section Facts.
Context `{U : UuidLib} `{!Broadcast, !BroadcastLaws}.
Implicit Types (m : gmap Uuid (list positive)) (cs : gmap positive Channel) (s : Registry).

Definition listed m (k : Uuid) (tx : positive) : Prop := ∃ l, m !! k = Some l ∧ tx ∈ l.

(** No key has an empty list; a sender occurs once, and has a channel. *)
Record map_wf m cs : Prop := {
  map_wf_nonempty : ∀ k, m !! k ≠ Some [];
  map_wf_nodup : ∀ k l, m !! k = Some l → NoDup l;
  map_wf_channel : ∀ k tx, listed m k tx → is_Some (cs !! tx);
  map_wf_key : ∀ k k' tx, listed m k tx → listed m k' tx → k = k'
}.

Record registry_wf s : Prop := {
  wf_engagement : map_wf (by_engagement (inner s)) (channels s);
  wf_batch : map_wf (by_batch (inner s)) (channels s);
  wf_disjoint : ∀ k k' tx, listed (by_engagement (inner s)) k tx →
    listed (by_batch (inner s)) k' tx → False
}.

Definition alive_in cs (tx : positive) : bool :=
  match cs !! tx with Some c => chan_alive c | None => false end.

Lemma send_to_spec p tx cs :
  (send_to p tx cs).1 = alive_in cs tx
  ∧ ∀ tx', (send_to p tx cs).2 !! tx'
      = if decide (tx' = tx) then (λ c, (chan_send p c).2) <$> cs !! tx' else cs !! tx'.
Proof.
  unfold send_to, alive_in. destruct (cs !! tx) as [c|] eqn:Hc.
  - pose proof (send_reports p c) as Hr. destruct (chan_send p c) as [ok c'] eqn:Hs; simpl in *.
    split; [done|]. intros tx'. case_decide as Hd.
    + subst. by rewrite lookup_insert_eq, Hc; simpl; rewrite Hs.
    + by rewrite lookup_insert_ne.
  - split; [done|]. intros tx'. case_decide as Hd; [|done]. subst. by rewrite Hc.
Qed.

Lemma retain_send_spec p senders cs :
  NoDup senders →
  (retain_send p senders cs).1 = filter (λ tx, alive_in cs tx = true) senders
  ∧ ∀ tx, (retain_send p senders cs).2 !! tx
      = if decide (tx ∈ senders) then (λ c, (chan_send p c).2) <$> cs !! tx else cs !! tx.
Proof.
  revert cs. induction senders as [|t rest IH]; intros cs Hnd.
  { split; [done|]. intros tx. by rewrite decide_False by (apply not_elem_of_nil). }
  apply NoDup_cons in Hnd as [Hnot Hnd]. cbn [retain_send].
  destruct (send_to_spec p t cs) as [Hok Hcs]. destruct (send_to p t cs) as [ok cs1]; simpl in *.
  destruct (IH cs1 Hnd) as [Hkept Hcs2]. destruct (retain_send p rest cs1) as [kept cs2]; simpl in
      *.
  assert (Hfilter : filter (λ tx, alive_in cs1 tx = true) rest
                    = filter (λ tx, alive_in cs tx = true) rest).
  { clear -Hcs Hnot. induction rest as [|t' rest IH]; [done|].
    apply not_elem_of_cons in Hnot as [Hne Hnot].
    assert (Heq : alive_in cs1 t' = alive_in cs t').
    { unfold alive_in. by rewrite Hcs, decide_False by congruence. }
    rewrite !filter_cons, Heq. case_decide; by rewrite IH. }
  split.
  - rewrite Hkept, Hfilter, filter_cons, Hok. by destruct (alive_in cs t).
  - intros tx. rewrite Hcs2, Hcs. destruct (decide (tx = t)) as [->|Hne].
    + rewrite decide_False by done. rewrite decide_True by left. done.
    + destruct (decide (tx ∈ rest)) as [Hin|Hin].
      * by rewrite decide_True by by right.
      * rewrite decide_False; [done|]. by intros [?|?]%elem_of_cons.
Qed.

(** The channels reached through [key], and what one half of [fanout] does. *)
#[export] Instance listed_dec m k tx : Decision (listed m k tx).
Proof.
  destruct (m !! k) as [l|] eqn:Hl.
  - destruct (decide (tx ∈ l)) as [Hin|Hin]; [left; by exists l|].
    right. intros (l' & Hl' & ?). by simplify_eq.
  - right. intros (l' & Hl' & _). by simplify_eq.
Defined.

Lemma fanout_key_spec p key m cs :
  map_wf m cs →
  (∀ tx, (fanout_key p key m cs).2 !! tx
     = if decide (listed m key tx) then (λ c, (chan_send p c).2) <$> cs !! tx else cs !! tx)
  ∧ (∀ k, (fanout_key p key m cs).1 !! k ≠ Some [])
  ∧ (∀ k l', (fanout_key p key m cs).1 !! k = Some l' → NoDup l')
  ∧ (∀ k tx, listed (fanout_key p key m cs).1 k tx ↔
       listed m k tx ∧ (k = key → alive_in cs tx = true)).
Proof.
  intros [Hne Hnd Hch Hk]. unfold fanout_key. destruct (m !! key) as [senders|] eqn:Hm.
  2:{ simpl. split_and!; [|done|done|].
      - intros tx. rewrite decide_False; [done|]. intros (l & Hl & _). by simplify_eq.
      - intros k tx. split; [|by intros [? _]]. intros Hl. split; [done|].
        intros ->. destruct Hl as (l & Hl & _). by simplify_eq. }
  destruct (retain_send_spec p senders cs (Hnd _ _ Hm)) as [Hkept Hcs].
  destruct (retain_send p senders cs) as [kept cs']; simpl in *.
  assert (Hlk : ∀ k, (match kept with [] => delete key m | _ => <[key:=kept]> m end) !! k
    = if decide (k = key) then match kept with [] => None | _ => Some kept end else m !! k).
  { intros k. case_decide as Hd.
    - subst k. destruct kept; [by rewrite lookup_delete_eq|by rewrite lookup_insert_eq].
    - destruct kept; [by rewrite lookup_delete_ne|by rewrite lookup_insert_ne]. }
  split_and!.
  - intros tx. rewrite Hcs.
    assert (Hiff : tx ∈ senders ↔ listed m key tx).
    { split; [intros; by exists senders|]. intros (l & Hl & ?). by simplify_eq. }
    destruct (decide (tx ∈ senders)), (decide (listed m key tx)); tauto.
  - intros k. rewrite Hlk. case_decide; [by destruct kept|apply Hne].
  - intros k l'. rewrite Hlk. case_decide as Hd; [|apply Hnd].
    destruct kept eqn:Hkeq; [done|]. intros [= <-]. rewrite Hkept.
    apply NoDup_filter. by eapply Hnd.
  - intros k tx. unfold listed at 1. setoid_rewrite Hlk. case_decide as Hd.
    + subst k. transitivity (tx ∈ kept).
      { split; [intros (l & Hl & Hin); by destruct kept; simplify_eq|].
        intros Hin. exists kept. destruct kept; [by apply elem_of_nil in Hin|done]. }
      rewrite Hkept, list_elem_of_filter. split.
      * intros [Ha Hin]. split; [by exists senders|done].
      * intros [(l & Hl & Hin) Ha]. simplify_eq. split; [by apply Ha|done].
    + split; [|by intros [? _]]. intros Hl. split; [done|]. by intros ?.
Qed.


(** Sending keeps every channel, and which receivers are alive. *)
Definition same_channels cs cs' : Prop :=
  ∀ tx, is_Some (cs' !! tx) ↔ is_Some (cs !! tx).

Lemma map_wf_fanout_key p key m cs cs' :
  map_wf m cs → same_channels cs cs' → map_wf (fanout_key p key m cs).1 cs'.
Proof.
  intros Hwf Hsame. destruct (fanout_key_spec p key m cs Hwf) as (_ & Hne & Hnd & Hlist).
  destruct Hwf as [_ _ Hch Hk]. split; [done|done| |].
  - intros k tx [Hl _]%Hlist. apply Hsame. by eapply Hch.
  - intros k k' tx [Hl _]%Hlist [Hl' _]%Hlist. by eapply Hk.
Qed.

Lemma map_wf_same m cs cs' : map_wf m cs → same_channels cs cs' → map_wf m cs'.
Proof.
  intros [Hne Hnd Hch Hk] Hsame. split; [done|done| |done].
  intros k tx Hl. apply Hsame. by eapply Hch.
Qed.

Lemma fanout_key_same p key m cs : map_wf m cs → same_channels cs (fanout_key p key m cs).2.
Proof.
  intros Hwf tx. destruct (fanout_key_spec p key m cs Hwf) as (Hcs & _).
  rewrite Hcs. case_decide; [|done]. by rewrite fmap_is_Some.
Qed.

(** The sender is subscribed to the payload's engagement or batch. *)
Definition subscribed s (p : NotifyPayload) (tx : positive) : Prop :=
  listed (by_engagement (inner s)) (np_engagement_id p) tx
  ∨ ∃ b, np_batch_id p = Some b ∧ listed (by_batch (inner s)) b tx.

#[export] Instance subscribed_dec s p tx : Decision (subscribed s p tx).
Proof.
  destruct (decide (listed (by_engagement (inner s)) (np_engagement_id p) tx)) as [H1|H1];
    [by left; left|].
  destruct (np_batch_id p) as [b|] eqn:Hb.
  - destruct (decide (listed (by_batch (inner s)) b tx)) as [H2|H2].
    + left. right. by exists b.
    + right. intros [?|(b' & ? & ?)]; [done|]. by simplify_eq.
  - right. intros [?|(b' & ? & ?)]; [done|]. by simplify_eq.
Defined.

Lemma subscribed_batch s p b tx :
  np_batch_id p = Some b →
  subscribed s p tx ↔ listed (by_engagement (inner s)) (np_engagement_id p) tx
                      ∨ listed (by_batch (inner s)) b tx.
Proof.
  intros Hb. unfold subscribed. rewrite Hb. split.
  - intros [?|(b' & ? & ?)]; [by left|right; by simplify_eq].
  - intros [?|?]; [by left|right; by exists b].
Qed.

Lemma subscribed_no_batch s p tx :
  np_batch_id p = None →
  subscribed s p tx ↔ listed (by_engagement (inner s)) (np_engagement_id p) tx.
Proof.
  intros Hb. unfold subscribed. rewrite Hb. split; [|by left].
  by intros [?|(b' & ? & ?)].
Qed.

(** What [fanout] does to channels and subscriptions. *)
Record fanout_effect (p : NotifyPayload) s s' : Prop := {
  effect_wf : registry_wf s';
  effect_channels : ∀ tx, channels s' !! tx
    = if decide (subscribed s p tx) then (λ c, (chan_send p c).2) <$> channels s !! tx
      else channels s !! tx;
  effect_engagement : ∀ k tx, listed (by_engagement (inner s')) k tx ↔
    listed (by_engagement (inner s)) k tx
    ∧ (k = np_engagement_id p → alive_in (channels s) tx = true);
  effect_batch : ∀ k tx, listed (by_batch (inner s')) k tx ↔
    listed (by_batch (inner s)) k tx
    ∧ (np_batch_id p = Some k → alive_in (channels s) tx = true)
}.

Lemma fanout_spec p s : registry_wf s → fanout_effect p s (fanout p s).
Proof.
  intros [Hwe Hwb Hdis]. unfold fanout.
  destruct (fanout_key_spec p (np_engagement_id p) _ _ Hwe) as (Hcs1 & _ & _ & Hle).
  pose proof (fanout_key_same p (np_engagement_id p) _ _ Hwe) as Hsame1.
  pose proof (λ cs', map_wf_fanout_key p (np_engagement_id p) _ _ cs' Hwe) as Hwfe.
  destruct (fanout_key p (np_engagement_id p) _ _) as [be cs1]; simpl in *.
  destruct (np_batch_id p) as [b|] eqn:Hb.
  - pose proof (map_wf_same _ _ _ Hwb Hsame1) as Hwb1.
    destruct (fanout_key_spec p b _ _ Hwb1) as (Hcs2 & _ & _ & Hlb).
    pose proof (fanout_key_same p b _ _ Hwb1) as Hsame2.
    pose proof (λ cs', map_wf_fanout_key p b _ _ cs' Hwb1) as Hwfb.
    destruct (fanout_key p b _ cs1) as [bb cs2]; simpl in *.
    assert (Halive : ∀ k tx, listed (by_batch (inner s)) k tx →
      alive_in cs1 tx = alive_in (channels s) tx).
    { intros k tx Hk. unfold alive_in. rewrite Hcs1. rewrite decide_False; [done|].
      intros Hl. by eapply Hdis. }
    split; simpl.
    + split; simpl; [apply Hwfe; intros tx; by rewrite (Hsame2 tx), (Hsame1 tx)|by apply Hwfb|].
      intros k k' tx [Hl _]%Hle [Hl' _]%Hlb. by eapply Hdis.
    + intros tx. rewrite Hcs2, Hcs1. pose proof (subscribed_batch s p b tx Hb) as Hsub.
      destruct (decide (listed (by_batch (inner s)) b tx)) as [H2|H2].
      * rewrite decide_False by (intros ?; by eapply Hdis).
        rewrite decide_True; [done|tauto].
      * destruct (decide (listed _ (np_engagement_id p) tx)) as [H1|H1].
        -- rewrite decide_True; [done|tauto].
        -- rewrite decide_False; [done|tauto].
    + done.
    + intros k tx. rewrite Hlb, Hb. split.
      * intros [Hl Ha]. split; [done|]. intros [= ->]. rewrite <- (Halive k) by done. by apply Ha.
      * intros [Hl Ha]. split; [done|]. intros ->. rewrite (Halive b) by done. by apply Ha.
  - split; simpl.
    + split; simpl; [by apply Hwfe|by eapply map_wf_same|].
      intros k k' tx [Hl _]%Hle Hl'. by eapply Hdis.
    + intros tx. rewrite Hcs1. pose proof (subscribed_no_batch s p tx Hb) as Hsub.
      destruct (decide (listed _ (np_engagement_id p) tx)) as [H1|H1].
      * rewrite decide_True; [done|tauto].
      * rewrite decide_False; [done|tauto].
    + done.
    + intros k tx. rewrite Hb. split; [intros; split; [done|by intros ?]|by intros [? _]].
Qed.

(** The messages a live subscriber's channel accepted. *)
Definition log_of s (tx : positive) : list NotifyPayload :=
  match channels s !! tx with Some c => chan_log c | None => [] end.

Lemma alive_after_send p cs cs' tx :
  (cs' !! tx = (λ c, (chan_send p c).2) <$> cs !! tx ∨ cs' !! tx = cs !! tx) →
  alive_in cs' tx = alive_in cs tx.
Proof.
  unfold alive_in. intros [Hc|Hc]; rewrite Hc; [|done]. destruct (cs !! tx) as [c|]; [|done].
  simpl. apply send_alive.
Qed.

Lemma fanout_alive p s s' tx :
  fanout_effect p s s' → alive_in (channels s') tx = alive_in (channels s) tx.
Proof.
  intros [_ Hcs _ _]. apply (alive_after_send p). rewrite Hcs. case_decide; auto.
Qed.

Lemma fanout_log p s s' tx :
  fanout_effect p s s' → alive_in (channels s) tx = true →
  log_of s' tx = log_of s tx ++ (if decide (subscribed s p tx) then [p] else []).
Proof.
  intros [_ Hcs _ _] Halive. unfold log_of, alive_in in *. rewrite Hcs.
  destruct (channels s !! tx) as [c|]; [|done].
  case_decide; simpl; [by rewrite send_log, Halive|by rewrite app_nil_r].
Qed.

(** A live subscription survives a fan-out. *)
Lemma fanout_subscribed p q s s' tx :
  fanout_effect p s s' → alive_in (channels s) tx = true →
  subscribed s' q tx ↔ subscribed s q tx.
Proof.
  intros [_ _ He Hb] Halive. unfold subscribed. rewrite He.
  split; (intros [Hl|(b & Hq & Hl)]; [left|right; exists b; split; [done|]]).
  - by destruct Hl.
  - by apply Hb in Hl as [? _].
  - by split.
  - by apply Hb.
Qed.

Lemma fanout_all_spec ps s tx :
  registry_wf s → alive_in (channels s) tx = true →
  registry_wf (fanout_all ps s)
  ∧ alive_in (channels (fanout_all ps s)) tx = true
  ∧ log_of (fanout_all ps s) tx = log_of s tx ++ filter (λ p, subscribed s p tx) ps.
Proof.
  revert s. induction ps as [|p ps IH]; intros s Hwf Halive.
  { simpl. by rewrite app_nil_r. }
  pose proof (fanout_spec p s Hwf) as Heff. cbn [fanout_all foldl].
  destruct (IH (fanout p s)) as (Hwf' & Ha' & Hlog).
  { by apply (effect_wf p s). }
  { by rewrite (fanout_alive p s). }
  split_and!; [done|done|]. unfold fanout_all in Hlog. rewrite Hlog.
  rewrite (fanout_log p s _ tx Heff Halive), <- (assoc_L (++)). f_equal.
  rewrite filter_cons. rewrite (list_filter_iff _ (λ q, subscribed s q tx))
    by (intros q; by apply (fanout_subscribed p)).
  by case_decide.
Qed.


(** *** Subscribing *)

Lemma listed_push_entry key tx m k tx' :
  listed (push_entry key tx m) k tx' ↔ listed m k tx' ∨ (k = key ∧ tx' = tx).
Proof.
  unfold listed, push_entry. destruct (decide (k = key)) as [->|Hne].
  - rewrite lookup_insert_eq. split.
    + intros (l & [= <-] & [Hin| ->%list_elem_of_singleton]%elem_of_app); [left|by right].
      destruct (m !! key) as [l|]; [by exists l|by apply elem_of_nil in Hin].
    + intros [(l & Hl & Hin)|[_ ->]]; (eexists; split; [done|]); apply elem_of_app.
      * left. by rewrite Hl.
      * right. by apply list_elem_of_singleton.
  - rewrite lookup_insert_ne by done. split; [by left|]. intros [?|[? _]]; done.
Qed.

Lemma map_wf_push_entry key tx m cs c :
  map_wf m cs → cs !! tx = None → map_wf (push_entry key tx m) (<[tx := c]> cs).
Proof.
  intros [Hne Hnd Hch Hk] Hfresh.
  assert (Hnew : ∀ k, ¬ listed m k tx)
    by (intros k Hl; destruct (Hch _ _ Hl) as [? ?]; congruence).
  split.
  - intros k. unfold push_entry. destruct (decide (k = key)) as [->|?].
    + rewrite lookup_insert_eq. intros [= Hnil]. by apply app_nil in Hnil as [_ ?].
    + rewrite lookup_insert_ne by done. apply Hne.
  - intros k l. unfold push_entry. destruct (decide (k = key)) as [->|?].
    + rewrite lookup_insert_eq. intros [= <-]. apply NoDup_app. split_and!.
      * destruct (m !! key) as [l|] eqn:Hl; [by eapply Hnd|apply NoDup_nil_2].
      * intros x Hx ->%list_elem_of_singleton. apply (Hnew key).
        destruct (m !! key) as [l|] eqn:Hl; [by exists l|by apply elem_of_nil in Hx].
      * apply NoDup_singleton.
    + rewrite lookup_insert_ne by done. apply Hnd.
  - intros k tx' [Hl|[_ ->]]%listed_push_entry.
    + destruct (decide (tx' = tx)) as [->|?]; [by rewrite lookup_insert_eq|].
      rewrite lookup_insert_ne by done. by eapply Hch.
    + by rewrite lookup_insert_eq.
  - intros k k' tx' [H1|[-> ->]]%listed_push_entry [H2|[-> Heq]]%listed_push_entry; subst.
    + by eapply Hk.
    + by destruct (Hnew _ H1).
    + by destruct (Hnew _ H2).
    + done.
Qed.

Lemma map_wf_new_channel tx m cs c :
  map_wf m cs → cs !! tx = None → map_wf m (<[tx := c]> cs).
Proof.
  intros [Hne Hnd Hch Hk] Hfresh. split; [done|done| |done].
  intros k tx' Hl. destruct (decide (tx' = tx)) as [->|?]; [by rewrite lookup_insert_eq|].
  rewrite lookup_insert_ne by done. by eapply Hch.
Qed.

(** What a subscription does: the new sender is fresh, its channel empty and
    alive; everything else is as before. *)
Record subscribe_effect (tx : positive) (in_engagements : bool) (key : Uuid) s s' : Prop := {
  sub_wf : registry_wf s';
  sub_fresh : channels s !! tx = None;
  sub_channels : channels s' = <[tx := channel CHANNEL_CAP]> (channels s);
  sub_engagement : ∀ k t, listed (by_engagement (inner s')) k t ↔
    listed (by_engagement (inner s)) k t ∨ (in_engagements = true ∧ k = key ∧ t = tx);
  sub_batch : ∀ k t, listed (by_batch (inner s')) k t ↔
    listed (by_batch (inner s)) k t ∨ (in_engagements = false ∧ k = key ∧ t = tx)
}.

Lemma subscribe_spec (in_engagements : bool) key s :
  registry_wf s →
  let r := if in_engagements then subscribe_engagement key s else subscribe_batch key s in
  subscribe_effect r.1 in_engagements key s r.2.
Proof.
  intros [Hwe Hwb Hdis]. set (tx := fresh (dom (channels s))).
  assert (Hfresh : channels s !! tx = None)
    by (apply not_elem_of_dom; apply is_fresh).
  assert (Hnew : ∀ k, ¬ listed (by_engagement (inner s)) k tx ∧ ¬ listed (by_batch (inner s)) k tx).
  { intros k. split; intros Hl.
    - destruct (map_wf_channel _ _ Hwe _ _ Hl) as [? ?]. congruence.
    - destruct (map_wf_channel _ _ Hwb _ _ Hl) as [? ?]. congruence. }
  destruct in_engagements; simpl; split; simpl; try done.
  - split; simpl; [by apply map_wf_push_entry|by apply map_wf_new_channel|].
    intros k k' t [Hl|[-> ->]]%listed_push_entry Hl'; [by eapply Hdis|].
    by destruct (Hnew k').
  - intros k t. rewrite listed_push_entry. intuition congruence.
  - intros k t. intuition congruence.
  - split; simpl; [by apply map_wf_new_channel|by apply map_wf_push_entry|].
    intros k k' t Hl [Hl'|[-> ->]]%listed_push_entry; [by eapply Hdis|].
    by destruct (Hnew k).
  - intros k t. intuition congruence.
  - intros k t. rewrite listed_push_entry. intuition congruence.
Qed.

(** Another subscription does not disturb an existing one. *)
Lemma subscribe_other tx b key s s' t :
  subscribe_effect tx b key s s' → alive_in (channels s) t = true →
  alive_in (channels s') t = true ∧ log_of s' t = log_of s t
  ∧ ∀ q, subscribed s' q t ↔ subscribed s q t.
Proof.
  intros [_ Hfresh Hcs He Hb] Ha.
  assert (Hne : tx ≠ t) by (intros ->; unfold alive_in in Ha; by rewrite Hfresh in Ha).
  unfold alive_in, log_of in *. rewrite Hcs, lookup_insert_ne by done.
  split_and!; [done|done|]. intros q. unfold subscribed. rewrite He. setoid_rewrite Hb.
  split; (intros [Hl|(bt & Hq & Hl)]; [left|right; exists bt; split; [done|]]);
    intuition congruence.
Qed.

End Facts.

(** ** Gap-fill facts *)

Section Gap.
Context `{U : UuidLib}.

(** [engagement_events_sequence_unique UNIQUE (engagement_id, sequence)]. *)
Definition events_unique (db : Database) : Prop :=
  NoDup ((λ r, (ev_engagement_id r, ev_sequence r)) <$> db_events db).

#[export] Instance seq_le_trans : Transitive seq_le.
Proof. unfold seq_le. intros x y z. lia. Qed.
#[export] Instance seq_le_total : Total seq_le.
Proof. unfold seq_le. intros x y. lia. Qed.

Lemma sorted_strict (l : list EventRow) :
  StronglySorted seq_le l → NoDup (ev_sequence <$> l) →
  strictly_sorted (λ a b, ev_sequence a < ev_sequence b) l.
Proof.
  induction 1 as [|r l Hs IH Hr]; [intros _; apply strictly_sorted_nil|].
  rewrite fmap_cons, NoDup_cons. intros [Hnot Hnd]. apply strictly_sorted_cons.
  split; [|by apply IH]. apply Forall_lookup. intros i r' Hi.
  pose proof (Forall_lookup_1 _ _ _ _ Hr Hi) as Hle. unfold seq_le in Hle.
  assert (ev_sequence r' ≠ ev_sequence r); [|lia]. intros Heq. apply Hnot.
  rewrite <- Heq. apply list_elem_of_fmap_2. by apply list_elem_of_lookup_2 in Hi.
Qed.

Lemma NoDup_fmap_on {A B} (f : A → B) (l : list A) :
  NoDup l → (∀ x y, x ∈ l → y ∈ l → f x = f y → x = y) → NoDup (f <$> l).
Proof.
  induction 1 as [|x l Hx Hnd IH]; intros Hinj; [constructor|].
  rewrite fmap_cons. constructor.
  - intros (y & Hy & Hin)%list_elem_of_fmap. apply Hx.
    rewrite (Hinj x y); [done|by left|by right|done].
  - apply IH. intros y z Hy Hz. apply Hinj; by right.
Qed.

(** The query's rows: the missed events of the engagement, each once, in
    strictly increasing sequence. *)
Lemma gap_rows_spec db eid last batch :
  events_unique db → db_batches db !! eid = Some batch →
  (∀ p, p ∈ gap_rows db eid last ↔ ∃ r, r ∈ db_events db ∧ ev_engagement_id r = eid
     ∧ last < ev_sequence r ∧ p = payload_of_row batch r)
  ∧ strictly_sorted (λ p q, np_sequence p < np_sequence q) (gap_rows db eid last).
Proof.
  intros Huniq Hb. unfold gap_rows. rewrite Hb.
  set (keep := λ r, ev_engagement_id r = eid ∧ last < ev_sequence r).
  set (l := filter keep (db_events db)).
  assert (Hperm : merge_sort seq_le l ≡ₚ l) by apply merge_sort_Permutation.
  split.
  - intros p. rewrite list_elem_of_fmap. split.
    + intros (r & -> & Hr). rewrite Hperm in Hr. unfold l in Hr.
      apply list_elem_of_filter in Hr as [[? ?] ?]. by exists r.
    + intros (r & Hin & He & Hl & ->). exists r. split; [done|]. rewrite Hperm.
      by apply list_elem_of_filter.
  - assert (Hstrict : strictly_sorted (λ a b, ev_sequence a < ev_sequence b) (merge_sort seq_le l)).
    { apply sorted_strict; [apply StronglySorted_merge_sort; apply _|].
      rewrite Hperm. apply NoDup_fmap_on; [apply NoDup_filter; by eapply NoDup_fmap_1|].
      intros x y [[Hx _] Hxin]%list_elem_of_filter [[Hy _] Hyin]%list_elem_of_filter Heq.
      apply list_elem_of_lookup in Hxin as [i Hi]. apply list_elem_of_lookup in Hyin as [j Hj].
      assert (i = j); [|by simplify_eq].
      eapply (NoDup_lookup _ i j (eid, ev_sequence x)); [exact Huniq| |];
        rewrite list_lookup_fmap; [rewrite Hi; simpl; by rewrite Hx|rewrite Hj; simpl;
            by rewrite Hy, Heq]. }
    intros i j p q Hij Hp Hq. rewrite list_lookup_fmap in Hp, Hq.
    destruct (merge_sort seq_le l !! i) as [a|] eqn:Ha, (merge_sort seq_le l !! j) as [b|] eqn:Hb';
      simplify_eq/=. by eapply Hstrict.
Qed.

End Gap.

(** ** Properties *)

Section Properties.
Context `{U : UuidLib} `{!Broadcast, !BroadcastLaws}.
Implicit Types (s : Registry) (tx : positive).

(** C6. Fan-out: a payload is appended, once, to the channel of every live
    subscriber of its engagement or of its batch, and to no other channel; the
    senders without receivers are pruned from the payload's keys, every other
    subscription stays, and the registry stays well formed. *)
Theorem fanout_delivers (p : NotifyPayload) s :
  registry_wf s →
  let s' := fanout p s in
  registry_wf s'
  ∧ (∀ tx, alive_in (channels s') tx = alive_in (channels s) tx)
  ∧ (∀ tx, log_of s' tx = log_of s tx
       ++ (if decide (alive_in (channels s) tx = true ∧ subscribed s p tx) then [p] else []))
  ∧ (∀ tx, subscribed s' p tx ↔ subscribed s p tx ∧ alive_in (channels s) tx = true)
  ∧ ∀ q tx, alive_in (channels s) tx = true → subscribed s' q tx ↔ subscribed s q tx.
Proof.
  intros Hwf s'. pose proof (fanout_spec p s Hwf) as Heff. split_and!.
  - by apply (effect_wf p s).
  - intros tx. by apply (fanout_alive p).
  - intros tx. destruct (alive_in (channels s) tx) eqn:Ha.
    + rewrite (fanout_log p s s' tx Heff Ha). f_equal.
      destruct (decide (subscribed s p tx)); [rewrite decide_True|rewrite decide_False]; tauto.
    + rewrite decide_False by (intros [? _]; done). rewrite app_nil_r.
      unfold log_of. rewrite (effect_channels p s s' Heff). unfold alive_in in Ha.
      case_decide; [|done]. destruct (channels s !! tx) as [c|]; [|done].
      simpl. by rewrite send_log, Ha.
  - intros tx. unfold subscribed. rewrite (effect_engagement p s s' Heff).
    setoid_rewrite (effect_batch p s s' Heff). split.
    + intros [[Hl Ha]|(b & Hb & Hl & Ha)]; (split; [|by apply Ha]); [by left|right; by exists b].
    + intros [[Hl|(b & Hb & Hl)] Ha]; [by left|right; by exists b].
  - intros q tx. by apply (fanout_subscribed p).
Qed.

(** Subscribing, to an engagement or to a batch: the registry stays well
    formed; the new receiver's channel is new, alive and empty, receives the
    payloads of exactly that engagement or batch, and no other live subscriber
    sees a difference. *)
Theorem subscribe_isolated (to_engagement : bool) key s :
  registry_wf s →
  let '(tx, s') := if to_engagement then subscribe_engagement key s else subscribe_batch key s in
  registry_wf s' ∧ channels s !! tx = None
  ∧ alive_in (channels s') tx = true ∧ log_of s' tx = []
  ∧ (∀ p, subscribed s' p tx ↔
       if to_engagement then np_engagement_id p = key else np_batch_id p = Some key)
  ∧ ∀ t, alive_in (channels s) t = true →
      alive_in (channels s') t = true ∧ log_of s' t = log_of s t
      ∧ ∀ p, subscribed s' p t ↔ subscribed s p t.
Proof.
  intros Hwf. pose proof (subscribe_spec to_engagement key s Hwf) as Heff.
  destruct (if to_engagement then _ else _) as [tx s']; simpl in Heff.
  pose proof Heff as [Hwf' Hfresh Hcs He Hb].
  assert (Hnone : ∀ k, ¬ listed (by_engagement (inner s)) k tx
                       ∧ ¬ listed (by_batch (inner s)) k tx).
  { intros k. destruct Hwf as [Hwe Hwb _]. split; intros Hl.
    - destruct (map_wf_channel _ _ Hwe _ _ Hl) as [? ?]. congruence.
    - destruct (map_wf_channel _ _ Hwb _ _ Hl) as [? ?]. congruence. }
  split_and!; [done|done| | | |].
  - unfold alive_in. rewrite Hcs, lookup_insert_eq. apply channel_alive.
  - unfold log_of. rewrite Hcs, lookup_insert_eq. apply channel_log.
  - intros p. unfold subscribed. rewrite He. setoid_rewrite Hb. split.
    + intros [[Hl|(-> & <- & _)]|(b & Hpb & [Hl|(-> & -> & _)])];
        [by destruct (proj1 (Hnone _) Hl)|done|by destruct (proj2 (Hnone _) Hl)|done].
    + destruct to_engagement; [intros; left; right; done|].
      intros Hk. right. exists key. split; [done|]. by right.
  - intros t. by eapply subscribe_other.
Qed.

(** Gap fill: the channel of every live subscriber of the engagement is sent the
    engagement's events with a sequence above the cursor, each once and in
    strictly increasing sequence, and nothing else; a failing query sends
    nothing. *)
Lemma gap_fill_appends db eid last_seen batch s tx e :
  events_unique db → db_batches db !! eid = Some batch →
  registry_wf s → alive_in (channels s) tx = true → listed (by_engagement (inner s)) eid tx →
  let '(r, s') := gap_fill_engagement (Ok db) eid last_seen s in
  r = Ok tt
  ∧ log_of s' tx = log_of s tx ++ gap_rows db eid last_seen
  ∧ (∀ p, p ∈ gap_rows db eid last_seen ↔ ∃ r, r ∈ db_events db ∧ ev_engagement_id r = eid
       ∧ last_seen < ev_sequence r ∧ p = payload_of_row batch r)
  ∧ strictly_sorted (λ p q, np_sequence p < np_sequence q) (gap_rows db eid last_seen)
  ∧ (gap_fill_engagement (Err e) eid last_seen s).2 = s.
Proof.
  intros Huniq Hb Hwf Ha Hl. simpl.
  destruct (gap_rows_spec db eid last_seen batch Huniq Hb) as [Hin Hsorted].
  destruct (fanout_all_spec (gap_rows db eid last_seen) s tx Hwf Ha) as (_ & _ & Hlog).
  split_and!; [done| |done|done|done]. rewrite Hlog. f_equal.
  apply filter_all. intros p Hp.
  assert (Hpe : np_engagement_id p = eid)
    by (apply Hin in Hp as (r & _ & He & _ & ->); exact He).
  left. by rewrite Hpe.
Qed.

Context `{!PayloadJson}.

(** The notifications a run received, and those that parse. *)
Definition notification (i : input) : option string :=
  match i with
  | HealthTick (Ok (Some n)) | Received (Ok n) => Some n
  | _ => None
  end.
Definition parsed (n : string) : option NotifyPayload :=
  if decide (n = ""%string) then None
  else match parse_payload n with Ok p => Some p | Err _ => None end.
Definition connection_lost (i : input) : bool :=
  match i with
  | LoopHead false (Err _) | HealthTick (Err _) | Received (Err _) => true
  | _ => false
  end.

Definition log_invariant (m0 m : ListenNotifyManager) (ins : list input) tx : Prop :=
  registry_wf (registry m) ∧ alive_in (channels (registry m)) tx = true
  ∧ (∀ q, subscribed (registry m) q tx ↔ subscribed (registry m0) q tx)
  ∧ log_of (registry m) tx = log_of (registry m0) tx
      ++ filter (λ p, subscribed (registry m0) p tx) (omap parsed (omap notification ins))
  ∧ listen_notify_reconnects_total m
    = listen_notify_reconnects_total m0 + Z.of_nat (length (filter connection_lost ins)).

Lemma log_invariant_registry m0 m ins i tx m' :
  log_invariant m0 m ins tx → notification i = None →
  registry m' = registry m →
  listen_notify_reconnects_total m'
    = listen_notify_reconnects_total m + (if connection_lost i then 1 else 0) →
  log_invariant m0 m' (ins ++ [i]) tx.
Proof.
  intros (Hwf & Ha & Hs & Hlog & Hr) Hn Hreg Hrec.
  unfold log_invariant. rewrite Hreg, Hrec, Hr, filter_app, length_app, !omap_app, filter_cons.
  simpl. rewrite Hn. simpl. rewrite app_nil_r.
  split_and!; [done|done|done|done|]. destruct (connection_lost i); simpl; lia.
Qed.

Lemma handle_parsed n m :
  handle_notification n m
  = match parsed n with
    | None => m
    | Some p =>
        let reg := fanout p (registry m) in
        mkManager reg (listen_notify_reconnects_total m) (Z.of_nat (queued_event_count reg))
          (connected_tx m) (signals m)
    end.
Proof.
  unfold handle_notification, parsed. case_decide; [done|]. by destruct (parse_payload n).
Qed.

Lemma log_invariant_notification m0 m ins i tx n :
  log_invariant m0 m ins tx → notification i = Some n → connection_lost i = false →
  log_invariant m0 (handle_notification n m) (ins ++ [i]) tx.
Proof.
  intros (Hwf & Ha & Hs & Hlog & Hr) Hn Hc.
  unfold log_invariant. rewrite filter_app, length_app, !omap_app, filter_cons. simpl.
  rewrite Hn, Hc. simpl. rewrite filter_app, handle_parsed.
  destruct (parsed n) as [p|]; simpl.
  2:{ rewrite !app_nil_r. split_and!; [done..|lia]. }
  pose proof (fanout_spec p (registry m) Hwf) as Heff.
  simpl. split_and!; [by apply (effect_wf p _ _ Heff)|by rewrite (fanout_alive p _ _ tx Heff)| |
      |lia].
  - intros q. rewrite (fanout_subscribed p q _ _ tx Heff Ha). apply Hs.
  - rewrite (fanout_log p _ _ tx Heff Ha), Hlog, <- (assoc_L (++)). f_equal. f_equal.
    rewrite filter_cons. specialize (Hs p).
    destruct (decide (subscribed (registry m0) p tx));
      [rewrite decide_True by tauto|rewrite decide_False by tauto]; done.
Qed.

Lemma log_invariant_set_registry m0 m ins tx (to_engagement : bool) key :
  log_invariant m0 m ins tx →
  log_invariant m0
    (set_registry (if to_engagement then subscribe_engagement key (registry m)
                   else subscribe_batch key (registry m)).2 m) ins tx.
Proof.
  intros (Hwf & Ha & Hs & Hlog & Hr).
  pose proof (subscribe_spec to_engagement key (registry m) Hwf) as Heff.
  destruct (subscribe_other _ _ _ _ _ tx Heff Ha) as (Ha' & Hl' & Hs').
  unfold log_invariant; simpl. split_and!; [by apply (sub_wf _ _ _ _ _ Heff)|done| | |done].
  - intros q. by rewrite Hs', Hs.
  - by rewrite Hl'.
Qed.

(** The manager loop, with clients subscribing in between: the channel of a live
    subscriber is sent exactly the payloads of the non-empty, well-formed
    notifications the connection handed over, those for its engagement or batch,
    in their order; the reconnect counter counts the failed connects and lost
    connections. *)
Lemma run_log_invariant m0 ins st tx :
  registry_wf (registry m0) → alive_in (channels (registry m0)) tx = true →
  runs m0 ins st → log_invariant m0 st.2 ins tx.
Proof.
  intros Hwf Ha Hruns.
  induction Hruns as [|ins st i st' Hruns IH Hstep|ins ph m id Hruns IH|ins ph m id Hruns IH].
  - unfold log_invariant; simpl. rewrite app_nil_r. split_and!; [done..|lia].
  - destruct st as [ph m], st' as [ph' m']; simpl in *.
    destruct ph, i as [[] [] | | [[n|]|] | [n|] |]; simplify_eq/=;
      first [ by apply log_invariant_notification
            | eapply log_invariant_registry; [exact IH|done|done|simpl; lia] ].
  - by apply (log_invariant_set_registry m0 m ins tx true).
  - by apply (log_invariant_set_registry m0 m ins tx false).
Qed.

(** The registry changes by notifications only. *)
Lemma run_step_registry i ph m ph' m' :
  run_step i (ph, m) = Some (ph', m') →
  match notification i with
  | Some n => ph' = Listening ∧ m' = handle_notification n m
  | None => registry m' = registry m
  end.
Proof.
  intros Hstep. by destruct ph, i as [[] [] | | [[n|]|] | [n|] |]; simplify_eq/=.
Qed.

Definition connected (i : input) : bool :=
  match i with LoopHead false (Ok _) => true | _ => false end.

Lemma step_signals i st st' :
  run_step i st = Some st' →
  signals st'.2 = (signals st.2 + (if connected_tx st.2 && connected i then 1 else 0))%nat
  ∧ connected_tx st'.2 = connected_tx st.2 && negb (connected i).
Proof.
  destruct st as [ph m], st' as [ph' m']; intros Hstep; simpl in Hstep.
  destruct ph, i as [[] [] | | [[n|]|] | [n|] |]; simplify_eq/=; rewrite ?handle_parsed;
    try destruct (parsed n); simpl; rewrite ?andb_false_r, ?andb_true_r;
    repeat match goal with |- context [connected_tx ?x] => destruct (connected_tx x) end;
    split; done || lia.
Qed.

Lemma run_signals m0 ins st :
  runs m0 ins st →
  signals st.2 = (signals m0 + (if connected_tx m0 && existsb connected ins then 1 else 0))%nat
  ∧ connected_tx st.2 = connected_tx m0 && negb (existsb connected ins).
Proof.
  induction 1 as [|ins st i st' Hruns [IHs IHc] Hstep|ins ph m id Hruns IH|ins ph m id Hruns IH];
    [|destruct (step_signals _ _ _ Hstep) as [Hs Hc]|exact IH|exact IH].
  - simpl. rewrite andb_false_r, andb_true_r. split; [lia|done].
  - rewrite Hs, Hc, IHs, IHc, existsb_app. simpl.
    destruct (connected_tx m0), (existsb connected ins), (connected i); simpl; split; done || lia.
Qed.

(** The loop's states: the one-shot signal fires at most once, exactly when
    the first connection is established; a stopped manager takes no step, a
    shutdown stops it from every waiting state, and after a failed connect or a
    lost connection one sleep and one successful connect bring it back to
    listening. *)
Theorem run_lifecycle m0 ins ph m :
  runs m0 ins (ph, m) →
  signals m = (signals m0 + (if connected_tx m0 && existsb connected ins then 1 else 0))%nat
  ∧ connected_tx m = connected_tx m0 && negb (existsb connected ins)
  ∧ (∀ i, run_step i (Stopped, m) = None)
  ∧ (ph ≠ Stopped → ∃ i, run_step i (ph, m) = Some (Stopped, m))
  ∧ (ph = Backoff ∨ ph = Reconnecting → ∃ m',
      run_step Slept (ph, m) = Some (AtTop, m)
      ∧ run_step (LoopHead false (Ok tt)) (AtTop, m) = Some (Listening, m')
      ∧ registry m' = registry m).
Proof.
  intros Hruns. destruct (run_signals m0 ins (ph, m) Hruns) as [Hs Hc].
  split_and!; [done|done| | |].
  - by intros [].
  - intros Hph. destruct ph; [exists (LoopHead true (Ok tt))|exists ShutdownChanged..|]; done.
  - intros [->| ->]; by eexists.
Qed.

End Properties.

(** ** A concrete channel, and the hypotheses at concrete inputs *)
Section Witness.
Local Existing Instance Uuid36.lib.

Definition wit_one : Uuid := Uuid36.one_uuid.
Definition wit_two : Uuid := Uuid36.two_uuid.

(** Capacity, whether a receiver is alive, accepted messages, unread ones. *)
Record Ring := mkRing {
  ring_cap : nat; ring_alive : bool; ring_log : list NotifyPayload; ring_unread : nat }.

Local Instance ring_broadcast : Broadcast := {|
  Channel := Ring;
  channel n := mkRing n true [] 0;
  chan_send p c :=
    if ring_alive c
    then (true, mkRing (ring_cap c) true (ring_log c ++ [p])
                  (Nat.min (S (ring_unread c)) (ring_cap c)))
    else (false, c);
  chan_len := ring_unread;
  chan_alive := ring_alive;
  chan_log := ring_log
|}.
Local Instance ring_laws : BroadcastLaws.
Proof. split; [done|done|..]; intros p [cap [] log n]; reflexivity. Qed.
Local Instance no_json : PayloadJson := λ _, Err "no payload"%string.

Lemma default_wf : registry_wf registry_default.
Proof.
  assert (Hmap : map_wf (∅ : gmap Uuid (list positive)) (∅ : gmap positive Channel)).
  { split; [done|done| |]; intros k; [intros tx (l & Hl & _)|intros k' tx (l & Hl & _)]; done. }
  split; [done|done|]. by intros k k' tx (l & Hl & _).
Qed.

Definition one_subscriber : Registry := (subscribe_engagement wit_one registry_default).2.
Definition first_sender : positive := (subscribe_engagement wit_one registry_default).1.
Definition witness_payload (n : Z) : NotifyPayload :=
  mkNotifyPayload wit_one wit_two None n n 2 None.
Definition witness_events : list EventRow :=
  [mkEventRow wit_one wit_two 3 30 2 None;
   mkEventRow wit_one wit_two 2 20 2 None;
   mkEventRow wit_one wit_two 1 10 2 None].

Lemma one_subscriber_wf : registry_wf one_subscriber.
Proof. apply (sub_wf _ _ _ _ _ (subscribe_spec true wit_one _ default_wf)). Qed.
Lemma one_subscriber_alive : alive_in (channels one_subscriber) first_sender = true.
Proof.
  unfold alive_in, one_subscriber, first_sender.
  rewrite (sub_channels _ _ _ _ _ (subscribe_spec true wit_one _ default_wf)).
  by rewrite lookup_insert_eq.
Qed.
Lemma one_subscriber_listed :
  listed (by_engagement (inner one_subscriber)) wit_one first_sender.
Proof.
  apply (sub_engagement _ _ _ _ _ (subscribe_spec true wit_one _ default_wf)).
  by right.
Qed.

Lemma subscribe_isolated_witness :
  registry_wf registry_default
  ∧ (let '(tx, s') := subscribe_engagement wit_one registry_default in
     registry_wf s' ∧ log_of s' tx = []).
Proof.
  split; [exact default_wf|].
  destruct (subscribe_isolated true wit_one registry_default default_wf)
    as (H1 & _ & _ & H2 & _).
  split; [exact H1|exact H2].
Defined.

Lemma fanout_delivers_witness :
  registry_wf one_subscriber
  ∧ log_of (fanout (witness_payload 7) one_subscriber) first_sender
    = log_of one_subscriber first_sender
      ++ (if decide (alive_in (channels one_subscriber) first_sender = true
                     ∧ subscribed one_subscriber (witness_payload 7) first_sender)
          then [witness_payload 7] else []).
Proof.
  split; [exact one_subscriber_wf|].
  exact (proj1 (proj2 (proj2 (fanout_delivers (witness_payload 7) one_subscriber
    one_subscriber_wf))) first_sender).
Defined.

Definition witness_manager : ListenNotifyManager := mkManager one_subscriber 0 0 true 0.

Lemma witness_run : runs witness_manager [LoopHead false (Ok tt); Received (Ok ""%string)]
  (Listening, signal_connected witness_manager).
Proof.
  apply (runs_step _ [LoopHead false (Ok tt)] (Listening, signal_connected witness_manager));
    [|reflexivity].
  apply (runs_step _ [] (AtTop, witness_manager)); [apply runs_start|reflexivity].
Qed.

Lemma run_lifecycle_witness :
  signals (signal_connected witness_manager) = 1%nat.
Proof. exact (proj1 (run_lifecycle witness_manager _ _ _ witness_run)). Defined.

End Witness.
