(* ===== verification/NotifySpec.v ===== *)
(** * What the LISTEN/NOTIFY fan-out promises

    An abstract specification of [crates/engagement-hub/src/notify.rs] as its
    users see it, and the proof that the code refines it.  The specification
    has no sender lists, no maps by key and no pruning: a table of
    subscriptions, each with its topic, the payloads published to it and how
    many its receiver has consumed.  [trace] runs the code's operations,
    [spec_trace] the specification's; the refinement says that no sequence of
    operations tells them apart. *)
From Stdlib Require Import ZArith Lia.
From stdpp Require Import base sets list gmap sorting strings.
From S2P Require Import Prelude Uuids Notify.

(** ** The receiver's end of a channel *)

Section Receiver.
Context `{U : UuidLib} `{!Broadcast}.

Inductive RecvResult :=
| RecvPayload (p : NotifyPayload) | RecvLagged (n : nat) | RecvEmpty | RecvClosed.

(** [rx.try_recv()] and [drop(rx)] of [tokio::sync::broadcast]; [chan_read]
    counts the payloads the receiver has consumed or skipped. *)
Class Receiver := {
  chan_try_recv : Channel → RecvResult * Channel;
  chan_drop : Channel → Channel;
  chan_read : Channel → nat;
  chan_capacity : Channel → nat
}.

(** The documented behaviour: a receiver that is more than the capacity behind
    is told how many payloads it lost and goes on with the oldest one kept;
    [len] counts what the slowest receiver has not seen, none without one. *)
Class ReceiverLaws `{!Receiver} : Prop := {
  channel_capacity : chan_capacity (channel CHANNEL_CAP) = CHANNEL_CAP;
  channel_read : ∀ n, chan_read (channel n) = 0%nat;
  send_capacity : ∀ p c, chan_capacity (chan_send p c).2 = chan_capacity c;
  send_read : ∀ p c, chan_read (chan_send p c).2 = chan_read c;
  drop_alive : ∀ c, chan_alive (chan_drop c) = false;
  drop_log : ∀ c, chan_log (chan_drop c) = chan_log c;
  drop_capacity : ∀ c, chan_capacity (chan_drop c) = chan_capacity c;
  drop_read : ∀ c, chan_read (chan_drop c) = chan_read c;
  recv_alive : ∀ c, chan_alive (chan_try_recv c).2 = chan_alive c;
  recv_log : ∀ c, chan_log (chan_try_recv c).2 = chan_log c;
  recv_capacity : ∀ c, chan_capacity (chan_try_recv c).2 = chan_capacity c;
  recv_result : ∀ c, chan_alive c = true →
    let unread := (length (chan_log c) - chan_read c)%nat in
    ((chan_try_recv c).1, chan_read (chan_try_recv c).2)
    = if decide (chan_capacity c < unread)%nat
      then (RecvLagged (unread - chan_capacity c), (length (chan_log c) - chan_capacity c)%nat)
      else match chan_log c !! chan_read c with
           | Some p => (RecvPayload p, S (chan_read c))
           | None => (RecvEmpty, chan_read c)
           end;
  len_unread : ∀ c, chan_len c
    = if chan_alive c
      then Nat.min (length (chan_log c) - chan_read c) (chan_capacity c) else 0%nat
}.

End Receiver.

(** ** The operations of the code, with what their callers observe *)

Section Trace.
Context `{U : UuidLib} `{!Broadcast, !Receiver, !PayloadJson}.

Inductive Topic := TopicEngagement (id : Uuid) | TopicBatch (id : Uuid).

Inductive op :=
| OpSubscribe (t : Topic)
| OpInput (i : input)
| OpGapFill (pool : result Database string) (engagement_id : Uuid) (last_seen : Z)
| OpTryRecv (tx : positive)
| OpDrop (tx : positive).

(** A subscription is named by its channel; after an input of the loop the two
    metrics can be read. *)
Inductive obs :=
| ObsSubscribed (tx : positive)
| ObsMetrics (reconnects lag : Z)
| ObsGapFill (r : result unit string)
| ObsRecv (r : RecvResult)
| ObsDropped.

Definition set_channels (cs : gmap positive Channel) (m : ListenNotifyManager) :=
  set_registry (mkRegistry (inner (registry m)) cs) m.

Definition subscribe (t : Topic) (s : Registry) : positive * Registry :=
  match t with
  | TopicEngagement id => subscribe_engagement id s
  | TopicBatch id => subscribe_batch id s
  end.

(** [run] owns the manager: when it returns, the senders are gone.  A receiver
    still reads what is left, and then sees a closed channel. *)
Definition recv_answer (ph : phase) (r : RecvResult) : RecvResult :=
  match ph, r with Stopped, RecvEmpty => RecvClosed | _, _ => r end.
Definition stopped (ph : phase) : bool := match ph with Stopped => true | _ => false end.

(** [None]: the manager or the receiver is gone, or the loop does not wait for
    that input. *)
Definition op_step (o : op) (st : phase * ListenNotifyManager)
  : option (obs * (phase * ListenNotifyManager)) :=
  let '(ph, m) := st in
  match o with
  | OpSubscribe t =>
      if stopped ph then None
      else let '(tx, reg) := subscribe t (registry m) in
           Some (ObsSubscribed tx, (ph, set_registry reg m))
  | OpInput i =>
      match run_step i st with
      | None => None
      | Some (ph', m') =>
          Some (ObsMetrics (listen_notify_reconnects_total m') (consumer_lag_events m'), (ph', m'))
      end
  | OpGapFill pool id last =>
      if stopped ph then None
      else let '(r, m') := gap_fill pool id last m in Some (ObsGapFill r, (ph, m'))
  | OpTryRecv tx =>
      match channels (registry m) !! tx with
      | Some c =>
          if chan_alive c
          then let '(r, c') := chan_try_recv c in
               Some (ObsRecv (recv_answer ph r),
                   (ph, set_channels (<[tx := c']> (channels (registry m))) m))
          else None
      | None => None
      end
  | OpDrop tx =>
      match channels (registry m) !! tx with
      | Some c =>
          if chan_alive c
          then Some (ObsDropped,
                     (ph, set_channels (<[tx := chan_drop c]> (channels (registry m))) m))
          else None
      | None => None
      end
  end.

(** The observations of a sequence of operations; it stops at one that is not
    possible. *)
Fixpoint trace (ops : list op) (st : phase * ListenNotifyManager) : list obs :=
  match ops with
  | [] => []
  | o :: rest =>
      match op_step o st with
      | None => []
      | Some (ob, st') => ob :: trace rest st'
      end
  end.

(** ** The specification *)

Record Subscription := mkSubscription {
  sub_topic : Topic;
  sub_live : bool;
  sub_log : list NotifyPayload;
  sub_read : nat
}.

Record Spec := mkSpec {
  spec_phase : phase;
  spec_subs : gmap positive Subscription;
  spec_reconnects : Z;
  spec_lag : Z
}.

Definition spec_new : Spec := mkSpec AtTop ∅ 0 0.

Definition wants (t : Topic) (p : NotifyPayload) : bool :=
  match t with
  | TopicEngagement id => bool_decide (np_engagement_id p = id)
  | TopicBatch id => bool_decide (np_batch_id p = Some id)
  end.

(** Publishing appends to the live subscriptions that want the payload. *)
Definition deliver (p : NotifyPayload) (s : Subscription) : Subscription :=
  if sub_live s && wants (sub_topic s) p
  then mkSubscription (sub_topic s) true (sub_log s ++ [p]) (sub_read s) else s.
Definition publish (p : NotifyPayload) (subs : gmap positive Subscription) := deliver p <$> subs.

(** At most a channel's capacity of unread payloads is kept. *)
Definition unread (s : Subscription) : nat :=
  if sub_live s then Nat.min (length (sub_log s) - sub_read s) CHANNEL_CAP else 0%nat.
Definition total_unread (subs : gmap positive Subscription) : nat :=
  map_fold (λ _ s acc, (unread s + acc)%nat) 0%nat subs.

Definition consume (s : Subscription) : RecvResult * Subscription :=
  let missed := (length (sub_log s) - sub_read s)%nat in
  let '(r, n) :=
    if decide (CHANNEL_CAP < missed)%nat
    then (RecvLagged (missed - CHANNEL_CAP), (length (sub_log s) - CHANNEL_CAP)%nat)
    else match sub_log s !! sub_read s with
         | Some p => (RecvPayload p, S (sub_read s))
         | None => (RecvEmpty, sub_read s)
         end in
  (r, mkSubscription (sub_topic s) (sub_live s) (sub_log s) n).

(** The loop as its users see it: which inputs it takes in which phase, that a
    notification is published and sets the gauge, and which inputs count as a
    reconnect. *)
Definition spec_phase_step (i : input) (ph : phase) : option phase :=
  match ph, i with
  | AtTop, LoopHead true _ => Some Stopped
  | AtTop, LoopHead false r => Some (match r with Ok _ => Listening | Err _ => Backoff end)
  | Backoff, Slept | Reconnecting, Slept => Some AtTop
  | (Backoff | Listening | Reconnecting), ShutdownChanged => Some Stopped
  | Listening, (HealthTick (Ok _) | Received (Ok _)) => Some Listening
  | Listening, (HealthTick (Err _) | Received (Err _)) => Some Reconnecting
  | _, _ => None
  end.

Definition spec_input (i : input) (a : Spec) : option Spec :=
  match spec_phase_step i (spec_phase a) with
  | None => None
  | Some ph =>
      let n := spec_reconnects a + (if connection_lost i then 1 else 0) in
      match notification i ≫= parsed with
      | None => Some (mkSpec ph (spec_subs a) n (spec_lag a))
      | Some p =>
          let subs := publish p (spec_subs a) in
          Some (mkSpec ph subs n (Z.of_nat (total_unread subs)))
      end
  end.

Definition set_subs (subs : gmap positive Subscription) (a : Spec) : Spec :=
  mkSpec (spec_phase a) subs (spec_reconnects a) (spec_lag a).

Definition spec_step (o : op) (a : Spec) : option (obs * Spec) :=
  match o with
  | OpSubscribe t =>
      if stopped (spec_phase a) then None
      else let tx := fresh (dom (spec_subs a)) in
           Some (ObsSubscribed tx,
                 set_subs (<[tx := mkSubscription t true [] 0]> (spec_subs a)) a)
  | OpInput i =>
      a' ← spec_input i a; Some (ObsMetrics (spec_reconnects a') (spec_lag a'), a')
  | OpGapFill pool id last =>
      if stopped (spec_phase a) then None
      else match pool with
           | Err _ => Some (ObsGapFill (Err "gap-fill query failed"%string), a)
           | Ok db =>
               Some (ObsGapFill (Ok tt),
                     set_subs (foldl (λ subs p, publish p subs) (spec_subs a)
                                 (gap_rows db id last)) a)
           end
  | OpTryRecv tx =>
      match spec_subs a !! tx with
      | Some s =>
          if sub_live s
          then let '(r, s') := consume s in
               Some (ObsRecv (recv_answer (spec_phase a) r),
                   set_subs (<[tx := s']> (spec_subs a)) a)
          else None
      | None => None
      end
  | OpDrop tx =>
      match spec_subs a !! tx with
      | Some s =>
          if sub_live s
          then Some (ObsDropped,
                     set_subs (<[tx := mkSubscription (sub_topic s) false (sub_log s)
                                         (sub_read s)]> (spec_subs a)) a)
          else None
      | None => None
      end
  end.

Fixpoint spec_trace (ops : list op) (a : Spec) : list obs :=
  match ops with
  | [] => []
  | o :: rest =>
      match spec_step o a with
      | None => []
      | Some (ob, a') => ob :: spec_trace rest a'
      end
  end.

End Trace.

(** ** The simulation *)

Section Simulation.
Context `{U : UuidLib} `{!Broadcast, !BroadcastLaws, !Receiver, !ReceiverLaws, !PayloadJson}.
Implicit Types (s : Registry) (subs : gmap positive Subscription).

Definition listed_at s (t : Topic) (tx : positive) : Prop :=
  match t with
  | TopicEngagement id => listed (by_engagement (inner s)) id tx
  | TopicBatch id => listed (by_batch (inner s)) id tx
  end.

Record channel_matches (c : Channel) (a : Subscription) : Prop := {
  matches_live : chan_alive c = sub_live a;
  matches_log : chan_log c = sub_log a;
  matches_read : chan_read c = sub_read a;
  matches_capacity : chan_capacity c = CHANNEL_CAP
}.

(** The registry against the table: same channels; a live subscription is in
    the sender list of its topic; whatever is in a list, pruned or not yet, is a
    subscription to that topic. *)
Record registry_refines s subs : Prop := {
  refines_wf : registry_wf s;
  refines_channel : ∀ tx, option_relation channel_matches (λ _, False) (λ _, False)
    (channels s !! tx) (subs !! tx);
  refines_live : ∀ tx a, subs !! tx = Some a → sub_live a = true →
    listed_at s (sub_topic a) tx;
  refines_listed : ∀ t tx, listed_at s t tx → ∃ a, subs !! tx = Some a ∧ sub_topic a = t
}.

Lemma refines_dom s subs : registry_refines s subs → dom (channels s) = dom subs.
Proof.
  intros [_ Hc _ _]. apply set_eq. intros tx. rewrite !elem_of_dom. specialize (Hc tx).
  destruct (channels s !! tx), (subs !! tx); simpl in Hc; try done.
Qed.

Lemma refines_lookup s subs tx a :
  registry_refines s subs → subs !! tx = Some a →
  ∃ c, channels s !! tx = Some c ∧ channel_matches c a.
Proof.
  intros [_ Hc _ _] Ha. specialize (Hc tx). rewrite Ha in Hc.
  destruct (channels s !! tx) as [c|]; [by exists c|done].
Qed.

Lemma refines_none s subs tx :
  registry_refines s subs → subs !! tx = None → channels s !! tx = None.
Proof.
  intros [_ Hc _ _] Ha. specialize (Hc tx). rewrite Ha in Hc. by destruct (channels s !! tx).
Qed.

(** A subscription's entry may change as its channel does. *)
Lemma refines_update s subs tx a a' c' :
  registry_refines s subs → subs !! tx = Some a →
  channel_matches c' a' → sub_topic a' = sub_topic a → (sub_live a' = true → sub_live a = true) →
  registry_refines (mkRegistry (inner s) (<[tx := c']> (channels s))) (<[tx := a']> subs).
Proof.
  intros Hr Ha Hm Ht Hl. destruct (refines_lookup _ _ _ _ Hr Ha) as (c & Hc & _).
  destruct Hr as [[Hwe Hwb Hdis] Hch Hlive Hlisted].
  assert (Hsame : same_channels (channels s) (<[tx := c']> (channels s))).
  { intros t. destruct (decide (t = tx)) as [->|?];
      [rewrite lookup_insert_eq, Hc; split; by eexists|by rewrite lookup_insert_ne]. }
  split.
  - split; simpl; [by eapply map_wf_same|by eapply map_wf_same|exact Hdis].
  - intros t. simpl. destruct (decide (t = tx)) as [->|?];
      [by rewrite !lookup_insert_eq|rewrite !lookup_insert_ne by done; apply Hch].
  - intros t b. destruct (decide (t = tx)) as [->|?].
    + rewrite lookup_insert_eq. intros [= <-] Hb. rewrite Ht. apply (Hlive _ _ Ha). auto.
    + rewrite lookup_insert_ne by done. apply Hlive.
  - intros u t Hu. destruct (Hlisted u t Hu) as (b & Hb & Hub).
    destruct (decide (t = tx)) as [->|?]; [|exists b; by rewrite lookup_insert_ne].
    exists a'. rewrite lookup_insert_eq. split; [done|]. congruence.
Qed.

Lemma refines_subscribe s subs t :
  registry_refines s subs →
  (subscribe t s).1 = fresh (dom subs)
  ∧ registry_refines (subscribe t s).2
      (<[fresh (dom subs) := mkSubscription t true [] 0]> subs).
Proof.
  intros Hr. pose proof (refines_dom _ _ Hr) as Hdom.
  set (e := match t with TopicEngagement _ => true | TopicBatch _ => false end).
  set (key := match t with TopicEngagement id | TopicBatch id => id end).
  assert (Heff : subscribe_effect (subscribe t s).1 e key s (subscribe t s).2).
  { pose proof (subscribe_spec e key s (refines_wf _ _ Hr)) as Hspec. by destruct t. }
  assert (Htx : (subscribe t s).1 = fresh (dom subs)) by (rewrite <- Hdom; by destruct t).
  split; [exact Htx|]. rewrite <- Htx. clear Htx Hdom.
  revert Heff. generalize (subscribe t s) as r. intros [tx s'] [Hwf Hfresh Hcs He Hb]; simpl in *.
  destruct Hr as [_ Hch Hlive Hlisted].
  assert (Hnew : subs !! tx = None)
    by (specialize (Hch tx); rewrite Hfresh in Hch; by destruct (subs !! tx)).
  assert (Hat : ∀ u x, listed_at s' u x ↔ listed_at s u x ∨ (u = t ∧ x = tx)).
  { intros u x. destruct u, t; simpl; rewrite ?He, ?Hb; subst e key; simpl;
      intuition congruence. }
  split; [done| | |].
  - intros x. rewrite Hcs. destruct (decide (x = tx)) as [->|?];
      [|rewrite !lookup_insert_ne by done; apply Hch].
    rewrite !lookup_insert_eq. simpl. split; simpl;
      [apply channel_alive|apply channel_log|apply channel_read|apply channel_capacity].
  - intros x a. destruct (decide (x = tx)) as [->|?].
    + rewrite lookup_insert_eq. intros [= <-] _. apply Hat. by right.
    + rewrite lookup_insert_ne by done. intros. apply Hat. left. by apply Hlive.
  - intros u x [Hu|[-> ->]]%Hat; [|eexists; by rewrite lookup_insert_eq].
    destruct (Hlisted u x Hu) as (a & Ha & Hau). exists a.
    by rewrite lookup_insert_ne by congruence.
Qed.

(** The senders of a payload, in terms of topics. *)
Lemma subscribed_topic s p tx :
  subscribed s p tx ↔ ∃ t, wants t p = true ∧ listed_at s t tx.
Proof.
  unfold subscribed. split.
  - intros [Hl|(b & Hb & Hl)]; [exists (TopicEngagement (np_engagement_id p))|exists
      (TopicBatch b)];
      (split; [simpl; by apply bool_decide_eq_true|exact Hl]).
  - intros ([id|id] & Hw & Hl); simpl in Hw; apply bool_decide_eq_true in Hw; subst;
      [by left|right; by exists id].
Qed.

Lemma deliver_topic p a : sub_topic (deliver p a) = sub_topic a.
Proof. unfold deliver. by destruct (_ && _). Qed.
Lemma deliver_live p a : sub_live (deliver p a) = sub_live a.
Proof. unfold deliver. destruct (sub_live a) eqn:Ha; [by destruct (wants _ _)|done]. Qed.

Lemma send_matches p c a :
  channel_matches c a → channel_matches (chan_send p c).2
    (if sub_live a then mkSubscription (sub_topic a) true (sub_log a ++ [p]) (sub_read a) else a).
Proof.
  intros [Ha Hl Hr Hc]. split; rewrite ?send_alive, ?send_log, ?send_read, ?send_capacity, ?Ha;
    destruct (sub_live a) eqn:Hs; simpl; congruence.
Qed.

(** Eager delivery in the table against the code's lazily pruned lists. *)
Lemma refines_fanout p s subs :
  registry_refines s subs → registry_refines (fanout p s) (publish p subs).
Proof.
  intros Hr. pose proof (fanout_spec p s (refines_wf _ _ Hr)) as [Hwf Hcs He Hb].
  assert (Hat : ∀ t tx, listed_at (fanout p s) t tx ↔
    listed_at s t tx ∧ (wants t p = true → alive_in (channels s) tx = true)).
  { intros [id|id] tx; unfold listed_at, wants; rewrite ?He, ?Hb, bool_decide_eq_true;
      (split; intros [Hl Ha]; (split; [exact Hl|]); intros Hw; apply Ha; congruence). }
  split; [done| | |].
  - intros tx. unfold publish. rewrite Hcs, lookup_fmap.
    destruct (subs !! tx) as [a|] eqn:Ha.
    2:{ rewrite (refines_none _ _ _ Hr Ha). by case_decide. }
    destruct (refines_lookup _ _ _ _ Hr Ha) as (c & Hc & Hm). rewrite Hc.
    case_decide as Hsub; simpl.
    + apply subscribed_topic in Hsub as (t & Hw & Ht).
      destruct (refines_listed _ _ Hr _ _ Ht) as (a' & Ha' & <-). simplify_eq.
      pose proof (send_matches p c a Hm) as Hsm. unfold deliver. rewrite Hw, andb_true_r.
      by destruct (sub_live a).
    + unfold deliver. destruct (sub_live a) eqn:Hlive; [|done].
      destruct (wants (sub_topic a) p) eqn:Hw; [|done]. destruct Hsub.
      apply subscribed_topic. exists (sub_topic a). split; [done|]. by apply (refines_live _ _ Hr).
  - intros tx a'. unfold publish. rewrite lookup_fmap. intros (a & Ha & ->)%fmap_Some.
    rewrite deliver_topic, deliver_live. intros Hl. apply Hat.
    split; [by apply (refines_live _ _ Hr)|]. intros _.
    destruct (refines_lookup _ _ _ _ Hr Ha) as (c & Hc & Hm). unfold alive_in.
    by rewrite Hc, (matches_live _ _ Hm).
  - intros t tx [Ht _]%Hat. destruct (refines_listed _ _ Hr _ _ Ht) as (a & Ha & <-).
    exists (deliver p a). unfold publish. by rewrite lookup_fmap, Ha, deliver_topic.
Qed.

Lemma refines_fanout_all ps s subs :
  registry_refines s subs →
  registry_refines (fanout_all ps s) (foldl (λ x p, publish p x) subs ps).
Proof.
  revert s subs. induction ps as [|p ps IH]; intros s subs Hr; [done|].
  apply IH. by apply refines_fanout.
Qed.

(** *** The lag gauge *)

Definition senders_of (m : gmap Uuid (list positive)) : list positive :=
  concat ((map_to_list m).*2).

Lemma queued_in_senders m cs :
  queued_in m cs = sum_list (sender_len cs <$> senders_of m).
Proof.
  unfold queued_in, senders_of. rewrite map_fold_foldr.
  induction (map_to_list m) as [|[k l] rest IH]; [done|]. simpl.
  rewrite fmap_app, sum_list_app. by rewrite IH.
Qed.

Lemma elem_of_senders m tx : tx ∈ senders_of m ↔ ∃ k, listed m k tx.
Proof.
  unfold senders_of. rewrite list_elem_of_In, in_concat. setoid_rewrite <- list_elem_of_In.
  setoid_rewrite list_elem_of_fmap. split.
  - intros (l & ([k l'] & -> & Hin) & Htx). exists k, l'. split;
      [by apply elem_of_map_to_list|done].
  - intros (k & l & Hl & Htx). exists l. split; [|done]. exists (k, l). split; [done|].
    by apply elem_of_map_to_list.
Qed.

Lemma NoDup_senders m cs : map_wf m cs → NoDup (senders_of m).
Proof.
  intros [_ Hnd _ Hk]. unfold senders_of. pose proof (NoDup_fst_map_to_list m) as Hfst.
  assert (Hin : ∀ k l, (k, l) ∈ map_to_list m → m !! k = Some l)
    by (intros; by apply elem_of_map_to_list).
  induction (map_to_list m) as [|[k l] rest IH]; simpl; [constructor|].
  apply NoDup_cons in Hfst as [Hnot Hfst]. apply NoDup_app. split_and!.
  - apply (Hnd k). apply Hin. by left.
  - intros tx Htx Hrest. apply list_elem_of_In, in_concat in Hrest as (l' & Hl' & Htx').
    apply list_elem_of_In in Hl', Htx'. apply list_elem_of_fmap in Hl' as ([k' l''] & -> & Hr).
    apply Hnot. rewrite (Hk k k' tx); [|exists l; split; [apply Hin; by left|done]
      |exists l''; split; [apply Hin; by right|done]].
    by apply (list_elem_of_fmap_2 fst _ (k', l'')).
  - apply IH; [done|]. intros k' l' Hr. apply Hin. by right.
Qed.

Definition unread_at subs (tx : positive) : nat :=
  match subs !! tx with Some a => unread a | None => 0%nat end.

Lemma total_unread_elements subs :
  total_unread subs = sum_list (unread_at subs <$> (map_to_list subs).*1).
Proof.
  unfold total_unread. rewrite map_fold_foldr.
  assert (Hin : ∀ k a, (k, a) ∈ map_to_list subs → subs !! k = Some a)
    by (intros; by apply elem_of_map_to_list).
  induction (map_to_list subs) as [|[k a] rest IH]; [done|]. simpl. rewrite IH.
  - unfold unread_at at 2. by rewrite (Hin k a) by by left.
  - intros k' a' Hr. apply Hin. by right.
Qed.

Lemma refines_lag s subs :
  registry_refines s subs → queued_event_count s = total_unread subs.
Proof.
  intros Hr. pose proof (refines_wf _ _ Hr) as [Hwe Hwb Hdis].
  unfold queued_event_count. rewrite !queued_in_senders, <- sum_list_app, <- fmap_app.
  rewrite total_unread_elements.
  transitivity (sum_list (unread_at subs <$>
    (senders_of (by_engagement (inner s)) ++ senders_of (by_batch (inner s))))).
  { f_equal. apply list_fmap_ext. intros i tx Hi. apply list_elem_of_lookup_2 in Hi.
    assert (Ht : ∃ t, listed_at s t tx).
    { apply elem_of_app in Hi as [[k Hk]%elem_of_senders|[k Hk]%elem_of_senders];
        [by exists (TopicEngagement k)|by exists (TopicBatch k)]. }
    destruct Ht as (t & Ht). destruct (refines_listed _ _ Hr _ _ Ht) as (a & Ha & _).
    destruct (refines_lookup _ _ _ _ Hr Ha) as (c & Hc & [Hl Hlog Hrd Hcap]).
    unfold sender_len, unread_at, unread. by rewrite Hc, Ha, len_unread, Hl, Hlog, Hrd, Hcap. }
  apply sum_list_sublist.
  - apply NoDup_app. split_and!; [by eapply NoDup_senders| |by eapply NoDup_senders].
    intros tx [k Hk]%elem_of_senders [k' Hk']%elem_of_senders. by eapply Hdis.
  - apply NoDup_fst_map_to_list.
  - intros tx Hi.
    assert (Ht : ∃ t, listed_at s t tx).
    { apply elem_of_app in Hi as [[k Hk]%elem_of_senders|[k Hk]%elem_of_senders];
        [by exists (TopicEngagement k)|by exists (TopicBatch k)]. }
    destruct Ht as (t & Ht). destruct (refines_listed _ _ Hr _ _ Ht) as (a & Ha & _).
    apply (list_elem_of_fmap_2 fst _ (tx, a)). by apply elem_of_map_to_list.
  - intros tx _ Hnot. unfold unread_at. destruct (subs !! tx) as [a|] eqn:Ha; [|done].
    unfold unread. destruct (sub_live a) eqn:Hl; [|done]. destruct Hnot.
    pose proof (refines_live _ _ Hr _ _ Ha Hl) as Ht. apply elem_of_app.
    destruct (sub_topic a) as [k|k]; [left|right]; apply elem_of_senders; by exists k.
Qed.

(** *** One operation *)

Record refines (st : phase * ListenNotifyManager) (a : Spec) : Prop := {
  refines_phase : st.1 = spec_phase a;
  refines_registry : registry_refines (registry st.2) (spec_subs a);
  refines_reconnects : listen_notify_reconnects_total st.2 = spec_reconnects a;
  refines_gauge : consumer_lag_events st.2 = spec_lag a
}.

Definition step_refines (x : option (obs * (phase * ListenNotifyManager)))
    (y : option (obs * Spec)) : Prop :=
  option_relation (λ a b, a.1 = b.1 ∧ refines a.2 b.2) (λ _, False) (λ _, False) x y.

Lemma refines_registry_only ph m a s subs :
  refines (ph, m) a → registry_refines s subs → refines (ph, set_registry s m) (set_subs subs a).
Proof. intros [Hp _ Hr Hg] Hs. by split. Qed.

Lemma refines_try_recv ph m a tx :
  refines (ph, m) a → step_refines (op_step (OpTryRecv tx) (ph, m)) (spec_step (OpTryRecv tx) a).
Proof.
  intros Hr. pose proof (refines_registry _ _ Hr) as Hreg. simpl in *.
  destruct (spec_subs a !! tx) as [b|] eqn:Hb.
  2:{ by rewrite (refines_none _ _ _ Hreg Hb). }
  destruct (refines_lookup _ _ _ _ Hreg Hb) as (c & Hc & [Hl Hlog Hrd Hcap]). rewrite Hc, Hl.
  destruct (sub_live b) eqn:Hlive; [|done].
  pose proof (recv_result c Hl) as Hres. simpl in Hres. rewrite Hlog, Hrd, Hcap in Hres.
  pose proof (recv_alive c) as Ha'. pose proof (recv_log c) as Hl'.
  pose proof (recv_capacity c) as Hc'.
  unfold consume. destruct (chan_try_recv c) as [r c']; simpl in *. rewrite <- Hres. simpl.
  split; [f_equal; f_equal; apply (refines_phase _ _ Hr)|]. apply refines_registry_only; [done|].
  apply refines_update with b; [done|done| |done|by simpl; rewrite Hlive].
  split; simpl; congruence.
Qed.

Lemma refines_drop ph m a tx :
  refines (ph, m) a → step_refines (op_step (OpDrop tx) (ph, m)) (spec_step (OpDrop tx) a).
Proof.
  intros Hr. pose proof (refines_registry _ _ Hr) as Hreg. simpl in *.
  destruct (spec_subs a !! tx) as [b|] eqn:Hb.
  2:{ by rewrite (refines_none _ _ _ Hreg Hb). }
  destruct (refines_lookup _ _ _ _ Hreg Hb) as (c & Hc & [Hl Hlog Hrd Hcap]). rewrite Hc, Hl.
  destruct (sub_live b) eqn:Hlive; [|done]. simpl. split; [done|].
  apply refines_registry_only; [done|].
  apply refines_update with b; [done|done| |done|done].
  split; simpl; rewrite ?drop_alive, ?drop_log, ?drop_read, ?drop_capacity; congruence.
Qed.

Lemma refines_notification n ph ph' m a :
  refines (ph, m) a →
  refines (ph', handle_notification n m)
    match parsed n with
    | None => mkSpec ph' (spec_subs a) (spec_reconnects a) (spec_lag a)
    | Some p => let subs := publish p (spec_subs a) in
                mkSpec ph' subs (spec_reconnects a) (Z.of_nat (total_unread subs))
    end.
Proof.
  intros [_ Hr Hn Hg]; simpl in *. rewrite handle_parsed.
  destruct (parsed n) as [p|]; [|by split].
  pose proof (refines_fanout p _ _ Hr) as Hf.
  split; simpl; [done|exact Hf|done|]. f_equal. by apply refines_lag.
Qed.

End Simulation.

Section Refinement.
Context `{U : UuidLib} `{!Broadcast, !BroadcastLaws, !Receiver, !ReceiverLaws, !PayloadJson}.

Lemma refines_input ph m a i :
  refines (ph, m) a → step_refines (op_step (OpInput i) (ph, m)) (spec_step (OpInput i) a).
Proof.
  intros Hr. pose proof (refines_phase _ _ Hr) as Hp. cbn [fst] in Hp.
  assert (Hinc : ∀ ph', refines (ph', m) (mkSpec ph' (spec_subs a) (spec_reconnects a) (spec_lag a))
    ∧ refines (ph', inc_reconnects m)
        (mkSpec ph' (spec_subs a) (spec_reconnects a + 1) (spec_lag a))
    ∧ refines (ph', signal_connected m)
        (mkSpec ph' (spec_subs a) (spec_reconnects a) (spec_lag a))).
  { intros ph'. destruct Hr as [_ Hreg Hn Hg]; simpl in *.
    split_and!; (split; simpl; [done|exact Hreg|congruence|done]). }
  assert (Hnotif : ∀ n, step_refines
    (let m' := handle_notification n m in
     Some (ObsMetrics (listen_notify_reconnects_total m') (consumer_lag_events m'),
           (Listening, m')))
    (let a' := match parsed n with
       | None => mkSpec Listening (spec_subs a) (spec_reconnects a) (spec_lag a)
       | Some p => let subs := publish p (spec_subs a) in
                   mkSpec Listening subs (spec_reconnects a) (Z.of_nat (total_unread subs))
       end in
     Some (ObsMetrics (spec_reconnects a') (spec_lag a'), a'))).
  { intros n. pose proof (refines_notification n ph Listening m a Hr) as Hn. simpl.
    split; [|exact Hn]. destruct Hn as [_ _ Hrc Hl]; simpl in *. by rewrite Hrc, Hl. }
  unfold op_step, spec_step, spec_input. rewrite <- Hp.
  destruct ph, i as [[] [] | | [[n|]|] | [n|] |]; simpl; try done;
    rewrite ?Z.add_0_r;
    lazymatch goal with
    | |- context [handle_notification ?n m] => specialize (Hnotif n)
    | |- context [refines (?ph', _)] =>
        destruct (Hinc ph') as (Hk1 & Hk2 & Hk3); destruct Hr as [_ _ Hrc Hl]; simpl in *
    | _ => idtac
    end.
  all: try (split; [by rewrite ?Hrc, ?Hl|assumption]).
  all: destruct (parsed n); simpl in *; rewrite ?Z.add_0_r; exact Hnotif.
Qed.

Lemma refines_step o st a : refines st a → step_refines (op_step o st) (spec_step o a).
Proof.
  destruct st as [ph m]. intros Hr. pose proof (refines_registry _ _ Hr) as Hreg. simpl in Hreg.
  pose proof (refines_phase _ _ Hr) as Hph. cbn [fst] in Hph.
  destruct o as [t|i|[db|e] id last|tx|tx].
  - cbn [op_step spec_step]. rewrite <- Hph. destruct (stopped ph); [done|].
      destruct (refines_subscribe (registry m) (spec_subs a) t Hreg) as [Htx Hs].
    simpl. destruct (subscribe t (registry m)) as [tx s]; simpl in *.
    split; [by rewrite Htx|]. by apply refines_registry_only.
  - by apply refines_input.
  - cbn [op_step spec_step]. rewrite <- Hph. destruct (stopped ph); [done|]. simpl. split; [done|].
    apply refines_registry_only; [done|]. by apply refines_fanout_all.
  - cbn [op_step spec_step]. rewrite <- Hph. destruct (stopped ph); [done|]. simpl. split;
      [done|]. destruct Hr as [Hp _ Hn Hg]. by split.
  - by apply refines_try_recv.
  - by apply refines_drop.
Qed.

Lemma trace_refines ops st a : refines st a → trace ops st = spec_trace ops a.
Proof.
  revert st a. induction ops as [|o ops IH]; intros st a Hr; [done|]. simpl.
  pose proof (refines_step o st a Hr) as Hstep. unfold step_refines in Hstep.
  destruct (op_step o st) as [[ob st']|], (spec_step o a) as [[ob' a']|]; simpl in Hstep; try done.
  destruct Hstep as [-> Hr']. f_equal. by apply IH.
Qed.

Lemma default_registry_wf : registry_wf registry_default.
Proof.
  split; simpl; [split..|]; intros k; try (intros ? (l & Hl & _)); try intros ? ? (l & Hl & _);
    try intros ?; by rewrite ?lookup_empty in *.
Qed.

Lemma refines_new : refines (AtTop, manager_new) spec_new.
Proof.
  split; try done. split.
  - apply default_registry_wf.
  - intros tx. simpl. by rewrite !lookup_empty.
  - intros tx a. simpl. by rewrite lookup_empty.
  - intros [id|id] tx (l & Hl & _); simpl in Hl; by rewrite lookup_empty in Hl.
Qed.

(** C7. The fan-out service refines its specification: for every sequence of
    operations (subscribing to an engagement or a batch, the inputs of the
    manager loop, gap fills, receivers polling and being dropped, in any order)
    the code's observations - subscription names, what each receiver gets,
    lags included, the reconnect counter and the lag gauge, gap-fill results -
    are those of a table of subscriptions with one log each.  In particular
    the lists by key and the pruning of dead senders only when a payload
    happens to reach them are unobservable, also in the gauge. *)
Theorem manager_refines_spec ops :
  trace ops (AtTop, manager_new) = spec_trace ops spec_new.
Proof. apply trace_refines, refines_new. Qed.

End Refinement.

(** ** A concrete channel *)
Module QueueChannel.
Section Channel.
Context `{U : UuidLib}.

Record Queue := mkQueue {
  queue_cap : nat; queue_alive : bool; queue_log : list NotifyPayload; queue_read : nat }.

#[export] Instance queue_broadcast : Broadcast := {|
  Channel := Queue;
  channel n := mkQueue n true [] 0;
  chan_send p c :=
    (queue_alive c,
     if queue_alive c then mkQueue (queue_cap c) true (queue_log c ++ [p]) (queue_read c) else c);
  chan_len c :=
    if queue_alive c then Nat.min (length (queue_log c) - queue_read c) (queue_cap c) else 0%nat;
  chan_alive := queue_alive;
  chan_log := queue_log
|}.
#[export] Instance queue_laws : BroadcastLaws.
Proof. split; [done|done|..]; intros p [cap [] log n]; reflexivity. Qed.

#[export] Instance queue_receiver : Receiver := {|
  chan_try_recv c :=
    let missed := (length (queue_log c) - queue_read c)%nat in
    let set n := mkQueue (queue_cap c) (queue_alive c) (queue_log c) n in
    if decide (queue_cap c < missed)%nat
    then (RecvLagged (missed - queue_cap c), set (length (queue_log c) - queue_cap c)%nat)
    else match queue_log c !! queue_read c with
         | Some p => (RecvPayload p, set (S (queue_read c)))
         | None => (RecvEmpty, c)
         end;
  chan_drop c := mkQueue (queue_cap c) false (queue_log c) (queue_read c);
  chan_read := queue_read;
  chan_capacity := queue_cap
|}.
#[export] Instance queue_receiver_laws : ReceiverLaws.
Proof.
  split; try done.
  - by intros p [cap [] log n].
  - by intros p [cap [] log n].
  - intros [cap al log n]. simpl. case_decide; [done|]. by destruct (log !! n).
  - intros [cap al log n]. simpl. case_decide; [done|]. by destruct (log !! n).
  - intros [cap al log n]. simpl. case_decide; [done|]. by destruct (log !! n).
  - intros [cap al log n] _. simpl. case_decide; [done|]. by destruct (log !! n).
Qed.

End Channel.
End QueueChannel.

(** ** A run *)
Section Witness.
Import QueueChannel.
Local Existing Instance Uuid36.lib.

Definition wit_payload (n : Z) : NotifyPayload :=
  mkNotifyPayload Uuid36.one_uuid Uuid36.two_uuid (Some Uuid36.two_uuid) n n 2 None.
Local Instance one_json : PayloadJson := λ s,
  if decide (s = "one"%string) then Ok (wit_payload 1) else Err "not a payload"%string.

Definition wit_db : Database :=
  mkDatabase [mkEventRow Uuid36.one_uuid Uuid36.two_uuid 3 30 2 None;
              mkEventRow Uuid36.one_uuid Uuid36.two_uuid 2 20 2 None]
    {[ Uuid36.one_uuid := None ]}.

(** Two subscribers, one of which goes away before the second payload. *)
Definition wit_ops : list op :=
  [OpSubscribe (TopicEngagement Uuid36.one_uuid); OpSubscribe (TopicBatch Uuid36.two_uuid);
   OpInput (LoopHead false (Ok tt)); OpInput (Received (Ok "one"%string));
   OpTryRecv 1; OpDrop 2; OpInput (Received (Ok "two"%string));
   OpInput (HealthTick (Ok (Some "one"%string)));
   OpGapFill (Ok wit_db) Uuid36.one_uuid 2; OpTryRecv 1; OpTryRecv 1; OpTryRecv 1;
   OpInput (Received (Err "closed"%string)); OpInput ShutdownChanged; OpTryRecv 1].

Lemma manager_refines_spec_witness :
  trace wit_ops (AtTop, manager_new)
  = [ObsSubscribed 1; ObsSubscribed 2; ObsMetrics 0 0; ObsMetrics 0 2;
     ObsRecv (RecvPayload (wit_payload 1)); ObsDropped; ObsMetrics 0 2; ObsMetrics 0 1;
     ObsGapFill (Ok tt); ObsRecv (RecvPayload (wit_payload 1));
     ObsRecv (RecvPayload (mkNotifyPayload Uuid36.one_uuid Uuid36.two_uuid None 3 30 2 None));
     ObsRecv RecvEmpty; ObsMetrics 1 1; ObsMetrics 1 1; ObsRecv RecvClosed].
Proof.
  transitivity (spec_trace wit_ops spec_new); [apply manager_refines_spec|].
  vm_compute. reflexivity.
Defined.

End Witness.
