(* ===== verification/NotifyDelivery.v ===== *)
(** * What a receiver of the fan-out gets

    The channels of [crates/engagement-hub/src/notify.rs] hold 256 payloads: a
    receiver that is further behind loses the oldest and is told how many.
    [receive] is a receiver polling until its channel is empty; the theorems say
    what it gets after a run of the manager and after a gap fill. *)
From Stdlib Require Import ZArith Lia.
From stdpp Require Import base sets list gmap sorting strings.
From S2P Require Import Prelude Uuids Notify NotifySpec.

Section Delivery.
Context `{U : UuidLib} `{!Broadcast, !BroadcastLaws, !Receiver, !ReceiverLaws}.
Implicit Types (s : Registry) (tx : positive) (c : Channel).

(** ** Polling until the channel is empty *)

Fixpoint recv_all (fuel : nat) c : list RecvResult * Channel :=
  match fuel with
  | O => ([], c)
  | S fuel' =>
      match chan_try_recv c with
      | ((RecvEmpty | RecvClosed), c') => ([], c')
      | (r, c') => let '(rs, c'') := recv_all fuel' c' in (r :: rs, c'')
      end
  end.

(** One lag, the payloads a channel holds, and the empty answer. *)
Definition RECV_FUEL : nat := S (S CHANNEL_CAP).

Definition receive s tx : list RecvResult * Registry :=
  match channels s !! tx with
  | Some c => let '(rs, c') := recv_all RECV_FUEL c in
      (rs, mkRegistry (inner s) (<[tx := c']> (channels s)))
  | None => ([], s)
  end.

(** What a receiver gets of the payloads it has not seen, with room for [cap]:
    all of them, or the number of the lost ones and the last [cap]. *)
Definition delivered_with (cap : nat) (ps : list NotifyPayload) : list RecvResult :=
  let n := length ps in
  if decide (n ≤ cap)%nat then RecvPayload <$> ps
  else RecvLagged (n - cap) :: (RecvPayload <$> drop (n - cap) ps).

Definition delivered : list NotifyPayload → list RecvResult := delivered_with 256.

Definition unseen c : list NotifyPayload := drop (chan_read c) (chan_log c).
Definition unread_of s tx : list NotifyPayload := from_option unseen [] (channels s !! tx).

Definition channel_ok (cap : nat) c : Prop :=
  chan_alive c = true ∧ chan_capacity c = cap ∧ (chan_read c ≤ length (chan_log c))%nat.
Definition receiver_ok s tx : Prop := from_option (channel_ok 256) False (channels s !! tx).

Lemma recv_state c :
  chan_alive (chan_try_recv c).2 = chan_alive c ∧ chan_log (chan_try_recv c).2 = chan_log c
  ∧ chan_capacity (chan_try_recv c).2 = chan_capacity c.
Proof. split_and!; [apply recv_alive|apply recv_log|apply recv_capacity]. Qed.

(** Afterwards the receiver has seen everything. *)
Definition drained (cap : nat) c c' : Prop :=
  channel_ok cap c' ∧ unseen c' = [] ∧ chan_log c' = chan_log c.

(** A receiver that is not more than the capacity behind gets everything. *)
Lemma recv_all_within cap fuel c :
  channel_ok cap c → (length (unseen c) ≤ cap)%nat → (length (unseen c) < fuel)%nat →
  (recv_all fuel c).1 = RecvPayload <$> unseen c ∧ drained cap c (recv_all fuel c).2.
Proof.
  revert c. induction fuel as [|fuel IH]; intros c Hok Hlen Hfuel; [lia|].
  pose proof Hok as (Ha & Hcap & Hread). pose proof (recv_result c Ha) as Hr. cbn zeta in Hr.
  unfold unseen in Hlen, Hfuel. rewrite length_drop in Hlen, Hfuel.
  rewrite decide_False in Hr by lia. destruct (recv_state c) as (Ha' & Hl' & Hc').
  cbn [recv_all]. destruct (chan_try_recv c) as [r c'] eqn:Hrecv. cbn [fst snd] in *.
  destruct (chan_log c !! chan_read c) as [p|] eqn:Hp; injection Hr as -> Hn.
  - pose proof (lookup_lt_Some _ _ _ Hp) as Hlt.
    assert (Hun : unseen c = p :: unseen c').
    { unfold unseen. rewrite Hl', Hn. by apply drop_S. }
    destruct (IH c') as (Hrs & Hok' & Hnil & Hlog).
    + unfold channel_ok. rewrite Ha', Hc', Hl', Hn. split_and!; [done|done|lia].
    + unfold unseen. rewrite length_drop, Hl', Hn. lia.
    + unfold unseen. rewrite length_drop, Hl', Hn. lia.
    + destruct (recv_all fuel c') as [rs c'']. cbn [fst snd] in *. rewrite Hun, Hrs.
      split_and!; [done|]. unfold drained. by rewrite Hlog.
  - apply lookup_ge_None in Hp. cbn [fst snd]. unfold drained, unseen, channel_ok.
    rewrite Hl', Hn, Ha', Hc', !drop_ge by lia. by split_and!.
Qed.

Lemma recv_all_spec cap c :
  channel_ok cap c →
  (recv_all (S (S cap)) c).1 = delivered_with cap (unseen c)
  ∧ drained cap c (recv_all (S (S cap)) c).2.
Proof.
  intros Hok. unfold delivered_with. case_decide as Hlen.
  { apply recv_all_within; [done|done|lia]. }
  pose proof Hok as (Ha & Hcap & Hread). pose proof (recv_result c Ha) as Hr. cbn zeta in Hr.
  unfold unseen in Hlen |- *. rewrite length_drop in Hlen |- *.
  rewrite Hcap, decide_True in Hr by lia. destruct (recv_state c) as (Ha' & Hl' & Hc').
  remember (S cap) as fuel eqn:Hfuel. cbn [recv_all].
  destruct (chan_try_recv c) as [r c'] eqn:Hrecv. cbn [fst snd] in *. injection Hr as -> Hn.
  destruct (recv_all_within cap fuel c') as (Hrs & Hd).
  - unfold channel_ok. rewrite Ha', Hc', Hl', Hn. split_and!; [done|done|lia].
  - unfold unseen. rewrite length_drop, Hl', Hn. lia.
  - unfold unseen. rewrite length_drop, Hl', Hn. lia.
  - destruct (recv_all fuel c') as [rs c'']. cbn [fst snd] in *. rewrite Hrs.
    split; [|unfold drained in *; by rewrite <- Hl'].
    do 2 f_equal. unfold unseen. rewrite Hl', Hn, drop_drop. f_equal. lia.
Qed.

(** ** The receiver in the registry *)

Lemma receiver_ok_alive s tx : receiver_ok s tx → alive_in (channels s) tx = true.
Proof. unfold receiver_ok, alive_in. destruct (channels s !! tx); [by intros (? & _)|done]. Qed.

Lemma receive_spec s tx :
  registry_wf s → receiver_ok s tx →
  (receive s tx).1 = delivered (unread_of s tx)
  ∧ receiver_ok (receive s tx).2 tx ∧ unread_of (receive s tx).2 tx = []
  ∧ registry_wf (receive s tx).2 ∧ log_of (receive s tx).2 tx = log_of s tx
  ∧ ∀ q t, subscribed (receive s tx).2 q t ↔ subscribed s q t.
Proof.
  intros [Hwe Hwb Hdis] Hok. unfold receiver_ok, receive, unread_of, log_of in *.
  destruct (channels s !! tx) as [c|] eqn:Hc; [|done]. simpl in Hok.
  destruct (recv_all_spec 256 c Hok) as (Hrs & Hok' & Hnil & Hlog).
  change (S (S 256)) with RECV_FUEL in *. destruct (recv_all RECV_FUEL c) as [rs c'].
  cbn [fst snd channels inner from_option] in *. rewrite lookup_insert_eq.
  assert (Hsame : same_channels (channels s) (<[tx := c']> (channels s))).
  { intros t. destruct (decide (t = tx)) as [->|?];
      [rewrite lookup_insert_eq, Hc; split; by eexists|by rewrite lookup_insert_ne]. }
  split_and!; [done|done|done| |done|done].
  split; simpl; [by eapply map_wf_same|by eapply map_wf_same|exact Hdis].
Qed.

(** Sending and subscribing do not touch what a receiver has read. *)
Definition reader_of s tx : option (nat * nat) :=
  (λ c, (chan_read c, chan_capacity c)) <$> channels s !! tx.

Lemma receiver_kept s s' tx new :
  receiver_ok s tx → reader_of s' tx = reader_of s tx → alive_in (channels s') tx = true →
  log_of s' tx = log_of s tx ++ new →
  receiver_ok s' tx ∧ unread_of s' tx = unread_of s tx ++ new.
Proof.
  unfold receiver_ok, reader_of, alive_in, log_of, unread_of.
  destruct (channels s !! tx) as [c|], (channels s' !! tx) as [c'|]; simpl; try done.
  intros (Ha & Hcap & Hread) [= Hr Hc] Ha' Hlog. unfold channel_ok, unseen.
  rewrite Ha', Hr, Hc, Hlog, length_app, drop_app_le by done. split_and!; [done|done|lia|done].
Qed.

Lemma fanout_reader p s tx : registry_wf s → reader_of (fanout p s) tx = reader_of s tx.
Proof.
  intros Hwf. unfold reader_of. rewrite (effect_channels p s _ (fanout_spec p s Hwf)).
  case_decide; [|done]. destruct (channels s !! tx) as [c|]; [|done]. simpl.
  by rewrite send_read, send_capacity.
Qed.

Lemma fanout_all_reader ps s tx : registry_wf s → reader_of (fanout_all ps s) tx = reader_of s tx.
Proof.
  revert s. induction ps as [|p ps IH]; intros s Hwf; [done|]. cbn [fanout_all foldl].
  pose proof (fanout_spec p s Hwf) as Heff.
      pose proof (IH (fanout p s) (effect_wf p s _ Heff)) as IH'.
  unfold fanout_all in IH'. by rewrite IH', fanout_reader.
Qed.

Lemma fanout_all_subscribed ps q s tx :
  registry_wf s → alive_in (channels s) tx = true →
  subscribed (fanout_all ps s) q tx ↔ subscribed s q tx.
Proof.
  revert s. induction ps as [|p ps IH]; intros s Hwf Ha; [done|].
  pose proof (fanout_spec p s Hwf) as Heff. cbn [fanout_all foldl].
  transitivity (subscribed (fanout p s) q tx); [|by apply (fanout_subscribed p)].
  apply IH; [apply (effect_wf p s _ Heff)|by rewrite (fanout_alive p s _ tx Heff)].
Qed.

Lemma subscribe_reader t b key s s' tx :
  subscribe_effect t b key s s' → is_Some (channels s !! tx) → reader_of s' tx = reader_of s tx.
Proof.
  intros [_ Hfresh Hcs _ _] [c Hc]. unfold reader_of. rewrite Hcs, lookup_insert_ne; [done|].
  intros ->. congruence.
Qed.

(** A new subscriber, with an empty channel of 256. *)
Lemma new_receiver (to_engagement : bool) key s :
  registry_wf s →
  let r := if to_engagement then subscribe_engagement key s else subscribe_batch key s in
  receiver_ok r.2 r.1 ∧ unread_of r.2 r.1 = [].
Proof.
  intros Hwf r. pose proof (subscribe_spec to_engagement key s Hwf) as [_ _ Hcs _ _].
  fold r in Hcs. unfold receiver_ok, unread_of. rewrite Hcs, lookup_insert_eq. simpl.
  unfold channel_ok, unseen. rewrite channel_alive, channel_capacity, channel_read, channel_log.
  by split_and!.
Qed.

Context `{!PayloadJson}.

Lemma handle_reader n m tx :
  registry_wf (registry m) →
  reader_of (registry (handle_notification n m)) tx = reader_of (registry m) tx.
Proof.
  intros Hwf. rewrite handle_parsed. destruct (parsed n); [|done]. by apply fanout_reader.
Qed.

Lemma run_reader m0 ins st tx :
  registry_wf (registry m0) → alive_in (channels (registry m0)) tx = true → runs m0 ins st →
  reader_of (registry st.2) tx = reader_of (registry m0) tx.
Proof.
  intros Hwf Ha Hruns.
  assert (Hsub : ∀ ins st b key, runs m0 ins st →
    reader_of (if b : bool then subscribe_engagement key (registry st.2)
               else subscribe_batch key (registry st.2)).2 tx = reader_of (registry st.2) tx).
  { intros ins' st' b key Hr. pose proof (run_log_invariant _ _ _ tx Hwf Ha Hr) as (Hwf' & Ha' & _).
    eapply subscribe_reader; [by apply subscribe_spec|]. unfold alive_in in Ha'.
    by destruct (channels (registry st'.2) !! tx). }
  induction Hruns as [|ins st i st' Hruns IH Hstep|ins ph m id Hruns IH|ins ph m id Hruns IH].
  - done.
  - destruct st as [ph m], st' as [ph' m']. apply run_step_registry in Hstep.
    pose proof (run_log_invariant _ _ _ tx Hwf Ha Hruns) as (Hwf' & _).
    destruct (notification i) as [n|]; [destruct Hstep as [_ ->]|]; simpl in *.
    + by rewrite handle_reader.
    + by rewrite Hstep.
  - rewrite <- IH. apply (Hsub _ _ true id Hruns).
  - rewrite <- IH. apply (Hsub _ _ false id Hruns).
Qed.

(** ** Properties *)

(** C12. The manager loop, with clients subscribing in between, and a receiver
    that polls until its channel is empty.  It gets exactly the payloads of the
    non-empty, well-formed notifications the connection handed over since it
    last polled, those for its engagement or batch, in their order - if they are
    at most 256; otherwise the number of those it lost and the last 256.  The
    reconnect counter counts the failed connects and lost connections.  Nothing
    is replayed after a reconnect: events committed while the connection was
    down do not reach the receiver through the loop. *)
Theorem run_delivers_notifications m0 ins ph m tx :
  registry_wf (registry m0) → receiver_ok (registry m0) tx → runs m0 ins (ph, m) →
  let sent := filter (λ p, subscribed (registry m0) p tx) (omap parsed (omap notification ins)) in
  let '(got, s') := receive (registry m) tx in
  got = delivered (unread_of (registry m0) tx ++ sent)
  ∧ registry_wf s' ∧ receiver_ok s' tx ∧ unread_of s' tx = []
  ∧ (∀ p, subscribed s' p tx ↔ subscribed (registry m0) p tx)
  ∧ listen_notify_reconnects_total m
    = listen_notify_reconnects_total m0 + Z.of_nat (length (filter connection_lost ins)).
Proof.
  intros Hwf Hok Hruns sent. pose proof (receiver_ok_alive _ _ Hok) as Ha.
  destruct (run_log_invariant m0 ins _ tx Hwf Ha Hruns) as (Hwf' & Ha' & Hsub & Hlog & Hrec).
  pose proof (run_reader m0 ins _ tx Hwf Ha Hruns) as Hread. cbn [snd] in *.
  destruct (receiver_kept _ _ _ _ Hok Hread Ha' Hlog) as [Hok' Hun].
  destruct (receive_spec _ _ Hwf' Hok') as (Hgot & Hok'' & Hnil & Hwf'' & _ & Hsub').
  destruct (receive (registry m) tx) as [got s']. cbn [fst snd] in *. rewrite Hgot, Hun.
  split_and!; try done. intros p. by rewrite Hsub'.
Qed.

(** C14. Gap fill, and a receiver that polls until its channel is empty: a
    subscriber of the engagement gets, after what it had not yet read, the
    engagement's events with a sequence above the cursor, each once and in
    strictly increasing sequence - if all of this is at most 256 payloads;
    otherwise the oldest are overwritten, and it gets the number of the lost
    ones and the last 256.  A failing query sends nothing.  The replay goes to
    all the engagement's subscribers, also to those that had these events. *)
Theorem gap_fill_delivers db eid last_seen batch s tx e :
  events_unique db → db_batches db !! eid = Some batch →
  registry_wf s → receiver_ok s tx → listed (by_engagement (inner s)) eid tx →
  let missed := gap_rows db eid last_seen in
  let '(r, s') := gap_fill_engagement (Ok db) eid last_seen s in
  r = Ok tt
  ∧ (receive s' tx).1 = delivered (unread_of s tx ++ missed)
  ∧ (∀ p, p ∈ missed ↔ ∃ r, r ∈ db_events db ∧ ev_engagement_id r = eid
       ∧ last_seen < ev_sequence r ∧ p = payload_of_row batch r)
  ∧ strictly_sorted (λ p q, np_sequence p < np_sequence q) missed
  ∧ (gap_fill_engagement (Err e) eid last_seen s).2 = s.
Proof.
  intros Huniq Hb Hwf Hok Hl missed. pose proof (receiver_ok_alive _ _ Hok) as Ha.
  pose proof (gap_fill_appends db eid last_seen batch s tx e Huniq Hb Hwf Ha Hl) as Happ.
  pose proof (fanout_all_reader missed s tx Hwf) as Hread.
  destruct (fanout_all_spec missed s tx Hwf Ha) as (Hwf' & Ha' & _).
  cbn [gap_fill_engagement fst snd] in *. destruct Happ as (_ & Hlog & Hin & Hsort & _).
  destruct (receiver_kept _ _ _ _ Hok Hread Ha' Hlog) as [Hok' Hun].
  destruct (receive_spec _ _ Hwf' Hok') as (Hgot & _).
  split_and!; [done| |done|done|done].
  transitivity (delivered (unread_of (fanout_all missed s) tx)); [exact Hgot|by rewrite Hun].
Qed.

End Delivery.

(** ** A slow receiver, and a gap of 300 events *)
Section Witness.
Import QueueChannel Uuid36.

Definition wit_topic_payload (n : Z) : NotifyPayload (U := lib) :=
  mkNotifyPayload one_uuid two_uuid None n n 2 None.
Local Instance number_json : PayloadJson (U := lib) := λ s,
  if decide (s = "one"%string) then Ok (wit_topic_payload 1) else Err "not a payload"%string.

Definition wit_registry : Registry (U := lib) := (subscribe_engagement one_uuid registry_default).2.
Definition wit_sender : positive := (subscribe_engagement (U := lib) one_uuid registry_default).1.
Definition wit_manager : ListenNotifyManager (U := lib) := mkManager wit_registry 0 0 true 0.

Lemma wit_registry_ok : registry_wf wit_registry ∧ receiver_ok wit_registry wit_sender.
Proof.
  split; [apply (subscribe_isolated (U := lib) true one_uuid _ default_registry_wf)|].
  apply (new_receiver (U := lib) true one_uuid _ default_registry_wf).
Qed.

(** Connected, one notification, a text that does not parse, the same again. *)
Definition wit_inputs : list input :=
  [LoopHead false (Ok tt); Received (Ok "one"%string); HealthTick (Ok (Some "two"%string));
   Received (Ok "one"%string)].
Fixpoint run_inputs (ins : list input) (st : phase * ListenNotifyManager (U := lib))
  : option (phase * ListenNotifyManager) :=
  match ins with [] => Some st | i :: rest => st' ← run_step i st; run_inputs rest st' end.

Lemma run_inputs_runs m0 done ins st st' :
  runs m0 done st → run_inputs ins st = Some st' → runs m0 (done ++ ins) st'.
Proof.
  revert done st. induction ins as [|i ins IH]; intros done st Hr Hrun; simpl in Hrun.
  { simplify_eq. by rewrite app_nil_r. }
  destruct (run_step i st) as [st1|] eqn:Hi; [|discriminate].
  rewrite (cons_middle i), (assoc_L (++)). apply (IH _ st1); [by apply runs_step with st|done].
Qed.

Definition wit_after_run : phase * ListenNotifyManager (U := lib) :=
  default (AtTop, wit_manager) (run_inputs wit_inputs (AtTop, wit_manager)).

Lemma run_delivers_notifications_witness :
  (receive (registry wit_after_run.2) wit_sender).1
  = [RecvPayload (wit_topic_payload 1); RecvPayload (wit_topic_payload 1)].
Proof.
  destruct wit_registry_ok as [Hwf Hok].
  pose proof (run_delivers_notifications (U := lib) wit_manager wit_inputs wit_after_run.1
    wit_after_run.2 wit_sender Hwf Hok) as H.
  destruct (receive (registry wit_after_run.2) wit_sender) as [got s'].
  destruct H as [-> _]; [|vm_compute; reflexivity].
  apply (run_inputs_runs wit_manager [] wit_inputs (AtTop, wit_manager)); [apply runs_start|].
  reflexivity.
Defined.

Definition wit_row (n : nat) : EventRow (U := lib) :=
  mkEventRow one_uuid two_uuid (Z.of_nat n) (Z.of_nat n) 2 None.
Definition wit_db (n : nat) : Database (U := lib) :=
    mkDatabase (wit_row <$> seq 1 n) {[ one_uuid := None ]}.

Lemma wit_db_unique n : events_unique (wit_db n).
Proof.
  unfold events_unique, wit_db. cbn [db_events]. rewrite <- list_fmap_compose.
  apply NoDup_fmap; [|apply NoDup_seq]. intros i j Hij. unfold compose in Hij. cbn in Hij.
  injection Hij. lia.
Qed.

(** The number a receiver is shown: the lost payloads, or a sequence. *)
Definition shown (r : RecvResult (U := lib)) : Z :=
  match r with RecvLagged n => Z.of_nat n | RecvPayload p => np_sequence p | _ => 0 end.

Lemma gap_fill_delivers_witness :
  let missed := gap_rows (wit_db 300) one_uuid 0 in
  (let '(_, s') := gap_fill_engagement (Ok (wit_db 300)) one_uuid 0 wit_registry in
   (receive s' wit_sender).1 = delivered (unread_of wit_registry wit_sender ++ missed))
  ∧ shown <$> delivered (unread_of wit_registry wit_sender ++ missed)
    = 44 :: (Z.of_nat <$> seq 45 256).
Proof.
  intros missed. split; [|vm_compute; reflexivity].
  destruct wit_registry_ok as [Hwf Hok].
  pose proof (gap_fill_delivers (U := lib) (wit_db 300) one_uuid 0 None wit_registry wit_sender
    "down"%string) as H.
  destruct (gap_fill_engagement (Ok (wit_db 300)) one_uuid 0 wit_registry) as [r s'].
  destruct H as (_ & H & _); [| | | | |exact H].
  - apply wit_db_unique.
  - reflexivity.
  - exact Hwf.
  - exact Hok.
  - apply (bool_decide_unpack _). vm_compute. exact I.
Defined.

End Witness.
