(* ===== verification/NotifyPayloadJson.v ===== *)
(** * The text of a notification

    [NotifyPayload]'s derived [Serialize] and [Deserialize]
    ([crates/engagement-hub/src/notify.rs]) and the size of the text a
    publisher sends.  [serde_json::to_string] is the class [JsonPrint], with
    the compact format it documents as laws. *)
From Stdlib Require Import ZArith Lia Ascii.
From stdpp Require Import base list gmap strings pretty.
From S2P Require Import Prelude Uuids SerdeJson Notify NotifySpec.

(** ** Compact JSON text *)

Class JsonPrint := json_to_string : Json → string.

Definition quote : string := String (ascii_of_nat 34) EmptyString.
Definition quoted (s : string) : string := quote +:+ s +:+ quote.

(** Printable ASCII that needs no escape. *)
Definition plain_char (c : ascii) : bool :=
  let n := nat_of_ascii c in
  (32 <=? n)%nat && (n <=? 126)%nat && negb (n =? 34)%nat && negb (n =? 92)%nat.
Definition plain (s : string) : bool := forallb plain_char (String.list_ascii_of_string s).

Fixpoint comma_separated (l : list string) : string :=
  match l with
  | [] => ""
  | [s] => s
  | s :: l' => s +:+ "," +:+ comma_separated l'
  end.

Class JsonPrintLaws `{JsonPrint} : Prop := {
  print_null : json_to_string JNull = "null"%string;
  print_int i : json_to_string (JInt i) = pretty i;
  print_string s : plain s = true → json_to_string (JString s) = quoted s;
  print_object o : Forall (λ kv, plain kv.1 = true) o →
    json_to_string (JObject o)
    = "{" +:+ comma_separated (map (λ kv, quoted kv.1 +:+ ":" +:+ json_to_string kv.2) o) +:+ "}"
}.

Section Payload.
Context `{U : UuidLib} `{SE : SerdeErrors}.

(** [uuid]'s [Deserialize] parses the text. *)
Definition de_uuid : Deserialize Uuid := {|
  deserialize v :=
    match v with JString s => uuid_parse s
        | _ => Err (invalid_type v "a formatted UUID string") end;
  when_missing := None
|}.
Definition de_i64 : Deserialize Z := {|
  deserialize := int_between (-9223372036854775808) 9223372036854775807 "i64";
  when_missing := None
|}.
Definition de_i16 : Deserialize Z :=
  {| deserialize := int_between (-32768) 32767 "i16"; when_missing := None |}.

Local Open Scope serde_scope.

Definition de_NotifyPayload : Deserialize NotifyPayload :=
  de_struct "struct NotifyPayload"
    (fields_of mkNotifyPayload
       |> field de_uuid "engagement_id" |> field de_uuid "organization_id"
       |> field (de_option de_uuid) "batch_id" |> field de_i64 "sequence"
       |> field de_i64 "event_pk" |> field de_i16 "event_type"
       |> field (de_option de_string) "traceparent").

Local Close Scope serde_scope.

Definition uuid_json (u : Uuid) : Json := JString (uuid_to_string u).

Definition ser_NotifyPayload (p : NotifyPayload) : list (string * Json) :=
  [("engagement_id", uuid_json (np_engagement_id p));
   ("organization_id", uuid_json (np_organization_id p));
   ("batch_id", encode_option uuid_json (np_batch_id p));
   ("sequence", JInt (np_sequence p)); ("event_pk", JInt (np_event_pk p));
   ("event_type", JInt (np_event_type p));
   ("traceparent", encode_option JString (np_traceparent p))]%string.

(** [serde_json::from_str::<NotifyPayload>] and [serde_json::to_string]. *)
#[export] Instance payload_from_str `{!JsonText} : PayloadJson := λ s,
  let? v := parse_json_text s in deserialize (Deserialize := de_NotifyPayload) v.
Definition payload_to_string `{!JsonPrint} (p : NotifyPayload) : string :=
  json_to_string (JObject (ser_NotifyPayload p)).

(** The Rust types' ranges. *)
Definition payload_ok (p : NotifyPayload) : Prop :=
  -9223372036854775808 ≤ np_sequence p ≤ 9223372036854775807
  ∧ -9223372036854775808 ≤ np_event_pk p ≤ 9223372036854775807
  ∧ -32768 ≤ np_event_type p ≤ 32767.

(** ** Round trip *)

Section RoundTrip.
Context `{!UuidLaws}.

#[local] Instance encodes_uuid : Encodes de_uuid uuid_json always.
Proof. intros u _. apply uuid_parse_to_string. Qed.

Lemma decode_payload p :
  payload_ok p → deserialize (Deserialize := de_NotifyPayload) (JObject (ser_NotifyPayload p)) =
      Ok p.
Proof.
  destruct p as [e o b s k t tp]. intros (Hs & Hk & Ht). cbn in Hs, Hk, Ht.
  decode_fields; try (by apply encodes_uuid); try (cbn; by rewrite bool_decide_eq_true_2).
  - apply encodes_option with (ok := always); [apply _|done|by destruct b].
  - apply encodes_option with (ok := always); [apply _|done|by destruct tp].
Qed.

End RoundTrip.

End Payload.

(** ** The length of decimal numbers and of the pieces of a text *)

Lemma string_length_app s t : String.length (s +:+ t) = (String.length s + String.length t)%nat.
Proof. induction s as [|c s IH]; simpl; [done|by rewrite IH]. Qed.

Lemma pretty_N_go_length (k : nat) x s :
  (x < 10 ^ N.of_nat k)%N →
  (String.length s + (if decide (x = 0)%N then 0 else 1) ≤ String.length (pretty_N_go x s)
   ≤ String.length s + k)%nat.
Proof.
  revert x s. induction k as [|k IH]; intros x s Hx.
  { assert (x = 0)%N as -> by (simpl in Hx; lia). rewrite pretty_N_go_0. simpl. lia. }
  destruct (decide (x = 0)%N) as [->|Hne]; [rewrite pretty_N_go_0; lia|].
  rewrite pretty_N_go_step by lia.
  assert (Hdiv : (x `div` 10 < 10 ^ N.of_nat k)%N).
  { apply N.Div0.div_lt_upper_bound. rewrite Nat2N.inj_succ, N.pow_succ_r' in Hx. lia. }
  specialize (IH _ (String (pretty_N_char (x `mod` 10)) s) Hdiv). cbn [String.length] in IH.
  destruct (decide _) in IH; lia.
Qed.

Lemma pretty_N_length (k : nat) x :
  (1 ≤ k)%nat → (x < 10 ^ N.of_nat k)%N → (1 ≤ String.length (pretty x) ≤ k)%nat.
Proof.
  intros Hk Hx. unfold pretty, pretty_N. destruct (decide (x = 0)%N) as [->|Hne]; [simpl; lia|].
  pose proof (pretty_N_go_length k x "" Hx) as H. rewrite decide_False in H by done. simpl in H.
      lia.
Qed.

(** A number of [k] digits at most, and a sign. *)
Lemma pretty_Z_length (k : nat) z :
  (1 ≤ k)%nat → - 10 ^ Z.of_nat k < z < 10 ^ Z.of_nat k →
  (1 ≤ String.length (pretty z) ≤ S k)%nat.
Proof.
  intros Hk Hz.
  assert (Hlen : ∀ p, (Npos p < 10 ^ N.of_nat k)%N → (1 ≤ String.length (pretty p) ≤ k)%nat)
    by (intros p; apply (pretty_N_length k (Npos p) Hk)).
  destruct z as [|p|p].
  - simpl. lia.
  - specialize (Hlen p ltac:(lia)). change (pretty (Z.pos p)) with (pretty p). lia.
  - specialize (Hlen p ltac:(lia)). change (pretty (Z.neg p)) with ("-" +:+ pretty p).
    rewrite string_length_app. simpl. lia.
Qed.

(** ** Properties *)

Section Properties.
Context `{U : UuidLib, UL : !UuidLaws} `{SE : SerdeErrors}.

(** The ids print in the hyphenated form, the trace context needs no escape. *)
Definition ids (p : NotifyPayload) : list Uuid :=
  np_engagement_id p :: np_organization_id p :: option_list (np_batch_id p).
Definition uuid_text_ok (u : Uuid) : Prop :=
  String.length (uuid_to_string u) = 36%nat ∧ plain (uuid_to_string u) = true.
Definition payload_text_ok (p : NotifyPayload) : Prop :=
  Forall uuid_text_ok (ids p) ∧ ∀ t, np_traceparent p = Some t → plain t = true.

Lemma quoted_length s : String.length (quoted s) = (String.length s + 2)%nat.
Proof. unfold quoted. rewrite !string_length_app. simpl. lia. Qed.

Definition digits (p : NotifyPayload) : nat :=
  String.length (pretty (np_sequence p)) + String.length (pretty (np_event_pk p))
  + String.length (pretty (np_event_type p)).

Section Print.
Context `{JP : JsonPrint} `{!JsonPrintLaws}.

Lemma uuid_print_length u :
  uuid_text_ok u → String.length (json_to_string (uuid_json u)) = 38%nat.
Proof. intros [Hl Hp]. unfold uuid_json. rewrite print_string by done. by rewrite quoted_length,
    Hl. Qed.

(** C25. The size of a notification: 178 bytes, the digits of its three numbers,
    36 bytes for a batch id and the quoted trace context, or [null] for each
    that is missing.  Without both it is below the 200 bytes documented for
    payloads exactly up to 13 digits; with a batch id it always exceeds them;
    it never exceeds 266 bytes and the trace context. *)
Theorem payload_size p :
  payload_ok p → payload_text_ok p →
  let size := String.length (payload_to_string p) in
  size = (178 + digits p
          + (match np_batch_id p with Some _ => 38 | None => 4 end)
          + (match np_traceparent p with Some t => String.length t + 2 | None => 4 end))%nat
  ∧ (3 ≤ digits p)%nat
  ∧ (np_batch_id p = None → np_traceparent p = None → ((size < 200)%nat ↔ (digits p ≤ 13)%nat))
  ∧ (is_Some (np_batch_id p) → (221 ≤ size)%nat)
  ∧ (size ≤ 266 + match np_traceparent p with Some t => String.length t | None => 2 end)%nat.
Proof.
  destruct p as [e o b s k t tp]. intros (Hs & Hk & Ht) [Hids Htp]. cbn in Hs, Hk, Ht, Htp.
  unfold ids in Hids. cbn in Hids. rewrite !Forall_cons in Hids. destruct Hids as (He & Ho & Hb).
  pose proof (pretty_Z_length 19 s ltac:(lia) ltac:(lia)).
  pose proof (pretty_Z_length 19 k ltac:(lia) ltac:(lia)).
  pose proof (pretty_Z_length 5 t ltac:(lia) ltac:(lia)).
  assert (Hbatch : String.length (json_to_string (encode_option uuid_json b))
    = match b with Some _ => 38 | None => 4 end%nat).
  { destruct b as [u|]; cbn; [|by rewrite print_null].
    apply Forall_inv in Hb. by apply uuid_print_length. }
  assert (Htrace : String.length (json_to_string (encode_option JString tp))
    = match tp with Some t => String.length t + 2 | None => 4 end%nat).
  { destruct tp as [x|]; cbn; [|by rewrite print_null].
    rewrite print_string by auto. apply quoted_length. }
  intros size. assert (Hsize : size = (178 + digits (mkNotifyPayload e o b s k t tp)
    + match b with Some _ => 38 | None => 4 end
    + match tp with Some t => String.length t + 2 | None => 4 end)%nat).
  { subst size. unfold payload_to_string. rewrite print_object by (repeat constructor).
    unfold ser_NotifyPayload, digits. cbn [map comma_separated fst snd np_engagement_id
      np_organization_id np_batch_id np_sequence np_event_pk np_event_type np_traceparent].
    rewrite !string_length_app, !quoted_length, !uuid_print_length, Hbatch, Htrace,
        !print_int by done.
    cbn [String.length]. lia. }
  assert (3 ≤ digits (mkNotifyPayload e o b s k t tp) ≤ 46)%nat as [? ?] by
      (unfold digits; cbn; lia).
  cbn [np_batch_id np_traceparent]. clearbody size.
  split_and!; [done|done| | |].
  - intros -> ->. lia.
  - intros [u ->]. destruct tp; lia.
  - destruct b, tp; lia.
Qed.

End Print.

Context `{!Broadcast} `{!JsonText}.

(** C13. From the publisher's text to the subscribers.  A notification whose
    text reads as an object with the members of a payload, in any order and
    next to unknown ones, is fanned out as exactly that payload, after which
    the lag gauge is set; in particular a text that reads back as printed. *)
Theorem notification_decodes (p : NotifyPayload) (text : string) o' extra
    (m : ListenNotifyManager) :
  payload_ok p → text ≠ ""%string → parse_json_text text = Ok (JObject o') →
  o' ≡ₚ ser_NotifyPayload p ++ extra →
  Forall (λ kv, kv.1 ∉ (ser_NotifyPayload p).*1) extra →
  let m' := handle_notification text m in
  parse_payload text = Ok p
  ∧ registry m' = fanout p (registry m)
  ∧ consumer_lag_events m' = Z.of_nat (queued_event_count (registry m'))
  ∧ listen_notify_reconnects_total m' = listen_notify_reconnects_total m.
Proof.
  intros Hp Htext Hparse Hperm Hextra m'.
  assert (Hdec : parse_payload text = Ok p).
  { unfold parse_payload, payload_from_str. rewrite Hparse. cbn [result_bind].
    eapply (decode_unordered _ _ (ser_NotifyPayload p) o' extra);
        [by apply decode_payload|done|done]. }
  split; [done|]. subst m'. unfold handle_notification. rewrite decide_False by done.
  by rewrite Hdec.
Qed.

End Properties.
