(* ===== verification/TestJson.v ===== *)
(** * A JSON reader and writer to run the unit tests with

    Concrete instances of [JsonPrint], [JsonText] and [SerdeErrors]: the compact
    writer of [serde_json] and a reader for texts without fractions, exponents
    and [\u] escapes.  Nothing but the unit tests and the witnesses depends on
    them. *)
From Stdlib Require Import ZArith Lia Ascii.
From stdpp Require Import base list gmap strings pretty.
From S2P Require Import Prelude Uuids SerdeJson Notify NotifySpec NotifyPayloadJson.

Local Open Scope char_scope.

(** ** Writing *)

Definition quote_char : ascii := ascii_of_nat 34.
Definition backslash : ascii := ascii_of_nat 92.

Fixpoint escape (s : string) : string :=
  match s with
  | EmptyString => EmptyString
  | String c s' =>
      if (c =? quote_char) || (c =? backslash) then String backslash (String c (escape s'))
      else String c (escape s')
  end.

Fixpoint print (v : Json) : string :=
  match v with
  | JNull => "null"
  | JBool b => if b then "true" else "false"
  | JInt i => pretty i
  | JFloat _ => "0.0"
  | JString s => quoted (escape s)
  | JArray l => "[" +:+ comma_separated (map print l) +:+ "]"
  | JObject o =>
      "{" +:+ comma_separated (map (λ kv, quoted (escape kv.1) +:+ ":" +:+ print kv.2) o) +:+ "}"
  end.

Lemma escape_plain s : plain s = true → escape s = s.
Proof.
  unfold plain. induction s as [|c s IH]; [done|]. cbn [String.list_ascii_of_string forallb].
  intros [Hc Hs]%andb_true_iff. cbn [escape]. rewrite IH by done.
  destruct ((c =? quote_char) || (c =? backslash)) eqn:He; [|done]. exfalso.
  apply orb_true_iff in He as [->%Ascii.eqb_eq| ->%Ascii.eqb_eq]; discriminate.
Qed.

Module TestJson.

#[export] Instance printer : JsonPrint := print.
#[export] Instance printer_laws : JsonPrintLaws.
Proof.
  split; [done|done| |].
  - intros s Hs. unfold json_to_string, printer. cbn. by rewrite escape_plain.
  - intros o Ho. unfold json_to_string, printer. cbn. do 3 f_equal.
    induction Ho as [|kv o Hkv _ IH]; [done|]. cbn. by rewrite IH, escape_plain.
Qed.

#[export] Instance errors : SerdeErrors := {|
  invalid_type _ e := "invalid type: expected " +:+ e;
  invalid_value _ e := "invalid value: expected " +:+ e;
  invalid_length n := "invalid length at " +:+ n;
  missing_field n := "missing field " +:+ n;
  duplicate_field n := "duplicate field " +:+ n;
  trailing_characters := "trailing characters"%string
|}.

(** ** Reading *)

Definition is_space (c : ascii) : bool :=
  (c =? " ") || (c =? ascii_of_nat 9) || (c =? ascii_of_nat 10) || (c =? ascii_of_nat 13).
Fixpoint skip_space (l : list ascii) : list ascii :=
  match l with c :: l' => if is_space c then skip_space l' else l | [] => [] end.

Definition is_digit (c : ascii) : bool :=
  (48 <=? nat_of_ascii c)%nat && (nat_of_ascii c <=? 57)%nat.

Fixpoint read_digits (acc : Z) (l : list ascii) : Z * list ascii :=
  match l with
  | c :: l' =>
      if is_digit c then read_digits (acc * 10 + Z.of_nat (nat_of_ascii c - 48)) l' else (acc, l)
  | [] => (acc, [])
  end.

(** The characters of a string up to its closing quote. *)
Fixpoint read_chars (l : list ascii) : option (string * list ascii) :=
  match l with
  | [] => None
  | c :: l' =>
      if c =? quote_char then Some (EmptyString, l')
      else if c =? backslash then
        match l' with
        | e :: l'' =>
            let c' := if e =? "n" then ascii_of_nat 10 else if e =? "t" then ascii_of_nat 9 else e
                in
            '(s, rest) ← read_chars l''; Some (String c' s, rest)
        | [] => None
        end
      else '(s, rest) ← read_chars l'; Some (String c s, rest)
  end.

Definition read_literal (text : string) (v : Json) (l : list ascii) : option (Json * list ascii) :=
  let cs := String.list_ascii_of_string text in
  if decide (cs `prefix_of` l) then Some (v, drop (length cs) l) else None.

Fixpoint read_value (fuel : nat) (l : list ascii) : option (Json * list ascii) :=
  match fuel with
  | O => None
  | S fuel' =>
      match skip_space l with
      | [] => None
      | c :: l' =>
          if c =? quote_char then '(s, rest) ← read_chars l'; Some (JString s, rest)
          else if c =? "[" then
            match skip_space l' with
            | "]" :: rest => Some (JArray [], rest)
            | _ => '(vs, rest) ← read_elements fuel' l'; Some (JArray vs, rest)
            end
          else if c =? "{" then
            match skip_space l' with
            | "}" :: rest => Some (JObject [], rest)
            | _ => '(o, rest) ← read_members fuel' l'; Some (JObject o, rest)
            end
          else if c =? "-" then
            match l' with
            | d :: _ => if is_digit d then let '(n, rest) := read_digits 0 l' in
                Some (JInt (- n), rest)
                        else None
            | [] => None
            end
          else if is_digit c then
            let '(n, rest) := read_digits 0 (c :: l') in Some (JInt n, rest)
          else if c =? "n" then read_literal "null" JNull (c :: l')
          else if c =? "t" then read_literal "true" (JBool true) (c :: l')
          else read_literal "false" (JBool false) (c :: l')
      end
  end
with read_elements (fuel : nat) (l : list ascii) : option (list Json * list ascii) :=
  match fuel with
  | O => None
  | S fuel' =>
      '(v, rest) ← read_value fuel' l;
      match skip_space rest with
      | "," :: rest' => '(vs, rest'') ← read_elements fuel' rest'; Some (v :: vs, rest'')
      | "]" :: rest' => Some ([v], rest')
      | _ => None
      end
  end
with read_members (fuel : nat) (l : list ascii) : option (list (string * Json) * list ascii) :=
  match fuel with
  | O => None
  | S fuel' =>
      match skip_space l with
      | c :: l' =>
          if c =? quote_char then
            '(k, rest) ← read_chars l';
            match skip_space rest with
            | ":" :: rest' =>
                '(v, rest'') ← read_value fuel' rest';
                match skip_space rest'' with
                | "," :: r => '(o, r') ← read_members fuel' r; Some ((k, v) :: o, r')
                | "}" :: r => Some ([(k, v)], r)
                | _ => None
                end
            | _ => None
            end
          else None
      | [] => None
      end
  end.

#[export] Instance reader : JsonText := λ s,
  let l := String.list_ascii_of_string s in
  match read_value (S (2 * length l)) l with
  | Some (v, rest) =>
      match skip_space rest with [] => Ok v | _ => Err "trailing characters"%string end
  | None => Err "syntax error"%string
  end.

Lemma read_print : reader (print (JObject [("a", JArray [JInt (-12); JBool true; JNull]);
  ("b", JObject []); ("c", JString "x")]%string))
  = Ok (JObject [("a", JArray [JInt (-12); JBool true; JNull]);
      ("b", JObject []); ("c", JString "x")]%string).
Proof. vm_compute. reflexivity. Qed.

End TestJson.

(** ** One notification *)
Section Witness.
Import Uuid36 QueueChannel TestJson.

Definition batch_payload : NotifyPayload (U := lib) :=
  mkNotifyPayload one_uuid two_uuid (Some two_uuid) 42 1001 1 None.

Lemma batch_payload_ok : payload_ok batch_payload.
Proof. repeat split; discriminate. Qed.

Lemma payload_size_witness :
  String.length (payload_to_string batch_payload) = 227%nat.
Proof.
  destruct (payload_size batch_payload batch_payload_ok) as (H & _).
  - split; [|done]. by repeat constructor.
  - exact H.
Defined.

Definition a_subscriber : ListenNotifyManager :=
  (manager_subscribe_batch (U := lib) two_uuid manager_new).2.

Lemma notification_decodes_witness :
  registry (handle_notification (payload_to_string batch_payload) a_subscriber)
  = fanout batch_payload (registry a_subscriber).
Proof.
  destruct (notification_decodes batch_payload (payload_to_string batch_payload)
    (ser_NotifyPayload batch_payload) [] a_subscriber) as (_ & H & _).
  - exact batch_payload_ok.
  - discriminate.
  - vm_compute. reflexivity.
  - by rewrite app_nil_r.
  - constructor.
  - exact H.
Defined.

End Witness.
