(* ===== verification/EventFeed.v ===== *)
(** * From a committed event to its subscribers

    The composition of the database, its notification channel and the manager
    of [crates/engagement-hub/src/notify.rs]: rows are inserted into
    [engagement_events], the trigger of
    [migrations/20260515000000_initial_schema.up.sql] publishes their text, the
    loop receives what was published while it listened, a subscriber polls its
    channel of 256 payloads, and asks for a gap fill when it was cut off.  [run]
    takes the manager, so a gap fill beside the loop is one on the registry they share.
    [feed_step] runs one such event; [client_step] restricts the runs to a client
    that resumes before anything else happens.

    PostgreSQL's [json_build_object(..)::text] is the class [PgJson]; that the
    text reads back as its members is asked of each committed row. *)
From Stdlib Require Import ZArith Lia.
From stdpp Require Import base sets list gmap sorting strings.
From S2P Require Import Prelude Uuids SerdeJson Notify NotifySpec NotifyDelivery.
From S2P Require Import NotifyPayloadJson TestJson.

Class PgJson := json_object_text : list (string * Json) → string.

(** [engagements.batch_id] by [engagement_id]. *)
Abbreviation Batches := (gmap Uuid (option Uuid)).

(** ** Inserting an event *)

Section Insert.
Context `{U : UuidLib} `{PG : PgJson}.

(** The scalar subquery on [engagements]: NULL for an unknown engagement. *)
Definition batch_of (batches : Batches) (engagement_id : Uuid) : option Uuid :=
  mjoin (batches !! engagement_id).

(** The members the trigger passes to [json_build_object]. *)
Definition notify_members (batches : Batches) (new : EventRow) : list (string * Json) :=
  [("engagement_id", JString (uuid_to_string (ev_engagement_id new)));
   ("organization_id", JString (uuid_to_string (ev_organization_id new)));
   ("batch_id", match batch_of batches (ev_engagement_id new) with
                | Some b => JString (uuid_to_string b)
                | None => JNull
                end);
   ("sequence", JInt (ev_sequence new));
   ("event_pk", JInt (ev_event_pk new));
   ("event_type", JInt (ev_event_type new));
   ("traceparent", match ev_traceparent new with Some t => JString t | None => JNull end)]%string.

Definition trg_notify_engagement_event (batches : Batches) (new : EventRow) : string :=
  json_object_text (notify_members batches new).

(** An INSERT: the foreign key on [engagements], UNIQUE (engagement_id,
    sequence).  [event_id] and [event_pk] are drawn afresh. *)
Definition insert_event (new : EventRow) (db : Database) : option Database :=
  if decide (is_Some (db_batches db !! ev_engagement_id new)
             ∧ (ev_engagement_id new, ev_sequence new)
                 ∉ ((λ r, (ev_engagement_id r, ev_sequence r)) <$> db_events db))
  then Some (mkDatabase (db_events db ++ [new]) (db_batches db)) else None.

Definition row_payload (batches : Batches) (r : EventRow) : NotifyPayload :=
  payload_of_row (batch_of batches (ev_engagement_id r)) r.

Lemma notify_members_payload batches r :
  notify_members batches r = ser_NotifyPayload (row_payload batches r).
Proof.
  unfold notify_members, ser_NotifyPayload, row_payload, uuid_json, encode_option. simpl.
  by destruct (batch_of _ _), (ev_traceparent r).
Qed.

End Insert.

(** ** The feed *)

Section Feed.
Context `{U : UuidLib} `{!Broadcast, !Receiver} `{!PayloadJson} `{PG : PgJson}.
Context (tx : positive).

(** [feed_pending]: the notifications the server has sent on the listening
    connection and the loop has not received yet; [feed_received]: what the
    subscriber [tx] got by polling. *)
Record Feed := mkFeed {
  feed_db : Database;
  feed_pending : list string;
  feed_phase : phase;
  feed_manager : ListenNotifyManager;
  feed_received : list RecvResult
}.

Inductive feed_event :=
| Commit (new : EventRow)
| Loop (i : input)
| Subscribe (to_engagement : bool) (key : Uuid)
| Resume (engagement_id : Uuid) (last_seen : Z)
| Poll.

Definition listening (ph : phase) : bool := match ph with Listening => true | _ => false end.

(** The server notifies who listens at the commit, and in that order; what a
    connection has not handed over when it ends is gone.  [None]: the insert
    violates a constraint, or the loop cannot observe that input. *)
Definition feed_step (e : feed_event) (st : Feed) : option Feed :=
  let '(mkFeed db pending ph m got) := st in
  match e with
  | Commit new =>
      db' ← insert_event new db;
      let sent := if listening ph then [trg_notify_engagement_event (db_batches db') new] else [] in
      Some (mkFeed db' (pending ++ sent) ph m got)
  | Loop i =>
      '(ph', m') ← run_step i (ph, m);
      rest ← match notification i, pending with
             | Some n, n' :: rest => if decide (n = n') then Some rest else None
             | Some _, [] => None
             | None, _ => Some pending
             end;
      Some (mkFeed db (if listening ph' then rest else []) ph' m' got)
  | Subscribe to_engagement key =>
      let r := if to_engagement then manager_subscribe_engagement key m
               else manager_subscribe_batch key m in
      Some (mkFeed db pending ph r.2 got)
  | Resume engagement_id last_seen =>
      Some (mkFeed db pending ph (gap_fill (Ok db) engagement_id last_seen m).2 got)
  | Poll =>
      let '(rs, reg) := receive (registry m) tx in
      Some (mkFeed db pending ph (set_registry reg m) (got ++ rs))
  end.

Fixpoint feed_run (es : list feed_event) (st : Feed) : option Feed :=
  match es with
  | [] => Some st
  | e :: rest => st' ← feed_step e st; feed_run rest st'
  end.

(** The connection survives the event. *)
Definition stays_connected (e : feed_event) : bool :=
  match e with Loop (HealthTick (Err _) | Received (Err _) | ShutdownChanged) => false
      | _ => true end.

(** What the channel accepted, and what of it the subscriber has not read. *)
Definition seen (st : Feed) : list NotifyPayload := log_of (registry (feed_manager st)) tx.
Definition unread (st : Feed) : list NotifyPayload := unread_of (registry (feed_manager st)) tx.

(** The subscriber polls often enough: it is never more than 256 behind. *)
Definition within (st : Feed) : bool := (length (unread st) <=? 256)%nat.
Fixpoint keeps_up (es : list feed_event) (st : Feed) : bool :=
  within st
  && match es with
     | [] => true
     | e :: rest => match feed_step e st with Some st' => keeps_up rest st' | None => true end
     end.

(** What the subscriber has got, if it polls once more. *)
Definition obtained (st : Feed) : list RecvResult :=
  feed_received st ++ (receive (registry (feed_manager st)) tx).1.

(** ** What a subscriber of one engagement awaits and should have *)

Section View.
Context (eid : Uuid) (batch : option Uuid).

Definition of_engagement (ps : list NotifyPayload) : list NotifyPayload :=
  filter (λ p, np_engagement_id p = eid) ps.
Definition awaited (st : Feed) : list NotifyPayload :=
  of_engagement (omap parsed (feed_pending st)).
Definition committed (st : Feed) : list NotifyPayload :=
  payload_of_row batch <$> filter (λ r, ev_engagement_id r = eid) (db_events (feed_db st)).

(** The sequence a client resumes from: that of the last payload, events being
    numbered from 1. *)
Definition last_sequence (ps : list NotifyPayload) : Z :=
  match last ps with Some p => np_sequence p | None => 0 end.

(** The writer numbers the engagement's events upwards. *)
Definition next_event (new : EventRow) (st : Feed) : Prop :=
  ev_engagement_id new = eid → Forall (λ p, np_sequence p < ev_sequence new) (committed st)
                               ∧ 0 < ev_sequence new.

Definition payload (r : RecvResult) : option NotifyPayload :=
  match r with RecvPayload p => Some p | _ => None end.

(** A careful client, with a flag that tells whether it is up to date: it
    resumes once after each connect, when its channel is empty, from the last
    sequence it has received, and before the engagement's next event. *)
Definition client_step (e : feed_event) (c : bool * Feed) : option (bool * Feed) :=
  let '(current, st) := c in
  st' ← feed_step e st;
  match e with
  | Commit new =>
      if decide (ev_engagement_id new = eid ∧ current = false ∧ listening (feed_phase st) = true)
      then None
      else if decide (next_event new st) then Some (current, st') else None
  | Loop _ => Some (current && listening (feed_phase st'), st')
  | Subscribe _ _ => Some (current, st')
  | Resume engagement_id last_seen =>
      if decide (engagement_id = eid)
      then if decide (current = false ∧ listening (feed_phase st) = true ∧ unread st = []
                      ∧ last_seen = last_sequence (omap payload (feed_received st)))
           then Some (true, st') else None
      else Some (current, st')
  | Poll => Some (current, st')
  end.

Fixpoint client_run (es : list feed_event) (c : bool * Feed) : option (bool * Feed) :=
  match es with
  | [] => Some c
  | e :: rest => c' ← client_step e c; client_run rest c'
  end.

End View.
End Feed.

(** ** What a step does to the view of one subscriber *)

Section Facts.
Context `{U : UuidLib, UL : !UuidLaws} `{SE : SerdeErrors} `{JT : !JsonText} `{PG : PgJson}.
Context `{!Broadcast, !BroadcastLaws, !Receiver, !ReceiverLaws}.
Context (eid : Uuid) (batch : option Uuid) (tx : positive).
Implicit Types (st : Feed) (e : feed_event) (batches : Batches).

(** The columns' widths, and that the trigger's text reads back. *)
Definition readable batches (r : EventRow) : Prop :=
  payload_ok (row_payload batches r) ∧ trg_notify_engagement_event batches r ≠ ""%string
  ∧ parse_json_text (trg_notify_engagement_event batches r)
    = Ok (JObject (notify_members batches r)).
Definition event_ok batches e : Prop :=
  match e with Commit r => readable batches r | _ => True end.

Lemma readable_parsed batches r :
  readable batches r →
  parsed (trg_notify_engagement_event batches r) = Some (row_payload batches r).
Proof.
  intros (Hok & Hne & Hparse). unfold parsed. rewrite decide_False by done.
  unfold parse_payload, payload_from_str. rewrite Hparse, notify_members_payload.
  cbn [result_bind]. by rewrite decode_payload.
Qed.

(** [tx] is a live subscription to [eid], whose batch is [batch]. *)
Record feed_ok st : Prop := {
  ok_wf : registry_wf (registry (feed_manager st));
  ok_receiver : receiver_ok (registry (feed_manager st)) tx;
  ok_topic : ∀ q, subscribed (registry (feed_manager st)) q tx ↔ np_engagement_id q = eid;
  ok_batch : db_batches (feed_db st) !! eid = Some batch;
  ok_unique : events_unique (feed_db st);
  ok_idle : listening (feed_phase st) = false → feed_pending st = []
}.

Lemma ok_alive st : feed_ok st → alive_in (channels (registry (feed_manager st))) tx = true.
Proof. intros Hok. apply receiver_ok_alive, Hok. Qed.

(** The channel accepts [new], nothing is read. *)
Definition grows st st' (new : list NotifyPayload) : Prop :=
  seen tx st' = seen tx st ++ new ∧ unread tx st' = unread tx st ++ new
  ∧ feed_received st' = feed_received st.

(** The engagement's share of one row, or of one notification. *)
Definition share (r : EventRow) : list NotifyPayload :=
  if decide (ev_engagement_id r = eid) then [payload_of_row batch r] else [].

Lemma share_row batches r :
  batches !! eid = Some batch → of_engagement eid [row_payload batches r] = share r.
Proof.
  intros Hb. unfold of_engagement, share, row_payload. rewrite filter_cons. simpl.
  case_decide as He; [|done]. unfold batch_of. by rewrite He, Hb.
Qed.

Lemma filter_topic st ps :
  feed_ok st → filter (λ p, subscribed (registry (feed_manager st)) p tx) ps = of_engagement eid ps.
Proof. intros Hok. apply list_filter_iff. intros q. apply (ok_topic _ Hok). Qed.

(** A manager whose registry changed by sends and other subscriptions. *)
Lemma feed_ok_manager st pending ph m new :
  feed_ok st → registry_wf (registry m) → alive_in (channels (registry m)) tx = true →
  reader_of (registry m) tx = reader_of (registry (feed_manager st)) tx →
  log_of (registry m) tx = log_of (registry (feed_manager st)) tx ++ new →
  (∀ q, subscribed (registry m) q tx ↔ subscribed (registry (feed_manager st)) q tx) →
  (listening ph = false → pending = []) →
  let st' := mkFeed (feed_db st) pending ph m (feed_received st) in
  feed_ok st' ∧ grows st st' new.
Proof.
  intros [_ Hr Ht Hb Hu _] Hwf Ha Hread Hlog Hs Hidle st'.
  destruct (receiver_kept _ _ _ _ Hr Hread Ha Hlog) as [Hr' Hun].
  split; [|by split_and!]. split; simpl; try done. intros q. by rewrite Hs, Ht.
Qed.

Lemma grows_nil st st' :
  feed_manager st' = feed_manager st → feed_received st' = feed_received st → grows st st' [].
Proof. unfold grows, seen, unread. intros -> ->. by rewrite !app_nil_r. Qed.

Lemma insert_event_Some r db db' :
  insert_event r db = Some db' →
  db' = mkDatabase (db_events db ++ [r]) (db_batches db)
  ∧ (ev_engagement_id r, ev_sequence r)
      ∉ ((λ r, (ev_engagement_id r, ev_sequence r)) <$> db_events db).
Proof. unfold insert_event. case_decide as Hd; intros; simplify_eq. by destruct Hd. Qed.

Lemma commit_view r st st' :
  feed_ok st → readable (db_batches (feed_db st)) r → feed_step tx (Commit r) st = Some st' →
  feed_ok st' ∧ grows st st' []
  ∧ awaited eid st' = awaited eid st ++ (if listening (feed_phase st) then share r else [])
  ∧ committed eid batch st' = committed eid batch st ++ share r
  ∧ feed_phase st' = feed_phase st ∧ db_batches (feed_db st') = db_batches (feed_db st).
Proof.
  destruct st as [db pending ph m got]. intros Hok Hr Hstep. simpl in *.
  destruct (insert_event r db) as [db'|] eqn:Hi; [|done]. simplify_eq/=.
  apply insert_event_Some in Hi as [-> Hnew]. destruct Hok as [Hwf Ha Ht Hb Hu Hidle]. simpl in *.
  split_and!; [|by apply grows_nil| | |done|done].
  - split; simpl; try done.
    + unfold events_unique. simpl. rewrite fmap_app. apply NoDup_app. split_and!; [done| |].
      * intros x Hx ->%list_elem_of_singleton. done.
      * apply NoDup_singleton.
    + intros Hl. by rewrite (Hidle Hl), Hl.
  - unfold awaited, of_engagement. simpl. rewrite omap_app, filter_app. f_equal.
    destruct (listening ph); [|done]. simpl. rewrite readable_parsed by done.
    by apply share_row.
  - unfold committed. simpl. rewrite filter_app, fmap_app, filter_cons. f_equal. unfold share.
    by case_decide.
Qed.

(** The loop hands over the head of what waits, or nothing; what waits is
    gone when the connection is. *)
Lemma loop_view i st st' :
  feed_ok st → feed_step tx (Loop i) st = Some st' →
  feed_ok st' ∧ feed_db st' = feed_db st
  ∧ ∃ new, grows st st' new
    ∧ (if listening (feed_phase st') then awaited eid st = new ++ awaited eid st'
       else new = [] ∧ awaited eid st' = []).
Proof.
  destruct st as [db pending ph m got]. intros Hok Hstep. cbn [feed_step] in Hstep.
  destruct (run_step i (ph, m)) as [[ph' m']|] eqn:Hrun; simplify_eq/=.
  apply run_step_registry in Hrun. pose proof (ok_wf _ Hok) as Hwf.
      pose proof (ok_alive _ Hok) as Ha.
  simpl in Hwf, Ha. destruct (notification i) as [n|].
  - destruct Hrun as [-> ->], pending as [|n' rest]; simplify_eq/=.
    case_decide; [subst n'|]; simplify_eq/=. pose proof (handle_reader n m tx Hwf) as Hread.
    rewrite handle_parsed in *. unfold awaited. simpl. destruct (parsed n) as [p|]; simpl in *.
    + pose proof (fanout_spec p _ Hwf) as Heff.
      assert (Hlog : log_of (fanout p (registry m)) tx = log_of (registry m) tx
          ++ of_engagement eid [p]).
      { rewrite (fanout_log p _ _ tx Heff Ha). f_equal. unfold of_engagement.
        rewrite filter_cons. pose proof (ok_topic _ Hok p) as Ht. simpl in Ht.
        destruct (decide (subscribed _ p tx)) as [Hin|Hin], (decide (np_engagement_id p = eid));
          first [done | by apply Ht in Hin | by destruct Hin; apply Ht]. }
      destruct (feed_ok_manager _ rest Listening
        (mkManager (fanout p (registry m)) (listen_notify_reconnects_total m)
           (Z.of_nat (queued_event_count (fanout p (registry m)))) (connected_tx m) (signals m))
        (of_engagement eid [p]) Hok (effect_wf p _ _ Heff)) as [Hok' Hgr];
        [|exact Hread|exact Hlog| |done|]; simpl.
      * by rewrite (fanout_alive p _ _ tx Heff).
      * intros q. by apply (fanout_subscribed p).
      * split_and!; [done|done|]. exists (of_engagement eid [p]). split; [done|].
        unfold of_engagement. by rewrite <- filter_app.
    + split_and!; [|done|exists []; split; [by apply grows_nil|done]].
      destruct Hok. by split.
  - simplify_eq/=. unfold awaited. simpl.
    destruct (feed_ok_manager _ (if listening ph' then pending else []) ph' m' [] Hok)
      as [Hok' Hgr]; rewrite ?Hrun; try done; [by rewrite app_nil_r|by intros ->|].
    split_and!; [done|done|]. exists []. split; [done|]. by destruct (listening ph').
Qed.

Lemma subscribe_view b key st st' :
  feed_ok st → feed_step tx (Subscribe b key) st = Some st' →
  feed_ok st' ∧ feed_db st' = feed_db st ∧ feed_pending st' = feed_pending st
  ∧ feed_phase st' = feed_phase st ∧ grows st st' [].
Proof.
  destruct st as [db pending ph m got]. intros Hok Hstep. simplify_eq/=.
  pose proof (subscribe_spec b key _ (ok_wf _ Hok)) as Heff. simpl in Heff.
  pose proof (ok_alive _ Hok) as Halive. simpl in Halive.
  destruct (subscribe_other _ _ _ _ _ tx Heff Halive) as (Ha & Hl & Hs).
  assert (Hread : reader_of (if b then subscribe_engagement key (registry m)
      else subscribe_batch key (registry m)).2 tx = reader_of (registry m) tx).
  { eapply subscribe_reader; [exact Heff|]. unfold alive_in in Halive.
    by destruct (channels (registry m) !! tx). }
  pose proof (sub_wf _ _ _ _ _ Heff) as Hwf.
  destruct (feed_ok_manager _ pending ph (if b then manager_subscribe_engagement key m
    else manager_subscribe_batch key m).2 [] Hok) as [Hok' Hgr];
    try (by destruct b); [rewrite app_nil_r; by destruct b|apply (ok_idle _ Hok)].
Qed.

Lemma resume_view id from st st' :
  feed_ok st → feed_step tx (Resume id from) st = Some st' →
  feed_ok st' ∧ feed_db st' = feed_db st ∧ feed_pending st' = feed_pending st
  ∧ feed_phase st' = feed_phase st
  ∧ grows st st' (if decide (id = eid) then gap_rows (feed_db st) eid from else []).
Proof.
  destruct st as [db pending ph m got]. intros Hok Hstep. simplify_eq/=.
  pose proof (ok_wf _ Hok) as Hwf. pose proof (ok_alive _ Hok) as Ha. simpl in Hwf, Ha.
  destruct (fanout_all_spec (gap_rows db id from) _ tx Hwf Ha) as (Hwf' & Ha' & Hlog).
  pose proof (fanout_all_reader (gap_rows db id from) _ tx Hwf) as Hread.
  assert (Hnew : filter (λ p, subscribed (registry m) p tx) (gap_rows db id from)
    = if decide (id = eid) then gap_rows db eid from else []).
  { rewrite (filter_topic _ _ Hok).
    assert (Hid : ∀ p, p ∈ gap_rows db id from → np_engagement_id p = id).
    { intros p Hp. unfold gap_rows in Hp.
      destruct (db_batches db !! id); [|by apply elem_of_nil in Hp].
      apply list_elem_of_fmap in Hp as (r & -> & Hr). rewrite merge_sort_Permutation in Hr.
      by apply list_elem_of_filter in Hr as [[? _] _]. }
    case_decide as Hd.
    - subst id. by apply filter_all.
    - apply filter_none. intros p Hp He. apply Hd. by rewrite <- (Hid p Hp). }
  rewrite Hnew in Hlog.
  destruct (feed_ok_manager _ pending ph (gap_fill (Ok db) id from m).2 _ Hok Hwf' Ha' Hread Hlog)
    as [Hok' Hgr]; [intros q; by apply fanout_all_subscribed|apply (ok_idle _ Hok)|by split_and!].
Qed.

(** A subscriber that is not too far behind reads all it has not read. *)
Lemma poll_view st st' :
  feed_ok st → feed_step tx Poll st = Some st' →
  feed_ok st' ∧ feed_db st' = feed_db st ∧ feed_pending st' = feed_pending st
  ∧ feed_phase st' = feed_phase st ∧ seen tx st' = seen tx st ∧ unread tx st' = []
  ∧ feed_received st' = feed_received st ++ delivered (unread tx st).
Proof.
  destruct st as [db pending ph m got]. intros Hok Hstep. cbn [feed_step] in Hstep.
  pose proof (ok_wf _ Hok) as Hwf. pose proof (ok_receiver _ Hok) as Hr. simpl in Hwf, Hr.
  destruct (receive_spec _ _ Hwf Hr) as (Hgot & Hr' & Hnil & Hwf' & Hlog & Hsub).
  destruct (receive (registry m) tx) as [rs reg]. simplify_eq/=.
  split_and!; [|done..]. destruct Hok as [_ _ Ht Hb Hu Hidle]. split; simpl in *; try done.
  intros q. by rewrite Hsub.
Qed.

(** Where a subscription starts: nothing received, nothing in the channel. *)
Lemma new_subscription_ok db :
  (subscribe_engagement eid registry_default).1 = tx →
  db_batches db !! eid = Some batch → events_unique db →
  feed_ok (mkFeed db [] AtTop (manager_subscribe_engagement eid manager_new).2 []).
Proof.
  intros Htx Hb Hu. pose proof (subscribe_isolated true eid _ default_registry_wf) as Hs.
  destruct (new_receiver true eid _ default_registry_wf) as [Hr _].
  unfold manager_subscribe_engagement. change (registry manager_new) with registry_default.
  destruct (subscribe_engagement eid _) as [t s]. simpl in Htx. subst t.
  destruct Hs as (Hwf & _ & _ & _ & Hsub & _). by split.
Qed.

(** The missed events are the committed ones above the cursor. *)
Lemma gap_rows_committed st from p :
  feed_ok st →
  p ∈ gap_rows (feed_db st) eid from ↔ p ∈ committed eid batch st ∧ from < np_sequence p.
Proof.
  intros Hok. destruct (gap_rows_spec _ _ from _ (ok_unique _ Hok) (ok_batch _ Hok)) as [-> _].
  unfold committed. rewrite list_elem_of_fmap. setoid_rewrite list_elem_of_filter. split.
  - intros (r & Hr & He & Hl & ->). split; [by exists r|done].
  - intros [(r & -> & He & Hr) Hl]. by exists r.
Qed.

(** Nothing but committed events was sent to the channel, and what was sent is
    read or can be read. *)
Record sound st : Prop := {
  sound_feed : feed_ok st;
  sound_sent : ∀ p, p ∈ seen tx st ++ awaited eid st → p ∈ committed eid batch st;
  sound_lossless : feed_received st ++ (RecvPayload <$> unread tx st) = RecvPayload <$> seen tx st
}.
Definition complete st : Prop :=
  ∀ p, p ∈ committed eid batch st → p ∈ seen tx st ++ awaited eid st.

Lemma grows_lossless st st' new :
  grows st st' new →
  feed_received st ++ (RecvPayload <$> unread tx st) = RecvPayload <$> seen tx st →
  feed_received st' ++ (RecvPayload <$> unread tx st') = RecvPayload <$> seen tx st'.
Proof.
  intros (-> & -> & ->) Heq. by rewrite !fmap_app, (assoc_L (++)), Heq.
Qed.

Lemma delivered_within st :
  within tx st = true → delivered (unread tx st) = RecvPayload <$> unread tx st.
Proof.
  unfold within, delivered, delivered_with. intros Hw%Nat.leb_le. by rewrite decide_True.
Qed.

(** A subscriber that keeps up has got all its channel accepted. *)
Lemma sound_obtained st :
  sound st → within tx st = true → obtained tx st = RecvPayload <$> seen tx st.
Proof.
  intros [Hok _ Hl] Hw. unfold obtained.
  destruct (receive_spec _ _ (ok_wf _ Hok) (ok_receiver _ Hok)) as [-> _].
  fold (unread tx st). by rewrite delivered_within.
Qed.

(** What a step that is neither a commit nor a notification leaves alone. *)
Lemma same_view st st' new :
  feed_db st' = feed_db st → feed_pending st' = feed_pending st → seen tx st' = seen tx st ++ new →
  committed eid batch st' = committed eid batch st ∧ awaited eid st' = awaited eid st
  ∧ db_batches (feed_db st') = db_batches (feed_db st).
Proof. unfold committed, awaited. intros -> -> _. done. Qed.

(** A step only moves payloads from the awaited to the sent ones, adds committed
    ones, and drops some when the connection goes. *)
Lemma step_sound e st st' :
  sound st → event_ok (db_batches (feed_db st)) e → feed_step tx e st = Some st' →
  within tx st = true →
  sound st' ∧ db_batches (feed_db st') = db_batches (feed_db st).
Proof.
  intros [Hok Hs Hl] He Hstep Hw. destruct e as [r|i|b key|id from|].
  - destruct (commit_view r st st' Hok He Hstep) as (Hok' & Hgr & Haw & Hcom & _ & Hb).
    pose proof (grows_lossless _ _ _ Hgr Hl) as Hl'. destruct Hgr as (Hseen & _).
    split; [|done]. split; [done| |done]. intros p. specialize (Hs p).
    rewrite Hseen, Haw, Hcom, app_nil_r, !elem_of_app in *.
    destruct (listening _); rewrite ?elem_of_nil; tauto.
  - destruct (loop_view i st st' Hok Hstep) as (Hok' & Hdb & new & Hgr & Haw).
    pose proof (grows_lossless _ _ _ Hgr Hl) as Hl'. destruct Hgr as (Hseen & _).
    unfold committed in *. rewrite Hdb. split; [|done]. split; [done| |done].
    unfold committed. rewrite Hdb. intros p Hp. apply Hs. rewrite Hseen in Hp.
    destruct (listening _); [rewrite Haw|destruct Haw as [-> Haw]; rewrite Haw in Hp]; in_app.
  - destruct (subscribe_view b key st st' Hok Hstep) as (Hok' & Hdb & Hpend & _ & Hgr).
    pose proof (grows_lossless _ _ _ Hgr Hl) as Hl'. destruct Hgr as (Hseen & _).
    destruct (same_view st st' _ Hdb Hpend Hseen) as (Hcom & Haw & Hb).
    split; [|done]. split; [done| |done]. by rewrite Hcom, Haw, Hseen, app_nil_r.
  - destruct (resume_view id from st st' Hok Hstep) as (Hok' & Hdb & Hpend & _ & Hgr).
    pose proof (grows_lossless _ _ _ Hgr Hl) as Hl'. destruct Hgr as (Hseen & _).
    destruct (same_view st st' _ Hdb Hpend Hseen) as (Hcom & Haw & Hb).
    split; [|done]. split; [done| |done]. rewrite Hcom, Haw, Hseen. intros p Hp.
    case_decide; [|apply Hs; in_app].
    apply elem_of_app in Hp as [[Hp|Hp]%elem_of_app|Hp]; [apply Hs; in_app| |apply Hs; in_app].
    by apply gap_rows_committed in Hp as [? _].
  - destruct (poll_view st st' Hok Hstep) as (Hok' & Hdb & Hpend & _ & Hseen & Hun & Hrec).
    destruct (same_view st st' [] Hdb Hpend) as (Hcom & Haw & Hb); [by rewrite app_nil_r|].
    split; [|done]. split; [done|by rewrite Hcom, Haw, Hseen|].
    by rewrite Hun, Hrec, Hseen, app_nil_r, delivered_within.
Qed.

Lemma stays_listening e st st' :
  feed_ok st → event_ok (db_batches (feed_db st)) e →
  feed_step tx e st = Some st' → stays_connected e = true →
  listening (feed_phase st) = true → listening (feed_phase st') = true.
Proof.
  intros Hok He Hstep Hc Hl. destruct e as [r|i|b key|id from|].
  - by destruct (commit_view r st st' Hok He Hstep) as (_ & _ & _ & _ & -> & _).
  - destruct st as [db pending ph m got], ph; try done. cbn in Hstep.
    destruct i as [[] [] | | [[n|]|] | [n|] |]; simplify_eq/=; try done.
    all: destruct pending; simplify_eq/=; case_decide; by simplify_eq/=.
  - by destruct (subscribe_view b key st st' Hok Hstep) as (_ & _ & _ & -> & _).
  - by destruct (resume_view id from st st' Hok Hstep) as (_ & _ & _ & -> & _).
  - by destruct (poll_view st st' Hok Hstep) as (_ & _ & _ & -> & _).
Qed.

Lemma step_complete e st st' :
  feed_ok st → event_ok (db_batches (feed_db st)) e → feed_step tx e st = Some st' →
  stays_connected e = true → listening (feed_phase st) = true → complete st → complete st'.
Proof.
  intros Hok He Hstep Hc Hl Hs. pose proof (stays_listening e st st' Hok He Hstep Hc Hl) as Hl'.
  unfold complete in *. destruct e as [r|i|b key|id from|].
  - destruct (commit_view r st st' Hok He Hstep) as (_ & (-> & _) & -> & -> & _).
    rewrite Hl. intros p. specialize (Hs p). in_app.
  - destruct (loop_view i st st' Hok Hstep) as (_ & Hdb & new & (-> & _) & Haw).
    rewrite Hl' in Haw. unfold committed. rewrite Hdb. intros p Hp%Hs. rewrite Haw in Hp. in_app.
  - destruct (subscribe_view b key st st' Hok Hstep) as (_ & Hdb & Hpend & _ & (Hseen & _)).
    destruct (same_view st st' _ Hdb Hpend Hseen) as (-> & -> & _). by rewrite Hseen, app_nil_r.
  - destruct (resume_view id from st st' Hok Hstep) as (_ & Hdb & Hpend & _ & (Hseen & _)).
    destruct (same_view st st' _ Hdb Hpend Hseen) as (-> & -> & _). rewrite Hseen.
    intros p Hp%Hs. in_app.
  - destruct (poll_view st st' Hok Hstep) as (_ & Hdb & Hpend & _ & Hseen & _).
    destruct (same_view st st' [] Hdb Hpend) as (-> & -> & _); [by rewrite app_nil_r|].
    by rewrite Hseen.
Qed.

(** Along a run of a subscriber that keeps up. *)
Lemma keeps_up_within es st : keeps_up tx es st = true → within tx st = true.
Proof. destruct es; simpl; by intros [? _]%andb_true_iff. Qed.

Lemma run_sound es st st' :
  sound st → Forall (event_ok (db_batches (feed_db st))) es → feed_run tx es st = Some st' →
  keeps_up tx es st = true →
  sound st' ∧ within tx st' = true ∧ db_batches (feed_db st') = db_batches (feed_db st).
Proof.
  revert st. induction es as [|e es IH]; intros st Hs Hes Hrun Hup.
  { simplify_eq/=. split_and!; [done|by apply (keeps_up_within [])|done]. }
  pose proof (keeps_up_within _ _ Hup) as Hw. apply Forall_cons in Hes as [He Hes].
  cbn [feed_run keeps_up] in Hrun, Hup.
  destruct (feed_step tx e st) as [st1|] eqn:Hstep; [|discriminate].
  apply andb_true_iff in Hup as [_ Hup].
  destruct (step_sound e st st1 Hs He Hstep Hw) as (Hs1 & Hb).
  rewrite <- Hb in Hes. rewrite <- Hb. by apply IH.
Qed.

Lemma run_complete es st st' :
  sound st → Forall (event_ok (db_batches (feed_db st))) es → feed_run tx es st = Some st' →
  keeps_up tx es st = true → forallb stays_connected es = true →
  listening (feed_phase st) = true → complete st → complete st'.
Proof.
  revert st. induction es as [|e es IH]; intros st Hs Hes Hrun Hup Hconn Hl Hc.
  { by simplify_eq/=. }
  pose proof (keeps_up_within _ _ Hup) as Hw. apply Forall_cons in Hes as [He Hes].
  apply andb_true_iff in Hconn as [Hce Hconn]. cbn [feed_run keeps_up] in Hrun, Hup.
  destruct (feed_step tx e st) as [st1|] eqn:Hstep; [|discriminate].
  apply andb_true_iff in Hup as [_ Hup].
  destruct (step_sound e st st1 Hs He Hstep Hw) as (Hs1 & Hb). rewrite <- Hb in Hes.
  pose proof (sound_feed _ Hs) as Hok. apply (IH st1); try done;
    [by apply (stays_listening e st)|by apply (step_complete e st)].
Qed.

(** ** A careful client *)

Definition by_sequence (p q : NotifyPayload) : Prop := np_sequence p < np_sequence q.

(** The engagement's events are numbered upwards, from 1. *)
Definition numbered st : Prop :=
  strictly_sorted by_sequence (committed eid batch st)
  ∧ ∀ p, p ∈ committed eid batch st → 0 < np_sequence p.

(** Its rows in insertion order are those the query sorts. *)
Lemma gap_rows_drop st ps qs :
  feed_ok st → numbered st → committed eid batch st = ps ++ qs →
  gap_rows (feed_db st) eid (last_sequence ps) = qs.
Proof.
  intros Hok [Hsort Hpos] Heq.
  destruct (gap_rows_spec _ _ (last_sequence ps) _ (ok_unique _ Hok) (ok_batch _ Hok)) as [_ Hgap].
  apply (strictly_sorted_eq by_sequence); [intros p; apply Z.lt_irrefl|
    intros p q r; apply Z.lt_trans|exact Hgap| |].
  - rewrite Heq in Hsort. by apply strictly_sorted_app in Hsort as (_ & ? & _).
  - intros p. rewrite gap_rows_committed by done. rewrite Heq in Hsort, Hpos |- *.
    apply strictly_sorted_app in Hsort as (Hps & _ & Hlt). rewrite elem_of_app.
    unfold last_sequence. destruct (last ps) as [x|] eqn:Hlast.
    + apply last_Some in Hlast as [ps' ->]. split.
      * intros [[Hp|Hp] Hx]; [|done]. exfalso.
        apply elem_of_app in Hp as [Hp| ->%list_elem_of_singleton]; [|lia].
        apply strictly_sorted_app in Hps as (_ & _ & Hlt').
        specialize (Hlt' p x Hp ltac:(by left)). unfold by_sequence in Hlt'. lia.
      * intros Hp. split; [by right|]. apply (Hlt x p); [|done]. apply elem_of_app. right. by left.
    + apply last_None in Hlast as ->. split; [intros [[Hp%elem_of_nil|?] _]; done|].
      intros Hp. split; [by right|]. by apply Hpos.
Qed.

(** Up to date: sent and awaited payloads are the committed events.  Not up to
    date: nothing awaited, and what was sent is an initial part of them. *)
Record client_ok (current : bool) st : Prop := {
  client_sound : sound st;
  client_numbered : numbered st;
  client_current : current = true → listening (feed_phase st) = true
    ∧ seen tx st ++ awaited eid st = committed eid batch st;
  client_behind : current = false →
    awaited eid st = [] ∧ seen tx st `prefix_of` committed eid batch st
}.

Lemma numbered_commit st st' r :
  numbered st → next_event eid batch r st → committed eid batch st' = committed eid batch st
      ++ share r →
  numbered st'.
Proof.
  intros [Hsort Hpos] Hnext Heq. unfold numbered, share in *. rewrite Heq. clear Heq.
  case_decide as He; [|by rewrite app_nil_r]. destruct (Hnext He) as [Hall Hr]. split.
  - apply strictly_sorted_app. split_and!; [done| |].
    + apply strictly_sorted_cons. split; [constructor|apply strictly_sorted_nil].
    + intros p q Hp ->%list_elem_of_singleton. rewrite Forall_forall in Hall. by apply Hall.
  - intros p [Hp| ->%list_elem_of_singleton]%elem_of_app; [by apply Hpos|done].
Qed.

(** With an empty channel, everything sent is received. *)
Lemma sound_received st :
  sound st → unread tx st = [] → omap payload (feed_received st) = seen tx st.
Proof.
  intros [_ _ Hl] Hun. rewrite Hun, app_nil_r in Hl. rewrite Hl.
  generalize (seen tx st). intros ps. induction ps as [|p ps IH]; [done|].
  change (p :: omap payload (RecvPayload <$> ps) = p :: ps). by rewrite IH.
Qed.

(** The client's view of a step that keeps the committed events and what is
    awaited. *)
Lemma client_unchanged current st st' :
  client_ok current st → sound st' → feed_phase st' = feed_phase st →
  seen tx st' = seen tx st → committed eid batch st' = committed eid batch st →
  awaited eid st' = awaited eid st → client_ok current st'.
Proof.
  intros [_ Hnum Hcur Hbeh] Hs Hph Hseen Hcom Haw.
  split; [done|unfold numbered; by rewrite Hcom|..]; by rewrite ?Hph, Hseen, Hcom, Haw.
Qed.

Lemma client_step_ok e current st current' st' :
  client_ok current st → event_ok (db_batches (feed_db st)) e → within tx st = true →
  client_step tx eid batch e (current, st) = Some (current', st') →
  client_ok current' st' ∧ feed_step tx e st = Some st'
  ∧ db_batches (feed_db st') = db_batches (feed_db st).
Proof.
  intros Hclient He Hw Hc. pose proof Hclient as [Hs Hnum Hcur Hbeh].
  pose proof (sound_feed _ Hs) as Hok. cbn [client_step] in Hc.
  destruct (feed_step tx e st) as [st1|] eqn:Hstep; [|discriminate]. cbn in Hc.
  destruct (step_sound e st st1 Hs He Hstep Hw) as [Hs1 Hb].
  cut (client_ok current' st1 ∧ st' = st1); [by intros [? ->]|].
  destruct e as [r|i|b key|id from|].
  - destruct (commit_view r st st1 Hok He Hstep) as (_ & (Hseen & _) & Haw & Hcom & Hph & _).
    rewrite app_nil_r in Hseen.
    destruct (decide (ev_engagement_id r = eid ∧ _)) as [|Hd]; [discriminate|].
    case_decide as Hnext; simplify_eq. split; [|done].
    split; [done|by eapply numbered_commit|rewrite Hseen, Haw, Hcom, ?Hph..].
    + intros [Hl Heq]%Hcur. split; [done|]. by rewrite Hl, <- Heq, (assoc_L (++)).
    + intros Hcur'. destruct (Hbeh Hcur') as [-> Hpre].
      split; [|by apply prefix_app_r]. unfold share.
      destruct (listening _) eqn:Hl; [|done]. case_decide; [|done]. by destruct Hd.
  - destruct (loop_view i st st1 Hok Hstep) as (_ & Hdb & new & (Hseen & _) & Haw).
    simplify_eq. split; [|done].
    assert (Hcom : committed eid batch st' = committed eid batch st)
      by (unfold committed; by rewrite Hdb).
    split; [done|unfold numbered; by rewrite Hcom|rewrite Hseen, Hcom..].
    + intros [Hc1 Hl]%andb_true_iff. rewrite Hl in Haw. destruct (Hcur Hc1) as [_ <-].
      split; [done|]. by rewrite Haw, <- (assoc_L (++)).
    + intros Hc'. destruct current; simpl in Hc'.
      * rewrite Hc' in Haw. destruct Haw as [-> ->]. split; [done|]. rewrite app_nil_r.
        destruct (Hcur eq_refl) as [_ <-]. by apply prefix_app_r.
      * destruct (Hbeh eq_refl) as [Hnil Hpre].
        destruct (listening (feed_phase st')).
        -- rewrite Hnil in Haw. symmetry in Haw. apply app_nil in Haw as [-> ->].
           by rewrite app_nil_r.
        -- destruct Haw as [-> ->]. by rewrite app_nil_r.
  - destruct (subscribe_view b key st st1 Hok Hstep) as (_ & Hdb & Hpend & Hph & (Hseen & _)).
    destruct (same_view st st1 _ Hdb Hpend Hseen) as (Hcom & Haw & _). rewrite app_nil_r in Hseen.
    simplify_eq. split; [|done]. by apply (client_unchanged current' st).
  - destruct (resume_view id from st st1 Hok Hstep) as (_ & Hdb & Hpend & Hph & (Hseen & _)).
    destruct (same_view st st1 _ Hdb Hpend Hseen) as (Hcom & Haw & _).
    case_decide as Hid.
    + case_decide as Hd; simplify_eq. destruct Hd as (-> & Hl & Hun & ->). split; [|done].
      rewrite (sound_received st Hs Hun) in Hseen.
      split; [done|unfold numbered; by rewrite Hcom| |done]. intros _. rewrite Hph, Hseen, Hcom,
          Haw.
      destruct (Hbeh eq_refl) as [-> [qs Heq]]. split; [done|].
      by rewrite (gap_rows_drop st _ qs), app_nil_r, Heq.
    + simplify_eq. rewrite app_nil_r in Hseen. split; [|done].
        by apply (client_unchanged current' st).
  - destruct (poll_view st st1 Hok Hstep) as (_ & Hdb & Hpend & Hph & Hseen & _).
    destruct (same_view st st1 [] Hdb Hpend) as (Hcom & Haw & _); [by rewrite app_nil_r|].
    simplify_eq. split; [|done]. by apply (client_unchanged current' st).
Qed.

Lemma client_run_ok es current st current' st' :
  client_ok current st → Forall (event_ok (db_batches (feed_db st))) es →
  keeps_up tx es st = true → client_run tx eid batch es (current, st) = Some (current', st') →
  client_ok current' st' ∧ within tx st' = true.
Proof.
  revert current st. induction es as [|e es IH]; intros current st Hc Hes Hup Hrun.
  { simplify_eq/=. split; [done|by apply (keeps_up_within [])]. }
  pose proof (keeps_up_within _ _ Hup) as Hw.
  apply Forall_cons in Hes as [He Hes]. cbn [client_run keeps_up] in Hrun, Hup.
  destruct (client_step tx eid batch e (current, st)) as [[c1 st1]|] eqn:Hstep; [|discriminate].
  destruct (client_step_ok e current st c1 st1 Hc He Hw Hstep) as (Hc1 & Hfeed & Hb).
  rewrite Hfeed in Hup. apply andb_true_iff in Hup as [_ Hup].
  rewrite <- Hb in Hes. by apply (IH c1 st1).
Qed.

End Facts.

(** ** Properties *)

Section Properties.
Context `{U : UuidLib, UL : !UuidLaws} `{SE : SerdeErrors} `{JT : !JsonText} `{PG : PgJson}.
Context `{!Broadcast, !BroadcastLaws, !Receiver, !ReceiverLaws}.
Context (eid : Uuid) (batch : option Uuid) (tx : positive).


(** A client that empties its channel and resumes after each connect, from
    the last sequence it has received and before the engagement's next event,
    and polls often enough never to be more than 256 payloads behind, follows
    the engagement exactly: through
    any number of lost connections, what it has got is at all times an initial
    part of the committed events, each once and in the order of their sequence,
    without a lag; and while it is up to date only the notifications on their
    way are missing. *)
Theorem resume_exactly_once es st0 current st :
  feed_ok eid batch tx st0 → numbered eid batch st0 →
  unread tx st0 = [] → seen tx st0 = [] → feed_received st0 = [] → awaited eid st0 = [] →
  Forall (event_ok (db_batches (feed_db st0))) es → keeps_up tx es st0 = true →
  client_run tx eid batch es (false, st0) = Some (current, st) →
  ∃ got, obtained tx st = RecvPayload <$> got
  ∧ got `prefix_of` committed eid batch st
  ∧ strictly_sorted by_sequence got
  ∧ (current = true → got ++ awaited eid st = committed eid batch st).
Proof.
  intros Hok Hnum Hun Hseen Hgot Haw Hes Hup Hrun.
  assert (Hs0 : sound eid batch tx st0).
  { split; [done| |by rewrite Hun, Hseen, Hgot]. intros p. rewrite Hseen, Haw.
    by intros ?%elem_of_nil. }
  assert (Hc : client_ok eid batch tx false st0).
  { split; [done|done|done|]. intros _. rewrite Hseen. split; [done|apply prefix_nil]. }
  destruct (client_run_ok eid batch tx es false st0 current st Hc Hes Hup Hrun)
    as [[Hs [Hsort _] Hcur Hbeh] Hw].
  exists (seen tx st). assert (Hpre : seen tx st `prefix_of` committed eid batch st).
  { destruct current; [|by apply Hbeh]. destruct (Hcur eq_refl) as [_ <-]. by apply prefix_app_r. }
  split_and!; [by apply sound_obtained with eid batch|done| |by apply Hcur].
  destruct Hpre as [rest Heq]. rewrite Heq in Hsort. by apply strictly_sorted_app in Hsort as [? _].
Qed.

End Properties.

(** ** Two concrete runs *)
Section Witness.
Import Uuid36 QueueChannel TestJson.

(** The text of [json_build_object]. *)
Local Instance pg_json : PgJson := λ o,
  "{" +:+ String.concat ", " (map (λ kv, quoted (escape kv.1) +:+ " : " +:+ print kv.2) o) +:+ "}".

Definition wit_batches : gmap (@Uuid lib) (option (@Uuid lib)) :=
    {[ one_uuid := Some two_uuid; two_uuid := None ]}.
Definition wit_event (id : t) (n : Z) : EventRow (U := lib) :=
  mkEventRow id two_uuid n (10 * n) 2 (Some
      "00-0af7651916cd43dd8448eb211c80319c-b7ad6b7169203331-01").
Definition wit_text (n : Z) : string := trg_notify_engagement_event (U := lib) wit_batches
    (wit_event one_uuid n).
Definition wit_feed : Feed (U := lib) :=
  mkFeed (mkDatabase [] wit_batches) [] AtTop
    (manager_subscribe_engagement (U := lib) one_uuid manager_new).2 [].

Definition connect : feed_event (U := lib) := Loop (LoopHead false (Ok tt)).
Definition got (n : Z) : feed_event (U := lib) := Loop (Received (Ok (wit_text n))).

Lemma wit_feed_ok : feed_ok (U := lib) one_uuid (Some two_uuid) 1 wit_feed.
Proof.
  apply (new_subscription_ok (U := lib) one_uuid (Some two_uuid) 1 (mkDatabase [] wit_batches));
    [vm_compute; reflexivity|reflexivity|constructor].
Qed.

Ltac readable_events :=
  repeat (apply Forall_cons; split);
  first [exact I | apply Forall_nil; exact I
        | split; [repeat split; discriminate | split; [discriminate | vm_compute; reflexivity]]].

(** Events of two engagements; the connection breaks twice, the second time
    with a notification on its way. *)
Definition wit_session : list (feed_event (U := lib)) :=
  [connect; Resume one_uuid 0; Commit (wit_event one_uuid 1); Commit (wit_event two_uuid 1); got 1;
   Loop (Received (Err "closed"%string)); Commit (wit_event one_uuid 2); Loop Slept; connect; Poll;
   Resume one_uuid 1; Poll; Commit (wit_event one_uuid 3);
   Loop (HealthTick (Err "closed"%string)); Loop Slept; connect; Resume one_uuid 2;
   Commit (wit_event one_uuid 4); got 4; Commit (wit_event one_uuid 5)].

Definition wit_client : bool * Feed (U := lib) :=
  default (false, wit_feed)
    (client_run (U := lib) 1 one_uuid (Some two_uuid) wit_session (false, wit_feed)).

(** The number a receiver is shown. *)
Definition sequences (rs : list (RecvResult (U := lib))) : list Z :=
  np_sequence <$> omap payload rs.

Lemma resume_exactly_once_witness :
  (∃ got, obtained 1 wit_client.2 = RecvPayload <$> got
     ∧ got ++ awaited (U := lib) one_uuid wit_client.2
       = committed one_uuid (Some two_uuid) wit_client.2)
  ∧ sequences (obtained 1 wit_client.2) = [1; 2; 3; 4]
  ∧ np_sequence <$> awaited (U := lib) one_uuid wit_client.2 = [5].
Proof.
  split; [|split; vm_compute; reflexivity].
  destruct (resume_exactly_once (U := lib) one_uuid (Some two_uuid) 1 wit_session wit_feed
    wit_client.1 wit_client.2) as (got & Hgot & _ & _ & Hall).
  - exact wit_feed_ok.
  - split; [apply strictly_sorted_nil|by intros p ?%elem_of_nil].
  - vm_compute. reflexivity.
  - vm_compute. reflexivity.
  - reflexivity.
  - reflexivity.
  - readable_events.
  - vm_compute. reflexivity.
  - unfold wit_client.
    assert (is_Some (client_run (U := lib) 1 one_uuid (Some two_uuid) wit_session
        (false, wit_feed)))
      as [[c st] ->] by (apply (bool_decide_unpack _); vm_compute; exact I).
    reflexivity.
  - exists got. split; [exact Hgot|]. apply Hall. vm_compute. reflexivity.
Defined.

(** The next event arrives before the client resumes: the missed one comes
    late, and the next one twice. *)
Definition wit_outage : list (feed_event (U := lib)) :=
  [connect; Commit (wit_event one_uuid 1); got 1; Loop (Received (Err "closed"%string)); Poll;
   Commit (wit_event one_uuid 2); Loop Slept; connect; Commit (wit_event one_uuid 3); got 3].
Definition wit_after : list (feed_event (U := lib)) := [Poll; Commit (wit_event one_uuid 4)].

Definition wit_reconnected : Feed (U := lib) := default wit_feed (feed_run 1 wit_outage wit_feed).
Definition wit_resumed : Feed (U := lib) :=
  default wit_feed (feed_step 1 (Resume one_uuid 1) wit_reconnected).
Definition wit_end : Feed (U := lib) := default wit_feed (feed_run 1 wit_after wit_resumed).

Local Instance payload_eq_dec : EqDecision (NotifyPayload (U := lib)).
Proof. solve_decision. Defined.
Local Instance result_eq_dec : EqDecision (RecvResult (U := lib)).
Proof. solve_decision. Defined.


End Witness.
