(* ===== verification/NotifyTests.v ===== *)
(** * The unit tests of [notify.rs]

    The state is the subscriber registry with its channels, next to the random
    source; a receiver is the address of its channel. *)
From Stdlib Require Import ZArith Lia.
From stdpp Require Import base list gmap strings sorting.
From S2P Require Import Prelude Uuids UnitTest SerdeJson Notify NotifySpec NotifyPayloadJson TestJson.
From S2P Require Import MockPeer.
Import Uuid36 QueueChannel TestJson CountingEnv.

#[export] Instance NotifyPayload_eq_dec : EqDecision (NotifyPayload (U := lib)).
Proof. solve_decision. Defined.

Local Abbreviation World := ((Z * nat) * Registry (U := lib))%type.
Local Abbreviation Payload := (NotifyPayload (U := lib)).

(** [Registry::default()] and the methods of the registry and of a receiver. *)
Definition registry_new : io Registry unit := λ _, (Value tt, registry_default).
Definition subscribing (f : Registry → positive * Registry) : io Registry positive := λ s,
  let '(rx, s') := f s in (Value rx, s').
Definition fanning_out (p : Payload) : io Registry unit := λ s, (Value tt, fanout p s).
Definition with_channels (cs : gmap positive Channel) (s : Registry (U := lib)) : Registry :=
  mkRegistry (inner s) cs.
Definition try_recv (rx : positive) : io Registry (result Payload RecvResult) := λ s,
  match channels s !! rx with
  | Some c =>
      let '(r, c') := chan_try_recv c in
      (Value (match r with RecvPayload p => Ok p | e => Err e end),
       with_channels (<[rx := c']> (channels s)) s)
  | None => (Panicked, s)
  end.
Definition drop_receiver (rx : positive) : io Registry unit := λ s,
  (Value tt, with_channels (alter chan_drop rx (channels s)) s).
Definition locked_inner : io Registry RegistryInner := λ s, (Value (inner s), s).

(** [Uuid::parse_str(..).unwrap()]. *)
Definition parse_str (s : string) : io World Uuid := unwrap (uuid_parse s).

Definition payload_round_trips_with_all_fields : test World :=
  do e <- draw_uuid ;;
  do o <- draw_uuid ;;
  do b <- draw_uuid ;;
  let original := mkNotifyPayload e o (Some b) 42 1001 3
      (Some "00-4bf92f3577b34da6a3ce929d0e0e4736-00f067aa0ba902b7-01"%string) in
  let json := payload_to_string original in
  do decoded <- unwrap (parse_payload json) ;;
  assert_eq original decoded.

Definition payload_round_trips_with_null_fields : test World :=
  do e <- draw_uuid ;;
  do o <- draw_uuid ;;
  let original := mkNotifyPayload e o None 1 7 1 None in
  let json := payload_to_string original in
  do decoded <- unwrap (parse_payload json) ;;
  assert_eq original decoded.

Definition payload_json_size_under_200_bytes_typical_case : test World :=
  do e <- parse_str "550e8400-e29b-41d4-a716-446655440000" ;;
  do o <- parse_str "550e8400-e29b-41d4-a716-446655440001" ;;
  let payload := mkNotifyPayload e o None 42 1001 1 None in
  let json := payload_to_string payload in
  assert_ (String.length json <? 200)%nat.

Definition payload_json_size_worst_case_documented : test World :=
  do e <- parse_str "550e8400-e29b-41d4-a716-446655440000" ;;
  do o <- parse_str "550e8400-e29b-41d4-a716-446655440001" ;;
  do b <- parse_str "550e8400-e29b-41d4-a716-446655440002" ;;
  let payload := mkNotifyPayload e o (Some b) 9999999999 9999999999 32767
    (Some "00-4bf92f3577b34da6a3ce929d0e0e4736-00f067aa0ba902b7-01"%string) in
  let json := payload_to_string payload in
  assert_ (String.length json <? 400)%nat.

Definition payload_malformed_json_does_not_panic : test World :=
  assert_ (is_err (parse_payload (U := lib) "{not valid json}")).

(** The raw string of the test, whose quotes are written by [print] here. *)
Definition payload_missing_required_field_is_error : test World :=
  let json := print (JObject [("organization_id", JString "550e8400-e29b-41d4-a716-446655440001");
                ("sequence", JInt 1); ("event_pk", JInt 1); ("event_type", JInt 1)]%string) in
  assert_ (is_err (parse_payload (U := lib) json)).

(** [sort_by_key] is a stable sort. *)
Definition by_sequence (p q : Payload) : Prop := np_sequence p ≤ np_sequence q.
#[local] Instance by_sequence_dec p q : Decision (by_sequence p q).
Proof. unfold by_sequence. apply _. Defined.

Definition sequence_order_is_independent_of_occurred_at : test World :=
  do e1 <- draw_uuid ;;
  do o1 <- draw_uuid ;;
  do e2 <- draw_uuid ;;
  do o2 <- draw_uuid ;;
  let payloads := merge_sort by_sequence
    [mkNotifyPayload e1 o1 None 2 200 2 None; mkNotifyPayload e2 o2 None 1 100 1 None] in
  do p0 <- unwrap_some (payloads !! 0%nat) ;;
  do _ <- assert_eq (np_sequence p0) 1 ;;
  do p1 <- unwrap_some (payloads !! 1%nat) ;;
  assert_eq (np_sequence p1) 2.

Definition fanout_delivers_to_engagement_subscriber : test World :=
  do _ <- on_subject registry_new ;;
  do engagement_id <- draw_uuid ;;
  do rx <- on_subject (subscribing (subscribe_engagement engagement_id)) ;;
  do o <- draw_uuid ;;
  let payload := mkNotifyPayload engagement_id o None 1 1 1 None in
  do _ <- on_subject (fanning_out payload) ;;
  do r <- on_subject (try_recv rx) ;;
  do received <- unwrap r ;;
  assert_eq received payload.

Definition fanout_delivers_to_batch_subscriber : test World :=
  do _ <- on_subject registry_new ;;
  do batch_id <- draw_uuid ;;
  do rx <- on_subject (subscribing (subscribe_batch batch_id)) ;;
  do e <- draw_uuid ;;
  do o <- draw_uuid ;;
  let payload := mkNotifyPayload e o (Some batch_id) 1 1 1 None in
  do _ <- on_subject (fanning_out payload) ;;
  do r <- on_subject (try_recv rx) ;;
  do received <- unwrap r ;;
  assert_eq received payload.

Definition fanout_does_not_deliver_to_wrong_engagement : test World :=
  do _ <- on_subject registry_new ;;
  do engagement_id <- draw_uuid ;;
  do other_id <- draw_uuid ;;
  do rx <- on_subject (subscribing (subscribe_engagement other_id)) ;;
  do o <- draw_uuid ;;
  let payload := mkNotifyPayload engagement_id o None 1 1 1 None in
  do _ <- on_subject (fanning_out payload) ;;
  do r <- on_subject (try_recv rx) ;;
  assert_ (is_err r).

(** The receiver goes out of scope at the end of the inner block. *)
Definition fanout_prunes_dead_senders : test World :=
  do _ <- on_subject registry_new ;;
  do engagement_id <- draw_uuid ;;
  do _rx <- on_subject (subscribing (subscribe_engagement engagement_id)) ;;
  do _ <- on_subject (drop_receiver _rx) ;;
  do o <- draw_uuid ;;
  let payload := mkNotifyPayload engagement_id o None 1 1 1 None in
  do _ <- on_subject (fanning_out payload) ;;
  do inner <- on_subject locked_inner ;;
  assert_ (negb (bool_decide (is_Some (by_engagement inner !! engagement_id)))).

Definition multiple_subscribers_all_receive : test World :=
  do _ <- on_subject registry_new ;;
  do engagement_id <- draw_uuid ;;
  do rx1 <- on_subject (subscribing (subscribe_engagement engagement_id)) ;;
  do rx2 <- on_subject (subscribing (subscribe_engagement engagement_id)) ;;
  do o <- draw_uuid ;;
  let payload := mkNotifyPayload engagement_id o None 1 1 1 None in
  do _ <- on_subject (fanning_out payload) ;;
  do r1 <- on_subject (try_recv rx1) ;;
  do p1 <- unwrap r1 ;;
  do _ <- assert_eq p1 payload ;;
  do r2 <- on_subject (try_recv rx2) ;;
  do p2 <- unwrap r2 ;;
  assert_eq p2 payload.

Definition notify_tests : list (test World) :=
  [payload_round_trips_with_all_fields;
   payload_round_trips_with_null_fields;
   payload_json_size_under_200_bytes_typical_case;
   payload_json_size_worst_case_documented;
   payload_malformed_json_does_not_panic;
   payload_missing_required_field_is_error;
   sequence_order_is_independent_of_occurred_at;
   fanout_delivers_to_engagement_subscriber;
   fanout_delivers_to_batch_subscriber;
   fanout_does_not_deliver_to_wrong_engagement;
   fanout_prunes_dead_senders;
   multiple_subscribers_all_receive].

Lemma notify_tests_pass :
  Forall (λ t, passes t ((0, 0%nat), registry_default) = true) notify_tests.
Proof. unfold notify_tests. run_closed_tests. Qed.
