(* ===== verification/SpanProcessor.v ===== *)
(** * The counting span processor

    Models [crates/engagement-hub/src/telemetry/processor.rs]: [on_end] on the
    application's threads, the background task that batches and exports, and
    [shutdown].  [tokio::sync::mpsc] is the class [Mpsc]; the exporter, under
    its five-second timeout, is the class [SpanExporter] on an environment.
    A [select!] wakes on one of its arms: a run is any interleaving of wakes,
    ended spans and shutdown calls. *)
From Stdlib Require Import ZArith Lia.
From stdpp Require Import base list.
From S2P Require Import Prelude.

Definition QUEUE_CAPACITY : nat := 2048.
Definition MAX_BATCH : nat := 512.
Definition SCHEDULE_DELAY : Duration := from_secs 1.
Definition EXPORT_TIMEOUT : Duration := from_secs 5.
Definition SHUTDOWN_TIMEOUT : Duration := from_secs 5.

Class Mpsc (A : Type) := {
  Queue : Type;
  mpsc_channel : nat → Queue;
  (** [tx.try_send(a).is_ok()]. *)
  try_send : A → Queue → bool * Queue;
  (** [rx.try_recv().ok()], and what [rx.recv()] yields when it is ready. *)
  try_recv : Queue → option (A * Queue);
  (** [rx.close()]. *)
  rx_close : Queue → Queue;
  (** The messages accepted and not yet received, oldest first. *)
  pending : Queue → list A;
  is_closed : Queue → bool
}.

Class MpscLaws (A : Type) `{!Mpsc A} : Prop := {
  channel_pending : ∀ n, pending (mpsc_channel n) = [];
  channel_open : ∀ n, is_closed (mpsc_channel n) = false;
  try_send_pending : ∀ a q, pending (try_send a q).2
    = if (try_send a q).1 then pending q ++ [a] else pending q;
  try_send_closed : ∀ a q, is_closed q = true → (try_send a q).1 = false;
  try_send_is_closed : ∀ a q, is_closed (try_send a q).2 = is_closed q;
  try_recv_spec : ∀ q, match try_recv q with
    | Some (a, q') => pending q = a :: pending q' ∧ is_closed q' = is_closed q
    | None => pending q = []
    end;
  close_pending : ∀ q, pending (rx_close q) = pending q;
  close_closed : ∀ q, is_closed (rx_close q) = true
}.

(** [timeout(EXPORT_TIMEOUT, exporter.export(batch)).await]. *)
Inductive export_end := Exported | ExportFailed | TimedOut.

Class SpanExporter (W Span : Type) := {
  export : list Span → W → export_end * W;
  exporter_shutdown : W → W
}.

Section Processor.
Context {W Span : Type} `{!Mpsc Span} `{!SpanExporter W Span}.

(** The processor and its task: [exports] is the history of batches handed to
    the exporter with their ends, [stopped] that the task has returned. *)
Record CountingSpanProcessor := mkProcessor {
  env : W;
  rx : Queue;
  batch : list Span;
  dropped : Z;
  shutdown_tx : bool;
  task_handle : bool;
  signalled : bool;
  stopped : bool;
  exports : list (list Span * export_end)
}.

Definition new_with_capacity (w : W) (dropped0 : Z) (capacity : nat) : CountingSpanProcessor :=
  mkProcessor w (mpsc_channel capacity) [] dropped0 true true false false [].
Definition processor_new (w : W) (dropped0 : Z) : CountingSpanProcessor :=
  new_with_capacity w dropped0 QUEUE_CAPACITY.

Definition on_start (s : CountingSpanProcessor) : CountingSpanProcessor := s.
(** Buffered spans are not drained. *)
Definition force_flush (s : CountingSpanProcessor)
  : result unit String.string * CountingSpanProcessor := (Ok tt, s).
Definition on_end (span : Span) (s : CountingSpanProcessor) : CountingSpanProcessor :=
  let '(ok, q) := try_send span (rx s) in
  mkProcessor (env s) q (batch s) (if ok then dropped s else dropped s + 1)
    (shutdown_tx s) (task_handle s) (signalled s) (stopped s) (exports s).

(** Take both halves; a second call finds [None] and does nothing. *)
Definition shutdown (s : CountingSpanProcessor) : CountingSpanProcessor :=
  mkProcessor (env s) (rx s) (batch s) (dropped s) false false
    (signalled s || shutdown_tx s) (stopped s) (exports s).

(** [std::mem::take(&mut batch)] and the match on the export's end. *)
Definition export_batch (s : CountingSpanProcessor) : CountingSpanProcessor :=
  let to_send := batch s in
  let batch_len := Z.of_nat (length to_send) in
  let '(e, w) := export to_send (env s) in
  mkProcessor w (rx s) []
    (match e with Exported => dropped s | ExportFailed | TimedOut => dropped s + batch_len end)
    (shutdown_tx s) (task_handle s) (signalled s) (stopped s) (exports s ++ [(to_send, e)]).

Definition with_batch (q : Queue) (b : list Span) (s : CountingSpanProcessor)
  : CountingSpanProcessor :=
  mkProcessor (env s) q b (dropped s) (shutdown_tx s) (task_handle s) (signalled s) (stopped s)
    (exports s).

(** [batch.push(span); if batch.len() >= MAX_BATCH { export }]. *)
Definition push_span (span : Span) (q : Queue) (s : CountingSpanProcessor)
  : CountingSpanProcessor :=
  let s' := with_batch q (batch s ++ [span]) s in
  if (MAX_BATCH <=? length (batch s'))%nat then export_batch s' else s'.

(** The arms of the [select!]. *)
Definition on_tick (s : CountingSpanProcessor) : CountingSpanProcessor :=
  match batch s with [] => s | _ => export_batch s end.

Definition on_recv (s : CountingSpanProcessor) : CountingSpanProcessor :=
  match try_recv (rx s) with Some (span, q) => push_span span q s | None => s end.

(** [while let Ok(span) = rx.try_recv()]: [fuel] bounds the iterations. *)
Fixpoint drain (fuel : nat) (s : CountingSpanProcessor) : CountingSpanProcessor :=
  match fuel with
  | O => s
  | S fuel' =>
      match try_recv (rx s) with
      | Some (span, q) => drain fuel' (push_span span q s)
      | None => s
      end
  end.

Definition finish (s : CountingSpanProcessor) : CountingSpanProcessor :=
  mkProcessor (exporter_shutdown (env s)) (rx s) (batch s) (dropped s) (shutdown_tx s)
    (task_handle s) (signalled s) true (exports s).

Definition on_shutdown (s : CountingSpanProcessor) : CountingSpanProcessor :=
  let s1 := with_batch (rx_close (rx s)) (batch s) s in
  let s2 := drain (length (pending (rx s1))) s1 in
  let s3 := match batch s2 with [] => s2 | _ => export_batch s2 end in
  finish s3.

(** ** Runs

    [runs s0 accepted rejected s]: from [s0] the system reaches [s], and the
    spans ended meanwhile were accepted (in this order) or rejected. *)
Inductive runs (s0 : CountingSpanProcessor) : list Span → nat → CountingSpanProcessor → Prop :=
| runs_start : runs s0 [] 0 s0
| runs_on_end acc rej s span :
    runs s0 acc rej s →
    runs s0 (if (try_send span (rx s)).1 then acc ++ [span] else acc)
            (if (try_send span (rx s)).1 then rej else S rej) (on_end span s)
| runs_shutdown_call acc rej s : runs s0 acc rej s → runs s0 acc rej (shutdown s)
| runs_tick acc rej s : runs s0 acc rej s → stopped s = false → runs s0 acc rej (on_tick s)
| runs_recv acc rej s : runs s0 acc rej s → stopped s = false → runs s0 acc rej (on_recv s)
| runs_on_shutdown acc rej s :
    runs s0 acc rej s → stopped s = false → signalled s = true →
    runs s0 acc rej (on_shutdown s).

(** ** Facts *)

Context `{!MpscLaws Span}.

(** Spans whose export failed or timed out. *)
Definition lost_in (e : list Span * export_end) : Z :=
  match e.2 with Exported => 0 | _ => Z.of_nat (length e.1) end.
Definition lost (es : list (list Span * export_end)) : Z := foldr (λ e n, lost_in e + n) 0 es.

Lemma lost_app es es' : lost (es ++ es') = lost es + lost es'.
Proof.
  unfold lost. induction es as [|e es IH]; cbn [foldr app]; [lia|]. rewrite IH. lia.
Qed.

(** What holds between the steps of a run. *)
Record invariant (d0 : Z) (acc : list Span) (rej : nat) (s : CountingSpanProcessor) : Prop := {
  inv_order : concat (exports s).*1 ++ batch s ++ pending (rx s) = acc;
  inv_dropped : dropped s = d0 + Z.of_nat rej + lost (exports s);
  inv_sizes : Forall (λ b, (0 < length b ≤ MAX_BATCH)%nat) (exports s).*1;
  inv_batch : (length (batch s) < MAX_BATCH)%nat;
  inv_stopped : stopped s = true → batch s = [] ∧ pending (rx s) = [] ∧ is_closed (rx s) = true
}.

(** Exporting moves the batch to the history; the queue does not matter. *)
Lemma export_batch_spec s :
  rx (export_batch s) = rx s ∧ batch (export_batch s) = []
  ∧ stopped (export_batch s) = stopped s
  ∧ (exports (export_batch s)).*1 = (exports s).*1 ++ [batch s]
  ∧ dropped (export_batch s) - lost (exports (export_batch s)) = dropped s - lost (exports s).
Proof.
  unfold export_batch. destruct (export (batch s) (env s)) as [e w]; simpl.
  rewrite lost_app, fmap_app. simpl. unfold lost_in. simpl. split_and!;
      [done..|destruct e; simpl; lia].
Qed.

Lemma push_span_spec span q s :
  (length (batch s) < MAX_BATCH)%nat → Forall (λ b, (0 < length b ≤ MAX_BATCH)%nat) (exports s).*1 →
  let s' := push_span span q s in
  rx s' = q ∧ stopped s' = stopped s
  ∧ concat (exports s').*1 ++ batch s' = concat (exports s).*1 ++ batch s ++ [span]
  ∧ dropped s' - lost (exports s') = dropped s - lost (exports s)
  ∧ (length (batch s') < MAX_BATCH)%nat
  ∧ Forall (λ b, (0 < length b ≤ MAX_BATCH)%nat) (exports s').*1.
Proof.
  intros Hlen Hsizes s'. subst s'. unfold push_span. cbn [batch with_batch].
  destruct (Nat.leb_spec MAX_BATCH (length (batch s ++ [span]))) as [Hge|Hlt].
  - destruct (export_batch_spec (with_batch q (batch s ++ [span]) s)) as (Hrx & Hb & Hst & He & Hd).
    rewrite Hrx, Hb, Hst, He. split_and!; [done|done| | |simpl; unfold MAX_BATCH; lia|].
    + rewrite concat_app. simpl. by rewrite !app_nil_r.
    + exact Hd.
    + apply Forall_app. split; [done|]. constructor; [|done].
      cbn [batch with_batch]. rewrite length_app in *. cbn [length] in *. lia.
  - split_and!; try done.
Qed.

Lemma drain_spec fuel s :
  (length (batch s) < MAX_BATCH)%nat → Forall (λ b, (0 < length b ≤ MAX_BATCH)%nat) (exports s).*1 →
  (length (pending (rx s)) ≤ fuel)%nat →
  let s' := drain fuel s in
  pending (rx s') = [] ∧ stopped s' = stopped s ∧ is_closed (rx s') = is_closed (rx s)
  ∧ concat (exports s').*1 ++ batch s' = concat (exports s).*1 ++ batch s ++ pending (rx s)
  ∧ dropped s' - lost (exports s') = dropped s - lost (exports s)
  ∧ (length (batch s') < MAX_BATCH)%nat
  ∧ Forall (λ b, (0 < length b ≤ MAX_BATCH)%nat) (exports s').*1.
Proof.
  revert s. induction fuel as [|fuel IH]; intros s Hb Hs Hf s'.
  - assert (Hnil : pending (rx s) = []) by (destruct (pending (rx s)); [done|simpl in Hf; lia]).
    subst s'. simpl. rewrite Hnil, app_nil_r. done.
  - subst s'. cbn [drain]. pose proof (try_recv_spec (rx s)) as Hrecv.
    destruct (try_recv (rx s)) as [[span q]|].
    + destruct Hrecv as [Hp Hc].
      destruct (push_span_spec span q s Hb Hs) as (Hrx & Hst & Ho & Hd & Hb' & Hs').
      destruct (IH (push_span span q s)) as (H1 & H2 & H3 & H4 & H5 & H6 & H7); [done|done| |].
      { rewrite Hrx. rewrite Hp in Hf. simpl in Hf. lia. }
      split_and!; [done|congruence|by rewrite H3, Hrx| |lia|done|done].
      rewrite H4, Hrx, Hp, (assoc_L (++)), Ho, <- !(assoc_L (++)). done.
    + rewrite Hrecv, app_nil_r. done.
Qed.

Lemma invariant_export d0 acc rej s :
  invariant d0 acc rej s → stopped s = false → batch s ≠ [] → invariant d0 acc rej (export_batch s).
Proof.
  intros [Ho Hd Hs Hb _] Hst Hne.
  destruct (export_batch_spec s) as (Hrx & Hb' & Hst' & He & Hd'). split.
  - rewrite Hrx, Hb', He, concat_app, <- Ho. simpl. by rewrite app_nil_r, <- (assoc_L (++)).
  - lia.
  - rewrite He. apply Forall_app. split; [done|]. constructor; [|done].
    destruct (batch s); [done|]. simpl in *. lia.
  - rewrite Hb'. simpl. unfold MAX_BATCH. lia.
  - congruence.
Qed.

Lemma invariant_on_end d0 acc rej s span :
  invariant d0 acc rej s →
  invariant d0 (if (try_send span (rx s)).1 then acc ++ [span] else acc)
    (if (try_send span (rx s)).1 then rej else S rej) (on_end span s).
Proof.
  intros [Ho Hd Hs Hb Hst]. unfold on_end.
  pose proof (try_send_pending span (rx s)) as Hp.
  pose proof (try_send_is_closed span (rx s)) as Hc.
  pose proof (try_send_closed span (rx s)) as Hclosed.
  destruct (try_send span (rx s)) as [ok q]; simpl in *. split; simpl.
  - rewrite Hp. destruct ok; [|done]. by rewrite <- Ho, <- !(assoc_L (++)).
  - rewrite Hd. destruct ok; lia.
  - done.
  - done.
  - intros Hst'. destruct (Hst Hst') as (Hbn & Hpn & Hcl). rewrite Hclosed in * by done.
    rewrite Hp, Hc. done.
Qed.

Lemma invariant_recv d0 acc rej s :
  invariant d0 acc rej s → stopped s = false → invariant d0 acc rej (on_recv s).
Proof.
  intros Hinv Hst. pose proof Hinv as [Ho Hd Hs Hb _]. unfold on_recv.
  pose proof (try_recv_spec (rx s)) as Hrecv. destruct (try_recv (rx s)) as [[span q]|]; [|done].
  destruct Hrecv as [Hp Hc].
  destruct (push_span_spec span q s Hb Hs) as (Hrx & Hst' & Ho' & Hd' & Hb' & Hs').
  split; [|lia|done|done|congruence].
  rewrite Hrx, (assoc_L (++)), Ho', <- Ho, Hp, <- !(assoc_L (++)). done.
Qed.

Lemma invariant_on_shutdown d0 acc rej s :
  invariant d0 acc rej s → invariant d0 acc rej (on_shutdown s).
Proof.
  intros [Ho Hd Hs Hb _]. unfold on_shutdown.
  set (s1 := with_batch (rx_close (rx s)) (batch s) s).
  destruct (drain_spec (length (pending (rx s1))) s1 Hb Hs ltac:(done))
    as (Hp & Hst & Hc & Ho' & Hd' & Hb' & Hs').
  set (s2 := drain _ s1) in *.
  assert (Hp1 : pending (rx s1) = pending (rx s)) by apply close_pending.
  assert (Hc1 : is_closed (rx s2) = true) by (rewrite Hc; apply close_closed).
  assert (Hall : concat (exports s2).*1 ++ batch s2 = acc) by (rewrite Ho', Hp1; exact Ho).
  change (dropped s1) with (dropped s) in Hd'. change (exports s1) with (exports s) in Hd'.
  destruct (export_batch_spec s2) as (Hrx3 & Hb3 & _ & He3 & Hd3).
  destruct (batch s2) as [|x l] eqn:Hbs; split; simpl; rewrite ?Hrx3, ?Hb3, ?He3, ?Hp, ?Hbs.
  - exact Hall.
  - lia.
  - done.
  - simpl. lia.
  - done.
  - rewrite concat_app. simpl. by rewrite !app_nil_r.
  - lia.
  - apply Forall_app. split; [done|]. constructor; [|done]. simpl in *. lia.
  - simpl. unfold MAX_BATCH. lia.
  - done.
Qed.

Lemma runs_invariant w d0 cap acc rej s :
  runs (new_with_capacity w d0 cap) acc rej s → invariant d0 acc rej s.
Proof.
  induction 1 as [|acc rej s span Hr IH|acc rej s Hr IH|acc rej s Hr IH Hst|acc rej s Hr IH Hst
                 |acc rej s Hr IH Hst Hsig].
  - split; simpl; [apply channel_pending|lia|constructor|unfold MAX_BATCH; lia|done].
  - by apply invariant_on_end.
  - destruct IH. by split.
  - unfold on_tick. destruct (batch s) eqn:Hb; [done|].
    apply invariant_export; [done|done|congruence].
  - by apply invariant_recv.
  - by apply invariant_on_shutdown.
Qed.

(** The task catches up: it receives what waits, one span per turn. *)
Lemma receive_all s0 acc rej n s :
  runs s0 acc rej s → stopped s = false → length (pending (rx s)) = n →
  let s' := Nat.iter n on_recv s in
  runs s0 acc rej s' ∧ stopped s' = false ∧ pending (rx s') = [].
Proof.
  revert s. induction n as [|n IH]; intros s Hruns Hst Hn; [by apply nil_length_inv in Hn|].
  rewrite Nat.iter_succ_r. apply IH; [by apply runs_recv| |];
    unfold on_recv; pose proof (try_recv_spec (rx s)) as Hrecv;
    (destruct (try_recv (rx s)) as [[span q]|]; [|by rewrite Hrecv in Hn]);
    destruct Hrecv as [Hp _]; rewrite Hp in Hn; injection Hn as Hn; unfold push_span;
    destruct (_ <=? _)%nat; try done;
    destruct (export_batch_spec (with_batch q (batch s ++ [span]) s)) as (Hrx & _ & Hst' & _).
  - by rewrite Hst'.
  - by rewrite Hrx.
Qed.

Lemma tick_empties s : batch (on_tick s) = [] ∧ rx (on_tick s) = rx s.
Proof.
  unfold on_tick. destruct (batch s) eqn:Hb; [done|].
  by destruct (export_batch_spec s) as (? & ? & _).
Qed.

(** What an exporter does along a run: a relation between its environment and
    the history that every export and the final shutdown keep. *)
Section Environment.
Context (I : W → list (list Span * export_end) → Prop).
Hypothesis (I_export : ∀ w es b, I w es → I (export b w).2 (es ++ [(b, (export b w).1)])).
Hypothesis (I_shutdown : ∀ w es, I w es → I (exporter_shutdown w) es).

Lemma export_batch_env s : I (env s) (exports s)
    → I (env (export_batch s)) (exports (export_batch s)).
Proof.
  intros H. unfold export_batch. pose proof (I_export _ _ (batch s) H) as He.
  by destruct (export (batch s) (env s)) as [e w].
Qed.

Lemma push_span_env span q s : I (env s) (exports s) →
  I (env (push_span span q s)) (exports (push_span span q s)).
Proof. intros H. unfold push_span. destruct (_ <=? _)%nat; [by apply export_batch_env|done]. Qed.

Lemma drain_env fuel s : I (env s) (exports s) → I (env (drain fuel s)) (exports (drain fuel s)).
Proof.
  revert s. induction fuel as [|fuel IH]; intros s H; [done|]. cbn [drain].
  destruct (try_recv (rx s)) as [[span q]|]; [|done]. by apply IH, push_span_env.
Qed.

Lemma runs_env w d0 cap acc rej s : I w [] → runs (new_with_capacity w d0 cap) acc rej s →
  I (env s) (exports s).
Proof.
  intros H0. induction 1 as [|acc rej s span Hr IH| |
      |acc rej s Hr IH Hst|acc rej s Hr IH Hst Hsig];
    try done.
  - unfold on_end. by destruct (try_send span (rx s)).
  - unfold on_tick. destruct (batch s); [done|by apply export_batch_env].
  - unfold on_recv. destruct (try_recv (rx s)) as [[span q]|]; [by apply push_span_env|done].
  - unfold on_shutdown. apply I_shutdown.
    set (s2 := drain _ _). assert (I (env s2) (exports s2)) by by apply drain_env.
    destruct (batch s2); [done|by apply export_batch_env].
Qed.

End Environment.

(** ** Properties *)

(** C16. No span is lost without being counted, and none is exported twice, by
    an exporter that does not panic ([SpanCrash] has one that does).  In
    every run, the spans accepted by [on_end] are, in order, those handed to
    the exporter, those in the current batch and those still queued; the
    dropped counter has grown by exactly the spans rejected by [on_end] and
    those in batches whose export failed or timed out; every exported batch
    has 1 to 512 spans. *)
Theorem spans_conserved w d0 cap acc rej s :
  runs (new_with_capacity w d0 cap) acc rej s →
  concat (exports s).*1 ++ batch s ++ pending (rx s) = acc
  ∧ dropped s = d0 + Z.of_nat rej + lost (exports s)
  ∧ Forall (λ b, (1 ≤ length b ≤ 512)%nat) (exports s).*1
  ∧ (length (batch s) < 512)%nat.
Proof.
  intros [Ho Hd Hs Hb _]%runs_invariant. split_and!; [done|done|exact Hs|exact Hb].
Qed.

(** C31. Shutdown flushes: once the task has stopped, every accepted span has
    been handed to the exporter, the queue is empty and closed, and each span
    ended afterwards is dropped and counted.  Stopping takes one shutdown call:
    later calls of [shutdown] change nothing.  Nor does export wait for the
    shutdown: a running task that receives the spans waiting, one per turn, and
    then ticks has handed over everything accepted so far. *)
Theorem shutdown_flushes w d0 cap acc rej s :
  runs (new_with_capacity w d0 cap) acc rej s →
  (stopped s = true → concat (exports s).*1 = acc
     ∧ ∀ span, dropped (on_end span s) = dropped s + 1 ∧ (try_send span (rx s)).1 = false)
  ∧ (stopped s = false → shutdown_tx s = true ∨ signalled s = true →
     stopped (on_shutdown (shutdown s)) = true
     ∧ runs (new_with_capacity w d0 cap) acc rej (on_shutdown (shutdown s)))
  ∧ shutdown (shutdown s) = shutdown s
  ∧ (stopped s = false →
     let s' := on_tick (Nat.iter (length (pending (rx s))) on_recv s) in
     runs (new_with_capacity w d0 cap) acc rej s' ∧ concat (exports s').*1 = acc).
Proof.
  intros Hruns. pose proof (runs_invariant _ _ _ _ _ _ Hruns) as [Ho _ _ _ Hst]. split_and!.
  - intros Hstop. destruct (Hst Hstop) as (Hb & Hp & Hc). rewrite Hb, Hp, !app_nil_r in Ho.
    split; [done|]. intros span. pose proof (try_send_closed span (rx s) Hc) as Hsend.
    unfold on_end. destruct (try_send span (rx s)) as [ok q]; simpl in *. by subst ok.
  - intros Hrun Hsig. split; [done|].
    apply runs_on_shutdown; [by apply runs_shutdown_call|done|].
    simpl. destruct Hsig as [-> | ->]; [apply orb_true_r|done].
  - unfold shutdown. simpl. by rewrite orb_false_r.
  - intros Hrun. destruct (receive_all _ _ _ _ s Hruns Hrun eq_refl) as (Hr & Hst' & Hp).
    set (s1 := Nat.iter _ on_recv s) in *. cbn zeta. pose proof (runs_tick _ _ _ _ Hr Hst') as Ht.
    split; [done|]. destruct (tick_empties s1) as [Hb Hrx].
    destruct (runs_invariant _ _ _ _ _ _ Ht) as [Ho' _ _ _ _].
    by rewrite Hb, Hrx, Hp, !app_nil_r in Ho'.
Qed.

End Processor.

(** ** A concrete queue, and the hypotheses at a concrete run *)
Section Witness.

Record Ring A := mkRing { ring_cap : nat; ring_items : list A; ring_closed : bool }.
Arguments mkRing {A}.
Arguments ring_cap {A}.
Arguments ring_items {A}.
Arguments ring_closed {A}.

Local Instance ring_mpsc {A} : Mpsc A := {|
  Queue := Ring A;
  mpsc_channel n := mkRing n [] false;
  try_send a q :=
    if ring_closed q || (ring_cap q <=? length (ring_items q))%nat then (false, q)
    else (true, mkRing (ring_cap q) (ring_items q ++ [a]) false);
  try_recv q :=
    match ring_items q with
    | [] => None
    | a :: l => Some (a, mkRing (ring_cap q) l (ring_closed q))
    end;
  rx_close q := mkRing (ring_cap q) (ring_items q) true;
  pending := ring_items;
  is_closed := ring_closed
|}.
Local Instance ring_laws {A} : MpscLaws A.
Proof.
  split; try done.
  - intros a [cap l c]; simpl. by destruct (_ || _).
  - intros a [cap l c]; simpl. by intros ->.
  - intros a [cap l []]; simpl; [done|]. by destruct (_ <=? _)%nat.
  - by intros [cap [|a l] c].
Qed.
Local Instance failing_exporter : SpanExporter unit nat :=
  {| export _ w := (ExportFailed, w); exporter_shutdown w := w |}.

(** One slot: the second span is rejected, the first is lost by the exporter. *)
Definition small : CountingSpanProcessor := new_with_capacity (W := unit) (Span := nat) tt 0 1.

Lemma small_run : runs small [7%nat] 1 (on_shutdown (shutdown (on_end 8%nat (on_end 7%nat small)))).
Proof.
  apply runs_on_shutdown; [|reflexivity|reflexivity]. apply runs_shutdown_call.
  apply (runs_on_end small [7%nat] 0 (on_end 7%nat small) 8%nat).
  apply (runs_on_end small [] 0 small 7%nat). apply runs_start.
Qed.

Lemma spans_conserved_witness :
  dropped (on_shutdown (shutdown (on_end 8%nat (on_end 7%nat small)))) = 0 + Z.of_nat 1 + 1.
Proof. exact (proj1 (proj2 (spans_conserved tt 0 1 _ _ _ small_run))). Defined.

Lemma shutdown_flushes_witness :
  concat (exports (on_shutdown (shutdown (on_end 8%nat (on_end 7%nat small))))).*1 = [7%nat].
Proof. exact (proj1 (proj1 (shutdown_flushes tt 0 1 _ _ _ small_run) eq_refl)). Defined.

End Witness.
