(* ===== verification/SpanDrain.v ===== *)
(** * The drain loop of the span processor terminates

    [while let Ok(span) = rx.try_recv()] of [run_background] in
    [crates/engagement-hub/src/telemetry/processor.rs] has no bound of its own:
    it stops when the closed channel is empty.  Here it is a step relation; it
    is well founded, the fuelled [drain] of [SpanProcessor] is its only end,
    and the number of exports it makes, each cut off by [EXPORT_TIMEOUT], is
    computed. *)
From Stdlib Require Import ZArith Lia.
From stdpp Require Import base list relations.
From S2P Require Import Prelude SpanProcessor.

Section Drain.
Context {W Span : Type} `{!Mpsc Span, !MpscLaws Span} `{!SpanExporter W Span}.
Implicit Types (s : CountingSpanProcessor (W := W) (Span := Span)).

(** One iteration of the loop. *)
Inductive drain_step s : CountingSpanProcessor → Prop :=
| drain_one span q : try_recv (rx s) = Some (span, q) → drain_step s (push_span span q s).

Lemma drain_step_fun s s1 s2 : drain_step s s1 → drain_step s s2 → s1 = s2.
Proof. intros [span q H1] [span' q' H2]. congruence. Qed.

Lemma push_span_rx span q s : rx (push_span span q s) = q.
Proof.
  unfold push_span. case_match; [|done]. by destruct
      (export_batch_spec (with_batch q (batch s ++ [span]) s)).
Qed.

(** Each iteration takes one span off the queue. *)
Lemma drain_step_pending s s' :
  drain_step s s' → length (pending (rx s)) = S (length (pending (rx s'))).
Proof.
  intros [span q Hrecv]. pose proof (try_recv_spec (rx s)) as Hspec. rewrite Hrecv in Hspec.
  destruct Hspec as [-> _]. by rewrite push_span_rx.
Qed.

Lemma drain_step_none s : pending (rx s) = [] → ¬ red drain_step s.
Proof. intros Hp [s' Hstep]. apply drain_step_pending in Hstep. by rewrite Hp in Hstep. Qed.

Lemma drain_step_some s : pending (rx s) ≠ [] → ∃ s', drain_step s s'.
Proof.
  intros Hp. pose proof (try_recv_spec (rx s)) as Hspec.
  destruct (try_recv (rx s)) as [[span q]|] eqn:Hr; [|done]. eexists. by econstructor.
Qed.

Lemma drain_nsteps n s :
  length (pending (rx s)) = n → nsteps drain_step n s (drain n s) ∧ pending (rx (drain n s)) = [].
Proof.
  revert s. induction n as [|n IH]; intros s Hn.
  - apply nil_length_inv in Hn. split; [constructor|done].
  - assert (Hp : pending (rx s) ≠ []) by (by intros Hp; rewrite Hp in Hn).
    destruct (drain_step_some s Hp) as [s' Hstep].
        pose proof (drain_step_pending _ _ Hstep) as Hlen.
    destruct (IH s') as [Hn' He]; [lia|]. destruct Hstep as [span q Hrecv].
    cbn [drain]. rewrite Hrecv. split; [|done]. econstructor; [by constructor|done].
Qed.

Lemma drain_unique n s s' :
  length (pending (rx s)) = n → rtc drain_step s s' → nf drain_step s' → s' = drain n s.
Proof.
  intros Hn Hsteps Hnf. revert n Hn. induction Hsteps as [s|s s1 s' Hstep Hsteps IH]; intros n Hn.
  - destruct n as [|n]; [done|]. destruct (drain_step_some s) as [s' Hs'].
    + intros Hp. by rewrite Hp in Hn.
    + destruct Hnf. by exists s'.
  - pose proof (drain_step_pending _ _ Hstep) as Hlen. destruct n as [|n]; [lia|].
    rewrite (IH Hnf n ltac:(lia)). destruct Hstep as [span q Hrecv]. cbn [drain]. by rewrite Hrecv.
Qed.

Lemma drain_acc s : Acc (flip drain_step) s.
Proof.
  remember (length (pending (rx s))) as n eqn:Hn. revert s Hn.
  induction n as [|n IH]; intros s Hn; constructor; intros s' Hstep; red in Hstep;
    apply drain_step_pending in Hstep; [lia|]. apply IH. lia.
Qed.

(** ** The exports it makes *)

Lemma export_batch_length s :
  length (exports (export_batch s)) = S (length (exports s)) ∧ batch (export_batch s) = [].
Proof.
  unfold export_batch. destruct (export (batch s) (env s)) as [e w]; simpl.
  rewrite length_app; simpl. split; [lia|done].
Qed.

Lemma push_span_counts span q s :
  (length (batch s) < MAX_BATCH)%nat →
  (length (exports (push_span span q s)) * MAX_BATCH + length (batch (push_span span q s))
   = length (exports s) * MAX_BATCH + length (batch s) + 1)%nat
  ∧ (length (batch (push_span span q s)) < MAX_BATCH)%nat.
Proof.
  intros Hb. unfold push_span. cbn [batch with_batch].
  destruct (Nat.leb_spec MAX_BATCH (length (batch s ++ [span]))) as [Hge|Hlt];
    rewrite length_app in *; cbn [length] in *.
  - destruct (export_batch_length (with_batch q (batch s ++ [span]) s)) as [-> ->].
    cbn [exports with_batch length]. unfold MAX_BATCH in *. lia.
  - cbn [exports batch with_batch]. rewrite length_app. cbn [length]. lia.
Qed.

Lemma drain_counts n s :
  length (pending (rx s)) = n → (length (batch s) < MAX_BATCH)%nat →
  (length (exports (drain n s)) * MAX_BATCH + length (batch (drain n s))
   = length (exports s) * MAX_BATCH + (length (batch s) + n))%nat
  ∧ (length (batch (drain n s)) < MAX_BATCH)%nat.
Proof.
  revert s. induction n as [|n IH]; intros s Hn Hb; [cbn [drain]; lia|].
  destruct (drain_step_some s) as [s' Hstep]; [by intros Hp; rewrite Hp in Hn|].
  pose proof (drain_step_pending _ _ Hstep) as Hlen. destruct Hstep as [span q Hrecv].
  cbn [drain]. rewrite Hrecv. destruct (push_span_counts span q s Hb) as [Hc Hb'].
  destruct (IH (push_span span q s)) as [Hc' Hb'']; [lia|done|]. lia.
Qed.

Definition exports_needed (n : nat) : nat := ((n + (MAX_BATCH - 1)) / MAX_BATCH)%nat.

Lemma exports_needed_spec k b :
  (b < MAX_BATCH)%nat →
  exports_needed (k * MAX_BATCH + b) = (k + if decide (b = 0) then 0 else 1)%nat.
Proof.
  intros Hb. unfold exports_needed. case_decide as Hd; symmetry; unfold MAX_BATCH in *.
  - apply (Nat.div_unique _ _ _ 511); lia.
  - apply (Nat.div_unique _ _ _ (b - 1)); lia.
Qed.

Lemma on_shutdown_exports s :
  (length (batch s) < MAX_BATCH)%nat →
  (length (exports (on_shutdown s))
   = length (exports s) + exports_needed (length (batch s) + length (pending (rx s))))%nat.
Proof.
  intros Hb. unfold on_shutdown. set (s1 := with_batch (rx_close (rx s)) (batch s) s).
  assert (Hp : pending (rx s1) = pending (rx s)) by apply close_pending.
  destruct (drain_counts (length (pending (rx s1))) s1 eq_refl Hb) as [Hc Hb'].
  set (s2 := drain _ s1) in *. rewrite Hp in Hc.
  change (batch s1) with (batch s) in Hc. change (exports s1) with (exports s) in Hc.
  set (k := (length (exports s2) - length (exports s))%nat).
  assert (Hge : (length (exports s) ≤ length (exports s2))%nat) by (unfold MAX_BATCH in *; lia).
  assert (Hsum : (length (batch s) + length (pending (rx s)) = k * MAX_BATCH + length
      (batch s2))%nat)
    by (unfold k, MAX_BATCH in *; lia).
  rewrite Hsum, exports_needed_spec by done.
  destruct (export_batch_length s2) as [He _].
  destruct (batch s2) as [|x l]; cbn [finish exports length].
  - rewrite decide_True by done. lia.
  - rewrite decide_False by done. cbn in He. lia.
Qed.

(** C32. The background task's drain terminates: its iterations are well
    founded, one per span still queued; the loop's only end is the state
    [drain] computes, with an empty queue.  The whole shutdown arm then makes
    one export per started batch of 512 spans, so that with every export cut
    off after 5 s it returns within 5 s times that number: within the 5 s
    [shutdown] waits for at most 512 spans. *)
Theorem drain_terminates s :
  (length (batch s) < MAX_BATCH)%nat →
  let n := length (pending (rx s)) in
  let made := (length (exports (on_shutdown s)) - length (exports s))%nat in
  Acc (flip drain_step) s
  ∧ nsteps drain_step n s (drain n s) ∧ pending (rx (drain n s)) = []
  ∧ (∀ s', rtc drain_step s s' → nf drain_step s' → s' = drain n s)
  ∧ stopped (on_shutdown s) = true
  ∧ made = exports_needed (length (batch s) + n)
  ∧ (Z.of_nat made * EXPORT_TIMEOUT ≤ SHUTDOWN_TIMEOUT ↔ (length (batch s) + n ≤ 512)%nat).
Proof.
  intros Hb n made. destruct (drain_nsteps n s eq_refl) as [Hsteps Hempty].
  assert (Hmade : made = exports_needed (length (batch s) + n))
    by (unfold made; rewrite on_shutdown_exports by done; unfold n; lia).
  split_and!; [|done|done| |done|done|].
  - apply drain_acc.
  - intros s'. by apply drain_unique.
  - rewrite Hmade. unfold exports_needed, EXPORT_TIMEOUT, SHUTDOWN_TIMEOUT, MAX_BATCH.
    set (x := (length (batch s) + n)%nat).
    pose proof (Nat.div_mod (x + (512 - 1)) 512 ltac:(lia)).
    pose proof (Nat.mod_upper_bound (x + (512 - 1)) 512 ltac:(lia)).
    unfold from_secs. lia.
Qed.

End Drain.

(** ** At a concrete queue *)
Section Witness.

Local Instance list_mpsc : Mpsc nat := {|
  Queue := list nat * bool;
  mpsc_channel _ := ([], false);
  try_send a q := if q.2 then (false, q) else (true, (q.1 ++ [a], false));
  try_recv q := match q.1 with [] => None | a :: l => Some (a, (l, q.2)) end;
  rx_close q := (q.1, true);
  pending := fst;
  is_closed := snd
|}.
Local Instance list_mpsc_laws : MpscLaws nat.
Proof.
  split; try done.
  - by intros a [l []].
  - intros a [l c]; simpl. by intros ->.
  - by intros a [l []].
  - by intros [[|a l] c].
Qed.
Local Instance hanging_exporter : SpanExporter unit nat :=
  {| export _ w := (TimedOut, w); exporter_shutdown w := w |}.

(** 513 queued spans: two exports, so 10 s when both hang. *)
Definition busy : CountingSpanProcessor (W := unit) (Span := nat) :=
  Nat.iter 513 (on_end 7%nat) (processor_new tt 0).

Lemma drain_terminates_witness :
  (length (batch busy) < MAX_BATCH)%nat ∧
  ((length (exports (on_shutdown busy)) - length (exports busy))%nat = 2%nat
   ∧ nsteps drain_step 513 busy (drain 513 busy)).
Proof.
  assert (Hb : (length (batch busy) < MAX_BATCH)%nat) by (vm_compute; lia).
  split; [exact Hb|].
  destruct (drain_terminates busy Hb) as (_ & Hsteps & _ & _ & _ & Hmade & _).
  split; [rewrite Hmade; vm_compute; reflexivity|exact Hsteps].
Defined.

End Witness.
