(* ===== verification/SpanCrash.v ===== *)
(** * A span exporter that panics

    The unit tests of [telemetry/mod.rs] give one of two processors an exporter
    that panics and expect the other to go on.  Here is what becomes of the
    processor it belongs to: the panic unwinds [run_background] of
    [telemetry/processor.rs], which drops its receiver, its batch and the
    exporter, while the processor itself stays installed in the provider. *)
From Stdlib Require Import ZArith Lia.
From stdpp Require Import base list relations.
From S2P Require Import Prelude SpanProcessor SpanDrain.

(** Dropping a [Receiver]: the channel is closed and its messages are freed. *)
Class MpscDrop (A : Type) `{!Mpsc A} := rx_drop : Queue → Queue.
Class MpscDropLaws (A : Type) `{!Mpsc A, !MpscDrop A} : Prop := {
  drop_pending : ∀ q, pending (rx_drop q) = [];
  drop_closed : ∀ q, is_closed (rx_drop q) = true
}.

Section Crash.
Context {W Span : Type} `{!Mpsc Span, !MpscLaws Span} `{!SpanExporter W Span}.
Context `{!MpscDrop Span, !MpscDropLaws Span}.
Implicit Types (s t u : CountingSpanProcessor (W := W) (Span := Span)).

(** ** Where an arm of the loop calls the exporter

    [exporting s t]: from [s] the task reaches the state [t] whose batch it is
    about to hand over. *)
Definition closing s : CountingSpanProcessor := with_batch (rx_close (rx s)) (batch s) s.

Inductive exporting s : CountingSpanProcessor → Prop :=
| exporting_tick : batch s ≠ [] → exporting s s
| exporting_recv span q :
    try_recv (rx s) = Some (span, q) → (MAX_BATCH ≤ length (batch s ++ [span]))%nat →
    exporting s (with_batch q (batch s ++ [span]) s)
| exporting_drain u span q :
    signalled s = true → rtc drain_step (closing s) u →
    try_recv (rx u) = Some (span, q) → (MAX_BATCH ≤ length (batch u ++ [span]))%nat →
    exporting s (with_batch q (batch u ++ [span]) u)
| exporting_last u :
    signalled s = true → rtc drain_step (closing s) u → pending (rx u) = [] → batch u ≠ [] →
    exporting s u.

(** The unwound task: the batch went to the exporter, the receiver is gone. *)
Definition crashed (w : W) t : CountingSpanProcessor :=
  mkProcessor w (rx_drop (rx t)) [] (dropped t) (shutdown_tx t) (task_handle t) (signalled t) true
    (exports t).

(** ** Facts *)

Lemma invariant_push d0 acc rej s span q :
  invariant d0 acc rej s → stopped s = false → try_recv (rx s) = Some (span, q) →
  invariant d0 acc rej (push_span span q s).
Proof.
  intros Hinv Hst Hrecv. pose proof (invariant_recv _ _ _ _ Hinv Hst) as H.
  unfold on_recv in H. by rewrite Hrecv in H.
Qed.

Lemma push_span_stopped span q s : stopped (push_span span q s) = stopped s.
Proof.
  unfold push_span. case_match; [|done].
  by destruct (export_batch_spec (with_batch q (batch s ++ [span]) s)) as (_ & _ & -> & _).
Qed.

Lemma invariant_draining d0 acc rej s u :
  rtc drain_step s u → invariant d0 acc rej s → stopped s = false →
  invariant d0 acc rej u ∧ stopped u = false.
Proof.
  induction 1 as [s|s s1 u Hstep _ IH]; intros Hinv Hst; [done|].
  destruct Hstep as [span q Hrecv].
  apply IH; [by apply invariant_push|by rewrite push_span_stopped].
Qed.

Lemma invariant_closing d0 acc rej s :
  invariant d0 acc rej s → stopped s = false → invariant d0 acc rej (closing s).
Proof.
  intros [Ho Hd Hs Hb _] Hst. split; try done; [|by cbn; rewrite Hst].
  cbn. by rewrite close_pending.
Qed.

(** Up to the call every accepted span is in the history, the batch or the
    queue, and none is counted for the batch. *)
Definition accounted (d0 : Z) (acc : list Span) (rej : nat) t : Prop :=
  concat (exports t).*1 ++ batch t ++ pending (rx t) = acc
  ∧ dropped t = d0 + Z.of_nat rej + lost (exports t).

Lemma accounted_received d0 acc rej s span q :
  invariant d0 acc rej s → try_recv (rx s) = Some (span, q) →
  accounted d0 acc rej (with_batch q (batch s ++ [span]) s).
Proof.
  intros [Ho Hd _ _ _] Hrecv. pose proof (try_recv_spec (rx s)) as Hspec. rewrite Hrecv in Hspec.
  destruct Hspec as [Hp _]. split; [|done]. cbn. by rewrite <- Ho, Hp, <- !(assoc_L (++)).
Qed.

Lemma exporting_accounted d0 acc rej s t :
  invariant d0 acc rej s → stopped s = false → exporting s t →
  accounted d0 acc rej t ∧ batch t ≠ [].
Proof.
  intros Hinv Hst He.
  assert (Hdrain : ∀ u, rtc drain_step (closing s) u → invariant d0 acc rej u).
  { intros u Hu. eapply (invariant_draining _ _ _ _ _ Hu); [by apply invariant_closing|done]. }
  assert (Hne : ∀ (b : list Span) x, b ++ [x] ≠ []) by (intros []; discriminate).
  destruct He as [Hb|span q Hrecv _|u span q _ Hu Hrecv _|u _ Hu _ Hb].
  - split; [by destruct Hinv|done].
  - split; [by apply accounted_received|apply Hne].
  - split; [apply accounted_received; [by apply Hdrain|done]|apply Hne].
  - split; [by destruct (Hdrain u Hu)|done].
Qed.

(** A processor whose task is gone accepts nothing more. *)
Lemma runs_stopped s0 acc rej s :
  stopped s0 = true → is_closed (rx s0) = true → runs s0 acc rej s →
  acc = [] ∧ stopped s = true ∧ is_closed (rx s) = true ∧ exports s = exports s0
  ∧ dropped s = dropped s0 + Z.of_nat rej.
Proof.
  intros Hst Hc. induction 1 as [|acc rej s span Hr IH|acc rej s Hr IH| | |];
    [split_and!; done || lia| |exact IH|destruct_and?; congruence..].
  destruct IH as (-> & Hs & Hcl & He & Hd). unfold on_end.
  pose proof (try_send_closed span _ Hcl) as Hsend.
  pose proof (try_send_is_closed span (rx s)) as Hcl'.
  destruct (try_send span (rx s)) as [ok q]; cbn in *. subst ok.
  split_and!; [done|done|congruence|done|lia].
Qed.

(** ** Property *)

(** C17. A panic of the exporter, in any of the four places the task calls it,
    ends the task for good: every later span is rejected and counted, and no
    batch is exported any more.  The spans accepted before are those of the
    finished exports, the batch the exporter was given, which is not empty, and
    those still queued, in this order; neither that batch nor the queued spans
    are in the dropped counter, which counts the rejected spans and the failed
    exports alone. *)
Theorem exporter_panic w d0 cap acc rej s t w' acc' rej' s' :
  runs (new_with_capacity w d0 cap) acc rej s → stopped s = false → exporting s t →
  runs (crashed w' t) acc' rej' s' →
  stopped s' = true ∧ acc' = [] ∧ exports s' = exports t
  ∧ acc = concat (exports s').*1 ++ batch t ++ pending (rx t) ∧ batch t ≠ []
  ∧ dropped s' = d0 + Z.of_nat (rej + rej') + lost (exports s')
  ∧ ∀ span, dropped (on_end span s') = dropped s' + 1.
Proof.
  intros Hruns Hst He Hafter.
  destruct (exporting_accounted d0 acc rej s t) as [[Hacc Hd] Hne];
    [by eapply runs_invariant|done|done|].
  destruct (runs_stopped (crashed w' t) _ _ _ eq_refl (drop_closed (rx t)) Hafter) as
      (-> & Hs' & Hc & Hes & Hd').
  cbn in Hes, Hd'. rewrite Hes. split_and!; try done; [lia|].
  intros span. unfold on_end. pose proof (try_send_closed span _ Hc) as Hsend.
  destruct (try_send span (rx s')) as [ok q]; cbn in *. by subst ok.
Qed.

End Crash.

(** ** A panic at the first tick, with a span waiting *)
Section Witness.
Local Existing Instance ring_mpsc.
Local Existing Instance ring_laws.
Local Existing Instance failing_exporter.
Local Instance ring_drop : MpscDrop nat := λ q, mkRing nat (ring_cap nat q) [] true.
Local Instance ring_drop_laws : MpscDropLaws nat.
Proof. by split. Qed.

Definition one_slot : CountingSpanProcessor := new_with_capacity (W := unit) (Span := nat) tt 0 1.
(** Span 7 is in the batch, span 8 in the queue. *)
Definition loaded : CountingSpanProcessor := on_end 8%nat (on_recv (on_end 7%nat one_slot)).

Lemma loaded_run : runs one_slot [7; 8]%nat 0 loaded.
Proof.
  apply (runs_on_end one_slot [7%nat] 0 (on_recv (on_end 7%nat one_slot)) 8%nat).
  apply runs_recv; [|done].
  apply (runs_on_end one_slot [] 0 one_slot 7%nat). apply runs_start.
Qed.

Lemma exporter_panic_witness :
  dropped (on_end 9%nat (crashed tt loaded)) = 1
  ∧ [7; 8]%nat = concat (exports loaded).*1 ++ batch loaded ++ pending (rx loaded).
Proof.
  destruct (exporter_panic tt 0 1 [7; 8]%nat 0 loaded loaded tt [] 1
      (on_end 9%nat (crashed tt loaded))
    loaded_run eq_refl ltac:(by constructor)
    (runs_on_end _ [] 0 (crashed tt loaded) 9%nat (runs_start _)))
    as (_ & _ & _ & Hacc & _ & Hd & _).
  split; [exact Hd|exact Hacc].
Defined.

End Witness.
