(* ===== verification/Config.v ===== *)
(** * Configuration

    Models [crates/engagement-hub/src/config.rs] and the configuration part of
    [main] ([crates/engagement-hub/src/main.rs] lines 20-43).  Parsing of the
    command line and environment is clap's; its result is the argument of
    [boot].  A socket address is its text. *)
From Stdlib Require Import ZArith Lia.
From stdpp Require Import base strings.
From S2P Require Import Prelude.

Inductive LogFormat := Json | Pretty.
Inductive Env := Dev | Staging | Production.
Inductive RegistryAdapter := Stub | Grpc.

#[export] Instance LogFormat_eq_dec : EqDecision LogFormat.
Proof. solve_decision. Defined.
#[export] Instance Env_eq_dec : EqDecision Env.
Proof. solve_decision. Defined.
#[export] Instance RegistryAdapter_eq_dec : EqDecision RegistryAdapter.
Proof. solve_decision. Defined.

Definition env_as_metric_label (e : Env) : string :=
  match e with Dev => "dev" | Staging => "staging" | Production => "production" end.
Definition adapter_as_metric_label (a : RegistryAdapter) : string :=
  match a with Stub => "stub" | Grpc => "grpc" end.

Record Config := mkConfig {
  env : Env;
  registry_adapter : RegistryAdapter;
  track_0_idle_mode : bool;
  database_url : string;
  external_grpc_addr : string;
  internal_grpc_addr : string;
  http_addr : string;
  db_pool_min : Z;
  db_pool_max : Z;
  db_idle_timeout_secs : Z;
  db_statement_timeout_ms : Z;
  db_slow_query_ms : Z;
  db_acquire_timeout_secs : Z;
  db_max_lifetime_secs : Z;
  log_format : LogFormat;
  otel_export_grafana : bool;
  otel_export_langfuse : bool;
  otel_export_local : bool;
  otel_grafana_endpoint : string;
  otel_langfuse_endpoint : string;
  langfuse_public_key : option string;
  langfuse_secret_key : option string
}.

Inductive ConfigError := ProdStubWithoutIdle | StatementTimeoutDisabled | LangfuseKeysMissing.

(** [!s.is_empty()]. *)
Definition nonempty (s : string) : bool := negb (bool_decide (s = ""%string)).

Definition langfuse_keys_present (c : Config) : bool :=
  match langfuse_public_key c, langfuse_secret_key c with
  | Some pk, Some sk => nonempty pk && nonempty sk
  | _, _ => false
  end.

Definition validate (c : Config) : result unit ConfigError :=
  if bool_decide (env c = Production) && bool_decide (registry_adapter c = Stub)
     && negb (track_0_idle_mode c)
  then Err ProdStubWithoutIdle
  else if db_statement_timeout_ms c =? 0 then Err StatementTimeoutDisabled
  else if otel_export_langfuse c then
    if langfuse_keys_present c then Ok tt else Err LangfuseKeysMissing
  else Ok tt.

Definition bind_external_port (c : Config) : bool := negb (track_0_idle_mode c).

(** The three exporter toggles replaced. *)
Definition with_toggles (grafana langfuse local : bool) (c : Config) : Config :=
  mkConfig (env c) (registry_adapter c) (track_0_idle_mode c) (database_url c)
    (external_grpc_addr c) (internal_grpc_addr c) (http_addr c) (db_pool_min c) (db_pool_max c)
    (db_idle_timeout_secs c) (db_statement_timeout_ms c) (db_slow_query_ms c)
    (db_acquire_timeout_secs c) (db_max_lifetime_secs c) (log_format c)
    grafana langfuse local (otel_grafana_endpoint c) (otel_langfuse_endpoint c)
    (langfuse_public_key c) (langfuse_secret_key c).

Definition set_grafana (c : Config) : Config :=
  with_toggles true (otel_export_langfuse c) (otel_export_local c) c.
Definition set_langfuse (c : Config) : Config :=
  with_toggles (otel_export_grafana c) true (otel_export_local c) c.
Definition set_local (c : Config) : Config :=
  with_toggles (otel_export_grafana c) (otel_export_langfuse c) true c.

Definition apply_otel_local_default (c : Config) (var_set : bool) : Config :=
  if negb var_set && bool_decide (env c = Dev) then set_local c else c.

(** An unknown value only prints a message. *)
Definition apply_otel_type_legacy (c : Config) (otel_type : option string) : Config :=
  match otel_type with
  | Some t =>
      if decide (t = "collector"%string) then set_grafana c
      else if decide (t = "langfuse"%string) then set_langfuse c
      else if decide (t = "both"%string) then set_langfuse (set_grafana c)
      else c
  | None => c
  end.

(** [main] up to the metrics: the final configuration, or the exit code. *)
Definition boot (parsed : Config) (local_var_set : bool) (otel_type : option string)
  : result Config Z :=
  match validate parsed with
  | Err _ => Err 78
  | Ok _ =>
      let cfg := apply_otel_local_default parsed local_var_set in
      match otel_type with
      | None => Ok cfg
      | Some t =>
          let cfg' := apply_otel_type_legacy cfg (Some t) in
          match validate cfg' with Err _ => Err 78 | Ok _ => Ok cfg' end
      end
  end.

(** ** Properties *)

(** What the three checks require, as propositions. *)
Definition stub_allowed (c : Config) : Prop :=
  ¬ (env c = Production ∧ registry_adapter c = Stub ∧ track_0_idle_mode c = false).
Definition keys_ok (c : Config) : Prop :=
  otel_export_langfuse c = true →
  ∃ pk sk, langfuse_public_key c = Some pk ∧ langfuse_secret_key c = Some sk
    ∧ pk ≠ ""%string ∧ sk ≠ ""%string.

Lemma langfuse_keys_present_spec c :
  langfuse_keys_present c = true ↔ ∃ pk sk,
    langfuse_public_key c = Some pk ∧ langfuse_secret_key c = Some sk
    ∧ pk ≠ ""%string ∧ sk ≠ ""%string.
Proof.
  unfold langfuse_keys_present, nonempty. split.
  - destruct (langfuse_public_key c) as [pk|], (langfuse_secret_key c) as [sk|]; try done.
    rewrite andb_true_iff, !negb_true_iff, !bool_decide_eq_false. intros [? ?]. by exists pk, sk.
  - intros (pk & sk & -> & -> & Hp & Hs).
    by rewrite andb_true_iff, !negb_true_iff, !bool_decide_eq_false.
Qed.

Lemma keys_ok_present c :
  keys_ok c ↔ (otel_export_langfuse c = true → langfuse_keys_present c = true).
Proof. unfold keys_ok. by rewrite langfuse_keys_present_spec. Qed.

(** The case analysis over the checks. *)
Ltac validate_cases c :=
  pose proof (keys_ok_present c); unfold validate, stub_allowed in *;
  destruct (env c), (registry_adapter c), (track_0_idle_mode c); simpl in *;
  destruct (Z.eqb_spec (db_statement_timeout_ms c) 0), (otel_export_langfuse c),
    (langfuse_keys_present c); simplify_eq/=; intuition congruence.

Lemma validate_Ok c :
  validate c = Ok tt ↔ stub_allowed c ∧ db_statement_timeout_ms c ≠ 0 ∧ keys_ok c.
Proof. validate_cases c. Qed.

(** Validation accepts a configuration exactly when a production stub is
    in idle mode, the statement timeout is not zero and Langfuse export has two
    non-empty keys; otherwise the error names the first of the three checks, in
    that order, that fails. *)
Theorem validate_spec (c : Config) :
  match validate c with
  | Ok _ => stub_allowed c ∧ db_statement_timeout_ms c ≠ 0 ∧ keys_ok c
  | Err ProdStubWithoutIdle => ¬ stub_allowed c
  | Err StatementTimeoutDisabled => stub_allowed c ∧ db_statement_timeout_ms c = 0
  | Err LangfuseKeysMissing => stub_allowed c ∧ db_statement_timeout_ms c ≠ 0 ∧ ¬ keys_ok c
  end.
Proof.
  destruct (validate c) as [[]|e] eqn:Hv; [by apply validate_Ok|]. validate_cases c.
Qed.

(** [OTEL_TYPE] is one of two names. *)
Definition names (t : option string) (a b : string) : bool :=
  bool_decide (t = Some a) || bool_decide (t = Some b).

Lemma legacy_toggles c t :
  ∃ g l o, apply_otel_type_legacy c t = with_toggles g l o c
  ∧ o = otel_export_local c
  ∧ g = otel_export_grafana c || names t "collector" "both"
  ∧ l = otel_export_langfuse c || names t "langfuse" "both".
Proof.
  unfold names. destruct c. destruct t as [t|]; simpl.
  - repeat case_decide; subst; do 3 eexists; (split; [reflexivity|]); simpl;
      repeat case_bool_decide; simplify_eq; rewrite ?orb_false_r, ?orb_true_r; done.
  - do 3 eexists. split; [reflexivity|]. by rewrite !orb_false_r.
Qed.

Lemma local_default_toggles c var_set :
  apply_otel_local_default c var_set
  = with_toggles (otel_export_grafana c) (otel_export_langfuse c)
      (otel_export_local c || (negb var_set && bool_decide (env c = Dev))) c.
Proof.
  unfold apply_otel_local_default, set_local. destruct c; simpl.
  destruct (negb var_set && _); simpl; [by rewrite orb_true_r|by rewrite orb_false_r].
Qed.

Lemma validate_no_langfuse c g o : validate (with_toggles g (otel_export_langfuse c) o c) =
    validate c.
Proof. by destruct c. Qed.

Lemma boot_valid parsed var_set otel_type cfg :
  boot parsed var_set otel_type = Ok cfg → validate cfg = Ok tt.
Proof.
  unfold boot. rewrite local_default_toggles. set (cfg1 := with_toggles _ _ _ parsed).
  assert (H1 : validate cfg1 = validate parsed) by apply validate_no_langfuse.
  destruct (validate parsed) as [[]|] eqn:Hp; [|done]. destruct otel_type as [t|].
  - destruct (validate (apply_otel_type_legacy cfg1 (Some t))) as [[]|] eqn:Hv; [|done].
    by intros [= <-].
  - by intros [= <-].
Qed.

Lemma boot_code parsed var_set otel_type code : boot parsed var_set otel_type = Err code
    → code = 78.
Proof. unfold boot. intros H. repeat (case_match; simplify_eq; try done). Qed.

(** C21. The boot sequence: it exits with code 78, or goes on with a
    configuration that is valid, also after the legacy [OTEL_TYPE] translation,
    and equals the parsed one except that the toggles may be switched on: local
    when the environment is dev and the variable unset, Grafana for
    ["collector"] and ["both"], Langfuse for ["langfuse"] and ["both"]; no
    toggle is ever switched off.  A production hub with the stub registry never
    binds the external port. *)
Theorem boot_spec (parsed : Config) var_set otel_type :
  match boot parsed var_set otel_type with
  | Err code => code = 78
      ∧ (validate parsed ≠ Ok tt ∨ (otel_type ≠ None
         ∧ otel_export_langfuse (apply_otel_type_legacy parsed otel_type) = true))
  | Ok cfg => validate parsed = Ok tt ∧ validate cfg = Ok tt
      ∧ cfg = with_toggles
          (otel_export_grafana parsed
           || names otel_type "collector" "both")
          (otel_export_langfuse parsed
           || names otel_type "langfuse" "both")
          (otel_export_local parsed || (negb var_set && bool_decide (env parsed = Dev))) parsed
      ∧ (env cfg = Production → registry_adapter cfg = Stub → bind_external_port cfg = false)
  end.
Proof.
  unfold boot. rewrite local_default_toggles.
  set (local := otel_export_local parsed || _).
  set (cfg := with_toggles _ _ local parsed).
  assert (Hcfg : validate cfg = validate parsed) by apply validate_no_langfuse.
  assert (Hbind : ∀ c, validate c = Ok tt → env c = Production → registry_adapter c = Stub →
    bind_external_port c = false).
  { intros c [Hs _]%validate_Ok He Hr. unfold stub_allowed, bind_external_port in *.
    destruct (track_0_idle_mode c); [done|]. by destruct Hs. }
  destruct (validate parsed) as [[]|e] eqn:Hv; [|split; [done|by left]].
  destruct otel_type as [t|].
  - destruct (legacy_toggles cfg (Some t)) as (g & l & o & Hc' & -> & -> & ->).
    destruct (legacy_toggles parsed (Some t)) as (g' & l' & o' & Hp' & _ & _ & Hl').
    destruct (validate (apply_otel_type_legacy cfg (Some t))) as [[]|e] eqn:Hv'.
    + split_and!; [done|done|rewrite Hc'; by destruct parsed|by apply Hbind].
    + split; [done|]. right. split; [done|]. rewrite Hp'. simpl. rewrite Hl'.
      destruct (otel_export_langfuse parsed || _) eqn:Hl; [done|]. exfalso.
      rewrite Hc' in Hv'. simpl in Hl. change (otel_export_langfuse cfg) with
          (otel_export_langfuse parsed) in Hv'.
      rewrite Hl in Hv'. apply orb_false_iff in Hl as [Hl _].
      assert (Hsame : validate (with_toggles (otel_export_grafana cfg
          || names (Some t) "collector" "both")
          (otel_export_langfuse cfg) (otel_export_local cfg) cfg) = validate cfg)
        by apply validate_no_langfuse.
      change (otel_export_langfuse cfg) with (otel_export_langfuse parsed) in Hsame.
      rewrite Hl in Hsame. congruence.
  - split_and!; [done|congruence| |apply Hbind; congruence].
    by rewrite !orb_false_r.
Qed.
