(* ===== verification/HubMetrics.v ===== *)
(** * The hub's Prometheus metrics

    Models [crates/engagement-hub/src/metrics.rs]: the thirty metrics with their
    descriptors, [Metrics::new] with its registrations and pre-seeded series,
    and [gather_text].  A counter or gauge vector is the values of its series,
    a histogram the list of its observations; bucket bounds are in
    microseconds.  The [prometheus] crate is the class [PrometheusLib], what it
    documents about descriptors and registration the class [PrometheusLaws] of
    [Prometheus]. *)
From Stdlib Require Import ZArith Lia Ascii.
From stdpp Require Import base list gmap strings.
From S2P Require Import Prelude Config Saga Prometheus.

Abbreviation Histogram := (list Duration).
Abbreviation HistogramVec := (gmap (list string) Histogram).

(** ** Descriptors, in the order of [Metrics::new] *)

Definition registry_adapter_kind_desc : MetricDesc :=
  mkDesc KIntGaugeVec "engagementhub_registry_adapter_kind"
    "Active Registry adapter implementation (1 for the active kind, 0 for others)"
    ["kind"; "env"; "idle_mode"] [].
Definition otel_exporter_dropped_spans_desc : MetricDesc :=
  mkDesc KIntCounterVec "engagementhub_otel_exporter_dropped_spans_total"
    "Spans dropped by each OTEL exporter due to queue-full or export error"
    ["exporter"] [].
Definition rpc_total_desc : MetricDesc :=
  mkDesc KIntCounterVec "engagementhub_rpc_total"
    "Total RPC calls by method, status code, and caller"
    ["rpc"; "code"; "caller_service"] [].
Definition engagements_started_total_desc : MetricDesc :=
  mkDesc KIntCounterVec "engagementhub_engagements_started_total"
    "Total engagements started by channel and mode"
    ["channel"; "mode"] [].
Definition engagements_terminal_total_desc : MetricDesc :=
  mkDesc KIntCounterVec "engagementhub_engagements_terminal_total"
    "Total engagements reaching a terminal status"
    ["terminal_status"] [].
Definition engagement_errors_total_desc : MetricDesc :=
  mkDesc KIntCounterVec "engagementhub_engagement_errors_total"
    "Total engagement errors by error code"
    ["error_code"] [].
Definition watch_streams_opened_total_desc : MetricDesc :=
  mkDesc KIntCounter "engagementhub_watch_streams_opened_total"
    "Total watch streams opened"
    [] [].
Definition watch_stream_reconnects_total_desc : MetricDesc :=
  mkDesc KIntCounter "engagementhub_watch_stream_reconnects_total"
    "Total watch stream reconnection attempts"
    [] [].
Definition reconciler_swept_total_desc : MetricDesc :=
  mkDesc KIntCounterVec "engagementhub_reconciler_swept_total"
    "Total engagements swept by the reconciler, by source status and action taken"
    ["from_status"; "action"] [].
Definition adapter_retries_total_desc : MetricDesc :=
  mkDesc KIntCounterVec "engagementhub_adapter_retries_total"
    "Total adapter call retries by target, method, and attempt number"
    ["target"; "method"; "attempt_number"] [].
Definition saga_compensation_outcome_total_desc : MetricDesc :=
  mkDesc KIntCounterVec "engagementhub_saga_compensation_outcome_total"
    "Saga compensation outcomes by stage and result"
    ["stage"; "result"] [].
Definition audit_insert_failures_total_desc : MetricDesc :=
  mkDesc KIntCounter "engagementhub_audit_insert_failures_total"
    "Total audit insert failures — any non-zero rate is a compliance breach"
    [] [].
Definition listen_notify_reconnects_total_desc : MetricDesc :=
  mkDesc KIntCounter "engagementhub_listen_notify_reconnects_total"
    "Total LISTEN/NOTIFY connection reconnections"
    [] [].
Definition db_failover_detected_total_desc : MetricDesc :=
  mkDesc KIntCounter "engagementhub_db_failover_detected_total"
    "Total detected database failover events"
    [] [].
Definition rpc_duration_seconds_desc : MetricDesc :=
  mkDesc KHistogramVec "engagementhub_rpc_duration_seconds"
    "RPC handler duration in seconds"
    ["rpc"; "code"] [5000; 10000; 25000; 50000; 100000; 250000; 500000; 1000000; 2500000; 5000000].
Definition adapter_duration_seconds_desc : MetricDesc :=
  mkDesc KHistogramVec "engagementhub_adapter_duration_seconds"
    "Adapter call duration in seconds"
    ["target"; "method"; "code"] [1000; 5000; 10000; 25000; 50000; 100000; 250000; 500000;
        1000000; 2500000].
Definition orchestration_duration_seconds_desc : MetricDesc :=
  mkDesc KHistogramVec "engagementhub_orchestration_duration_seconds"
    "Top-level orchestration operation duration in seconds"
    ["stage"] [5000; 10000; 25000; 50000; 100000; 250000; 500000; 1000000; 2500000; 5000000].
Definition startup_duration_seconds_desc : MetricDesc :=
  mkDesc KHistogramVec "engagementhub_startup_duration_seconds"
    "StartEngagement per-stage duration in seconds"
    ["stage"] [1000; 10000; 25000; 50000; 100000; 250000; 500000; 1000000; 5000000].
Definition call_duration_seconds_desc : MetricDesc :=
  mkDesc KHistogramVec "engagementhub_call_duration_seconds"
    "Total call duration in seconds by outcome"
    ["outcome"] [5000000; 15000000; 30000000; 60000000; 120000000; 300000000; 600000000;
        1800000000; 3600000000].
Definition time_to_first_response_seconds_desc : MetricDesc :=
  mkDesc KHistogram "engagementhub_time_to_first_response_seconds"
    "Time from engagement start to first AI response in seconds"
    [] [25000; 50000; 100000; 250000; 500000; 1000000; 2000000; 5000000; 10000000; 30000000].
Definition watch_stream_duration_seconds_desc : MetricDesc :=
  mkDesc KHistogram "engagementhub_watch_stream_duration_seconds"
    "Watch stream session duration in seconds"
    [] [10000000; 60000000; 300000000; 1800000000; 3600000000; 14400000000; 86400000000].
Definition listen_notify_fanout_latency_seconds_desc : MetricDesc :=
  mkDesc KHistogram "engagementhub_listen_notify_fanout_latency_seconds"
    "LISTEN/NOTIFY fanout latency in seconds"
    [] [1000; 5000; 10000; 25000; 50000; 100000; 250000; 500000; 1000000; 2500000].
Definition audit_insert_duration_seconds_desc : MetricDesc :=
  mkDesc KHistogram "engagementhub_audit_insert_duration_seconds"
    "Audit row insert duration in seconds"
    [] [1000; 2000; 5000; 10000; 25000; 50000; 100000; 250000; 500000].
Definition active_engagements_desc : MetricDesc :=
  mkDesc KIntGaugeVec "engagementhub_active_engagements"
    "Current number of active engagements by status"
    ["status"] [].
Definition active_watches_desc : MetricDesc :=
  mkDesc KIntGaugeVec "engagementhub_active_watches"
    "Current number of active watch streams by filter type"
    ["filter_type"] [].
Definition in_flight_invocations_desc : MetricDesc :=
  mkDesc KIntGauge "engagementhub_in_flight_invocations"
    "Current number of in-flight adapter invocations"
    [] [].
Definition db_pool_in_use_desc : MetricDesc :=
  mkDesc KIntGauge "engagementhub_db_pool_in_use"
    "Current number of database pool connections in use"
    [] [].
Definition db_pool_idle_desc : MetricDesc :=
  mkDesc KIntGauge "engagementhub_db_pool_idle"
    "Current number of idle database pool connections"
    [] [].
Definition reconciler_backlog_desc : MetricDesc :=
  mkDesc KIntGaugeVec "engagementhub_reconciler_backlog"
    "Current reconciler backlog depth by engagement class"
    ["class"] [].
Definition consumer_lag_events_desc : MetricDesc :=
  mkDesc KIntGauge "engagementhub_consumer_lag_events"
    "Estimated number of events received by LISTEN/NOTIFY but not yet delivered to subscribers"
    [] [].

Definition all_descs : list MetricDesc :=
  [registry_adapter_kind_desc; otel_exporter_dropped_spans_desc;
   rpc_total_desc; engagements_started_total_desc;
   engagements_terminal_total_desc; engagement_errors_total_desc;
   watch_streams_opened_total_desc; watch_stream_reconnects_total_desc;
   reconciler_swept_total_desc; adapter_retries_total_desc;
   saga_compensation_outcome_total_desc; audit_insert_failures_total_desc;
   listen_notify_reconnects_total_desc; db_failover_detected_total_desc;
   rpc_duration_seconds_desc; adapter_duration_seconds_desc;
   orchestration_duration_seconds_desc; startup_duration_seconds_desc;
   call_duration_seconds_desc; time_to_first_response_seconds_desc;
   watch_stream_duration_seconds_desc; listen_notify_fanout_latency_seconds_desc;
   audit_insert_duration_seconds_desc; active_engagements_desc;
   active_watches_desc; in_flight_invocations_desc;
   db_pool_in_use_desc; db_pool_idle_desc;
   reconciler_backlog_desc; consumer_lag_events_desc].

(** ** The metrics *)

Section Metrics.
Context `{P : PrometheusLib}.

Record Metrics := mkMetrics {
  registry : PromRegistry;
  registry_adapter_kind : CounterVec;
  otel_exporter_dropped_spans : CounterVec;
  rpc_total : CounterVec;
  engagements_started_total : CounterVec;
  engagements_terminal_total : CounterVec;
  engagement_errors_total : CounterVec;
  watch_streams_opened_total : Z;
  watch_stream_reconnects_total : Z;
  reconciler_swept_total : CounterVec;
  adapter_retries_total : CounterVec;
  saga_compensation_outcome_total : CounterVec;
  audit_insert_failures_total : Z;
  listen_notify_reconnects_total : Z;
  db_failover_detected_total : Z;
  rpc_duration_seconds : HistogramVec;
  adapter_duration_seconds : HistogramVec;
  orchestration_duration_seconds : HistogramVec;
  startup_duration_seconds : HistogramVec;
  call_duration_seconds : HistogramVec;
  time_to_first_response_seconds : Histogram;
  watch_stream_duration_seconds : Histogram;
  listen_notify_fanout_latency_seconds : Histogram;
  audit_insert_duration_seconds : Histogram;
  active_engagements : CounterVec;
  active_watches : CounterVec;
  in_flight_invocations : Z;
  db_pool_in_use : Z;
  db_pool_idle : Z;
  reconciler_backlog : CounterVec;
  consumer_lag_events : Z
}.

(** [registry_adapter_kind.with_label_values(..).set(1)]. *)
Definition kind_series (active : RegistryAdapter) (env : Env) (idle_mode : bool) : CounterVec :=
  let idle_label := if idle_mode then "true"%string else "false"%string in
  <[[adapter_as_metric_label active; env_as_metric_label env; idle_label] := 1]> ∅.

(** [with_label_values]: the series exists afterwards, at its initial value if
    it is new. *)
Definition with_label_values {V} (init : V) (ls : list string) (v : gmap (list string) V)
  : gmap (list string) V := <[ls := default init (v !! ls)]> v.

(** [for x in labels { v.with_label_values(&[x]); }] on a new vector. *)
Definition seed {V} (init : V) (labels : list string) : gmap (list string) V :=
  foldl (λ v x, with_label_values init [x] v) ∅ labels.

Definition ORCHESTRATION_STAGES : list string :=
  ["start_engagement"; "stop_engagement"; "cancel_engagement"; "saga_compensation"]%string.
Definition STARTUP_STAGES : list string :=
  ["validate_and_commit"; "registry_resolve"; "route_resolved_commit"; "parallel_bind";
   "invocation_requested_commit"; "audit"]%string.
Definition BACKLOG_CLASSES : list string :=
  ["pending_engagement"; "orphan_compensation"; "pending_audit"; "overrun_live"]%string.

(** Construct and register each metric in turn; [?] stops at the first error. *)
Fixpoint register_all (ds : list MetricDesc) (r : PromRegistry) : result PromRegistry string :=
  match ds with
  | [] => Ok r
  | d :: rest => let? r' := construct_and_register d r in register_all rest r'
  end.

(** [Metrics::new]. *)
Definition metrics_new (active : RegistryAdapter) (env : Env) (idle_mode : bool)
  : result Metrics string :=
  let? r := register_all all_descs prom_registry_new in
  Ok (mkMetrics r (kind_series active env idle_mode)
    (seed 0 ["grafana"; "langfuse"; "local"]%string) ∅ ∅ ∅ ∅ 0 0 ∅ ∅ ∅ 0 0 0 ∅ ∅
    (seed [] ORCHESTRATION_STAGES) (seed [] STARTUP_STAGES) ∅ [] []
    [] [] ∅ ∅ 0 0 0 (seed 0 BACKLOG_CLASSES) 0).

(** [TextEncoder::encode] of what [Registry::gather] returns, and
    [String::from_utf8]. *)
Class TextEncoder := {
  gather_encode : PromRegistry → Metrics → result (list Byte.byte) string;
  from_utf8 : list Byte.byte → result string string
}.

Definition gather_text `{TextEncoder} (m : Metrics) : result string string :=
  let? buf := gather_encode (registry m) m in from_utf8 buf.

End Metrics.

(** ** Facts *)

Lemma seed_lookup {V} (init : V) labels ls :
  seed init labels !! ls = if decide (ls ∈ (λ x, [x]) <$> labels) then Some init else None.
Proof.
  unfold seed.
  enough (∀ c : gmap (list string) V, (∀ k v, c !! k = Some v → v = init) →
    foldl (λ c x, with_label_values init [x] c) c labels !! ls
    = if decide (ls ∈ (λ x, [x]) <$> labels) then Some init else c !! ls) as H.
  { rewrite H; [by rewrite lookup_empty|]. intros k v. by rewrite lookup_empty. }
  induction labels as [|x labels IH]; intros c Hc; cbn [foldl fmap list_fmap].
  - destruct (decide _) as [Hin|]; [by apply not_elem_of_nil in Hin|done].
  - assert (Hx : default init (c !! [x]) = init)
      by (destruct (c !! [x]) eqn:E; simpl; [by rewrite (Hc _ _ E)|done]).
    unfold with_label_values at 2. rewrite Hx, IH.
    2:{ intros k v [[_ <-]|[_ H]]%lookup_insert_Some; eauto. }
    destruct (decide (ls = [x])) as [->|Hne].
    + rewrite lookup_insert_eq. repeat destruct (decide _); try done; set_solver.
    + rewrite lookup_insert_ne by done. repeat destruct (decide _); try done; set_solver.
Qed.

(** The series of a vector with one label. *)
Definition has_series {V} (v : gmap (list string) V) (init : V) (labels : list string) : Prop :=
  ∀ ls, v !! ls = if decide (ls ∈ (λ x, [x]) <$> labels) then Some init else None.

Lemma seed_has_series {V} (init : V) labels : has_series (seed init labels) init labels.
Proof. intros ls. apply seed_lookup. Qed.

(** The metrics that are not seeded, by kind. *)
Definition unseeded_counters `{PrometheusLib} (m : Metrics) : list CounterVec :=
  [rpc_total m; engagements_started_total m; engagements_terminal_total m;
   engagement_errors_total m; reconciler_swept_total m; adapter_retries_total m;
   saga_compensation_outcome_total m; active_engagements m; active_watches m].
Definition unseeded_histograms `{PrometheusLib} (m : Metrics) : list HistogramVec :=
  [rpc_duration_seconds m; adapter_duration_seconds m; call_duration_seconds m].
Definition plain_counters `{PrometheusLib} (m : Metrics) : list Z :=
  [watch_streams_opened_total m; watch_stream_reconnects_total m; audit_insert_failures_total m;
   listen_notify_reconnects_total m; db_failover_detected_total m; in_flight_invocations m;
   db_pool_in_use m; db_pool_idle m; consumer_lag_events m].
Definition plain_histograms `{PrometheusLib} (m : Metrics) : list Histogram :=
  [time_to_first_response_seconds m; watch_stream_duration_seconds m;
   listen_notify_fanout_latency_seconds m; audit_insert_duration_seconds m].

Section Laws.
Context `{PL : PrometheusLaws}.

Lemma register_all_fresh ds r :
  forallb valid_desc ds = true →
  NoDup (md_name <$> registered r ++ ds) →
  ∃ r', register_all ds r = Ok r' ∧ registered r' = registered r ++ ds.
Proof.
  revert r. induction ds as [|d ds IH]; intros r Hv Hn; simpl.
  - exists r. by rewrite app_nil_r.
  - simpl in Hv. apply andb_prop in Hv as [Hd Hv].
    destruct (register_fresh d r) as (r1 & Hr & Hr1).
    { rewrite fmap_app, fmap_cons in Hn. apply NoDup_app in Hn as (_ & Hn & _).
      intros Hin. apply (Hn _ Hin). by left. }
    unfold construct_and_register. rewrite (construct_valid d Hd). simpl. rewrite Hr. simpl.
    destruct (IH r1 Hv) as (r' & -> & Hr'); [by rewrite Hr1, <- (assoc_L (++))|].
    exists r'. split; [done|]. by rewrite Hr', Hr1, <- (assoc_L (++)).
Qed.

Lemma all_descs_valid : forallb valid_desc all_descs = true.
Proof. vm_compute. reflexivity. Qed.

Lemma all_descs_distinct : NoDup (md_name <$> all_descs).
Proof. apply (bool_decide_unpack _). vm_compute. exact I. Qed.

Lemma registration_succeeds : ∃ r, register_all all_descs prom_registry_new = Ok r
    ∧ registered r = all_descs.
Proof.
  destruct (register_all_fresh all_descs prom_registry_new all_descs_valid) as (r & Hr & Hreg).
  { rewrite registered_new. apply all_descs_distinct. }
  rewrite registered_new in Hreg. by exists r.
Qed.

Lemma metrics_new_ok active env idle_mode : ∃ m, metrics_new active env idle_mode = Ok m.
Proof. unfold metrics_new. destruct registration_succeeds as (r & -> & _). by eexists. Qed.

(** ** Properties *)

(** C37. [Metrics::new] never fails: the thirty metrics are registered, in
    order, each under a name of its own with a valid descriptor.  The series
    that exist afterwards are: the active adapter's, at 1; the three exporters'
    and the four backlog classes' at zero; those of the six startup and the four
    orchestration stages without an observation.  Every other vector has no
    series, every plain counter and gauge is zero and every plain histogram
    without observations.  No metric has an organisation label.  The adapters'
    metrics can never be registered in the same registry: two names clash. *)
Theorem metrics_new_spec (active : RegistryAdapter) (env : Env) (idle_mode : bool) :
  ∃ m, metrics_new active env idle_mode = Ok m
  ∧ registered (registry m) = all_descs
  ∧ (∀ ls, registry_adapter_kind m !! ls
      = if decide (ls = [adapter_as_metric_label active; env_as_metric_label env;
                         if idle_mode then "true"%string else "false"%string])
        then Some 1 else None)
  ∧ has_series (otel_exporter_dropped_spans m) 0 ["grafana"; "langfuse"; "local"]
  ∧ has_series (reconciler_backlog m) 0
      ["pending_engagement"; "orphan_compensation"; "pending_audit"; "overrun_live"]
  ∧ has_series (orchestration_duration_seconds m) []
      ["start_engagement"; "stop_engagement"; "cancel_engagement"; "saga_compensation"]
  ∧ has_series (startup_duration_seconds m) []
      ["validate_and_commit"; "registry_resolve"; "route_resolved_commit"; "parallel_bind";
       "invocation_requested_commit"; "audit"]
  ∧ Forall (λ v, v = ∅) (unseeded_counters m) ∧ Forall (λ v, v = ∅) (unseeded_histograms m)
  ∧ Forall (λ n, n = 0) (plain_counters m) ∧ Forall (λ h, h = []) (plain_histograms m)
  ∧ Forall (λ d, "organization_id"%string ∉ md_labels d) all_descs
  ∧ (∀ am, adapter_metrics_new (registry m) ≠ Ok am).
Proof.
  destruct registration_succeeds as (r & Hr & Hreg). unfold metrics_new. rewrite Hr.
  eexists. split; [reflexivity|].
  split_and!; [done| |apply seed_has_series..| | | | | |];
    try (by repeat constructor); cbn [registry].
  - intros ls. unfold kind_series. destruct (decide _) as [->|Hne]; simpl.
    + apply lookup_insert_eq.
    + rewrite lookup_insert_ne by done. apply lookup_empty.
  - apply (bool_decide_unpack _). vm_compute. exact I.
  - intros am. unfold adapter_metrics_new.
    destruct (construct_and_register retries_total_desc r) as [r1|] eqn:H1; [|done].
    unfold construct_and_register in H1. destruct (prom_construct retries_total_desc); [|done].
    destruct (register_taken retries_total_desc r) as [e He]; simpl in *; [|congruence].
    rewrite Hreg. apply (bool_decide_unpack _). vm_compute. exact I.
Qed.

End Laws.

(** ** At a registry for which the laws hold *)
Section Witness.
Import ListRegistry.

Lemma metrics_new_spec_witness :
  ∃ m, metrics_new Stub Dev false = Ok m ∧ length (registered (registry m)) = 30%nat.
Proof.
  destruct (metrics_new_spec Stub Dev false) as (m & Hm & Hr & _).
  exists m. split; [exact Hm|]. rewrite Hr. reflexivity.
Defined.

End Witness.
