(* ===== verification/PromText.v ===== *)
(** * The Prometheus text format, to run the unit tests with

    A concrete [TextEncoder]: the exposition format [prometheus::TextEncoder]
    documents, for the hub's metrics ([gather_encode]) and for the adapters'
    ([adapter_text]).  A family without series is left out, labels are sorted by
    name, bucket bounds print as decimal seconds.  Nothing but the unit tests
    depends on this file. *)
From Stdlib Require Import ZArith Lia Ascii.
From stdpp Require Import base list gmap strings pretty sorting.
From S2P Require Import Prelude Config Saga Prometheus HubMetrics.

Local Open Scope string_scope.

Definition quote : string := String (ascii_of_nat 34) EmptyString.
Definition newline : string := String (ascii_of_nat 10) EmptyString.

(** [s.contains(pat)]. *)
Definition contains (pat s : string) : bool :=
  match String.index 0 pat s with Some _ => true | None => false end.

(** ** Numbers *)

Fixpoint trim_zeros (l : list ascii) : list ascii :=
  match l with c :: l' => if (c =? "0")%char then trim_zeros l' else l | [] => [] end.

(** Microseconds as decimal seconds. *)
Definition six_digits (n : Z) : string :=
  String.substring 1 6 (pretty (1000000 + n)%Z).
Definition decimal (us : Z) : string :=
  let frac := rev (trim_zeros (rev (String.list_ascii_of_string (six_digits (us mod 1000000)%Z))))
      in
  pretty (us / 1000000)%Z ++
  match frac with [] => "" | _ => "." ++ String.string_of_list_ascii frac end.

(** ** Series *)

Definition label_le (p q : string * string) : Prop := String.leb p.1 q.1 = true.
#[local] Instance label_le_dec p q : Decision (label_le p q).
Proof. unfold label_le. apply _. Defined.

Fixpoint label_pairs (l : list (string * string)) : string :=
  match l with
  | [] => ""
  | [(n, v)] => n ++ "=" ++ quote ++ v ++ quote
  | (n, v) :: l' => n ++ "=" ++ quote ++ v ++ quote ++ "," ++ label_pairs l'
  end.
Definition labels_text (l : list (string * string)) : string :=
  match l with [] => "" | _ => "{" ++ label_pairs l ++ "}" end.
Definition sample (name : string) (l : list (string * string)) (v : string) : string :=
  name ++ labels_text l ++ " " ++ v ++ newline.

Definition label_list (d : MetricDesc) (values : list string) : list (string * string) :=
  merge_sort label_le (zip (md_labels d) values).

Definition count_le (b : Z) (obs : Histogram) : Z := Z.of_nat (length (filter (λ x, x ≤ b)%Z obs)).

Definition histogram_samples (d : MetricDesc) (l : list (string * string)) (obs : Histogram)
  : string :=
  foldr String.append ""
    (map (λ b, sample (md_name d ++ "_bucket") (l ++ [("le", decimal b)])%list
                 (pretty (count_le b obs))) (md_buckets d))
  ++ sample (md_name d ++ "_bucket") (l ++ [("le", "+Inf")])%list (pretty (Z.of_nat (length obs)))
  ++ sample (md_name d ++ "_sum") l (decimal (foldr Z.add 0 obs))
  ++ sample (md_name d ++ "_count") l (pretty (Z.of_nat (length obs))).

(** ** Families *)

Inductive Series := Scalars (s : list (list string * Z)%type)
    | Histograms (s : list (list string * Histogram)%type).

Definition series_text (d : MetricDesc) (s : Series) : string :=
  match s with
  | Scalars l =>
      foldr String.append "" (map (λ x, sample (md_name d) (label_list d x.1) (pretty x.2)) l)
  | Histograms l =>
      foldr String.append "" (map (λ x, histogram_samples d (label_list d x.1) x.2) l)
  end.
Definition kind_text (k : metric_kind) : string :=
  match k with
  | KIntCounter | KIntCounterVec => "counter"
  | KIntGauge | KIntGaugeVec => "gauge"
  | KHistogram | KHistogramVec => "histogram"
  end.
Definition family_text (f : MetricDesc * Series) : string :=
  let body := series_text f.1 f.2 in
  if String.eqb body "" then ""
  else "# HELP " ++ md_name f.1 ++ " " ++ md_help f.1 ++ newline
       ++ "# TYPE " ++ md_name f.1 ++ " " ++ kind_text (md_kind f.1) ++ newline ++ body.
Definition exposition (fs : list (MetricDesc * Series)) : string :=
  foldr String.append "" (map family_text fs).

Definition vec (c : CounterVec) : Series := Scalars (map_to_list c).
Definition scalar (n : Z) : Series := Scalars [([], n)].
Definition hist_vec (h : HistogramVec) : Series := Histograms (map_to_list h).
Definition hist (h : Histogram) : Series := Histograms [([], h)].

(** ** The two sets of metrics *)

Definition adapter_text (m : AdapterMetrics) : string :=
  exposition [(Saga.retries_total_desc, vec (retries_total m));
    (Saga.deadline_exceeded_total_desc, vec (deadline_exceeded_total m));
    (Saga.saga_compensation_outcome_total_desc, vec (Saga.saga_compensation_outcome_total m))].

Section Hub.
Context `{P : PrometheusLib}.

(** The values in the order of [all_descs]. *)
Definition all_series (m : Metrics) : list Series :=
  [vec (registry_adapter_kind m); vec (otel_exporter_dropped_spans m); vec (rpc_total m);
   vec (engagements_started_total m); vec (engagements_terminal_total m);
   vec (engagement_errors_total m); scalar (watch_streams_opened_total m);
   scalar (watch_stream_reconnects_total m); vec (reconciler_swept_total m);
   vec (adapter_retries_total m); vec (saga_compensation_outcome_total m);
   scalar (audit_insert_failures_total m); scalar (listen_notify_reconnects_total m);
   scalar (db_failover_detected_total m); hist_vec (rpc_duration_seconds m);
   hist_vec (adapter_duration_seconds m); hist_vec (orchestration_duration_seconds m);
   hist_vec (startup_duration_seconds m); hist_vec (call_duration_seconds m);
   hist (time_to_first_response_seconds m); hist (watch_stream_duration_seconds m);
   hist (listen_notify_fanout_latency_seconds m); hist (audit_insert_duration_seconds m);
   vec (active_engagements m); vec (active_watches m); scalar (in_flight_invocations m);
   scalar (db_pool_in_use m); scalar (db_pool_idle m); vec (reconciler_backlog m);
   scalar (consumer_lag_events m)].

#[export] Instance prom_text : TextEncoder := {|
  gather_encode _ m := Ok (String.list_byte_of_string (exposition (zip all_descs (all_series m))));
  from_utf8 b := Ok (String.string_of_list_byte b)
|}.

End Hub.
