(* ===== verification/MockHttp.v ===== *)
(** * HTTP adapters against a mock server

    What the unit tests of the three HTTP adapters use of [wiremock]: a server
    with mounted mocks, tried in the order of mounting, each with its matchers,
    response template, limit and expected number of requests.  A request no
    mock matches is answered with 404; the expectations are verified when the
    server is dropped.  Bodies are JSON values, read and written by
    [TestJson]. *)
From Stdlib Require Import ZArith Floats.SpecFloat.
From Stdlib Require Import Strings.Ascii Strings.String.
From stdpp Require Import base list gmap strings pretty.
From S2P Require Import Prelude Bytes Uuids UnitTest Errors Saga Prometheus Policies Net Http SerdeJson.
From S2P Require Import NotifyPayloadJson TestJson HttpDtos MockPeer PromText.
Import CountingEnv.
Local Open Scope string_scope.

(** ** Requests as the server sees them *)

(** [urlencoding::encode] keeps letters, digits and [-_.~]. *)
Definition unreserved (c : ascii) : bool :=
  let n := nat_of_ascii c in
  (((48 <=? n) && (n <=? 57)) || ((65 <=? n) && (n <=? 90)) || ((97 <=? n) && (n <=? 122))
   || (n =? 45) || (n =? 95) || (n =? 46) || (n =? 126))%nat.
Definition upper_hex (n : nat) : ascii := ascii_of_nat (if (n <? 10)%nat then 48 + n else 55 + n).
Fixpoint percent_encode (s : string) : string :=
  match s with
  | EmptyString => EmptyString
  | String c s' =>
      if unreserved c then String c (percent_encode s')
      else String "%" (String (upper_hex (nat_of_ascii c / 16))
             (String (upper_hex (nat_of_ascii c mod 16)) (percent_encode s')))
  end.

(** The text before and after the first [sep]. *)
Fixpoint cut (sep : ascii) (s : string) : string * option string :=
  match s with
  | EmptyString => ("", None)
  | String c s' =>
      if (c =? sep)%char then ("", Some s')
      else let '(a, b) := cut sep s' in (String c a, b)
  end.
Fixpoint pairs (fuel : nat) (s : string) : list (string * string) :=
  match fuel with
  | O => []
  | S fuel' =>
      let '(p, rest) := cut "&" s in
      let '(k, v) := cut "=" p in
      (k, default "" v) :: match rest with Some r => pairs fuel' r | None => [] end
  end.

Definition uri : string := "http://127.0.0.1:41099".
Definition target (r : HttpRequest) : string :=
  String.substring (String.length uri) (String.length (hq_url r)) (hq_url r).
Definition url_path (r : HttpRequest) : string := (cut "?" (target r)).1.
Definition url_query (r : HttpRequest) : list (string * string) :=
  match (cut "?" (target r)).2 with
  | Some q => pairs (S (String.length q)) q
  | None => []
  end ++ hq_query r.

(** ** Matchers *)

(** The two forms of regular expressions the tests use: [^prefix[class]+$], and
    a text anywhere. *)
Inductive PathRegex :=
| PrefixThenClass (prefix : string) (in_class : ascii → bool)
| Containing (text : string).

(** [[0-9a-f-]]. *)
Definition hex_or_dash (c : ascii) : bool :=
  let n := nat_of_ascii c in
  (((48 <=? n) && (n <=? 57)) || ((97 <=? n) && (n <=? 102)) || (n =? 45))%nat.

Definition regex_matches (re : PathRegex) (s : string) : bool :=
  match re with
  | PrefixThenClass p in_class =>
      let rest := String.substring (String.length p) (String.length s) s in
      String.prefix p s && negb (String.eqb rest "")
        && forallb in_class (list_ascii_of_string rest)
  | Containing t => contains t s
  end.

Inductive Matcher :=
| method (m : Method) | path (p : string) | path_regex (re : PathRegex)
| query_param (name value : string) | header_exists (name : string).

Definition method_eqb (a b : Method) : bool :=
  match a, b with
  | GET, GET | POST, POST | PATCH, PATCH | DELETE, DELETE => true
  | _, _ => false
  end.
Definition matches (m : Matcher) (r : HttpRequest) : bool :=
  match m with
  | method v => method_eqb v (hq_method r)
  | path p => String.eqb p (url_path r)
  | path_regex re => regex_matches re (url_path r)
  | query_param k v => existsb (λ q, String.eqb q.1 k && String.eqb q.2 v) (url_query r)
  | header_exists n =>
      (** Header names are compared without case. *)
      String.eqb n "x-request-id" && match hq_request_id r with Some _ => true | None => false end
  end.

(** ** Mocks and the server *)

Record ResponseTemplate := mkTemplate { rt_status : Z; rt_body : option Json }.
Definition template_new (status : Z) : ResponseTemplate := mkTemplate status None.
Definition set_body_json (j : Json) (t : ResponseTemplate) : ResponseTemplate :=
  mkTemplate (rt_status t) (Some j).

Record Mock := mkMock {
  mk_matchers : list Matcher;
  mk_response : ResponseTemplate;
  mk_up_to_n_times : option nat;
  mk_expect : option nat;
  mk_hits : nat
}.
Definition given (ms : list Matcher) (t : ResponseTemplate) : Mock := mkMock ms t None None 0.
Definition up_to_n_times (n : nat) (m : Mock) : Mock :=
  mkMock (mk_matchers m) (mk_response m) (Some n) (mk_expect m) (mk_hits m).
Definition expect (n : nat) (m : Mock) : Mock :=
  mkMock (mk_matchers m) (mk_response m) (mk_up_to_n_times m) (Some n) (mk_hits m).
Definition hit (m : Mock) : Mock :=
  mkMock (mk_matchers m) (mk_response m) (mk_up_to_n_times m) (mk_expect m) (S (mk_hits m)).

Definition available (m : Mock) : bool :=
  match mk_up_to_n_times m with Some n => (mk_hits m <? n)%nat | None => true end.

Definition MockServer : Type := list Mock.

Fixpoint answer (r : HttpRequest) (server : MockServer) : ResponseTemplate * MockServer :=
  match server with
  | [] => (template_new 404, [])
  | m :: rest =>
      if available m && forallb (λ x, matches x r) (mk_matchers m) then
          (mk_response m, hit m :: rest)
      else let '(t, rest') := answer r rest in (t, m :: rest')
  end.

Definition satisfied (m : Mock) : bool :=
  match mk_expect m with Some n => (mk_hits m =? n)%nat | None => true end.

(** ** The library, the client and the clock *)

#[export] Instance mock_lib : HttpLib := {|
  Body := option Json;
  is_success s := ((200 <=? s) && (s <? 300))%Z;
  is_client_error s := ((400 <=? s) && (s <? 500))%Z;
  status_display s := pretty s;
  body_text b := Ok match b with Some j => print j | None => "" end;
  urlencode := percent_encode
|}.
#[export] Instance mock_laws : HttpLaws.
Proof. split; intros s; simpl; rewrite andb_true_iff, Z.leb_le, Z.ltb_lt; done. Qed.

#[export] Instance body_json_value : BodyJson := λ b,
  match b with Some j => Ok j | None => Err "EOF while parsing a value" end.

Abbreviation Env := ((Z * nat) * MockServer)%type.
Abbreviation World := (Net Env HttpRequest).

#[export] Instance client : HttpClient Env := λ r '(b, server),
  let '(t, server') := answer r server in
  (Replied (mkHttpResponse mock_lib (rt_status t) (rt_body t)), (b, server')).

(** ** Test helpers *)

Definition start : io World unit := start_server [].
Definition mount (m : Mock) : io World unit := λ s,
  let '(b, server) := net_env s in
  (Value tt, mkNet (b, (server ++ [m])%list) (net_sent s) (net_metrics s)).
(** The end of a test drops the server. *)
Definition drop_server : test World := λ s,
  assert_ (forallb satisfied (net_env s).2) s.

(** The constructors of ids, drawing from the test's random source. *)
Definition drawn {A} (new : Env → A * Env) : io World A := λ s,
  let '(a, w) := new (net_env s) in (Value a, mkNet w (net_sent s) (net_metrics s)).

(** A decimal literal [n / d]: the nearest double. *)
Definition f64_ratio (n d : Z) : spec_float := SFdiv 53 1024 (f64_of_int n) (f64_of_int d).
