(* ===== verification/VoiceManagerHttpTests.v ===== *)
(** * The unit tests of [voice_manager_http.rs] *)
From Stdlib Require Import ZArith Lia Floats.SpecFloat.
From stdpp Require Import base list gmap strings pretty.
From S2P Require Import Prelude Uuids UnitTest Errors PortTypes Saga Prometheus Policies Ports Net Http.
From S2P Require Import SerdeJson HttpDtos TestJson MockPeer MockHttp PromText VoiceManagerHttp.
Import Uuid36 TestJson CountingEnv ListRegistry.
Local Open Scope string_scope.

(** The adapter on the running server, with metrics of its own. *)
Definition vm : io World VoiceManagerHttpAdapter :=
  do m <- adapter_metrics_for_test ;;
  voice_manager_http_adapter_new uri m.

Definition id_json (sid : Uuid) : Json :=
  JObject [("session_ref", JObject [("id", JString (uuid_to_string sid))])].
Definition start_req (engagement_id : EngagementId) : StartVoiceSessionReq :=
  {| sv_engagement_id := engagement_id; sv_org_id := "org-1" |}.

Definition start_voice_session_happy : test World :=
  do _ <- start ;;
  do sid <- new_uuid ;;
  do _ <- mount (given [method POST; path "/v1/voice/sessions"]
    (set_body_json (id_json sid) (template_new 200))) ;;
  do a <- vm ;;
  do e <- drawn engagement_id_default ;;
  do r <- start_voice_session a (start_req e) ;;
  do r <- unwrap r ;;
  do _ <- assert_eq (voice_session_ref_as_uuid r) sid ;;
  drop_server.

Definition start_voice_session_stamps_x_request_id_header : test World :=
  do _ <- start ;;
  do sid <- new_uuid ;;
  do _ <- mount (expect 1 (given
    [method POST; path "/v1/voice/sessions"; header_exists "x-request-id"]
    (set_body_json (id_json sid) (template_new 200)))) ;;
  do a <- vm ;;
  do e <- drawn engagement_id_default ;;
  do r <- start_voice_session a (start_req e) ;;
  do _ <- unwrap r ;;
  drop_server.

Definition stop_voice_session_abort_retries_5_times_on_503 : test World :=
  do _ <- start ;;
  do _ <- mount (expect 5 (given
    [method DELETE; path_regex (PrefixThenClass "/v1/voice/sessions/" hex_or_dash);
     query_param "mode" "abort"] (template_new 503))) ;;
  do a <- vm ;;
  do u <- new_uuid ;;
  do r <- stop_voice_session a (voice_session_ref_new u) Abort ;;
  do e <- unwrap_err r ;;
  do _ <- assert_ (match e with VmErr.Unavailable => true | _ => false end) ;;
  drop_server.

Definition stop_voice_session_graceful_attempts_only_once_on_503 : test World :=
  do _ <- start ;;
  do _ <- mount (expect 1 (given
    [method DELETE; path_regex (PrefixThenClass "/v1/voice/sessions/" hex_or_dash);
     query_param "mode" "graceful"] (template_new 503))) ;;
  do a <- vm ;;
  do u <- new_uuid ;;
  do _ <- stop_voice_session a (voice_session_ref_new u) Graceful ;;
  drop_server.

Definition http_4xx_maps_to_permanent : test World :=
  do _ <- start ;;
  do _ <- mount (given [method POST; path "/v1/voice/sessions"]
    (set_body_json
      (JObject [("error", JObject [("code", JString "bad_request");
                                   ("message", JString "engagement_id required")])])
      (template_new 400))) ;;
  do a <- vm ;;
  do e <- drawn engagement_id_default ;;
  do r <- start_voice_session a (start_req e) ;;
  do e <- unwrap_err r ;;
  do _ <- assert_ (match e with VmErr.Permanent _ => true | _ => false end) ;;
  drop_server.

Definition http_500_maps_to_transient_and_retries_for_writes : test World :=
  do _ <- start ;;
  do _ <- mount (expect 2 (given [method POST; path "/v1/telephonies"] (template_new 500))) ;;
  do a <- vm ;;
  do _ <- create_telephony a {| ct_org_id := "org-1"; ct_phone_number := "+60123456789" |} ;;
  drop_server.

Definition telephony_crud_happy : test World :=
  do _ <- start ;;
  do tid <- new_uuid ;;
  let body := JObject [("telephony", JObject [("id", JString (uuid_to_string tid));
    ("org_id", JString "org-1"); ("phone_number", JString "+60123456789")])] in
  let one := path_regex (PrefixThenClass "/v1/telephonies/" hex_or_dash) in
  let reply := set_body_json body (template_new 200) in
  do _ <- mount (given [method POST; path "/v1/telephonies"] reply) ;;
  do _ <- mount (given [method GET; one] reply) ;;
  do _ <- mount (given [method PATCH; one] reply) ;;
  do _ <- mount (given [method DELETE; one] (template_new 204)) ;;
  do _ <- mount (given [method GET; path "/v1/telephonies"]
    (set_body_json (JObject [("telephonies", JArray [])]) (template_new 200))) ;;
  do a <- vm ;;
  do r <- create_telephony a {| ct_org_id := "org-1"; ct_phone_number := "+60123456789" |} ;;
  do t <- unwrap r ;;
  do _ <- assert_eq (tel_id t) (telephony_id_from tid) ;;
  do r <- get_telephony a (telephony_id_from tid) ;;
  do got <- unwrap r ;;
  do _ <- assert_eq (tel_org_id got) "org-1" ;;
  do r <- update_telephony a {| ut_id := telephony_id_from tid; ut_phone_number := "+60111111111"
      |} ;;
  do updated <- unwrap r ;;
  do _ <- assert_eq (tel_id updated) (telephony_id_from tid) ;;
  do r <- delete_telephony a (telephony_id_from tid) "decommissioned" ;;
  do _ <- unwrap r ;;
  do r <- list_telephonies a {| lt_org_id := "org-1"; lt_page_token := None |} ;;
  do list <- unwrap r ;;
  do _ <- assert_ (match list with [] => true | _ => false end) ;;
  drop_server.

Definition voice_manager_http_tests : list (test World) :=
  [start_voice_session_happy;
   start_voice_session_stamps_x_request_id_header;
   stop_voice_session_abort_retries_5_times_on_503;
   stop_voice_session_graceful_attempts_only_once_on_503;
   http_4xx_maps_to_permanent;
   http_500_maps_to_transient_and_retries_for_writes;
   telephony_crud_happy].

Lemma voice_manager_http_tests_pass :
  Forall (λ t, passes t (mkNet ((0%Z, 0%nat), []) [] empty_metrics) = true)
      voice_manager_http_tests.
Proof. unfold voice_manager_http_tests. run_closed_tests. Qed.
