(* ===== verification/PostCallHttpTests.v ===== *)
(** * The unit tests of [post_call_http.rs] *)
From Stdlib Require Import ZArith Lia Floats.SpecFloat.
From stdpp Require Import base list gmap strings pretty.
From S2P Require Import Prelude Uuids UnitTest Errors PortTypes Saga Prometheus Policies Ports Net Http.
From S2P Require Import SerdeJson HttpDtos TestJson MockPeer MockHttp PromText PostCallHttp.
Import Uuid36 TestJson CountingEnv ListRegistry.
Local Open Scope string_scope.

(** The started server is the state's; the adapter is returned. *)
Definition make_adapter : io World PostCallHttpAdapter :=
  do _ <- start ;;
  do m <- adapter_metrics_for_test ;;
  post_call_http_adapter_new uri m.

Definition ok_json (j : Json) : ResponseTemplate := set_body_json j (template_new 200).
Definition call_path (eng : EngagementId) (what : string) : Matcher :=
  path ("/calls/" ++ engagement_id_display eng ++ what).

Definition get_transcript_maps_messages : test World :=
  do adapter <- make_adapter ;;
  do eng <- drawn engagement_id_new ;;
  do _ <- mount (given [method GET; call_path eng "/transcription"] (ok_json (JObject
    [("data", JArray [JObject [("message", JString "hello"); ("role", JString "agent");
                               ("audio_url", JNull); ("emotion", JNull)]]);
     ("totalSize", JInt 1)]))) ;;
  do r <- get_transcript adapter eng ;;
  do t <- unwrap r ;;
  do _ <- assert_eq (length (tr_messages t)) 1%nat ;;
  do m <- index (tr_messages t) 0 ;;
  do _ <- assert_eq (tm_message m) "hello" ;;
  do _ <- assert_eq (tr_total_size t) 1%Z ;;
  drop_server.

Definition get_summary_unwraps_data : test World :=
  do adapter <- make_adapter ;;
  do eng <- drawn engagement_id_new ;;
  do _ <- mount (given [method GET; call_path eng "/summary"] (ok_json (JObject
    [("data", JObject [("summary", JString "great call"); ("resolution", JNull);
                       ("resolution_explanation", JNull)])]))) ;;
  do r <- get_summary adapter eng ;;
  do s <- unwrap r ;;
  do _ <- assert_eq (sum_summary s) "great call" ;;
  drop_server.

Definition get_sentiment_unwraps_data : test World :=
  do adapter <- make_adapter ;;
  do eng <- drawn engagement_id_new ;;
  do _ <- mount (given [method GET; call_path eng "/sentiment"] (ok_json (JObject
    [("data", JObject [("sentiment", JString "positive");
                       ("justification", JString "customer was happy")])]))) ;;
  do r <- get_sentiment adapter eng ;;
  do s <- unwrap r ;;
  do _ <- assert_eq (sen_label s) "positive" ;;
  drop_server.

Definition get_output_extraction_maps_fields : test World :=
  do adapter <- make_adapter ;;
  do eng <- drawn engagement_id_new ;;
  do _ <- mount (given [method GET; call_path eng "/state"] (ok_json (JObject
    [("data", JArray [JObject [("key", JString "name"); ("value", JString "Alice");
                               ("audio_file_paths", JString "")]])]))) ;;
  do r <- get_output_extraction adapter eng ;;
  do oe <- unwrap r ;;
  do _ <- assert_eq (length (oe_fields oe)) 1%nat ;;
  do f <- index (oe_fields oe) 0 ;;
  do _ <- assert_eq (of_key f) "name" ;;
  drop_server.

Definition list_agent_call_logs_returns_items : test World :=
  do adapter <- make_adapter ;;
  do _ <- mount (given [method GET; path_regex (Containing "/calls/agent-1/history-call")]
    (ok_json (JObject
      [("data", JArray [JObject [("id", JString "c1");
          ("created_at", JString "2026-01-01T00:00:00Z")]]);
       ("total_size", JInt 1)]))) ;;
  do r <- list_agent_call_logs adapter
    {| la_agent_id := "agent-1"; la_skip := None; la_limit := None; la_start_date := None;
       la_end_date := None; la_identity := None; la_id := None; la_batch_id := None |} ;;
  do page <- unwrap r ;;
  do _ <- assert_eq (length (pg_items page)) 1%nat ;;
  do _ <- assert_eq (pg_total_size page) (Some 1%Z) ;;
  drop_server.

Definition list_org_call_logs_returns_items : test World :=
  do adapter <- make_adapter ;;
  do _ <- mount (given [method GET; path_regex (Containing "/calls/organizations/org-1")]
    (ok_json (JObject
      [("data", JArray [JObject [("id", JString "c2");
          ("created_at", JString "2026-01-02T00:00:00Z")]]);
       ("total_size", JInt 1)]))) ;;
  do r <- list_org_call_logs adapter
    {| lo_org_id := "org-1"; lo_skip := None; lo_limit := None; lo_start_date := None;
       lo_end_date := None; lo_contact_number := None; lo_call_id := None |} ;;
  do page <- unwrap r ;;
  do _ <- assert_eq (length (pg_items page)) 1%nat ;;
  drop_server.

Definition not_found_maps_to_permanent : test World :=
  do adapter <- make_adapter ;;
  do eng <- drawn engagement_id_new ;;
  do _ <- mount (given [method GET; call_path eng "/transcription"] (template_new 404)) ;;
  do r <- get_transcript adapter eng ;;
  do err <- unwrap_err r ;;
  do _ <- assert_ (match err with PostCallErr.Permanent _ => true | _ => false end) ;;
  drop_server.

Definition retries_on_503_then_succeeds : test World :=
  do adapter <- make_adapter ;;
  do eng <- drawn engagement_id_new ;;
  do _ <- mount (up_to_n_times 1
    (given [method GET; call_path eng "/transcription"] (template_new 503))) ;;
  do _ <- mount (given [method GET; call_path eng "/transcription"]
    (ok_json (JObject [("data", JArray []); ("totalSize", JInt 0)]))) ;;
  do r <- get_transcript adapter eng ;;
  do t <- unwrap r ;;
  do _ <- assert_eq (length (tr_messages t)) 0%nat ;;
  drop_server.

Definition post_call_http_tests : list (test World) :=
  [get_transcript_maps_messages; get_summary_unwraps_data; get_sentiment_unwraps_data;
   get_output_extraction_maps_fields; list_agent_call_logs_returns_items;
   list_org_call_logs_returns_items; not_found_maps_to_permanent; retries_on_503_then_succeeds].

Lemma post_call_http_tests_pass :
  Forall (λ t, passes t (mkNet ((0%Z, 0%nat), []) [] empty_metrics) = true) post_call_http_tests.
Proof. unfold post_call_http_tests. run_closed_tests. Qed.
