(* ===== verification/AnalyticsHttpTests.v ===== *)
(** * The unit tests of [analytics_http.rs] *)
From Stdlib Require Import ZArith Lia Floats.SpecFloat.
From stdpp Require Import base list gmap strings pretty.
From S2P Require Import Prelude Uuids UnitTest Errors PortTypes Saga Prometheus Policies Ports Net Http.
From S2P Require Import SerdeJson HttpDtos TestJson MockPeer MockHttp PromText AnalyticsHttp.
Import Uuid36 TestJson CountingEnv ListRegistry.
Local Open Scope string_scope.

(** The started server is the state's; the adapter is returned. *)
Definition make_adapter : io World AnalyticsHttpAdapter :=
  do _ <- start ;;
  do m <- adapter_metrics_for_test ;;
  analytics_http_adapter_new uri m.

Definition analytics_json : Json :=
  JObject [("average_conversation_duration", JFloat (f64_ratio 455 10));
    ("containment_rate", JFloat (f64_ratio 75 100));
    ("customer_satisfaction_rate", JFloat (f64_ratio 85 100));
    ("dropoff_rate", JFloat (f64_ratio 1 10));
    ("escalation_rate", JFloat (f64_ratio 5 100));
    ("total_inquiries", JInt 100);
    ("category_counts", JObject [])].
Definition metrics_json : Json :=
  JObject [("data", JObject [("categories", JArray [JString "mon"; JString "tue"]);
                             ("series", JArray [JFloat (f64_ratio 1 1); JFloat (f64_ratio 2 1)])])].

Definition serve (what : string) (t : ResponseTemplate) : io World unit :=
  mount (given [method GET; path_regex (Containing what)] t).
Definition ok_json (j : Json) : ResponseTemplate := set_body_json j (template_new 200).

(** [==] on [Vec<f64>]. *)
Fixpoint f64s_eqb (a b : list spec_float) : bool :=
  match a, b with
  | [], [] => true
  | x :: a', y :: b' => SFeqb x y && f64s_eqb a' b'
  | _, _ => false
  end.

Definition get_agent_analytics_success : test World :=
  do adapter <- make_adapter ;;
  do _ <- serve "/calls/agents/a1/analytics" (ok_json analytics_json) ;;
  do r <- get_agent_analytics adapter
    {| gaa_agent_id := "a1"; gaa_metric := None; gaa_granularity := None;
       gaa_start_date := None; gaa_end_date := None |} ;;
  do a <- unwrap r ;;
  do _ <- assert_eq (an_total_inquiries a) 100%Z ;;
  drop_server.

Definition get_agent_metrics_unwraps_data : test World :=
  do adapter <- make_adapter ;;
  do _ <- serve "/calls/agents/a1/metrics" (ok_json metrics_json) ;;
  do r <- get_agent_metrics adapter
    {| gam_agent_id := "a1"; gam_metric := None; gam_granularity := None;
       gam_start_date := None; gam_end_date := None |} ;;
  do m <- unwrap r ;;
  do _ <- assert_eq (me_categories m) ["mon"; "tue"] ;;
  do _ <- assert_eq (length (me_series m)) 2%nat ;;
  drop_server.

Definition get_org_analytics_success : test World :=
  do adapter <- make_adapter ;;
  do _ <- serve "/calls/organizations/org1/analytics" (ok_json analytics_json) ;;
  do r <- get_org_analytics adapter
    {| goa_org_id := "org1"; goa_metric := None; goa_granularity := None;
       goa_start_date := None; goa_end_date := None |} ;;
  do a <- unwrap r ;;
  do _ <- assert_ (SFltb (SFabs (SFsub 53 1024 (an_containment_rate a) (f64_ratio 75 100)))
                     (f64_ratio 1 1000000000)) ;;
  drop_server.

Definition get_org_metrics_success : test World :=
  do adapter <- make_adapter ;;
  do _ <- serve "/calls/organizations/org1/metrics" (ok_json metrics_json) ;;
  do r <- get_org_metrics adapter
    {| gom_org_id := "org1"; gom_metric := None; gom_granularity := None;
       gom_start_date := None; gom_end_date := None |} ;;
  do m <- unwrap r ;;
  do _ <- assert_ (f64s_eqb (me_series m) [f64_ratio 1 1; f64_ratio 2 1]) ;;
  drop_server.

Definition not_found_maps_to_permanent : test World :=
  do adapter <- make_adapter ;;
  do _ <- serve "/calls/agents/missing/analytics" (template_new 404) ;;
  do r <- get_agent_analytics adapter
    {| gaa_agent_id := "missing"; gaa_metric := None; gaa_granularity := None;
       gaa_start_date := None; gaa_end_date := None |} ;;
  do err <- unwrap_err r ;;
  do _ <- assert_ (match err with AnalyticsErr.Permanent _ => true | _ => false end) ;;
  drop_server.

Definition analytics_http_tests : list (test World) :=
  [get_agent_analytics_success; get_agent_metrics_unwraps_data; get_org_analytics_success;
   get_org_metrics_success; not_found_maps_to_permanent].

Lemma analytics_http_tests_pass :
  Forall (λ t, passes t (mkNet ((0%Z, 0%nat), []) [] empty_metrics) = true) analytics_http_tests.
Proof. unfold analytics_http_tests. run_closed_tests. Qed.
