(* ===== verification/AdapterMetricsTests.v ===== *)
(** * The unit tests of the adapters' [saga.rs] and [metrics.rs]

    In the second group the texts are those of [PromText] and the state is the
    metrics under test. *)
From Stdlib Require Import ZArith.
From stdpp Require Import base list gmap strings.
From S2P Require Import Prelude UnitTest Saga Prometheus PromText.
Import ListRegistry.
Local Open Scope string_scope.

(** ** [saga.rs] *)

Definition stage_labels_match_prd_spec : test unit :=
  do _ <- assert_eq (stage_as_label JmCancel) "jm_cancel" ;;
  assert_eq (stage_as_label VmStop) "vm_stop".

Definition outcome_labels_match_prd_spec : test unit :=
  do _ <- assert_eq (outcome_as_label Success) "success" ;;
  do _ <- assert_eq (outcome_as_label TransientFailureRetried) "transient_failure_retried" ;;
  do _ <- assert_eq (outcome_as_label ExhaustedToReconciler) "exhausted_to_reconciler" ;;
  assert_eq (outcome_as_label NoCompensationNeeded) "no_compensation_needed".

Definition all_combinations_covered : test unit :=
  do _ <- assert_eq (length stage_ALL) 2%nat ;;
  assert_eq (length outcome_ALL) 4%nat.

Definition saga_tests : list (test unit) :=
  [stage_labels_match_prd_spec; outcome_labels_match_prd_spec; all_combinations_covered].

Lemma saga_tests_pass : Forall (λ t, passes t tt = true) saga_tests.
Proof. repeat constructor. Qed.

(** ** [metrics.rs] *)

Local Abbreviation World := AdapterMetrics.

(** [AdapterMetrics::new(&Registry::new()).unwrap()] and its methods. *)
Definition metrics_on_new_registry : io World unit := λ s,
  match adapter_metrics_new prom_registry_new with
  | Ok (m, _) => (Value tt, m)
  | Err _ => (Panicked, s)
  end.
Definition recording (f : AdapterMetrics → AdapterMetrics) : io World unit := λ m, (Value tt, f m).
Definition gather_text : io World string := λ m, (Value (adapter_text m), m).

Definition registers_all_counters : test World :=
  do _ <- metrics_on_new_registry ;;
  do _ <- recording (inc_retries "registry" "1") ;;
  do _ <- recording (inc_deadline_exceeded "registry") ;;
  do text <- gather_text ;;
  do _ <- assert_ (contains "engagementhub_adapter_retries_total" text) ;;
  do _ <- assert_ (contains "engagementhub_deadline_exceeded_total" text) ;;
  assert_ (contains "engagementhub_saga_compensation_outcome_total" text).

(** A label as the format writes it. *)
Definition label (name value : string) : string := name ++ "=" ++ quote ++ value ++ quote.

Definition saga_counter_is_zero_initialized_for_all_label_combinations : test World :=
  do _ <- metrics_on_new_registry ;;
  do text <- gather_text ;;
  assert_ (forallb (λ stage, forallb (λ outcome,
    let expected :=
      "engagementhub_saga_compensation_outcome_total{"
          ++ label "result" (outcome_as_label outcome) ++ ","
      ++ label "stage" (stage_as_label stage) ++ "} 0" in
    contains expected text) outcome_ALL) stage_ALL).

Definition record_compensation_increments_correct_series : test World :=
  do _ <- metrics_on_new_registry ;;
  do _ <- recording (record_compensation JmCancel Success) ;;
  do _ <- recording (record_compensation VmStop ExhaustedToReconciler) ;;
  do text <- gather_text ;;
  do _ <- assert_ (contains ("engagementhub_saga_compensation_outcome_total{"
            ++ label "result" "success" ++ "," ++ label "stage" "jm_cancel" ++ "} 1") text) ;;
  assert_ (contains ("engagementhub_saga_compensation_outcome_total{"
            ++ label "result" "exhausted_to_reconciler" ++ "," ++ label "stage" "vm_stop"
                ++ "} 1") text).

Definition adapter_metrics_tests : list (test World) :=
  [registers_all_counters; saga_counter_is_zero_initialized_for_all_label_combinations;
   record_compensation_increments_correct_series].

Lemma adapter_metrics_tests_pass : Forall (λ t, passes t empty_metrics = true)
    adapter_metrics_tests.
Proof. unfold adapter_metrics_tests. run_closed_tests. Qed.
