(* ===== verification/HubMetricsTests.v ===== *)
(** * The unit tests of the hub's [metrics.rs]

    The texts are those of [PromText]; the state is the metrics under test.
    The counting of series per family descriptor in [no_organization_id_label]
    goes over the label names of every family gathered. *)
From Stdlib Require Import ZArith.
From stdpp Require Import base list gmap strings.
From S2P Require Import Prelude UnitTest Config Saga Prometheus HubMetrics PromText.
Import ListRegistry.
Local Open Scope string_scope.

Local Abbreviation World := (option (Metrics (P := list_prometheus))).

(** [Metrics::new(RegistryAdapter::Stub, Env::Dev, false).unwrap()], a change of
    the metrics, and [m.gather_text().unwrap()]. *)
Definition new_metrics : io World unit := λ s,
  match metrics_new Stub Dev false with Ok m => (Value tt, Some m) | Err _ => (Panicked, s) end.
Definition touching (f : Metrics → Metrics) : io World unit := λ s, (Value tt, f <$> s).
Definition gathered : io World string := λ s,
  (match s with
   | Some m => match gather_text m with Ok t => Value t | Err _ => Panicked end
   | None => Panicked
   end, s).
Definition gathered_families : io World (list (MetricDesc * Series)) := λ s,
  (match s with Some m => Value (zip all_descs (all_series m)) | None => Panicked end, s).

(** [v.with_label_values(&["_"; n])]. *)
Definition touch {V} (init : V) (n : nat) (v : gmap (list string) V) : gmap (list string) V :=
  with_label_values init (replicate n "_") v.
Definition label (name value : string) : string := name ++ "=" ++ quote ++ value ++ quote.

Definition touch_counters (m : Metrics) : Metrics :=
  mkMetrics (registry m) (registry_adapter_kind m) (otel_exporter_dropped_spans m)
    (touch 0%Z 3 (rpc_total m)) (touch 0%Z 2 (engagements_started_total m))
    (touch 0%Z 1 (engagements_terminal_total m)) (touch 0%Z 1 (engagement_errors_total m))
    (watch_streams_opened_total m) (watch_stream_reconnects_total m)
    (touch 0%Z 2 (reconciler_swept_total m)) (touch 0%Z 3 (adapter_retries_total m))
    (touch 0%Z 2 (saga_compensation_outcome_total m)) (audit_insert_failures_total m)
    (listen_notify_reconnects_total m) (db_failover_detected_total m)
    (rpc_duration_seconds m) (adapter_duration_seconds m) (orchestration_duration_seconds m)
    (startup_duration_seconds m) (call_duration_seconds m)
    (time_to_first_response_seconds m) (watch_stream_duration_seconds m)
    (listen_notify_fanout_latency_seconds m) (audit_insert_duration_seconds m)
    (active_engagements m) (active_watches m) (in_flight_invocations m) (db_pool_in_use m)
    (db_pool_idle m) (reconciler_backlog m) (consumer_lag_events m).
Definition touch_histograms (m : Metrics) : Metrics :=
  mkMetrics (registry m) (registry_adapter_kind m) (otel_exporter_dropped_spans m) (rpc_total m)
    (engagements_started_total m) (engagements_terminal_total m) (engagement_errors_total m)
    (watch_streams_opened_total m) (watch_stream_reconnects_total m)
    (reconciler_swept_total m) (adapter_retries_total m) (saga_compensation_outcome_total m)
    (audit_insert_failures_total m) (listen_notify_reconnects_total m)
    (db_failover_detected_total m) (touch [] 2 (rpc_duration_seconds m))
    (touch [] 3 (adapter_duration_seconds m)) (orchestration_duration_seconds m)
    (startup_duration_seconds m) (touch [] 1 (call_duration_seconds m))
    (time_to_first_response_seconds m) (watch_stream_duration_seconds m)
    (listen_notify_fanout_latency_seconds m) (audit_insert_duration_seconds m)
    (active_engagements m) (active_watches m) (in_flight_invocations m) (db_pool_in_use m)
    (db_pool_idle m) (reconciler_backlog m) (consumer_lag_events m).
Definition touch_gauges (m : Metrics) : Metrics :=
  mkMetrics (registry m) (registry_adapter_kind m) (otel_exporter_dropped_spans m) (rpc_total m)
    (engagements_started_total m) (engagements_terminal_total m) (engagement_errors_total m)
    (watch_streams_opened_total m) (watch_stream_reconnects_total m)
    (reconciler_swept_total m) (adapter_retries_total m) (saga_compensation_outcome_total m)
    (audit_insert_failures_total m) (listen_notify_reconnects_total m)
    (db_failover_detected_total m) (rpc_duration_seconds m) (adapter_duration_seconds m)
    (orchestration_duration_seconds m) (startup_duration_seconds m)
    (call_duration_seconds m) (time_to_first_response_seconds m)
    (watch_stream_duration_seconds m) (listen_notify_fanout_latency_seconds m)
    (audit_insert_duration_seconds m) (touch 0%Z 1 (active_engagements m))
    (touch 0%Z 1 (active_watches m)) (in_flight_invocations m) (db_pool_in_use m)
    (db_pool_idle m) (reconciler_backlog m) (consumer_lag_events m).

Definition all_counters_registered : test World :=
  do _ <- new_metrics ;;
  do _ <- touching touch_counters ;;
  do text <- gathered ;;
  assert_ (forallb (λ name, contains ("# HELP " ++ name ++ " ") text)
    ["engagementhub_rpc_total"; "engagementhub_engagements_started_total";
     "engagementhub_engagements_terminal_total"; "engagementhub_engagement_errors_total";
     "engagementhub_watch_streams_opened_total";
     "engagementhub_watch_stream_reconnects_total"; "engagementhub_reconciler_swept_total";
     "engagementhub_adapter_retries_total"; "engagementhub_saga_compensation_outcome_total";
     "engagementhub_audit_insert_failures_total";
     "engagementhub_listen_notify_reconnects_total";
     "engagementhub_otel_exporter_dropped_spans_total";
     "engagementhub_db_failover_detected_total"]).

Definition all_histograms_registered : test World :=
  do _ <- new_metrics ;;
  do _ <- touching touch_histograms ;;
  do text <- gathered ;;
  assert_ (forallb (λ name, contains (name ++ "_bucket") text || contains (name ++ "_sum") text)
    ["engagementhub_rpc_duration_seconds"; "engagementhub_adapter_duration_seconds";
     "engagementhub_orchestration_duration_seconds"; "engagementhub_startup_duration_seconds";
     "engagementhub_call_duration_seconds"; "engagementhub_time_to_first_response_seconds";
     "engagementhub_watch_stream_duration_seconds";
     "engagementhub_listen_notify_fanout_latency_seconds";
     "engagementhub_audit_insert_duration_seconds"]).

Definition all_gauges_registered : test World :=
  do _ <- new_metrics ;;
  do _ <- touching touch_gauges ;;
  do text <- gathered ;;
  assert_ (forallb (λ name, contains ("# HELP " ++ name ++ " ") text)
    ["engagementhub_active_engagements"; "engagementhub_active_watches";
     "engagementhub_in_flight_invocations"; "engagementhub_db_pool_in_use";
     "engagementhub_db_pool_idle"; "engagementhub_reconciler_backlog";
     "engagementhub_registry_adapter_kind"; "engagementhub_consumer_lag_events"]).

Definition pre_initialized_series_appear_at_zero : test World :=
  do _ <- new_metrics ;;
  do text <- gathered ;;
  do _ <- assert_ (forallb (λ class,
      contains ("engagementhub_reconciler_backlog{" ++ label "class" class ++ "} 0") text)
    ["pending_engagement"; "orphan_compensation"; "pending_audit"; "overrun_live"]) ;;
  do _ <- assert_ (forallb (λ stage,
      contains ("engagementhub_startup_duration_seconds_count{" ++ label "stage" stage ++ "} 0")
          text)
    ["validate_and_commit"; "registry_resolve"; "route_resolved_commit"; "parallel_bind";
     "invocation_requested_commit"; "audit"]) ;;
  do _ <- assert_ (forallb (λ stage,
      contains ("engagementhub_orchestration_duration_seconds_count{" ++ label "stage" stage
          ++ "} 0") text)
    ["start_engagement"; "stop_engagement"; "cancel_engagement"; "saga_compensation"]) ;;
  assert_ (forallb (λ exporter, contains (label "exporter" exporter) text)
    ["grafana"; "langfuse"; "local"]).

Definition no_organization_id_label : test World :=
  do _ <- new_metrics ;;
  do text <- gathered ;;
  do _ <- assert_ (negb (contains "organization_id" text)) ;;
  do families <- gathered_families ;;
  assert_ (forallb (λ fam, match series_text fam.1 fam.2 with
                           | EmptyString => true
                           | _ => forallb (λ l, negb (String.eqb l "organization_id"))
                               (md_labels fam.1)
                           end) families).

Definition histogram_buckets_match_design : test World :=
  do _ <- new_metrics ;;
  do _ <- touching touch_histograms ;;
  do text <- gathered ;;
  do _ <- assert_ (contains ("engagementhub_rpc_duration_seconds_bucket{" ++ label "code" "_" ++ ","
            ++ label "rpc" "_" ++ "," ++ label "le" "0.005" ++ "}") text) ;;
  do _ <- assert_ (contains ("engagementhub_rpc_duration_seconds_bucket{" ++ label "code" "_" ++ ","
            ++ label "rpc" "_" ++ "," ++ label "le" "5" ++ "}") text) ;;
  do _ <- assert_ (contains ("engagementhub_call_duration_seconds_bucket{" ++ label "outcome" "_"
      ++ ","
            ++ label "le" "5" ++ "}") text) ;;
  do _ <- assert_ (contains ("engagementhub_call_duration_seconds_bucket{" ++ label "outcome" "_"
      ++ ","
            ++ label "le" "3600" ++ "}") text) ;;
  do _ <- assert_ (contains ("engagementhub_audit_insert_duration_seconds_bucket{"
            ++ label "le" "0.001" ++ "}") text) ;;
  do _ <- assert_ (contains ("engagementhub_audit_insert_duration_seconds_bucket{"
            ++ label "le" "0.5" ++ "}") text) ;;
  assert_ (contains ("engagementhub_watch_stream_duration_seconds_bucket{"
            ++ label "le" "86400" ++ "}") text).

Definition active_kind_has_all_three_labels : test World :=
  do _ <- new_metrics ;;
  do text <- gathered ;;
  assert_ (contains ("engagementhub_registry_adapter_kind{" ++ label "env" "dev" ++ ","
    ++ label "idle_mode" "false" ++ "," ++ label "kind" "stub" ++ "} 1") text).

Definition dropped_spans_counter_registered_with_all_labels : test World :=
  do _ <- new_metrics ;;
  do text <- gathered ;;
  do _ <- assert_ (contains "engagementhub_otel_exporter_dropped_spans_total" text) ;;
  assert_ (forallb (λ exporter, contains (label "exporter" exporter) text)
    ["grafana"; "langfuse"; "local"]).

Definition hub_metrics_tests : list (test World) :=
  [all_counters_registered; all_histograms_registered; all_gauges_registered;
   pre_initialized_series_appear_at_zero; no_organization_id_label;
   histogram_buckets_match_design; active_kind_has_all_three_labels;
   dropped_spans_counter_registered_with_all_labels].

Lemma hub_metrics_tests_pass : Forall (λ t, passes t None = true) hub_metrics_tests.
Proof. unfold hub_metrics_tests. run_closed_tests. Qed.
