(* ===== verification/IdempotencyTests.v ===== *)
(** * The unit tests of [idempotency.rs]

    They run on the concrete printer and reader of [TestJson] and on the SHA-256
    of [Sha256]; the state is the random source. *)
From Stdlib Require Import ZArith Lia.
From Stdlib Require Import Strings.Ascii Strings.String.
From stdpp Require Import base list gmap strings sorting.
From S2P Require Import Prelude Bytes Uuids UnitTest SerdeJson NotifyPayloadJson TestJson.
From S2P Require Import Idempotency Sha256 PromText MockPeer.
Import Uuid36 TestJson CountingEnv.
Local Open Scope string_scope.

Local Abbreviation World := ((Z * nat) * unit)%type.

(** [serde_json::to_string] on the map and [Sha256::digest]. *)
Definition value_json (v : Value) : Json :=
  match v with VString s => JString s | VBool b => JBool b end.
#[export] Instance hash_lib : HashLib := {|
  json_to_string m := print (JObject (map (λ e, (e.1, value_json e.2)) m));
  sha256 := sha256_string
|}.

(** [serde_json::Map] is a [BTreeMap] here (no [preserve_order]): its keys come
    in byte order, each once, whatever the order of the text. *)
Definition key_le (j k : string) : Prop := String.leb j k = true.
#[local] Instance key_le_dec j k : Decision (key_le j k).
Proof. unfold key_le. apply _. Defined.
Definition as_object_keys (v : Json) : option (list string) :=
  match v with
  | JObject o => Some (merge_sort key_le (remove_dups (o.*1)))
  | _ => None
  end.

Definition sample_fields : StartEngagementFields := {|
  org_id := "00000000-0000-0000-0000-000000000001";
  channel := "1";
  mode := "1";
  journey_version := "v1.0.0";
  contact_kind := "2";
  contact_id := None;
  contact_phone := Some "+60126013446";
  batch_id := None;
  voice_profile_id := None;
  test_mode := false;
  language := Some "en-MY"
|}.

Definition canonical_json_keys_are_sorted : test World :=
  let fields := sample_fields in
  let json := canonical_json_start_engagement fields in
  do parsed <- unwrap (parse_json_text json) ;;
  do keys <- unwrap_some (as_object_keys parsed) ;;
  let sorted := merge_sort key_le keys in
  assert_eq keys sorted.

Definition canonical_json_omits_absent_optional_fields : test World :=
  let fields := sample_fields in
  let json := canonical_json_start_engagement fields in
  do _ <- assert_ (negb (contains "batch_id" json)) ;;
  assert_ (negb (contains "voice_profile_id" json)).

Definition canonical_json_includes_present_optional_fields : test World :=
  let fields := sample_fields in
  let json := canonical_json_start_engagement fields in
  do _ <- assert_ (contains "contact_phone" json) ;;
  assert_ (contains "en-MY" json).

Definition canonical_json_no_insignificant_whitespace : test World :=
  let fields := sample_fields in
  let json := canonical_json_start_engagement fields in
  do _ <- assert_ (negb (contains ": " json)) ;;
  assert_ (negb (contains ", " json)).

Definition hash_is_deterministic : test World :=
  let f1 := sample_fields in
  let f2 := sample_fields in
  assert_eq (canonical_hash_start_engagement f1) (canonical_hash_start_engagement f2).

(** [f2.channel = c] and [f2.batch_id = b]. *)
Definition set_channel (c : string) (f : StartEngagementFields) : StartEngagementFields :=
  Build_StartEngagementFields (org_id f) c (mode f) (journey_version f) (contact_kind f)
    (contact_id f) (contact_phone f) (batch_id f) (voice_profile_id f) (test_mode f) (language f).
Definition set_batch_id (b : option string) (f : StartEngagementFields) : StartEngagementFields :=
  Build_StartEngagementFields (org_id f) (channel f) (mode f) (journey_version f) (contact_kind f)
    (contact_id f) (contact_phone f) b (voice_profile_id f) (test_mode f) (language f).

Definition hash_changes_when_field_changes : test World :=
  let f1 := sample_fields in
  let f2 := set_channel "2" sample_fields in
  assert_ne (canonical_hash_start_engagement f1) (canonical_hash_start_engagement f2).

Definition hash_changes_when_optional_field_added : test World :=
  let f1 := sample_fields in
  do b <- draw_uuid ;;
  let f2 := set_batch_id (Some (uuid_to_string b)) sample_fields in
  assert_ne (canonical_hash_start_engagement f1) (canonical_hash_start_engagement f2).

Definition hash_excludes_metadata_and_display_name : test World :=
  let fields := sample_fields in
  let json := canonical_json_start_engagement fields in
  do _ <- assert_ (negb (contains "metadata" json)) ;;
  assert_ (negb (contains "display_name" json)).

Definition payload_hash_roundtrip_via_vec : test World :=
  let fields := sample_fields in
  let hash := canonical_hash_start_engagement fields in
  let bytes := as_bytes hash in
  do recovered <- unwrap_some (from_vec bytes) ;;
  assert_eq hash recovered.

Definition payload_hash_from_vec_rejects_wrong_length : test World :=
  let bad : list u8 := repeat Byte.x00 16 in
  assert_ (match from_vec bad with None => true | Some _ => false end).

(** [char::is_ascii_hexdigit]. *)
Definition is_ascii_hexdigit (c : ascii) : bool :=
  let n := nat_of_ascii c in
  ((48 <=? n) && (n <=? 57) || (65 <=? n) && (n <=? 70) || (97 <=? n) && (n <=? 102))%nat.

Definition payload_hash_hex_is_64_chars : test World :=
  let fields := sample_fields in
  let hash := canonical_hash_start_engagement fields in
  let hex := to_hex hash in
  do _ <- assert_eq (String.length hex) 64%nat ;;
  assert_ (forallb is_ascii_hexdigit (list_ascii_of_string hex)).

#[export] Instance IdempotencyResult_eq_dec : EqDecision (IdempotencyResult (U := lib)).
Proof. solve_decision. Defined.

Definition idempotency_result_variants_are_distinguishable : test World :=
  do eid <- draw_uuid ;;
  let r1 := New (U := lib) in
  let r2 := Replay (U := lib) eid false in
  let r3 := Conflict (U := lib) in
  do _ <- assert_ne r1 r2 ;;
  do _ <- assert_ne r1 r3 ;;
  assert_ne r2 r3.

Definition idempotency_tests : list (test World) :=
  [canonical_json_keys_are_sorted;
   canonical_json_omits_absent_optional_fields;
   canonical_json_includes_present_optional_fields;
   canonical_json_no_insignificant_whitespace;
   hash_is_deterministic;
   hash_changes_when_field_changes;
   hash_changes_when_optional_field_added;
   hash_excludes_metadata_and_display_name;
   payload_hash_roundtrip_via_vec;
   payload_hash_from_vec_rejects_wrong_length;
   payload_hash_hex_is_64_chars;
   idempotency_result_variants_are_distinguishable].

Lemma idempotency_tests_pass :
  Forall (λ t, passes t ((0%Z, 0%nat), tt) = true) idempotency_tests.
Proof. unfold idempotency_tests. run_closed_tests. Qed.
