(* ===== verification/AuditTests.v ===== *)
(** * The unit tests of [audit.rs]

    The state is the metrics a writer was built on, next to the random source. *)
From Stdlib Require Import ZArith Ascii.
From stdpp Require Import base list gmap strings.
From S2P Require Import Prelude Uuids UnitTest Config Prometheus HubMetrics AuditWriter PromText.
From S2P Require Import SerdeJson MockPeer.
Import Uuid36 CountingEnv ListRegistry.
Local Open Scope string_scope.

Local Abbreviation World := ((Z * nat) * option (Metrics (P := list_prometheus)))%type.
Local Abbreviation Row := (AuditRow (U := lib) (Json := SerdeJson.Json)).

(** The writer is the metrics it holds. *)
Definition make_writer : io (option (Metrics (P := list_prometheus))) unit := λ s,
  match metrics_new Stub Dev false with Ok m => (Value tt, Some m) | Err _ => (Panicked, s) end.

Definition sample_row : io World Row :=
  do id <- draw audit_id_new ;;
  do org <- draw_uuid ;;
  do engagement <- draw_uuid ;;
  do request <- draw_uuid ;;
  io_ret {|
    audit_id := id;
    organization_id := Some org;
    acting_principal_kind := ServiceAccount;
    acting_principal_id := "svc-test";
    acting_user_id := None;
    acting_via := "grpc/StartEngagement";
    rpc_name := "StartEngagement";
    engagement_id := Some engagement;
    request_id := Some request;
    request_summary := Some (JObject [("channel", JInt 1)]);
    trace_id := Some "abc123"
  |}.

Definition audit_id_display_is_uuid_string : test World :=
  do id <- draw audit_id_new ;;
  let s := audit_id_display id in
  do _ <- assert_eq (String.length s) 36%nat ;;
  assert_eq (length (filter (λ c, c = "-"%char) (String.list_ascii_of_string s))) 4%nat.

Definition audit_outcome_discriminants : test World :=
  do _ <- assert_eq (outcome_as_i16 Pending) 0 ;;
  do _ <- assert_eq (outcome_as_i16 Success) 1 ;;
  do _ <- assert_eq (outcome_as_i16 ClientError) 2 ;;
  assert_eq (outcome_as_i16 ServerError) 3.

Definition principal_kind_discriminants : test World :=
  do _ <- assert_eq (principal_as_i16 Unknown) 0 ;;
  do _ <- assert_eq (principal_as_i16 User) 1 ;;
  do _ <- assert_eq (principal_as_i16 ServiceAccount) 2 ;;
  assert_eq (principal_as_i16 System) 3.

Definition sample_row_builds : test World :=
  do row <- sample_row ;;
  assert_eq (rpc_name row) "StartEngagement".

Definition writer_constructs : test World :=
  do w <- on_subject make_writer ;;
  io_ret w.

Definition audit_tests : list (test World) :=
  [audit_id_display_is_uuid_string; audit_outcome_discriminants; principal_kind_discriminants;
   sample_row_builds; writer_constructs].

Lemma audit_tests_pass : Forall (λ t, passes t ((0%Z, 0%nat), None) = true) audit_tests.
Proof. unfold audit_tests. run_closed_tests. Qed.
