(* ===== verification/ConfigTests.v ===== *)
(** * The unit tests of [config.rs]

    They need the process environment to be empty, as clap reads it for every
    option that is not on the command line. *)
From Stdlib Require Import ZArith.
From stdpp Require Import base list strings.
From S2P Require Import Prelude UnitTest Config.
Local Open Scope string_scope.

(** ** What [#[derive(Parser)]] makes of a command line *)

(** The options given, each once; the rest of the attributes. *)
Fixpoint options (args : list string) : list (string * string) :=
  match args with name :: value :: rest => (name, value) :: options rest | _ => [] end.
Fixpoint option_value (name : string) (os : list (string * string)) : option string :=
  match os with
  | [] => None
  | (n, v) :: os' => if String.eqb n name then Some v else option_value name os'
  end.

(** The names of [#[derive(ValueEnum)]]. *)
Definition env_of (v : string) : option Env :=
  if String.eqb v "dev" then Some Dev else if String.eqb v "staging" then Some Staging
  else if String.eqb v "production" then Some Production else None.
Definition adapter_of (v : string) : option RegistryAdapter :=
  if String.eqb v "stub" then Some Stub else if String.eqb v "grpc" then Some Grpc else None.

(** [Config::try_parse_from] on command lines with the three options that have
    no default and no others. *)
Definition try_parse_from (args : list string) : option Config :=
  let os := options (tail args) in
  env ← option_value "--env" os ≫= env_of;
  registry_adapter ← option_value "--registry-adapter" os ≫= adapter_of;
  database_url ← option_value "--database-url" os;
  if decide (length os = 3%nat) then
    Some {|
      env := env;
      registry_adapter := registry_adapter;
      track_0_idle_mode := false;
      database_url := database_url;
      external_grpc_addr := "0.0.0.0:8443";
      internal_grpc_addr := "0.0.0.0:8444";
      http_addr := "0.0.0.0:9090";
      db_pool_min := 10;
      db_pool_max := 25;
      db_idle_timeout_secs := 300;
      db_statement_timeout_ms := 5000;
      db_slow_query_ms := 500;
      db_acquire_timeout_secs := 3;
      db_max_lifetime_secs := 1800;
      log_format := Json;
      otel_export_grafana := true;
      otel_export_langfuse := false;
      otel_export_local := false;
      otel_grafana_endpoint := "http://localhost:4317";
      otel_langfuse_endpoint := "https://cloud.langfuse.com/api/public/otel";
      langfuse_public_key := None;
      langfuse_secret_key := None
    |}
  else None.

Definition parse : io unit Config :=
  unwrap_some (try_parse_from
    ["engagement-hub"; "--env"; "dev"; "--registry-adapter"; "stub";
     "--database-url"; "postgres://localhost/test"]).

(** ** The tests *)

Definition otel_export_local_defaults_true_when_env_is_dev_and_var_not_set : test unit :=
  do cfg <- parse ;;
  let cfg := apply_otel_local_default cfg false in
  assert_ (otel_export_local cfg).

Definition otel_export_local_not_overridden_when_explicitly_set : test unit :=
  do cfg <- parse ;;
  let cfg := apply_otel_local_default cfg true in
  assert_ (negb (otel_export_local cfg)).

Definition otel_type_both_sets_grafana_and_langfuse : test unit :=
  do cfg <- parse ;;
  let cfg := apply_otel_type_legacy cfg (Some "both") in
  do _ <- assert_ (otel_export_grafana cfg) ;;
  assert_ (otel_export_langfuse cfg).

Definition otel_type_collector_sets_grafana_only : test unit :=
  do cfg <- parse ;;
  let cfg := apply_otel_type_legacy cfg (Some "collector") in
  do _ <- assert_ (otel_export_grafana cfg) ;;
  assert_ (negb (otel_export_langfuse cfg)).

Definition config_tests : list (test unit) :=
  [otel_export_local_defaults_true_when_env_is_dev_and_var_not_set;
   otel_export_local_not_overridden_when_explicitly_set;
   otel_type_both_sets_grafana_and_langfuse;
   otel_type_collector_sets_grafana_only].

Lemma config_tests_pass : Forall (λ t, passes t tt = true) config_tests.
Proof. unfold config_tests. run_closed_tests. Qed.
