(* ===== verification/OtlpJson.v ===== *)
(** * OTLP JSON envelopes

    Models [crates/engagement-hub/src/telemetry/otlp_json.rs]: the conversion of
    a batch of [SpanData] to [TracesData], and the JSON object serde derives
    from the structs' attributes (camel-case keys in field order, an enum as a
    one-member object).  Times are nanoseconds from the Unix epoch; the
    [Debug] text of an attribute that is no primitive is a parameter. *)
From Stdlib Require Import ZArith Lia.
From Stdlib Require Import Strings.String Strings.Byte.
From stdpp Require Import base list strings pretty.
From S2P Require Import Prelude Bytes.

(** ** OpenTelemetry's types *)

(** Of the types of [SpanData] only those the conversion reads have a
    structure; the others are types of the library. *)
Class OtelLib := {
  f64 : Type;
  (** [f64::is_finite]. *)
  f64_is_finite : f64 → bool;
  (** [Value::Array] and the variants of later versions, and [{:?}] on them. *)
  OtelArray : Type;
  OtelOther : Type;
  debug_array : OtelArray → string;
  debug_other : OtelOther → string;
  TraceState : Type;
  SpanEvents : Type;
  SpanLinks : Type;
  InstrumentationScope : Type
}.

Section OtlpJson.
Context `{L : OtelLib}.

Inductive OtelValue :=
| OBool (b : bool) | OI64 (i : Z) | OF64 (f : f64) | OString (s : string)
| OArray (a : OtelArray) | OOther (o : OtelOther).
Inductive SpanKind := Internal | Server | Client | Producer | Consumer.
Inductive Status := StatusUnset | StatusOk | StatusError (description : string).

Record SpanContext := mkSpanContext {
  sc_trace_id : list u8;
  sc_span_id : list u8;
  sc_trace_flags : u8;
  sc_is_remote : bool;
  sc_trace_state : TraceState
}.

Record SpanData := mkSpanData {
  sd_span_context : SpanContext;
  sd_parent_span_id : list u8;
  sd_span_kind : SpanKind;
  sd_name : string;
  sd_start_time : Z;
  sd_end_time : Z;
  sd_attributes : list (string * OtelValue);
  sd_dropped_attributes_count : Z;
  sd_events : SpanEvents;
  sd_links : SpanLinks;
  sd_status : Status;
  sd_instrumentation_scope : InstrumentationScope
}.

(** [SpanId::INVALID]. *)
Definition INVALID : list u8 := replicate 8 Byte.x00.

(** ** The mirror structs *)

Inductive KvValue :=
| StringValue (s : string) | BoolValue (b : bool) | IntValue (s : string) | DoubleValue (f : f64).
Record KvAttribute := mkKv { key : string; value : KvValue }.
Record OtlpStatus := mkStatus { code : string }.
Record OtlpSpan := mkSpan {
  trace_id : string;
  span_id : string;
  parent_span_id : string;
  name : string;
  kind : Z;
  start_time_unix_nano : string;
  end_time_unix_nano : string;
  attributes : list KvAttribute;
  status : OtlpStatus
}.
Record OtlpScope := mkScope { scope_name : string }.
Record ScopeSpans := mkScopeSpans { scope : OtlpScope; spans : list OtlpSpan }.
Record OtlpResource := mkResource { resource_attributes : list KvAttribute }.
Record ResourceSpans := mkResourceSpans {
  resource : OtlpResource;
  scope_spans : list ScopeSpans
}.
Record TracesData := mkTraces { resource_spans : list ResourceSpans }.

(** ** The conversion *)

Definition bytes_to_hex (bytes : list u8) : string := hex_of_bytes bytes.

(** A time before the epoch is an error of [duration_since]: it becomes 0. *)
Definition system_time_to_nano_str (t : Z) : string := pretty (if t <? 0 then 0 else t).

Definition span_kind_to_int (k : SpanKind) : Z :=
  match k with Internal => 1 | Server => 2 | Client => 3 | Producer => 4 | Consumer => 5 end.

Definition otel_value_to_kv (v : OtelValue) : KvValue :=
  match v with
  | OBool b => BoolValue b
  | OI64 i => IntValue (pretty i)
  | OF64 f => DoubleValue f
  | OString s => StringValue s
  | OArray a => StringValue (debug_array a)
  | OOther o => StringValue (debug_other o)
  end.

Definition STATUS_UNSET : string := "STATUS_CODE_UNSET".
Definition STATUS_OK : string := "STATUS_CODE_OK".
Definition STATUS_ERROR : string := "STATUS_CODE_ERROR".

Definition status_to_otlp (s : Status) : OtlpStatus :=
  mkStatus match s with
           | StatusUnset => STATUS_UNSET
           | StatusOk => STATUS_OK
           | StatusError _ => STATUS_ERROR
           end.

(** The closures of [spans_to_traces_data]. *)
Definition attribute_to_otlp (kv : string * OtelValue) : KvAttribute :=
  mkKv kv.1 (otel_value_to_kv kv.2).

Definition span_to_otlp (span : SpanData) : OtlpSpan :=
  let trace_id := bytes_to_hex (sc_trace_id (sd_span_context span)) in
  let span_id := bytes_to_hex (sc_span_id (sd_span_context span)) in
  let parent_span_id :=
    if decide (sd_parent_span_id span = INVALID) then ""%string
    else bytes_to_hex (sd_parent_span_id span) in
  mkSpan trace_id span_id parent_span_id (sd_name span) (span_kind_to_int (sd_span_kind span))
    (system_time_to_nano_str (sd_start_time span)) (system_time_to_nano_str (sd_end_time span))
    (attribute_to_otlp <$> sd_attributes span) (status_to_otlp (sd_status span)).

Definition clone_attribute (kv : KvAttribute) : KvAttribute :=
  mkKv (key kv) match value kv with
                | StringValue s => StringValue s
                | BoolValue b => BoolValue b
                | IntValue i => IntValue i
                | DoubleValue f => DoubleValue f
                end.

Definition spans_to_traces_data (batch : list SpanData) (resource_attrs : list KvAttribute)
    (scope_name : string) : TracesData :=
  mkTraces [mkResourceSpans (mkResource (clone_attribute <$> resource_attrs))
    [mkScopeSpans (mkScope scope_name) (span_to_otlp <$> batch)]].

(** ** Serialisation *)

(** [serde_json] writes a double that is not finite as [null]. *)
Inductive Json :=
| JNull | JString (s : string) | JBool (b : bool) | JInt (i : Z) | JDouble (f : f64)
| JArray (l : list Json) | JObject (l : list (string * Json)).

Definition f64_json (f : f64) : Json := if f64_is_finite f then JDouble f else JNull.

Definition value_json (v : KvValue) : Json :=
  match v with
  | StringValue s => JObject [("stringValue"%string, JString s)]
  | BoolValue b => JObject [("boolValue"%string, JBool b)]
  | IntValue s => JObject [("intValue"%string, JString s)]
  | DoubleValue f => JObject [("doubleValue"%string, f64_json f)]
  end.
Definition attribute_json (a : KvAttribute) : Json :=
  JObject [("key"%string, JString (key a)); ("value"%string, value_json (value a))].
Definition span_json (s : OtlpSpan) : Json :=
  JObject [("traceId", JString (trace_id s)); ("spanId", JString (span_id s));
    ("parentSpanId", JString (parent_span_id s)); ("name", JString (name s));
    ("kind", JInt (kind s)); ("startTimeUnixNano", JString (start_time_unix_nano s));
    ("endTimeUnixNano", JString (end_time_unix_nano s));
    ("attributes", JArray (attribute_json <$> attributes s));
    ("status", JObject [("code", JString (code (status s)))])]%string.
Definition scope_spans_json (s : ScopeSpans) : Json :=
  JObject [("scope", JObject [("name", JString (scope_name (scope s)))]);
    ("spans", JArray (span_json <$> spans s))]%string.
Definition resource_spans_json (r : ResourceSpans) : Json :=
  JObject [("resource", JObject [("attributes",
      JArray (attribute_json <$> resource_attributes (resource r)))]);
    ("scopeSpans", JArray (scope_spans_json <$> scope_spans r))]%string.
Definition traces_json (t : TracesData) : Json :=
  JObject [("resourceSpans"%string, JArray (resource_spans_json <$> resource_spans t))].

(** ** What the envelope keeps *)

(** Of a value: its type and, for an array or another variant, the [Debug] text,
    which a string may have as well; doubles that are not finite look alike. *)
Inductive KeptValue := KeptText (s : string) | KeptBool (b : bool) | KeptInt (i : Z)
| KeptDouble (f : f64) | KeptNull.

Definition kept_value (v : OtelValue) : KeptValue :=
  match v with
  | OBool b => KeptBool b
  | OI64 i => KeptInt i
  | OF64 f => if f64_is_finite f then KeptDouble f else KeptNull
  | OString s => KeptText s
  | OArray a => KeptText (debug_array a)
  | OOther o => KeptText (debug_other o)
  end.

(** Of a span: neither flags, remoteness and state of its context, nor events,
    links, dropped attributes and instrumentation scope, nor the description of
    an error; a time before the epoch counts as the epoch. *)
Record KeptSpan := mkKept {
  kept_trace_id : list u8;
  kept_span_id : list u8;
  kept_parent : list u8;
  kept_name : string;
  kept_kind : SpanKind;
  kept_times : Z * Z;
  kept_attributes : list (string * KeptValue);
  kept_status : Status
}.

Definition kept (s : SpanData) : KeptSpan :=
  mkKept (sc_trace_id (sd_span_context s)) (sc_span_id (sd_span_context s)) (sd_parent_span_id s)
    (sd_name s) (sd_span_kind s) (Z.max 0 (sd_start_time s), Z.max 0 (sd_end_time s))
    ((λ kv, (kv.1, kept_value kv.2)) <$> sd_attributes s)
    (match sd_status s with StatusError _ => StatusError "" | st => st end).

(** Of a resource attribute: all but which double, if it is not finite. *)
Definition kept_kv (a : KvAttribute) : string * (KvValue + unit) :=
  (key a, match value a with
          | DoubleValue f => if f64_is_finite f then inl (DoubleValue f) else inr ()
          | v => inl v
          end).

(** ** Facts *)

Lemma nano_str_iff t t' :
  system_time_to_nano_str t = system_time_to_nano_str t' ↔ Z.max 0 t = Z.max 0 t'.
Proof.
  unfold system_time_to_nano_str. split.
  - intros Heq%(inj pretty). destruct (Z.ltb_spec t 0), (Z.ltb_spec t' 0); lia.
  - intros Heq. f_equal. destruct (Z.ltb_spec t 0), (Z.ltb_spec t' 0); lia.
Qed.

Lemma span_kind_iff k k' : span_kind_to_int k = span_kind_to_int k' ↔ k = k'.
Proof. by destruct k, k'. Qed.

Lemma parent_iff p p' :
  p ≠ [] → p' ≠ [] →
  (if decide (p = INVALID) then ""%string else bytes_to_hex p)
  = (if decide (p' = INVALID) then ""%string else bytes_to_hex p') ↔ p = p'.
Proof.
  intros Hp Hp'. split; [|by intros ->]. unfold bytes_to_hex. intros Heq.
  repeat case_decide; subst; try done.
  - by destruct p'.
  - by destruct p.
  - by apply (inj hex_of_bytes) in Heq.
Qed.

(** If [f] agrees where [g] does on the elements at hand, so do the maps. *)
Lemma fmap_eq_iff {A B C} (f : A → B) (g : A → C) (P : A → Prop) (l l' : list A) :
  (∀ x y, P x → P y → f x = f y ↔ g x = g y) →
  Forall P l → Forall P l' → f <$> l = f <$> l' ↔ g <$> l = g <$> l'.
Proof.
  intros Hf Hl. revert l'. induction Hl as [|x l Hx Hl IH]; intros [|y l'] Hl'; try done.
  apply Forall_cons in Hl' as [Hy Hl']. rewrite !fmap_cons.
  specialize (Hf x y Hx Hy). specialize (IH l' Hl').
  split; intros Heq; injection Heq as Hxy Heq; f_equal; tauto.
Qed.

Lemma fmap_eq_iff_all {A B C} (f : A → B) (g : A → C) (l l' : list A) :
  (∀ x y, f x = f y ↔ g x = g y) → f <$> l = f <$> l' ↔ g <$> l = g <$> l'.
Proof.
  intros Hf. apply (fmap_eq_iff f g (λ _, True)); [by intros; apply Hf|by apply Forall_true..].
Qed.

(** Two attributes are written alike exactly if the same is kept of them. *)
Lemma attribute_json_iff kv kv' :
  attribute_json (attribute_to_otlp kv) = attribute_json (attribute_to_otlp kv')
  ↔ (kv.1, kept_value kv.2) = (kv'.1, kept_value kv'.2).
Proof.
  destruct kv as [k v], kv' as [k' v']. unfold attribute_json, attribute_to_otlp, f64_json. simpl.
  split; intros Heq.
  - injection Heq as -> Heq. f_equal. destruct v, v'; simpl in *; unfold f64_json in *;
      repeat case_match; simplify_eq; congruence || by f_equal; apply (inj pretty).
  - injection Heq as -> Heq. do 4 f_equal. destruct v, v'; simpl in *; unfold f64_json;
      repeat case_match; simplify_eq; congruence.
Qed.

Lemma resource_attribute_iff a a' :
  attribute_json (clone_attribute a) = attribute_json (clone_attribute a') ↔ kept_kv a = kept_kv a'.
Proof.
  destruct a as [k v], a' as [k' v']. unfold attribute_json, clone_attribute, kept_kv. simpl.
  split; intros Heq.
  - injection Heq as -> Heq. f_equal. destruct v, v'; simpl in *; unfold f64_json in *;
      repeat case_match; simplify_eq; congruence.
  - injection Heq as -> Heq. do 4 f_equal. destruct v, v'; simpl in *; unfold f64_json;
      repeat case_match; simplify_eq; congruence.
Qed.

(** Ids have the sizes of [TraceId] and [SpanId]. *)
Definition span_wf (s : SpanData) : Prop :=
  length (sc_trace_id (sd_span_context s)) = 16%nat
  ∧ length (sc_span_id (sd_span_context s)) = 8%nat ∧ length (sd_parent_span_id s) = 8%nat.

Lemma span_json_iff s s' :
  span_wf s → span_wf s' →
  span_json (span_to_otlp s) = span_json (span_to_otlp s') ↔ kept s = kept s'.
Proof.
  intros (_ & _ & Hp) (_ & _ & Hp').
  pose proof (parent_iff (sd_parent_span_id s) (sd_parent_span_id s')
    ltac:(by intros E; rewrite E in *) ltac:(by intros E; rewrite E in *)) as Hpar.
  pose proof (fmap_eq_iff_all _ _ (sd_attributes s) (sd_attributes s') attribute_json_iff) as Hattr.
  pose proof (nano_str_iff (sd_start_time s) (sd_start_time s')) as Hstart.
  pose proof (nano_str_iff (sd_end_time s) (sd_end_time s')) as Hend.
  pose proof (span_kind_iff (sd_span_kind s) (sd_span_kind s')) as Hkind.
  unfold span_json, span_to_otlp, kept. cbn. rewrite <- !list_fmap_compose. unfold compose. split.
  - intros Heq. injection Heq as Ht Hs Hparent Hn Hk Hst Hen Hat Hstat.
    apply (inj hex_of_bytes) in Ht, Hs. f_equal; try tauto; try done; [f_equal; tauto|].
    by destruct (sd_status s), (sd_status s').
  - intros Heq. injection Heq as Ht Hs Hparent Hn Hk Hst Hen Hat Hstat.
    rewrite Ht, Hs, Hn, Hparent, (proj2 Hkind Hk), (proj2 Hstart Hst), (proj2 Hend Hen).
    rewrite (proj2 Hattr Hat). repeat f_equal. by destruct (sd_status s), (sd_status s').
Qed.

(** The envelope around the attributes, the scope and the spans. *)
Definition envelope_json (attrs : list Json) (sc : string) (spans : list Json) : Json :=
  JObject [("resourceSpans", JArray [JObject
    [("resource", JObject [("attributes", JArray attrs)]);
     ("scopeSpans", JArray [JObject
       [("scope", JObject [("name", JString sc)]); ("spans", JArray spans)]])]])]%string.

Lemma traces_json_envelope batch attrs sc :
  traces_json (spans_to_traces_data batch attrs sc)
  = envelope_json (attribute_json <$> (clone_attribute <$> attrs)) sc
      (span_json <$> (span_to_otlp <$> batch)).
Proof. reflexivity. Qed.

(** ** Properties *)

(** C35. Two batches are written as the same JSON exactly if the same is kept
    of them: the scope, the resource attributes and, in order, every span's
    ids, name, kind, times (one before the epoch counts as the epoch),
    attributes with their types (an array as its [Debug] text, no double that is
    not finite) and status up to the description of an error.  Events, links,
    flags, trace state, dropped counts and instrumentation scope leave no trace.
    Ids are 32 and 16 hex digits; the parent id is empty exactly for a root
    span. *)
Theorem traces_json_determines (batch batch' : list SpanData) attrs attrs' sc sc' :
  Forall span_wf batch → Forall span_wf batch' →
  (traces_json (spans_to_traces_data batch attrs sc)
   = traces_json (spans_to_traces_data batch' attrs' sc') ↔
   kept <$> batch = kept <$> batch' ∧ kept_kv <$> attrs = kept_kv <$> attrs' ∧ sc = sc')
  ∧ Forall (λ s, String.length (trace_id (span_to_otlp s)) = 32%nat
      ∧ String.length (span_id (span_to_otlp s)) = 16%nat
      ∧ (parent_span_id (span_to_otlp s) = ""%string ↔ sd_parent_span_id s = INVALID)) batch.
Proof.
  intros Hwf Hwf'. split.
  - rewrite <- (fmap_eq_iff _ _ _ _ _ span_json_iff Hwf Hwf').
    rewrite <- (fmap_eq_iff_all _ _ attrs attrs' resource_attribute_iff).
    assert (Hsp : ∀ l, (λ s, span_json (span_to_otlp s)) <$> l = span_json <$> (span_to_otlp <$> l))
      by (intros l; apply (list_fmap_compose span_to_otlp span_json)).
    assert (Hat : ∀ l, (λ a, attribute_json (clone_attribute a)) <$> l
      = attribute_json <$> (clone_attribute <$> l))
      by (intros l; apply (list_fmap_compose clone_attribute attribute_json)).
    rewrite !Hsp, !Hat, !traces_json_envelope. split.
    + intros Heq. by injection Heq as Hattrs Hsc Hspans.
    + by intros (-> & -> & ->).
  - eapply Forall_impl; [exact Hwf|]. intros s (Ht & Hs & Hp). simpl. unfold bytes_to_hex.
    rewrite !hex_of_bytes_length, Ht, Hs. split_and!; [done|done|]. case_decide as Hd; [done|].
    split; [|done]. by destruct (sd_parent_span_id s).
Qed.

End OtlpJson.

(** ** The hypotheses at a concrete batch *)
Section Witness.

(** Doubles with one that is not finite. *)
Local Instance unit_otel : OtelLib := {|
  f64 := option Z; f64_is_finite f := bool_decide (is_Some f); OtelArray := unit; OtelOther := unit;
  debug_array _ := "[]"%string; debug_other _ := "?"%string;
  TraceState := unit; SpanEvents := list string; SpanLinks := unit; InstrumentationScope := string
|}.

Definition not_a_number : @f64 unit_otel := @None Z.

Definition sample (attrs : list (string * OtelValue)) (events : list string) : SpanData :=
  {| sd_span_context := mkSpanContext (replicate 16 Byte.x01) (replicate 8 Byte.x02) Byte.x01
      false ();
     sd_parent_span_id := INVALID; sd_span_kind := Internal; sd_name := "my-op"%string;
     sd_start_time := -5; sd_end_time := 42; sd_attributes := attrs;
     sd_dropped_attributes_count := 0; sd_events := events; sd_links := ();
     sd_status := StatusOk; sd_instrumentation_scope := "test"%string |}.

Lemma traces_json_determines_witness :
  traces_json (spans_to_traces_data [sample [("n"%string, OI64 3)] []] [] "s")
  ≠ traces_json (spans_to_traces_data [sample [("n"%string, OString "3")] []] [] "s")
  ∧ traces_json (spans_to_traces_data [sample [("n"%string, OF64 not_a_number)] ["event"%string]]
      [] "s")
    = traces_json (spans_to_traces_data [sample [("n"%string, OF64 not_a_number)] []] [] "s").
Proof.
  split.
  - intros Heq.
    apply (traces_json_determines [sample [("n"%string, OI64 3)] []]
      [sample [("n"%string, OString "3")] []] [] [] "s" "s"
      ltac:(repeat constructor) ltac:(repeat constructor)) in Heq as [Hk _].
    vm_compute in Hk. discriminate Hk.
  - apply (traces_json_determines [sample [("n"%string, OF64 not_a_number)] ["event"%string]]
      [sample [("n"%string, OF64 not_a_number)] []] [] [] "s" "s"
      ltac:(repeat constructor) ltac:(repeat constructor)).
    vm_compute. split_and!; reflexivity.
Defined.

End Witness.
