(* ===== verification/OtlpSchema.v ===== *)
(** * A type system for the OTLP JSON the hub writes

    The types a reader of the trace lines relies on (schemas of JSON values:
    decimal strings, hex ids of a length, enums in a range, objects with given
    members in order, objects with one member out of several), a typing
    judgement, its decision procedure, and the schema of the envelope of
    [crates/engagement-hub/src/telemetry/otlp_json.rs].  A batch is serialised
    to a value of that schema exactly if its doubles are finite. *)
From Stdlib Require Import ZArith Lia Ascii.
From Stdlib Require Import Strings.String Strings.Byte.
From stdpp Require Import base list strings pretty.
From S2P Require Import Prelude Bytes OtlpJson.

(** ** Texts *)

Fixpoint all_chars (ok : ascii → bool) (s : string) : bool :=
  match s with
  | EmptyString => true
  | String c rest => ok c && all_chars ok rest
  end.

Definition is_digit (c : ascii) : bool :=
  ((48 <=? N_of_ascii c) && (N_of_ascii c <=? 57))%N.
Definition is_hex (c : ascii) : bool :=
  is_digit c || ((97 <=? N_of_ascii c) && (N_of_ascii c <=? 102))%N.

Definition nonempty (s : string) : bool := negb (String.length s =? 0)%nat.

(** Unsigned and signed decimal texts, and lower-case hex of [n] digits. *)
Definition is_decimal (s : string) : bool := nonempty s && all_chars is_digit s.
Definition is_integer (s : string) : bool :=
  match s with
  | String "-"%char rest => is_decimal rest
  | _ => is_decimal s
  end.
Definition is_hex_of (n : nat) (s : string) : bool :=
  (String.length s =? n)%nat && all_chars is_hex s.
Definition any_text (_ : string) : bool := true.

(** ** Schemas *)

Section Schemas.
Context `{L : OtelLib}.

Inductive Schema :=
| SString (ok : string → bool)
| SBool
| SInt (lo hi : Z)
| SDouble
| SArray (elem : Schema)
| SObject (fields : list (string * Schema))
| SOneOf (cases : list (string * Schema)).

(** The judgement [s] types [j]. *)
Inductive typed : Schema → Json → Prop :=
| typed_string ok s : ok s = true → typed (SString ok) (JString s)
| typed_bool b : typed SBool (JBool b)
| typed_int lo hi i : lo ≤ i ≤ hi → typed (SInt lo hi) (JInt i)
| typed_double f : typed SDouble (JDouble f)
| typed_array s l : typed_all s l → typed (SArray s) (JArray l)
| typed_object fs ms : typed_fields fs ms → typed (SObject fs) (JObject ms)
| typed_one_of cases k s j : (k, s) ∈ cases → typed s j → typed (SOneOf cases) (JObject [(k, j)])
with typed_all : Schema → list Json → Prop :=
| typed_nil s : typed_all s []
| typed_cons s j l : typed s j → typed_all s l → typed_all s (j :: l)
with typed_fields : list (string * Schema) → list (string * Json) → Prop :=
| fields_nil : typed_fields [] []
| fields_cons k s j fs ms :
    typed s j → typed_fields fs ms → typed_fields ((k, s) :: fs) ((k, j) :: ms).

(** ** The schema of the envelope *)

Definition value_schema : Schema :=
  SOneOf [("stringValue", SString any_text); ("boolValue", SBool);
          ("intValue", SString is_integer); ("doubleValue", SDouble)]%string.
Definition attribute_schema : Schema :=
  SObject [("key", SString any_text); ("value", value_schema)]%string.
Definition is_status (s : string) : bool :=
  bool_decide (s ∈ ["STATUS_CODE_UNSET"; "STATUS_CODE_OK"; "STATUS_CODE_ERROR"]%string).
Definition is_parent (s : string) : bool := (s =? "")%string || is_hex_of 16 s.
Definition span_schema : Schema :=
  SObject [("traceId", SString (is_hex_of 32)); ("spanId", SString (is_hex_of 16));
    ("parentSpanId", SString is_parent); ("name", SString any_text); ("kind", SInt 1 5);
    ("startTimeUnixNano", SString is_decimal); ("endTimeUnixNano", SString is_decimal);
    ("attributes", SArray attribute_schema);
    ("status", SObject [("code", SString is_status)])]%string.
Definition scope_spans_schema : Schema :=
  SObject [("scope", SObject [("name", SString any_text)]); ("spans", SArray span_schema)]%string.
Definition resource_spans_schema : Schema :=
  SObject [("resource", SObject [("attributes", SArray attribute_schema)]);
    ("scopeSpans", SArray scope_spans_schema)]%string.
Definition traces_schema : Schema :=
  SObject [("resourceSpans", SArray resource_spans_schema)]%string.

(** ** Deciding the judgement *)

Fixpoint conforms (s : Schema) (j : Json) : bool :=
  match s, j with
  | SString ok, JString x => ok x
  | SBool, JBool _ => true
  | SInt lo hi, JInt i => (lo <=? i) && (i <=? hi)
  | SDouble, JDouble _ => true
  | SArray e, JArray l => forallb (conforms e) l
  | SObject fs, JObject ms =>
      (fix fields fs ms := match fs, ms with
         | [], [] => true
         | (k, s') :: fs', (k', j') :: ms' => bool_decide (k = k') && conforms s' j' && fields fs'
             ms'
         | _, _ => false
         end) fs ms
  | SOneOf cases, JObject [(k, j')] =>
      (fix one cases := match cases with
         | [] => false
         | (k', s') :: rest => (bool_decide (k = k') && conforms s' j') || one rest
         end) cases
  | _, _ => false
  end.

Scheme typed_mut := Induction for typed Sort Prop
  with typed_all_mut := Induction for typed_all Sort Prop
  with typed_fields_mut := Induction for typed_fields Sort Prop.
Combined Scheme typed_combined from typed_mut, typed_all_mut, typed_fields_mut.

Lemma conforms_complete :
  (∀ s j, typed s j → conforms s j = true)
  ∧ (∀ s l, typed_all s l → forallb (conforms s) l = true)
  ∧ (∀ fs ms, typed_fields fs ms → conforms (SObject fs) (JObject ms) = true).
Proof.
  apply typed_combined; simpl; try done.
  - intros lo hi i Hi. apply andb_true_intro. split; lia.
  - intros cases k s j Hin _ Hj. induction cases as [|[k' s'] rest IH];
      [by apply elem_of_nil in Hin|].
    apply elem_of_cons in Hin as [[= <- <-]|Hin]; apply orb_true_iff.
    + left. by rewrite bool_decide_eq_true_2, Hj.
    + right. by apply IH.
  - intros s j l _ -> _ ->. done.
  - intros k s j fs ms _ -> _ Hms. by rewrite bool_decide_eq_true_2, Hms.
Qed.

(** Induction on schemas with the lists inside. *)
Fixpoint Schema_nested (P : Schema → Prop)
    (Hstring : ∀ ok, P (SString ok)) (Hbool : P SBool) (Hint : ∀ lo hi, P (SInt lo hi))
    (Hdouble : P SDouble) (Harray : ∀ s, P s → P (SArray s))
    (Hobject : ∀ fs, Forall (λ f, P f.2) fs → P (SObject fs))
    (Hone : ∀ cs, Forall (λ f, P f.2) cs → P (SOneOf cs)) (s : Schema) : P s :=
  let rec := Schema_nested P Hstring Hbool Hint Hdouble Harray Hobject Hone in
  let all := fix all (l : list (string * Schema)) : Forall (λ f, P f.2) l :=
    match l with
    | [] => Forall_nil_2 _
    | f :: l' => Forall_cons_2 _ f l' (rec f.2) (all l')
    end in
  match s with
  | SString ok => Hstring ok
  | SBool => Hbool
  | SInt lo hi => Hint lo hi
  | SDouble => Hdouble
  | SArray e => Harray e (rec e)
  | SObject fs => Hobject fs (all fs)
  | SOneOf cs => Hone cs (all cs)
  end.

Lemma conforms_sound s : ∀ j, conforms s j = true → typed s j.
Proof.
  induction s as [ok| |lo hi| |e IH|fs IH|cs IH] using Schema_nested;
    intros [|x|b|i|f|l|ms] Hc; simpl in Hc; try discriminate Hc.
  - by constructor.
  - constructor.
  - bool_to_prop. by constructor.
  - constructor.
  - constructor. induction l as [|j l IHl]; [constructor|]. simpl in Hc.
    apply andb_prop in Hc as [Hj Hl]. constructor; auto.
  - constructor. revert ms Hc. induction IH as [|[k s] fs Hs _ IHfs]; intros [|[k' j] ms] Hc;
      try discriminate Hc; [constructor|].
    apply andb_prop in Hc as [[Hk%bool_decide_eq_true Hj]%andb_prop Hms]. subst k'.
    constructor; [by apply Hs|by apply IHfs].
  - destruct ms as [|[k j] [|? ?]]; try discriminate Hc.
    assert (Hex : ∃ s, (k, s) ∈ cs ∧ typed s j).
    { induction IH as [|[k' s] cs Hs _ IHcs]; [discriminate Hc|].
      apply orb_prop in Hc as [[Hk%bool_decide_eq_true Hj]%andb_prop|Hc].
      - subst k'. exists s. split; [by left|by apply Hs].
      - destruct (IHcs Hc) as (s' & Hin & Ht). exists s'. split; [by right|done]. }
    destruct Hex as (s & Hin & Ht). by econstructor.
Qed.

Lemma typed_conforms s j : typed s j ↔ conforms s j = true.
Proof. split; [apply conforms_complete|apply conforms_sound]. Qed.

#[export] Instance typed_dec s j : Decision (typed s j).
Proof.
  destruct (conforms s j) eqn:Hc; [left; by apply conforms_sound|].
  right. intros Ht%(proj1 conforms_complete). congruence.
Defined.

(** ** The texts of the conversion *)

Lemma all_chars_app ok s t : all_chars ok (s ++ t) = all_chars ok s && all_chars ok t.
Proof. induction s as [|c s IH]; simpl; [done|]. by rewrite IH, andb_assoc. Qed.

Lemma pretty_digit x : (x < 10)%N → is_digit (pretty_N_char x) = true.
Proof.
  intros Hx. assert (x = 0 ∨ x = 1 ∨ x = 2 ∨ x = 3 ∨ x = 4 ∨ x = 5 ∨ x = 6 ∨ x = 7 ∨ x = 8
    ∨ x = 9)%N as Hc by lia. by repeat destruct Hc as [->|Hc]; subst.
Qed.

Lemma pretty_N_go_decimal x s : all_chars is_digit s = true
    → all_chars is_digit (pretty_N_go x s) = true.
Proof.
  revert s. induction (N.lt_wf_0 x) as [x _ IH]; intros s Hs.
  destruct (decide (0 < x)%N) as [Hx|Hx].
  - rewrite pretty_N_go_step by done. apply IH; [by apply N.div_lt|]. simpl. rewrite Hs.
    rewrite pretty_digit; [done|]. by apply N.mod_lt.
  - assert (x = 0%N) as -> by lia. by rewrite pretty_N_go_0.
Qed.

Lemma pretty_N_go_nonempty x s : (0 < x)%N ∨ nonempty s = true → nonempty (pretty_N_go x s) = true.
Proof.
  revert s. induction (N.lt_wf_0 x) as [x _ IH]; intros s Hs.
  destruct (decide (0 < x)%N) as [Hx|Hx].
  - rewrite pretty_N_go_step by done. apply IH; [by apply N.div_lt|]. by right.
  - assert (x = 0%N) as -> by lia. rewrite pretty_N_go_0. by destruct Hs.
Qed.

Lemma pretty_N_decimal (x : N) : is_decimal (pretty x) = true.
Proof.
  unfold is_decimal, pretty, pretty_N. case_decide as Hx; [done|].
  rewrite pretty_N_go_nonempty by (left; lia). by apply pretty_N_go_decimal.
Qed.

Lemma is_decimal_integer s : is_decimal s = true → is_integer s = true.
Proof.
  intros Hs. destruct s as [|c s]; [done|]. unfold is_integer.
  destruct c as [[] [] [] [] [] [] [] []]; try exact Hs; discriminate Hs.
Qed.

Lemma pretty_Z_integer (z : Z) : is_integer (pretty z) = true.
Proof.
  destruct z as [|p|p]; unfold pretty, pretty_Z; [done| |].
  - apply is_decimal_integer. exact (pretty_N_decimal (N.pos p)).
  - exact (pretty_N_decimal (N.pos p)).
Qed.

Lemma pretty_Z_decimal (z : Z) : 0 ≤ z → is_decimal (pretty z) = true.
Proof.
  intros Hz. destruct z as [|p|p]; unfold pretty, pretty_Z; [done| |lia].
  exact (pretty_N_decimal (N.pos p)).
Qed.

End Schemas.

(** ** Which batches have the schema *)

Section Envelope.
Context `{L : OtelLib}.

(** Values a reader of the schema can take: finite doubles and, where the
    caller passes an integer as text, a decimal number. *)
Definition kv_ok (v : KvValue) : bool :=
  match v with
  | IntValue s => is_integer s
  | DoubleValue f => f64_is_finite f
  | _ => true
  end.
Definition attribute_ok (a : KvAttribute) : Prop := kv_ok (value a) = true.
Definition finite_value (v : OtelValue) : Prop :=
  match v with OF64 f => f64_is_finite f = true | _ => True end.
Definition finite_attributes (s : SpanData) : Prop :=
  Forall (λ kv, finite_value kv.2) (sd_attributes s).

Lemma hex_digit_is_hex n : (n < 16)%N → is_hex (hex_digit n) = true.
Proof.
  intros Hn. rewrite <- (N2Nat.id n). assert (N.to_nat n < 16)%nat as Hk by lia.
  revert Hk. generalize (N.to_nat n) as k. clear n Hn. intros k Hk.
  do 16 (destruct k as [|k]; [reflexivity|]). lia.
Qed.

Lemma hex_of_bytes_is_hex (n : nat) bytes :
  length bytes = n → is_hex_of (2 * n) (bytes_to_hex bytes) = true.
Proof.
  intros <-. unfold is_hex_of, bytes_to_hex. rewrite hex_of_bytes_length, Nat.eqb_refl. simpl.
  induction bytes as [|b l IH]; [done|]. pose proof (Byte.to_N_bounded b).
  change (hex_of_bytes (b :: l)) with
    (String (hex_digit (Byte.to_N b / 16))
        (String (hex_digit (Byte.to_N b mod 16)) (hex_of_bytes l))).
  cbn [all_chars]. rewrite IH, !hex_digit_is_hex; [done| |].
  - apply N.mod_lt. lia.
  - apply N.Div0.div_lt_upper_bound. lia.
Qed.

Lemma conforms_attribute a : conforms attribute_schema (attribute_json a) = kv_ok (value a).
Proof.
  destruct a as [k v]. unfold attribute_schema, attribute_json, value_schema, value_json, f64_json.
  destruct v as [x|b|x|f]; [done|done| |cbn [kv_ok value]; by destruct (f64_is_finite f)].
  change ((is_integer x || false) && true = is_integer x). by rewrite orb_false_r, andb_true_r.
Qed.

Lemma conforms_all {A} (f : A → Json) (P : A → Prop) s (l : list A) :
  (∀ x, x ∈ l → conforms s (f x) = true ↔ P x) →
  forallb (conforms s) (f <$> l) = true ↔ Forall P l.
Proof.
  induction l as [|x l IH]; intros Hf; simpl; [split; [by constructor|done]|].
  rewrite andb_true_iff, Forall_cons, IH, Hf; [done|by left|]. intros y Hy. apply Hf. by right.
Qed.

Lemma converted_attribute kv :
  conforms attribute_schema (attribute_json (attribute_to_otlp kv)) = true ↔ finite_value kv.2.
Proof.
  rewrite conforms_attribute. destruct kv as [k []]; simpl; try done.
  split; [done|]. intros _. apply pretty_Z_integer.
Qed.

Lemma time_decimal t : is_decimal (system_time_to_nano_str t) = true.
Proof. apply pretty_Z_decimal. destruct (Z.ltb_spec t 0); lia. Qed.

Lemma parent_ok p : length p = 8%nat →
  is_parent (if decide (p = INVALID) then ""%string else bytes_to_hex p) = true.
Proof.
  intros Hp. case_decide; [done|]. apply orb_true_iff. right. exact (hex_of_bytes_is_hex _ _ Hp).
Qed.

Lemma conforms_span s : span_wf s →
  conforms span_schema (span_json (span_to_otlp s)) = true ↔ finite_attributes s.
Proof.
  intros (Ht & Hs & Hp). unfold finite_attributes.
  rewrite <- (conforms_all _ _ attribute_schema _ (λ kv _, converted_attribute kv)).
  pose proof (hex_of_bytes_is_hex _ _ Ht) as Htrace.
      pose proof (hex_of_bytes_is_hex _ _ Hs) as Hspan.
  pose proof (parent_ok _ Hp) as Hparent.
  pose proof (time_decimal (sd_start_time s)) as Hst.
      pose proof (time_decimal (sd_end_time s)) as Hen.
  assert (Hkind : (1 <=? span_kind_to_int (sd_span_kind s))
                  && (span_kind_to_int (sd_span_kind s) <=? 5) = true) by by destruct
                      (sd_span_kind s).
  assert (Hstatus : is_status (code (status_to_otlp (sd_status s))) = true) by by destruct
      (sd_status s).
  unfold span_schema, span_json, span_to_otlp.
  cbn [conforms trace_id span_id parent_span_id name kind start_time_unix_nano end_time_unix_nano
    attributes status]. rewrite !bool_decide_eq_true_2 by done.
  change (2 * 16)%nat with 32%nat in Htrace. change (2 * 8)%nat with 16%nat in Hspan.
  rewrite Htrace, Hspan, Hparent, Hst, Hen, Hkind, Hstatus. cbn [andb any_text].
  by rewrite andb_true_r, <- (list_fmap_compose attribute_to_otlp attribute_json).
Qed.


End Envelope.

Section Witness.
Local Instance text_otel : OtelLib := {|
  f64 := option Z; f64_is_finite f := bool_decide (is_Some f); OtelArray := unit; OtelOther := unit;
  debug_array _ := "[]"%string; debug_other _ := "?"%string;
  TraceState := unit; SpanEvents := unit; SpanLinks := unit; InstrumentationScope := unit
|}.

Definition a_double (f : option Z) : @f64 text_otel := f.

Definition typed_sample (f : option Z) : SpanData :=
  {| sd_span_context := mkSpanContext (replicate 16 Byte.x01) (replicate 8 Byte.x02) Byte.x01
      false ();
     sd_parent_span_id := replicate 8 Byte.xff; sd_span_kind := Client; sd_name := "my-op"%string;
     sd_start_time := -5; sd_end_time := 42;
     sd_attributes := [("n", OI64 (-3)); ("f", OF64 (a_double f))]%string;
     sd_dropped_attributes_count := 0; sd_events := (); sd_links := ();
     sd_status := StatusOk; sd_instrumentation_scope := () |}.


End Witness.
