(* ===== verification/OtlpJsonTests.v ===== *)
(** * The test helpers and unit tests of [otlp_json.rs]

    Also what the tests of the local exporter take from them: the concrete
    OpenTelemetry types and the JSON text of an envelope. *)
From Stdlib Require Import ZArith Floats.SpecFloat.
From Stdlib Require Import Strings.String Strings.Byte.
From stdpp Require Import base list strings.
From S2P Require Import Prelude Bytes UnitTest SerdeJson TestJson PromText OtlpJson.
Local Open Scope string_scope.

(** ** Concrete types *)

#[export] Instance otel : OtelLib := {|
  f64 := spec_float; f64_is_finite f := match f with S754_zero _ | S754_finite _ _ _ => true
      | _ => false end;
  TraceState := list (string * string); SpanEvents := list string; SpanLinks := list string;
  InstrumentationScope := string;
  OtelArray := list string; OtelOther := string;
  debug_array l := "[" ++ String.concat ", " l ++ "]"; debug_other s := s
|}.

(** The envelope as a [serde_json] value, and [serde_json::to_string]. *)
Fixpoint otlp_value (v : OtlpJson.Json) : SerdeJson.Json :=
  match v with
  | OtlpJson.JNull => SerdeJson.JNull
  | OtlpJson.JString s => SerdeJson.JString s
  | OtlpJson.JBool b => SerdeJson.JBool b
  | OtlpJson.JInt i => SerdeJson.JInt i
  | JDouble f => JFloat f
  | OtlpJson.JArray l => SerdeJson.JArray (map otlp_value l)
  | OtlpJson.JObject o => SerdeJson.JObject (map (λ kv, (kv.1, otlp_value kv.2)) o)
  end.
Definition otlp_to_string (v : OtlpJson.Json) : result string string := Ok (print (otlp_value v)).

(** ** The helpers *)

Inductive StatusForTest : Set := TestOk | TestError | TestUnset.

Definition fake_span_for_test (name : string) (duration_ms : Z) (status : StatusForTest)
    : SpanData :=
  let trace_id := replicate 16 Byte.x01 in
  let span_id := replicate 8 Byte.x02 in
  let start_time := (1000000 * 1000000000)%Z in
  let end_time := (start_time + duration_ms * 1000000)%Z in
  let otel_status :=
    match status with
    | TestOk => StatusOk
    | TestError => StatusError "test error"
    | TestUnset => StatusUnset
    end in
  {| sd_span_context := mkSpanContext trace_id span_id Byte.x01 false [];
     sd_parent_span_id := INVALID;
     sd_span_kind := Internal;
     sd_name := name;
     sd_start_time := start_time;
     sd_end_time := end_time;
     sd_attributes := [];
     sd_dropped_attributes_count := 0;
     sd_events := [];
     sd_links := [];
     sd_status := otel_status;
     sd_instrumentation_scope := "test" |}.

(** ** The tests *)

Definition span_serializes_to_otlp_json_envelope : test unit :=
  let span := fake_span_for_test "my-op" 42 TestOk in
  let data := spans_to_traces_data [span] [] "test-scope" in
  do line <- unwrap (otlp_to_string (traces_json data)) ;;
  do _ <- assert_ (contains "resourceSpans" line) ;;
  do _ <- assert_ (contains "my-op" line) ;;
  do _ <- assert_ (contains "traceId" line) ;;
  do _ <- assert_ (contains "spanId" line) ;;
  do _ <- assert_ (contains "startTimeUnixNano" line) ;;
  assert_ (contains "STATUS_CODE_OK" line).

Definition error_span_has_error_status_code : test unit :=
  let span := fake_span_for_test "fail-op" 10 TestError in
  let data := spans_to_traces_data [span] [] "test" in
  do line <- unwrap (otlp_to_string (traces_json data)) ;;
  assert_ (contains "STATUS_CODE_ERROR" line).

Definition otlp_json_tests : list (test unit) :=
  [span_serializes_to_otlp_json_envelope; error_span_has_error_status_code].

Lemma otlp_json_tests_pass : Forall (λ t, passes t tt = true) otlp_json_tests.
Proof. unfold otlp_json_tests. run_closed_tests. Qed.
