(* ===== verification/TaskRuntime.v ===== *)
(** * Span processors on a runtime

    What the unit tests of the span processor and of the telemetry module run
    on: a clock in milliseconds, the background tasks of the processors with
    their interval timers, and the choices of [select!] among ready arms.  A
    task is polled whenever the test waits, until no arm is ready.  The tests'
    exporters keep what they are given, or panic. *)
From Stdlib Require Import ZArith Lia.
From stdpp Require Import base list.
From S2P Require Import Prelude UnitTest SpanProcessor SpanCrash OtlpJson OtlpJsonTests.

(** ** The queue and the exporters *)

(** [tokio::sync::mpsc] as a bounded list. *)
Module RingQueue.
Record Ring A := mkRing { ring_cap : nat; ring_items : list A; ring_closed : bool }.
Arguments mkRing {A} _ _ _.
Arguments ring_cap {A} _.
Arguments ring_items {A} _.
Arguments ring_closed {A} _.

#[export] Instance mpsc {A} : Mpsc A := {|
  Queue := Ring A;
  mpsc_channel n := mkRing n [] false;
  try_send a q :=
    if ring_closed q || (ring_cap q <=? length (ring_items q))%nat then (false, q)
    else (true, mkRing (ring_cap q) (ring_items q ++ [a]) false);
  try_recv q :=
    match ring_items q with
    | [] => None
    | a :: l => Some (a, mkRing (ring_cap q) l (ring_closed q))
    end;
  rx_close q := mkRing (ring_cap q) (ring_items q) true;
  pending := ring_items;
  is_closed := ring_closed
|}.
#[export] Instance mpsc_drop {A} : MpscDrop A := λ q, mkRing (ring_cap q) [] true.
End RingQueue.
Import RingQueue.

(** [RecordingExporter], and [FakeExporter] with its flag. *)
Record FakeExporter := mkFakeExporter { store : list SpanData; panic_on_export : bool }.
Definition fake_exporter_new : FakeExporter := mkFakeExporter [] false.
Definition panicking : FakeExporter := mkFakeExporter [] true.

(** What [export] does when it does not panic. *)
#[export] Instance fake_exporter : SpanExporter FakeExporter SpanData := {|
  export batch e := (Exported, mkFakeExporter (store e ++ batch) (panic_on_export e));
  exporter_shutdown e := e
|}.

Abbreviation Processor := (CountingSpanProcessor (W := FakeExporter) (Span := SpanData)).

(** ** Tasks *)

(** A processor with its [interval]: the time of the next tick. *)
Record Task := mkTask { next_tick : Z; proc : Processor }.

Inductive Arm := Tick | Recv | ShutdownArm.

Definition ready (now : Z) (t : Task) : list Arm :=
  if stopped (proc t) then [] else
  (if next_tick t <=? now then [Tick] else [])
  ++ (match pending (rx (proc t)) with [] => [] | _ => [Recv] end)
  ++ (if signalled (proc t) then [ShutdownArm] else []).

(** Would the arm call the exporter?  It then panics if the exporter does, and
    the task is unwound: a panicking exporter has finished no export before. *)
Definition calls_exporter (a : Arm) (p : Processor) : bool :=
  match a with
  | Tick => negb (length (batch p) =? 0)%nat
  | Recv => (MAX_BATCH <=? S (length (batch p)))%nat
  | ShutdownArm => negb (length (batch p) + length (pending (rx p)) =? 0)%nat
  end.

Definition run_arm (a : Arm) (p : Processor) : Processor :=
  if calls_exporter a p && panic_on_export (env p) then crashed (env p) p
  else match a with Tick => on_tick p | Recv => on_recv p | ShutdownArm => on_shutdown p end.

(** [MissedTickBehavior::Skip]: the next multiple of the period. *)
Definition period : Z := 1000.
Definition tick_after (now tick : Z) : Z := now + period - (now - tick) mod period.

Definition fire (now : Z) (a : Arm) (t : Task) : Task :=
  mkTask (match a with Tick => tick_after now (next_tick t) | _ => next_tick t end)
    (run_arm a (proc t)).

(** Which ready arm [select!] takes. *)
Inductive choice := First | Second | Third.
Definition choose (c : choice) (arms : list Arm) : option Arm :=
  match c, arms with
  | Second, _ :: a :: _ | Third, [_; a] | Third, [_; _; a] => Some a
  | _, a :: _ => Some a
  | _, [] => None
  end.

(** Poll a task until no arm is ready; a choice is made only among several. *)
Fixpoint poll (fuel : nat) (now : Z) (cs : list choice) (t : Task) : list choice * Task :=
  match fuel with
  | O => (cs, t)
  | S fuel' =>
      match ready now t with
      | [] => (cs, t)
      | [a] => poll fuel' now cs (fire now a t)
      | arms =>
          match choose (default First (head cs)) arms with
          | Some a => poll fuel' now (tail cs) (fire now a t)
          | None => (cs, t)
          end
      end
  end.

(** ** The world of a test *)

Record World := mkWorld { clock : Z; choices : list choice; tasks : list Task }.

(** Three arms, and one more for each waiting span. *)
Definition poll_fuel (t : Task) : nat := 4 + length (pending (rx (proc t))).

Fixpoint poll_tasks (now : Z) (cs : list choice) (ts : list Task) : list choice * list Task :=
  match ts with
  | [] => (cs, [])
  | t :: ts' =>
      let '(cs, t) := poll (poll_fuel t) now cs t in
      let '(cs, ts') := poll_tasks now cs ts' in (cs, t :: ts')
  end.
Definition poll_all (w : World) : World :=
  let '(cs, ts) := poll_tasks (clock w) (choices w) (tasks w) in mkWorld (clock w) cs ts.

(** [CountingSpanProcessor::new_with_capacity]: the handle is the task's index. *)
Definition spawn_with_capacity (e : FakeExporter) (dropped0 : Z) (capacity : nat)
    : io World nat := λ w,
  (Value (length (tasks w)),
   mkWorld (clock w) (choices w)
     (tasks w ++ [mkTask (clock w) (new_with_capacity e dropped0 capacity)])).
Definition spawn (e : FakeExporter) (dropped0 : Z) : io World nat :=
  spawn_with_capacity e dropped0 QUEUE_CAPACITY.

Definition processor (i : nat) : io World Processor := λ w,
  (match tasks w !! i with Some t => Value (proc t) | None => Panicked end, w).
Definition on_processor (i : nat) (f : Processor → Processor) : io World unit := λ w,
  (Value tt, mkWorld (clock w) (choices w)
     (alter (λ t, mkTask (next_tick t) (f (proc t))) i (tasks w))).

(** [tokio::time::sleep(ms).await]. *)
Definition sleep (ms : Z) : io World unit := λ w,
  (Value tt, poll_all (mkWorld (clock w + ms) (choices w) (tasks w))).
Definition time : io World Z := λ w, (Value (clock w), w).
(** Other worker threads may run the tasks between two statements. *)
Definition meanwhile : io World unit := λ w,
  match choices w with
  | Second :: cs => (Value tt, poll_all (mkWorld (clock w) cs (tasks w)))
  | _ :: cs => (Value tt, mkWorld (clock w) cs (tasks w))
  | [] => (Value tt, w)
  end.

(** [shutdown] waits for the task, at most [SHUTDOWN_TIMEOUT]. *)
Definition shutdown_processor (i : nat) : io World unit :=
  do _ <- on_processor i shutdown ;;
  λ w, (Value tt, poll_all w).

Definition stored (i : nat) : io World (list SpanData) :=
  do p <- processor i ;; io_ret (store (env p)).

(** [loop { if !store.is_empty() break; if now > deadline panic; sleep(50ms) }]. *)
Fixpoint wait_for_span (fuel : nat) (i : nat) (deadline : Z) : io World unit :=
  match fuel with
  | O => λ w, (Panicked, w)
  | S fuel' =>
      do s <- stored i ;;
      match s with
      | _ :: _ => io_ret tt
      | [] =>
          do now <- time ;;
          if deadline <? now then (λ w, (Panicked, w))
          else do _ <- sleep 50 ;; wait_for_span fuel' i deadline
      end
  end.
