(* ===== verification/ProcessorTests.v ===== *)
(** * The unit tests of [telemetry/processor.rs] *)
From Stdlib Require Import ZArith.
From stdpp Require Import base list strings.
From S2P Require Import Prelude UnitTest SpanProcessor OtlpJson OtlpJsonTests TaskRuntime.
Import RingQueue.
Local Open Scope string_scope.

(** A [RecordingExporter] whose store is looked at through its task. *)
Definition RecordingExporter : FakeExporter := fake_exporter_new.

Definition processor_delivers_spans_to_exporter : test World :=
  do p <- spawn RecordingExporter 0 ;;
  let span := fake_span_for_test "op" 10 TestOk in
  do _ <- on_processor p (on_end span) ;;
  do now <- time ;;
  do _ <- wait_for_span 50 p (now + 2000)%Z ;;
  do s <- stored p ;;
  assert_eq (length s) 1%nat.

Definition processor_increments_dropped_counter_when_queue_full : test World :=
  do p <- spawn_with_capacity RecordingExporter 0 1 ;;
  do _ <- on_processor p (λ s, Nat.iter 100 (on_end (fake_span_for_test "op" 1 TestOk)) s) ;;
  do _ <- sleep 100 ;;
  do s <- processor p ;;
  assert_ (0 <? dropped s)%Z.

(** On two worker threads. *)
Definition processor_shuts_down_cleanly : test World :=
  do p <- spawn RecordingExporter 0 ;;
  do _ <- meanwhile ;;
  do _ <- on_processor p (on_end (fake_span_for_test "op" 5 TestOk)) ;;
  do _ <- meanwhile ;;
  do _ <- shutdown_processor p ;;
  do s <- stored p ;;
  assert_ (match s with [] => false | _ => true end).

Definition processor_tests : list (test World) :=
  [processor_delivers_spans_to_exporter; processor_increments_dropped_counter_when_queue_full;
   processor_shuts_down_cleanly].

(** Case analysis on the first [n] choices, which are those a test makes. *)
Ltac run_schedules cs n :=
  lazymatch n with
  | O => vm_compute; reflexivity
  | S ?m => destruct cs as [|[] cs]; [vm_compute; reflexivity|run_schedules cs m..]
  end.

(** Whatever [select!] chooses and however the threads are scheduled. *)
Lemma processor_tests_pass (cs : list choice) :
  Forall (λ t, passes t (mkWorld 0 cs []) = true) processor_tests.
Proof.
  unfold processor_tests. apply Forall_cons. split; [run_schedules cs 1%nat|].
  apply Forall_cons. split; [run_schedules cs 1%nat|].
  apply Forall_cons. split; [run_schedules cs 5%nat|constructor].
Qed.
