(* ===== verification/LocalExporter.v ===== *)
(** * The local JSONL trace exporter

    Models [crates/engagement-hub/src/telemetry/local_exporter.rs]: the daily
    file with its size cap, and the purge of old files.  The file system is the
    contents of files keyed by directory and name; every operation on it may
    fail (a failed [write_all] leaves a prefix).  A file name is UTF-8, so
    [to_string_lossy] is the identity, and strings are bytes.  A date is a day
    number; [chrono]'s text of it and [serde_json] are parameters. *)
From Stdlib Require Import ZArith Lia.
From Stdlib Require Import Strings.Ascii Strings.String.
From stdpp Require Import base list strings gmap sets.
From S2P Require Import Prelude Bytes OtlpJson.

(** ** The file system and the clock *)

(** The bytes of a string. *)
Abbreviation bytes_of := String.list_ascii_of_string.

Abbreviation Path := (string * string)%type.

(** What happens to the next operation; a failing write leaves [written] bytes. *)
Inductive fault := NoFault | Fault (written : nat).

Record World := mkWorld {
  dirs : gset string;
  files : gmap Path string;
  faults : list fault;
  today : Z;
  dropped : Z
}.

Definition next_fault (w : World) : fault := default NoFault (head (faults w)).
Definition after_fault (w : World) : World :=
  mkWorld (dirs w) (files w) (tail (faults w)) (today w) (dropped w).
Definition with_files (f : gmap Path string → gmap Path string) (w : World) : World :=
  mkWorld (dirs w) (f (files w)) (faults w) (today w) (dropped w).
Definition content (p : Path) (w : World) : string := default ""%string (files w !! p).

Definition io_error : string := "io error".

(** [create_dir_all]. *)
Definition create_dir_all (dir : string) (w : World) : result unit string * World :=
  match next_fault w with
  | Fault _ => (Err io_error, after_fault w)
  | NoFault =>
      let w := after_fault w in
      (Ok tt, mkWorld ({[dir]} ∪ dirs w) (files w) (faults w) (today w) (dropped w))
  end.

(** [OpenOptions::new().create(true).append(true).open(path)]. *)
Definition open_append (p : Path) (w : World) : result Path string * World :=
  match next_fault w with
  | NoFault =>
      if decide (p.1 ∈ dirs w)
      then (Ok p, with_files (λ fs, <[p := content p w]> fs) (after_fault w))
      else (Err io_error, after_fault w)
  | Fault _ => (Err io_error, after_fault w)
  end.

(** [f.metadata().ok().map(|m| m.len())]. *)
Definition metadata_len (p : Path) (w : World) : option Z * World :=
  match next_fault w with
  | NoFault => (Some (Z.of_nat (String.length (content p w))), after_fault w)
  | Fault _ => (None, after_fault w)
  end.

(** [f.write_all(bytes)] on a file opened for appending. *)
Definition write_all (p : Path) (bytes : string) (w : World) : result unit string * World :=
  match next_fault w with
  | NoFault => (Ok tt, with_files (λ fs, <[p := content p w +:+ bytes]> fs) (after_fault w))
  | Fault n =>
      (Err io_error,
       with_files (λ fs, <[p := content p w +:+ String.substring 0 n bytes]> fs) (after_fault w))
  end.

(** [remove_file]. *)
Definition remove_file (p : Path) (w : World) : result unit string * World :=
  match next_fault w with
  | NoFault => (Ok tt, with_files (delete p) (after_fault w))
  | Fault _ => (Err io_error, after_fault w)
  end.

(** ** [chrono] and [serde_json] *)

Class LocalLib `{L : OtelLib} := {
  (** [{}] and [parse] of a [NaiveDate]. *)
  date_display : Z → string;
  date_parse : string → option Z;
  json_to_string : Json → result string string
}.

Section Exporter.
Context `{LL : LocalLib}.

Definition MAX_FILE_BYTES : Z := 100 * 1024 * 1024.

Record JsonlFileExporter := mkExporter {
  service_name : string;
  traces_dir : string;
  current_date : Z;
  current_file : option Path;
  size_cap : Z;
  drop_counter : bool;
  resource_attrs : list KvAttribute
}.

Definition new_inner (service_name traces_dir : string) (current_date size_cap : Z)
    (drop_counter : bool) (resource_attrs : list KvAttribute) : JsonlFileExporter :=
  mkExporter service_name traces_dir current_date None size_cap drop_counter resource_attrs.
Definition exporter_new (service_name : string) (attrs : list KvAttribute) (w : World)
  : JsonlFileExporter :=
  new_inner service_name ".traces" (today w) MAX_FILE_BYTES false attrs.
Definition new_with_counter (service_name : string) (attrs : list KvAttribute) (w : World)
  : JsonlFileExporter :=
  new_inner service_name ".traces" (today w) MAX_FILE_BYTES true attrs.

Definition file_name (service : string) (date : Z) : string :=
  service +:+ "-" +:+ date_display date +:+ ".jsonl".
Definition file_path (e : JsonlFileExporter) (date : Z) : Path :=
  (traces_dir e, file_name (service_name e) date).

Definition with_file (date : Z) (f : option Path) (e : JsonlFileExporter) : JsonlFileExporter :=
  mkExporter (service_name e) (traces_dir e) date f (size_cap e) (drop_counter e)
    (resource_attrs e).

(** ** Writing *)

(** [if today != self.current_date { .. }]. *)
Definition rotate (e : JsonlFileExporter) (w : World) : JsonlFileExporter :=
  if today w =? current_date e then e else with_file (today w) None e.

Definition ensure_file (e : JsonlFileExporter) (w : World)
  : result unit string * JsonlFileExporter * World :=
  let e := rotate e w in
  match current_file e with
  | Some _ => (Ok tt, e, w)
  | None =>
      let '(r, w) := create_dir_all (traces_dir e) w in
      match r with
      | Err x => (Err x, e, w)
      | Ok _ =>
          let path := file_path e (current_date e) in
          let '(r, w) := open_append path w in
          match r with
          | Err x => (Err x, e, w)
          | Ok f => (Ok tt, with_file (current_date e) (Some f) e, w)
          end
      end
  end.

Definition inc_dropped (n : Z) (w : World) : World :=
  mkWorld (dirs w) (files w) (faults w) (today w) (dropped w + n).

(** The size of the open file, 0 if there is none or its metadata fails. *)
Definition current_size (e : JsonlFileExporter) (w : World) : Z * World :=
  match current_file e with
  | Some f => let '(len, w) := metadata_len f w in (default 0 len, w)
  | None => (0, w)
  end.

Definition write_batch (batch : list SpanData) (e : JsonlFileExporter) (w : World)
  : exec (result unit string) * JsonlFileExporter * World :=
  let '(r, e, w) := ensure_file e w in
  match r with
  | Err x => (Value (Err x), e, w)
  | Ok _ =>
      let '(size, w) := current_size e w in
      if size_cap e <=? size then
        (Value (Ok tt), e, if drop_counter e then inc_dropped (Z.of_nat (length batch)) w else w)
      else
        let data := spans_to_traces_data batch (resource_attrs e) "engagement-hub" in
        match json_to_string (traces_json data) with
        | Err x => (Value (Err x), e, w)
        | Ok text =>
            let line := text +:+ String "010" "" in
            match current_file e with
            | None => (Panicked, e, w)
            | Some f => let '(r, w) := write_all f line w in (Value r, e, w)
            end
        end
  end.

Definition local_export (batch : list SpanData) (e : JsonlFileExporter) (w : World)
  : exec (result unit string) * JsonlFileExporter * World := write_batch batch e w.

(** ** Purging *)

Definition ends_with (suffix s : string) : bool :=
  bool_decide (bytes_of suffix `suffix_of` bytes_of s).

(** [trim_end_matches]: [fuel] bounds the repetitions. *)
Fixpoint trim_end_matches (fuel : nat) (pat s : list ascii) : list ascii :=
  match fuel with
  | O => s
  | S fuel' =>
      if decide (pat `suffix_of` s)
      then trim_end_matches fuel' pat (take (length s - length pat) s)
      else s
  end.

(** [&s[i..]]: [None] is the panic at an index inside a character, i.e. before
    a continuation byte. *)
Definition is_char_boundary (s : list ascii) (i : nat) : bool :=
  match s !! i with
  | None => bool_decide (i = length s)
  | Some c => let n := nat_of_ascii c in (n <? 128)%nat || (192 <=? n)%nat
  end.
Definition slice_from (i : nat) (s : list ascii) : option (list ascii) :=
  if is_char_boundary s i then Some (drop i s) else None.

(** One turn of the loop over the directory. *)
Definition purge_entry (now retention_days : Z) (path : Path) (w : World) : exec unit * World :=
  let name_str := path.2 in
  if negb (ends_with ".jsonl" name_str) then (Value tt, w)
  else
    let without_ext :=
      trim_end_matches (String.length name_str) (bytes_of ".jsonl") (bytes_of name_str) in
    if (length without_ext <? 10)%nat then (Value tt, w)
    else
      match slice_from (length without_ext - 10) without_ext with
      | None => (Panicked, w)
      | Some date_str =>
          match date_parse (String.string_of_list_ascii date_str) with
          | Some file_date =>
              if retention_days <? now - file_date
              then (Value tt, (remove_file path w).2)
              else (Value tt, w)
          | None => (Value tt, w)
          end
      end.

(** [for entry in entries.flatten()]: an entry that cannot be read is skipped. *)
Fixpoint purge_entries (now retention_days : Z) (entries : list Path) (w : World)
  : exec unit * World :=
  match entries with
  | [] => (Value tt, w)
  | path :: rest =>
      match next_fault w with
      | Fault _ => purge_entries now retention_days rest (after_fault w)
      | NoFault =>
          match purge_entry now retention_days path (after_fault w) with
          | (Value _, w) => purge_entries now retention_days rest w
          | (Panicked, w) => (Panicked, w)
          end
      end
  end.

(** [read_dir]. *)
Definition read_dir (dir : string) (w : World) : option (list Path) * World :=
  match next_fault w with
  | NoFault =>
      if decide (dir ∈ dirs w)
      then (Some (filter (λ p, p.1 = dir) (elements (dom (files w)))), after_fault w)
      else (None, after_fault w)
  | Fault _ => (None, after_fault w)
  end.

Definition purge_old_files (dir : string) (now retention_days : Z) (w : World)
  : exec unit * World :=
  match read_dir dir w with
  | (None, w) => (Value tt, w)
  | (Some entries, w) => purge_entries now retention_days entries w
  end.

(** ** Facts about writing *)

(** The open file is today's, and exists. *)
Definition exporter_wf (e : JsonlFileExporter) (w : World) : Prop :=
  match current_file e with
  | Some p => p = file_path e (current_date e) ∧ is_Some (files w !! p)
  | None => True
  end.

(** Only the file [p] may differ, by text added at its end. *)
Definition appends (p : Path) (added : string) (w w' : World) : Prop :=
  (∀ q, q ≠ p → files w' !! q = files w !! q)
  ∧ content p w' = content p w +:+ added
  ∧ today w' = today w.

Lemma content_insert p s fs d fl t dr : content p (mkWorld d (<[p:=s]> fs) fl t dr) = s.
Proof. unfold content. simpl. by rewrite lookup_insert_eq. Qed.

Lemma string_app_empty_r (s : string) : s +:+ ""%string = s.
Proof. induction s as [|c s IH]; [done|]. change (String c (s +:+ "") = String c s).
    by rewrite IH. Qed.

Lemma ensure_file_spec e w :
  exporter_wf e w →
  let '(r, e', w') := ensure_file e w in
  let p := file_path e (today w) in
  e' = with_file (today w) (current_file e') e
  ∧ appends p "" w w' ∧ dropped w' = dropped w ∧ (faults w = [] → faults w' = [])
  ∧ match r with
    | Ok _ => current_file e' = Some p ∧ is_Some (files w' !! p)
    | Err _ => current_file e' = None
    end.
Proof.
  intros Hwf. unfold ensure_file, rotate, appends.
  assert (Hrot : exporter_wf (rotate e w) w ∧ current_date (rotate e w) = today w
    ∧ rotate e w = with_file (today w) (current_file (rotate e w)) e).
  { unfold rotate. destruct (Z.eqb_spec (today w) (current_date e)) as [->|?]; [|done].
    by destruct e. }
  unfold rotate in Hrot. destruct Hrot as (Hwf' & Hdate & Heq).
  set (e1 := if today w =? current_date e then e else with_file (today w) None e) in *.
  destruct (current_file e1) as [p|] eqn:Hf.
  - unfold exporter_wf in Hwf'. rewrite Hf in Hwf'. destruct Hwf' as [-> Hex].
    rewrite Heq in *. cbn [current_date with_file current_file file_path traces_dir service_name]
        in *.
    split_and!; try done. by rewrite string_app_empty_r.
  - destruct w as [d fs [|[|n] [|[|m] fl]] t dr]; cbn in *; rewrite Heq; cbn;
      repeat (rewrite decide_True by set_solver; cbn); split_and!; try done;
      try (intros q Hq; by rewrite lookup_insert_ne);
      try (rewrite string_app_empty_r; unfold content; cbn; by rewrite ?lookup_insert_eq);
      try (rewrite lookup_insert_eq; eauto); congruence.
Qed.

Lemma current_size_spec e w p :
  current_file e = Some p →
  let '(size, w') := current_size e w in
  appends p "" w w' ∧ files w' = files w ∧ dropped w' = dropped w
  ∧ 0 ≤ size ≤ Z.of_nat (String.length (content p w))
  ∧ (faults w = [] → faults w' = [] ∧ size = Z.of_nat (String.length (content p w))).
Proof.
  intros Hf. unfold current_size, metadata_len, appends. rewrite Hf.
  destruct w as [d fs [|[|n] fl] t dr]; cbn; rewrite string_app_empty_r; split_and!; try done; lia.
Qed.

Lemma appends_write p added w :
  let w' := with_files (λ fs, <[p := content p w +:+ added]> fs) (after_fault w) in
  appends p added w w' ∧ is_Some (files w' !! p) ∧ dropped w' = dropped w.
Proof.
  cbn. unfold appends. split_and!; [|apply content_insert|done|by rewrite lookup_insert_eq|done].
  intros q Hq. cbn. by rewrite lookup_insert_ne.
Qed.

Lemma write_all_spec p line w :
  let '(r, w') := write_all p line w in
  dropped w' = dropped w ∧ is_Some (files w' !! p)
  ∧ match r with
    | Ok _ => appends p line w w'
    | Err _ => ∃ n, appends p (String.substring 0 n line) w w'
    end.
Proof.
  unfold write_all. destruct (next_fault w) as [|n];
    [destruct (appends_write p line w) as (? & ? & ?)
    |destruct (appends_write p (String.substring 0 n line) w) as (? & ? & ?)]; eauto.
Qed.

Lemma appends_trans p a w1 w2 w3 :
  appends p "" w1 w2 → appends p a w2 w3 → appends p a w1 w3.
Proof.
  intros (Hq & Hc & Ht) (Hq' & Hc' & Ht'). unfold appends. split_and!.
  - intros q Hne. by rewrite Hq', Hq.
  - by rewrite Hc', Hc, string_app_empty_r.
  - congruence.
Qed.

(** The line of a batch. *)
Definition batch_line (e : JsonlFileExporter) (batch : list SpanData) : result string string :=
  let? text := json_to_string
    (traces_json (spans_to_traces_data batch (resource_attrs e) "engagement-hub")) in
  Ok (text +:+ String "010" "").

(** ** Facts about purging *)

(** What the loop decides about a name: keep it, remove it, or panic. *)
Definition verdict (retention_days now : Z) (name : string) : exec bool :=
  if negb (ends_with ".jsonl" name) then Value false
  else
    let stem := trim_end_matches (String.length name) (bytes_of ".jsonl") (bytes_of name) in
    if (length stem <? 10)%nat then Value false
    else
      match slice_from (length stem - 10) stem with
      | None => Panicked
      | Some date =>
          match date_parse (String.string_of_list_ascii date) with
          | Some d => Value (retention_days <? now - d)
          | None => Value false
          end
      end.

Lemma purge_entry_verdict now ret p w :
  purge_entry now ret p w =
  match verdict ret now p.2 with
  | Value true => (Value tt, (remove_file p w).2)
  | Value false => (Value tt, w)
  | Panicked => (Panicked, w)
  end.
Proof.
  unfold purge_entry, verdict. destruct (negb _); [done|]. destruct (_ <? 10)%nat; [done|].
  destruct (slice_from _ _) as [date|]; [|done].
  destruct (date_parse _) as [d|]; [|done]. by destruct (_ <? _).
Qed.

Lemma purge_entries_subset now ret entries w :
  let w' := (purge_entries now ret entries w).2 in
  ∀ q, files w' !! q = files w !! q
       ∨ (files w' !! q = None ∧ q ∈ entries ∧ verdict ret now q.2 = Value true).
Proof.
  revert w. induction entries as [|p entries IH]; intros w w' q; subst w'; [by left|].
  cbn [purge_entries]. destruct (next_fault w) as [|n].
  2:{ destruct (IH (after_fault w) q) as [->|(-> & ? & ?)]; [by left|right].
      split_and!; [done|by right|done]. }
  rewrite purge_entry_verdict. destruct (verdict _ _ p.2) as [[]|] eqn:Hv; [| |by left].
  - unfold remove_file. destruct (next_fault (after_fault w)); cbn [snd].
    + destruct (IH (with_files (delete p) (after_fault (after_fault w))) q)
        as [->|(-> & ? & ?)]; cbn.
      * destruct (decide (q = p)) as [->|?]; [right|left; by rewrite lookup_delete_ne].
        split_and!; [apply lookup_delete_eq|by left|done].
      * right. split_and!; [done|by right|done].
    + destruct (IH (after_fault (after_fault w)) q) as [->|(-> & ? & ?)]; [by left|right].
      split_and!; [done|by right|done].
  - destruct (IH (after_fault w) q) as [->|(-> & ? & ?)]; [by left|right].
    split_and!; [done|by right|done].
Qed.

(** Without faults every entry is treated, up to the first panic. *)
Lemma purge_entries_exact now ret entries w :
  faults w = [] →
  match purge_entries now ret entries w with
  | (Value _, w') =>
      (∀ q, q ∈ entries → verdict ret now q.2 ≠ Panicked)
      ∧ (∀ q, q ∈ entries → verdict ret now q.2 = Value true → files w' !! q = None)
  | (Panicked, _) => ∃ q, q ∈ entries ∧ verdict ret now q.2 = Panicked
  end.
Proof.
  revert w. induction entries as [|p entries IH]; intros w Hf.
  { cbn. split; intros q Hq; by apply elem_of_nil in Hq. }
  cbn [purge_entries]. unfold next_fault. rewrite Hf. cbn [head default].
  rewrite purge_entry_verdict.   destruct (verdict ret now p.2) as [rm|] eqn:Hv;
      [|exists p; split; [by left|done]].
  set (w1 := if rm then (remove_file p (after_fault w)).2 else after_fault w).
  assert (Hw1 : faults w1 = [] ∧ (rm = true → files w1 !! p = None)).
  { subst w1. unfold remove_file, next_fault. cbn. rewrite Hf. cbn. destruct rm; cbn;
      [|by rewrite Hf].
    rewrite ?Hf. cbn. split; [done|intros _; apply lookup_delete_eq]. }
  destruct Hw1 as (Hf1 & Hp1). specialize (IH w1 Hf1).
  replace (match _ with true => _ | false => _ end) with (Value tt, w1) by by destruct rm.
  pose proof (purge_entries_subset now ret entries w1 p) as Hsub.
  destruct (purge_entries now ret entries w1) as [[u|] w2].
  - destruct IH as [IHv IHn]. split; intros q [-> |Hq]%elem_of_cons;
      [congruence|by apply IHv| |by apply IHn].
    intros Hv'. rewrite Hv in Hv'. injection Hv' as ->.
    destruct Hsub as [Hsub|[Hsub _]]; cbn in Hsub; rewrite Hsub; [by apply Hp1|done].
  - destruct IH as (q & Hq & Hvq). exists q. split; [by right|done].
Qed.

(** What [chrono] documents: a date of the years 0 to 9999 (day 1 is
    0001-01-01) is shown as the ten characters [YYYY-MM-DD], which parse back. *)
Definition displayable (d : Z) : Prop := -365 ≤ d ≤ 3652059.
Definition is_date_char (c : ascii) : bool :=
  let n := nat_of_ascii c in ((48 <=? n)%nat && (n <=? 57)%nat) || (n =? 45)%nat.

Class DateLaws : Prop := {
  date_roundtrip : ∀ d, displayable d → date_parse (date_display d) = Some d;
  date_length : ∀ d, displayable d → length (bytes_of (date_display d)) = 10%nat;
  date_chars : ∀ d, displayable d → Forall (λ c, is_date_char c = true) (bytes_of (date_display d))
}.

Lemma bytes_of_app a b : bytes_of (a +:+ b) = bytes_of a ++ bytes_of b.
Proof. induction a as [|c a IH]; [done|].
    change (c :: bytes_of (a +:+ b) = c :: (bytes_of a ++ bytes_of b)). by rewrite IH. Qed.

Lemma bytes_of_length s : length (bytes_of s) = String.length s.
Proof. induction s as [|c s IH]; [done|]. cbn. by rewrite IH. Qed.

Lemma trim_once fuel pat s :
  (0 < fuel)%nat → ¬ pat `suffix_of` s → trim_end_matches fuel pat (s ++ pat) = s.
Proof.
  intros Hf Hs. destruct fuel as [|fuel]; [lia|]. cbn [trim_end_matches].
  rewrite decide_True by by apply suffix_app_r.
  rewrite length_app, Nat.add_sub, take_app_length.
  destruct fuel as [|fuel]; [done|]. cbn [trim_end_matches]. by rewrite decide_False.
Qed.

(** A trace file's own name is always understood. *)
Lemma verdict_file_name `{DateLaws} ret now service d :
  displayable d → verdict ret now (file_name service d) = Value (ret <? now - d).
Proof.
  intros Hd. pose proof (date_length d Hd) as Hlen. pose proof (date_chars d Hd) as Hch.
  set (stem := bytes_of (service +:+ "-" +:+ date_display d)).
  assert (Hstem : stem = bytes_of (service +:+ "-") ++ bytes_of (date_display d)).
  { subst stem. rewrite !bytes_of_app. by rewrite (assoc_L (++)). }
  assert (Hname : bytes_of (file_name service d) = stem ++ bytes_of ".jsonl").
  { unfold file_name. subst stem. rewrite !bytes_of_app. by rewrite <- !(assoc_L (++)). }
  assert (Hns : ¬ bytes_of ".jsonl" `suffix_of` stem).
  { intros [k Hk]. rewrite Hstem in Hk.
    destruct (@exists_last _ (bytes_of (date_display d))) as (l0 & c0 & Hl);
      [by intros E; rewrite E in Hlen|]. rewrite Hl in Hk, Hch.
    rewrite (assoc_L (++)) in Hk. change (bytes_of ".jsonl") with
        (bytes_of ".json" ++ ["l"%char]) in Hk.
    rewrite (assoc_L (++) k) in Hk. apply app_inj_tail in Hk as [_ ->].
    apply Forall_app in Hch as [_ Hch]. by apply Forall_cons in Hch as [Hch _]. }
  unfold verdict, ends_with. rewrite Hname.
  rewrite bool_decide_eq_true_2 by by apply suffix_app_r. cbn [negb].
  rewrite trim_once; [|rewrite <- bytes_of_length, Hname, length_app; cbn; lia|done].
  rewrite Hstem, length_app, Hlen.
  destruct (Nat.ltb_spec (length (bytes_of (service +:+ "-")) + 10) 10) as [|_]; [lia|].
  rewrite Nat.add_sub. unfold slice_from, is_char_boundary.
  rewrite lookup_app_r, Nat.sub_diag, drop_app_length by lia.
  destruct (bytes_of (date_display d)) as [|c l] eqn:Hl; [done|].
  apply Forall_cons in Hch as [Hc _]. cbn [lookup list_lookup].
  assert (Hascii : (nat_of_ascii c <? 128)%nat = true).
  { apply Nat.ltb_lt. unfold is_date_char in Hc. apply orb_prop in Hc as [Hc|Hc].
    - apply andb_prop in Hc as [_ Hc]. apply Nat.leb_le in Hc. lia.
    - apply Nat.eqb_eq in Hc. lia. }
  rewrite Hascii. cbn [orb]. rewrite <- Hl, String.string_of_list_ascii_of_string.
  by rewrite date_roundtrip.
Qed.

Lemma verdict_other ret now name : ends_with ".jsonl" name = false
    → verdict ret now name = Value false.
Proof. intros H. unfold verdict. by rewrite H. Qed.

Lemma read_dir_cases dir w :
  let entries := filter (λ p, p.1 = dir) (elements (dom (files w))) in
  (read_dir dir w = (Some entries, after_fault w)
   ∨ (read_dir dir w = (None, after_fault w) ∧ (faults w ≠ [] ∨ dir ∉ dirs w)))
  ∧ ∀ q, q ∈ entries ↔ q.1 = dir ∧ is_Some (files w !! q).
Proof.
  intros entries. split.
  - unfold read_dir, next_fault. destruct (faults w) as [|[|n] fl]; cbn; auto;
      case_decide; auto.
  - intros q. subst entries. by rewrite list_elem_of_filter, elem_of_elements, elem_of_dom.
Qed.

(** What a call of [write_batch] did. *)
Definition write_effect (batch : list SpanData) (e : JsonlFileExporter) (w : World)
    (r : result unit string) (e' : JsonlFileExporter) (w' : World) (added : string) : Prop :=
  let p := file_path e (today w) in
  exporter_wf e' w' ∧ e' = with_file (today w) (current_file e') e ∧ appends p added w w'
  ∧ match r with
    | Ok _ =>
        (batch_line e batch = Ok added ∧ dropped w' = dropped w
         ∧ (faults w = [] → Z.of_nat (String.length (content p w)) < size_cap e))
        ∨ (added = ""%string ∧ size_cap e ≤ Z.of_nat (String.length (content p w))
           ∧ dropped w' = dropped w + (if drop_counter e then Z.of_nat (length batch) else 0))
    | Err _ => dropped w' = dropped w
        ∧ (added = ""%string ∨ ∃ line n, batch_line e batch = Ok line
             ∧ added = String.substring 0 n line)
    end.

Lemma write_batch_effect batch e w :
  exporter_wf e w →
  ∃ r e' w' added, write_batch batch e w = (Value r, e', w')
  ∧ write_effect batch e w r e' w' added.
Proof.
  intros Hwf. unfold write_batch, write_effect. pose proof (ensure_file_spec e w Hwf) as He.
  destruct (ensure_file e w) as [[[[]|x] e1] w1]; destruct He as (He1 & Ha & Hd & Hfl & Hcur).
  2:{ eexists _, _, _, ""%string. split; [reflexivity|].
      split_and!; [by unfold exporter_wf; rewrite Hcur|done|done|done|by left]. }
  destruct Hcur as [Hcur Hex]. pose proof (current_size_spec e1 w1 _ Hcur) as Hs.
  destruct (current_size e1 w1) as [size w2]. destruct Hs as (Ha2 & Hfs2 & Hd2 & Hsize & Hexact).
  assert (Hc : content (file_path e (today w)) w1 = content (file_path e (today w)) w)
    by (destruct Ha as (_ & -> & _); apply string_app_empty_r).
  rewrite Hc in Hsize, Hexact.
  assert (Hwf1 : ∀ w', is_Some (files w' !! file_path e (today w)) → exporter_wf e1 w').
  { intros w' Hex'. unfold exporter_wf. rewrite Hcur. split; [by rewrite He1|done]. }
  assert (Hcap : size_cap e1 = size_cap e) by by rewrite He1.
  assert (Hattrs : resource_attrs e1 = resource_attrs e) by by rewrite He1.
  assert (Hdc : drop_counter e1 = drop_counter e) by by rewrite He1.
  rewrite Hcap. destruct (Z.leb_spec (size_cap e) size) as [Hge|Hlt].
  - eexists _, _, _, ""%string. split; [reflexivity|]. rewrite Hdc.
    split_and!; [apply Hwf1; by destruct (drop_counter e); cbn; rewrite Hfs2|done| |right].
    + apply (appends_trans _ _ _ _ _ Ha). destruct Ha2 as (? & ? & ?), (drop_counter e); done.
    + split_and!; [done|lia|]. destruct (drop_counter e); cbn; lia.
  - unfold batch_line. rewrite Hattrs. destruct (json_to_string _) as [text|x].
    2:{ eexists _, _, _, ""%string. split; [reflexivity|].
        split_and!; [apply Hwf1; by rewrite Hfs2|done|by apply (appends_trans _ _ _ _ _ Ha)|lia|by
            left]. }
    rewrite Hcur. pose proof (write_all_spec (file_path e (today w)) (text +:+ String "010" "")
        w2) as Hw.
    destruct (write_all _ _ w2) as [[[]|x] w3]; destruct Hw as (Hd3 & Hex3 & Ha3).
    + eexists _, _, _, _. split; [reflexivity|].
      split_and!; [by apply Hwf1|done|by apply (appends_trans _ _ _ _ _ Ha),
          (appends_trans _ _ _ _ _ Ha2)|].
      left. split_and!; [done|lia|]. intros Hnone. destruct (Hexact (Hfl Hnone)) as [_ <-]. done.
    + destruct Ha3 as [n Ha3]. eexists _, _, _, _. split; [reflexivity|].
      split_and!; [by apply Hwf1|done|by apply (appends_trans _ _ _ _ _ Ha),
          (appends_trans _ _ _ _ _ Ha2)|lia|].
      right. by eexists _, n.
Qed.

(** ** Properties *)

(** C20. Writing a batch.  It never panics, only today's file changes, and only
    at its end.  On success the batch is one appended line, or the file has
    reached the size cap and the batch is dropped and, if there is a counter,
    counted span by span; on an error at most a part of the line is appended
    and nothing is counted here (the span processor counts the error).  If the
    size can be read, a line is written only below the cap. *)
Theorem write_batch_spec batch e w :
  exporter_wf e w →
  ∃ r e' w' added, write_batch batch e w = (Value r, e', w')
  ∧ write_effect batch e w r e' w' added.
Proof. apply write_batch_effect. Qed.

(** C23. Purging never changes a file's content, and leaves every file of
    another directory and every file not named [*.jsonl] alone, whatever
    operations fail.  When none fails and the directory exists: the purge
    panics exactly if some name is cut inside a character, and otherwise it
    removes a trace file exactly when its date is more than the retention
    before [now]. *)
Theorem purge_spec `{DateLaws} dir now ret w :
  let '(r, w') := purge_old_files dir now ret w in
  (∀ q, files w' !! q = files w !! q ∨ files w' !! q = None)
  ∧ (∀ q, q.1 ≠ dir ∨ ends_with ".jsonl" q.2 = false → files w' !! q = files w !! q)
  ∧ (faults w = [] → dir ∈ dirs w →
     (r = Panicked ↔ ∃ name, is_Some (files w !! (dir, name)) ∧ verdict ret now name = Panicked)
     ∧ (r = Value tt → ∀ service d, displayable d →
          files w' !! (dir, file_name service d)
          = if ret <? now - d then None else files w !! (dir, file_name service d))).
Proof.
  unfold purge_old_files. destruct (read_dir_cases dir w) as [[-> |[-> Hno]] Hin].
  2:{ split_and!; [by left|done|]. intros Hf Hd. by destruct Hno. }
  set (entries := filter _ _) in *.
  pose proof (purge_entries_subset now ret entries (after_fault w)) as Hsub.
  pose proof (purge_entries_exact now ret entries (after_fault w)) as Hex.
  change (files (after_fault w)) with (files w) in *.
  destruct (purge_entries now ret entries (after_fault w)) as [r w'] eqn:Hp; cbn [snd] in Hsub.
  split_and!.
  { intros q. destruct (Hsub q) as [?|(? & _)]; tauto. }
  { intros q Hq. destruct (Hsub q) as [?|(_ & [Hd _]%Hin & Hv)]; [done|].
    destruct Hq as [Hq|Hq]; [done|]. by rewrite (verdict_other _ _ _ Hq) in Hv. }
  intros Hnone _. specialize (Hex ltac:(cbn; by rewrite Hnone)). split.
  - split.
    + intros ->. destruct Hex as ([d name] & [Hd Hs]%Hin & Hv). simpl in *. subst. by exists name.
    + intros (name & Hs & Hv). destruct r as [u|]; [|done]. destruct Hex as [Hnp _].
      exfalso. apply (Hnp (dir, name)); [by apply Hin|done].
  - intros -> service d Hd. destruct Hex as [_ Hrm].
    destruct (Hsub (dir, file_name service d)) as [Hs|(Hs & Hi & Hv)].
    + rewrite Hs. destruct (ret <? now - d) eqn:Hlt; [|done].
      apply eq_None_not_Some. intros Hsome.
      assert (files w' !! (dir, file_name service d) = None) as Hn.
      { apply Hrm; [by apply Hin|]. simpl. by rewrite verdict_file_name, Hlt. }
      rewrite Hs in Hn. destruct Hsome. congruence.
    + rewrite Hs. simpl in Hv. rewrite verdict_file_name in Hv by done. by injection Hv as ->.
Qed.
End Exporter.

(** ** Concrete parameters and file systems *)
Section Witness.

Local Instance unit_otel : OtelLib := {|
  f64 := unit; f64_is_finite _ := true; OtelArray := unit; OtelOther := unit;
  debug_array _ := "[]"%string; debug_other _ := "?"%string;
  TraceState := unit; SpanEvents := unit; SpanLinks := unit; InstrumentationScope := unit
|}.

(** Dates as the ten digits of the day number, shifted to be positive. *)
Fixpoint digits (k : nat) (n : Z) : list ascii :=
  match k with
  | O => []
  | S k' => digits k' (n / 10) ++ [ascii_of_nat (48 + Z.to_nat (n mod 10))]
  end.
Definition undigits (l : list ascii) : Z :=
  foldl (λ n c, 10 * n + (Z.of_nat (nat_of_ascii c) - 48)) 0 l.

Lemma digit_value n : 0 ≤ n mod 10 < 10 ∧
  nat_of_ascii (ascii_of_nat (48 + Z.to_nat (n mod 10))) = (48 + Z.to_nat (n mod 10))%nat.
Proof.
  pose proof (Z.mod_pos_bound n 10 ltac:(lia)). split; [done|].
  apply nat_ascii_embedding. lia.
Qed.

Lemma undigits_digits k n : undigits (digits k n) = n mod 10 ^ Z.of_nat k.
Proof.
  revert n. induction k as [|k IH]; intros n; [symmetry; apply Z.mod_1_r|].
  cbn [digits]. unfold undigits. rewrite foldl_app. cbn [foldl].
      fold (undigits (digits k (n / 10))).
  destruct (digit_value n) as [Hn ->]. rewrite IH.
  rewrite Nat2Z.inj_succ, Z.pow_succ_r, Z.rem_mul_r by lia. lia.
Qed.

Lemma digits_length k n : length (digits k n) = k.
Proof. revert n. induction k as [|k IH]; intros n; [done|]. cbn. rewrite length_app, IH. cbn. lia.
    Qed.

Lemma digits_chars k n : Forall (λ c, is_date_char c = true) (digits k n).
Proof.
  revert n. induction k as [|k IH]; intros n; [constructor|]. cbn [digits].
  apply Forall_app. split; [done|]. constructor; [|done]. unfold is_date_char.
  destruct (digit_value n) as [Hn ->].
  destruct (Nat.leb_spec 48 (48 + Z.to_nat (n mod 10))); [|lia].
  destruct (Nat.leb_spec (48 + Z.to_nat (n mod 10)) 57); [done|lia].
Qed.

Local Instance digits_lib : LocalLib := {|
  date_display d := String.string_of_list_ascii (digits 10 (d + 365));
  date_parse s := Some (undigits (bytes_of s) - 365);
  json_to_string _ := Ok "{}"%string
|}.
Local Instance digits_laws : DateLaws.
Proof.
  split; intros d Hd; cbn [date_parse date_display digits_lib];
    rewrite String.list_ascii_of_string_of_list_ascii.
  - rewrite undigits_digits, Z.mod_small; [f_equal; lia|].
    unfold displayable in Hd. change (10 ^ Z.of_nat 10) with 10000000000. lia.
  - apply digits_length.
  - apply digits_chars.
Qed.

Definition day18 : World := mkWorld ∅ ∅ [] 18 0.

Lemma write_batch_spec_witness :
  ∃ r e' w' added, write_batch [] (new_with_counter "engagement-hub" [] day18) day18 =
      (Value r, e', w')
  ∧ appends (".traces", file_name "engagement-hub" 18)%string added day18 w'.
Proof.
  destruct (write_batch_spec [] (new_with_counter "engagement-hub" [] day18) day18 I)
    as (r & e' & w' & added & Hw & _ & _ & Ha & _).
  exists r, e', w', added. split; [exact Hw|exact Ha].
Defined.

(** A file whose tenth byte before the extension is inside a character. *)
Definition accented : string := String "195" (String "169" "123456789.jsonl").
Definition old_trace : World :=
  mkWorld {[".traces"%string]}
    {[(".traces"%string, file_name "engagement-hub" 10) := "{}"%string]} [] 18 0.
Definition bad_trace : World :=
  mkWorld {[".traces"%string]} {[(".traces"%string, accented) := "{}"%string]} [] 18 0.

Lemma purge_spec_witness :
  (purge_old_files ".traces" 18 7 bad_trace).1 = Panicked
  ∧ files (purge_old_files ".traces" 18 7 old_trace).2
      !! (".traces"%string, file_name "engagement-hub" 10) = None.
Proof.
  split.
  - pose proof (purge_spec ".traces" 18 7 bad_trace) as H.
    destruct (purge_old_files ".traces" 18 7 bad_trace) as [r w'].
    destruct H as (_ & _ & H). destruct (H eq_refl ltac:(set_solver)) as [Hp _].
    apply Hp. exists accented. split; [by exists "{}"%string|reflexivity].
  - pose proof (purge_spec ".traces" 18 7 old_trace) as H.
    assert (Hr : (purge_old_files ".traces" 18 7 old_trace).1 = Value tt) by
        (vm_compute; reflexivity).
    destruct (purge_old_files ".traces" 18 7 old_trace) as [r w'].
    destruct H as (_ & _ & H). destruct (H eq_refl ltac:(set_solver)) as [_ Hv].
    exact (Hv Hr "engagement-hub"%string 10 ltac:(unfold displayable; lia)).
Defined.

End Witness.
