(* ===== verification/Calendar.v ===== *)
(** * The Gregorian calendar for the local exporter

    A concrete instance of the dates the exporter takes from [chrono]: the
    proleptic Gregorian calendar with day 1 = 0001-01-01 ([num_days_from_ce])
    and the text [YYYY-MM-DD].  [calendar_laws] discharges [DateLaws], which
    the exporter's theorems assume, for all the years 0 to 9999.  The proof
    evaluates the years of one period of 400 and the days of one year. *)
From Stdlib Require Import ZArith Lia.
From Stdlib Require Import Strings.Ascii Strings.String.
From stdpp Require Import base list strings.
From S2P Require Import Prelude OtlpJson LocalExporter.

(** ** Days and dates *)

(** Year, month and day; years begin in March while computing, so that the leap
    day is the last. *)
Definition civil_of_doe (doe : Z) : Z * Z * Z :=
  let yoe := (doe - doe / 1460 + doe / 36524 - doe / 146096) / 365 in
  let doy := doe - (365 * yoe + yoe / 4 - yoe / 100) in
  let mp := (5 * doy + 2) / 153 in
  let d := doy - (153 * mp + 2) / 5 + 1 in
  let m := if mp <? 10 then mp + 3 else mp - 9 in
  (yoe, m, d).
Definition doe_of_civil (c : Z * Z * Z) : Z :=
  let '(yoe, m, d) := c in
  let mp := if 2 <? m then m - 3 else m + 9 in
  let doy := (153 * mp + 2) / 5 + d - 1 in
  365 * yoe + yoe / 4 - yoe / 100 + doy.

Definition civil_of_days (n : Z) : Z * Z * Z :=
  let z := n + 305 in
  let era := z / 146097 in
  let '(yoe, m, d) := civil_of_doe (z mod 146097) in
  ((if m <=? 2 then 1 else 0) + yoe + 400 * era, m, d).
Definition days_of_civil (c : Z * Z * Z) : Z :=
  let '(y, m, d) := c in
  let y := y - (if m <=? 2 then 1 else 0) in
  146097 * (y / 400) + doe_of_civil (y mod 400, m, d) - 305.

(** ** One period of 400 years *)

(** [check k n]: [ok] holds for the [k] numbers from [n]. *)
Fixpoint check (ok : Z → bool) (k : nat) (n : Z) : bool :=
  match k with O => true | S k' => ok n && check ok k' (n + 1) end.

Lemma check_ok ok k n i : check ok k n = true → n ≤ i < n + Z.of_nat k → ok i = true.
Proof.
  revert n. induction k as [|k IH]; intros n Hc Hi; [lia|].
  cbn [check] in Hc. apply andb_true_iff in Hc as [Hn Hc].
  destruct (decide (i = n)) as [->|Hne]; [done|]. apply (IH (n + 1)); [done|lia].
Qed.

(** The first and last day of a year of the period; the last year is a leap
    year. *)
Definition year_start (y : Z) : Z := 365 * y + y / 4 - y / 100.
Definition year_end (y : Z) : Z := if y =? 399 then 146096 else year_start (y + 1) - 1.
Definition leapless (doe : Z) : Z := doe - doe / 1460 + doe / 36524 - doe / 146096.

Lemma leapless_mono a b : 0 ≤ a ≤ b → b < 146097 → leapless a ≤ leapless b.
Proof. intros Ha Hb. unfold leapless. Z.to_euclidean_division_equations. lia. Qed.

(** Both ends of a year are in it, and years follow each other. *)
Definition year_ok (y : Z) : bool :=
  (leapless (year_start y) / 365 =? y) && (leapless (year_end y) / 365 =? y)
  && (year_end y - year_start y <=? 365) && (year_end y <? 146097) && (0 <=? year_start y)
  && ((y =? 399) || (year_end y + 1 =? year_start (y + 1))).

Lemma years_ok : check year_ok 400 0 = true.
Proof. vm_compute. reflexivity. Qed.

Lemma year_spec y :
  0 ≤ y < 400 →
  leapless (year_start y) / 365 = y ∧ leapless (year_end y) / 365 = y
  ∧ year_end y - year_start y ≤ 365 ∧ year_end y < 146097 ∧ 0 ≤ year_start y
  ∧ (y = 399 ∨ year_end y + 1 = year_start (y + 1)).
Proof.
  intros Hy. pose proof (check_ok _ _ _ y years_ok ltac:(lia)) as H. unfold year_ok in H.
  rewrite !andb_true_iff, orb_true_iff, !Z.eqb_eq, !Z.leb_le, Z.ltb_lt in H. tauto.
Qed.

(** Every day is in a year, which the formula finds. *)
Lemma year_of_day (k : nat) doe :
  (k < 400)%nat → 0 ≤ doe ≤ year_end (Z.of_nat k) →
  ∃ y, 0 ≤ y < 400 ∧ year_start y ≤ doe ≤ year_end y.
Proof.
  induction k as [|k IH]; intros Hk Hdoe; [by exists 0|].
  destruct (decide (doe ≤ year_end (Z.of_nat k))) as [Hle|Hgt]; [apply IH; lia|].
  exists (Z.of_nat (S k)). destruct (year_spec (Z.of_nat k)) as (_ & _ & _ & _ & _ & Hnext); [lia|].
  replace (Z.of_nat (S k)) with (Z.of_nat k + 1) in * by lia. lia.
Qed.

Lemma yoe_spec doe :
  0 ≤ doe < 146097 →
  let yoe := leapless doe / 365 in
  0 ≤ yoe < 400 ∧ year_start yoe ≤ doe ≤ year_end yoe.
Proof.
  intros Hd. destruct (year_of_day 399 doe) as (y & Hy & Hdoe);
      [lia|change (year_end (Z.of_nat 399)) with 146096; lia|].
  destruct (year_spec y Hy) as (Hs & He & _ & Hlt & H0 & _). cbn zeta.
  assert (leapless doe / 365 = y) as ->; [|done].
  pose proof (leapless_mono (year_start y) doe ltac:(lia) ltac:(lia)) as Hlo.
  pose proof (leapless_mono doe (year_end y) ltac:(lia) ltac:(lia)) as Hhi.
  apply (Z.div_le_mono _ _ 365 ltac:(lia)) in Hlo, Hhi. lia.
Qed.

(** Month and day of a day of the year. *)
Definition month_day (doy : Z) : Z * Z :=
  let mp := (5 * doy + 2) / 153 in
  (if mp <? 10 then mp + 3 else mp - 9, doy - (153 * mp + 2) / 5 + 1).
Definition doy_ok (doy : Z) : bool :=
  let '(m, d) := month_day doy in
  (doe_of_civil (0, m, d) =? doy) && ((1 <=? m) && (m <=? 12)) && ((1 <=? d) && (d <=? 31))
  && Bool.eqb (306 <=? doy) (m <=? 2).

Lemma days_ok : check doy_ok 366 0 = true.
Proof. vm_compute. reflexivity. Qed.

Lemma month_day_spec doy :
  0 ≤ doy ≤ 365 →
  let '(m, d) := month_day doy in
  doe_of_civil (0, m, d) = doy ∧ 1 ≤ m ≤ 12 ∧ 1 ≤ d ≤ 31 ∧ (306 ≤ doy ↔ m ≤ 2).
Proof.
  intros Hd. pose proof (check_ok _ _ _ doy days_ok ltac:(lia)) as H. unfold doy_ok in H.
  destruct (month_day doy) as [m d].
  rewrite !andb_true_iff, eqb_true_iff, Z.eqb_eq, !Z.leb_le in H.
  destruct H as [[[He Hm] Hdd] Hb]. split_and!; try tauto.
  rewrite <- !Z.leb_le. by rewrite Hb.
Qed.

Lemma civil_of_doe_spec doe :
  0 ≤ doe < 146097 →
  let '(yoe, m, d) := civil_of_doe doe in
  doe_of_civil (yoe, m, d) = doe ∧ 0 ≤ yoe < 400 ∧ 1 ≤ m ≤ 12 ∧ 1 ≤ d ≤ 31
  ∧ (146037 ≤ doe ↔ yoe = 399 ∧ m ≤ 2).
Proof.
  intros Hd. destruct (yoe_spec doe Hd) as (Hy & Hs & He). unfold civil_of_doe.
  change (doe - doe / 1460 + doe / 36524 - doe / 146096) with (leapless doe).
  set (yoe := leapless doe / 365) in *.
  change (365 * yoe + yoe / 4 - yoe / 100) with (year_start yoe).
  destruct (year_spec yoe Hy) as (_ & _ & Hlen & _ & _ & Hnext).
  pose proof (month_day_spec (doe - year_start yoe) ltac:(lia)) as Hmd.
  unfold month_day in Hmd. cbn zeta. cbn zeta in Hmd.
  set (mp := (5 * (doe - year_start yoe) + 2) / 153) in *.
  destruct Hmd as (Hdoe & Hm & Hdd & Hmar). split_and!; try done || lia.
  - revert Hdoe. unfold doe_of_civil. change (365 * yoe + yoe / 4 - yoe / 100) with
      (year_start yoe).
    change (365 * 0 + 0 / 4 - 0 / 100) with 0. lia.
  - destruct (decide (yoe = 399)) as [->|Hne]; [change (year_start 399) with 145731 in *; lia|].
    destruct Hnext as [?|Hnext]; [done|]. split; [|tauto]. intros Hge. exfalso.
    assert (year_start (yoe + 1) ≤ 365 * 399 + 99); [|lia].
    unfold year_start. Z.to_euclidean_division_equations. lia.
Qed.

(** Dates are days, with four-digit years exactly in the displayable range. *)
Lemma civil_of_days_spec n :
  let '(y, m, d) := civil_of_days n in
  days_of_civil (y, m, d) = n ∧ 1 ≤ m ≤ 12 ∧ 1 ≤ d ≤ 31 ∧ (displayable n → 0 ≤ y ≤ 9999).
Proof.
  unfold civil_of_days. set (era := (n + 305) / 146097).
  pose proof (Z.div_mod (n + 305) 146097 ltac:(lia)) as Hdm. fold era in Hdm.
  pose proof (Z.mod_pos_bound (n + 305) 146097 ltac:(lia)) as Hb.
  pose proof (civil_of_doe_spec _ Hb) as Hc. set (doe := (n + 305) mod 146097) in *.
  destruct (civil_of_doe doe) as [[yoe m] d]. destruct Hc as (Hdoe & Hy & Hm & Hd & Hlast).
  cbn [days_of_civil]. set (j := if m <=? 2 then 1 else 0) in *.
  replace (j + yoe + 400 * era - j) with (yoe + era * 400) by lia.
  rewrite Z.div_add, Z.mod_add, Z.div_small, Z.mod_small by lia.
  split_and!; try lia. unfold displayable. intros Hn.
  assert (-1 ≤ era ≤ 24) by lia.
  assert (j = 0 ∧ 2 < m ∨ j = 1 ∧ m ≤ 2) as [[-> ?]|[-> ?]]
    by (subst j; destruct (Z.leb_spec m 2); lia); lia.
Qed.

(** ** Texts *)

Definition digit (n : Z) : ascii := ascii_of_nat (48 + Z.to_nat (n mod 10)).
Definition digit_value (c : ascii) : option Z :=
  let n := nat_of_ascii c in
  if ((48 <=? n) && (n <=? 57))%nat then Some (Z.of_nat n - 48) else None.

Definition two_digits (n : Z) : list ascii := [digit (n / 10); digit n].
Definition two_value (c c' : ascii) : option Z :=
  a ← digit_value c; b ← digit_value c'; Some (10 * a + b).

Definition display_chars (n : Z) : list ascii :=
  let '(y, m, d) := civil_of_days n in
  two_digits (y / 100) ++ two_digits y ++ "-"%char :: two_digits m ++ "-"%char :: two_digits d.

Definition calendar_display (n : Z) : string := string_of_list_ascii (display_chars n).

(** A day that does not exist is rejected. *)
Definition calendar_parse (s : string) : option Z :=
  match list_ascii_of_string s with
  | [y1; y2; y3; y4; h; m1; m2; h'; d1; d2] =>
      if decide (h = "-"%char ∧ h' = "-"%char) then
        c ← two_value y1 y2; y ← two_value y3 y4; m ← two_value m1 m2; d ← two_value d1 d2;
        let n := days_of_civil (100 * c + y, m, d) in
        if decide (civil_of_days n = (100 * c + y, m, d)) then Some n else None
      else None
  | _ => None
  end.

Lemma digit_code n : nat_of_ascii (digit n) = (48 + Z.to_nat (n mod 10))%nat ∧ 0 ≤ n mod 10 < 10.
Proof.
  pose proof (Z.mod_pos_bound n 10 ltac:(lia)). split; [|done].
  apply nat_ascii_embedding. lia.
Qed.

Lemma digit_value_digit n : digit_value (digit n) = Some (n mod 10).
Proof.
  unfold digit_value. destruct (digit_code n) as [-> Hn].
  rewrite (proj2 (Nat.leb_le 48 _)), (proj2 (Nat.leb_le _ 57)) by lia. cbn [andb]. f_equal. lia.
Qed.

Lemma two_value_digits n : two_value (digit (n / 10)) (digit n) = Some (n mod 100).
Proof.
  unfold two_value. rewrite !digit_value_digit. cbn. f_equal.
  change 100 with (10 * 10). rewrite Z.rem_mul_r by lia. lia.
Qed.

Lemma digit_is_date_char n : is_date_char (digit n) = true.
Proof.
  unfold is_date_char. destruct (digit_code n) as [-> Hn].
  rewrite (proj2 (Nat.leb_le 48 _)), (proj2 (Nat.leb_le _ 57)) by lia. done.
Qed.

(** ** The instance *)

Section Laws.
Context `{L : OtelLib} (text : Json → result string string).

Definition calendar : LocalLib := {|
  date_display := calendar_display;
  date_parse := calendar_parse;
  json_to_string := text
|}.

(** The date text of a day of the years 0 to 9999 has ten characters, digits
    and hyphens, and parses back to that day. *)
Lemma calendar_laws : @DateLaws L calendar.
Proof.
  split; intros n Hn; cbn [date_parse date_display calendar]; unfold calendar_display;
    pose proof (civil_of_days_spec n) as Hc.
  - unfold calendar_parse. rewrite list_ascii_of_string_of_list_ascii. unfold display_chars.
    destruct (civil_of_days n) as [[y m] d] eqn:Hciv. destruct Hc as (Hdays & Hm & Hd & Hy).
    specialize (Hy Hn).
    assert (0 ≤ y / 100 < 100)
      by (split; [apply Z.div_pos|apply Z.div_lt_upper_bound]; lia).
    cbn [app two_digits]. rewrite decide_True by done.
    rewrite !two_value_digits. cbn [mbind option_bind].
    rewrite (Z.mod_small (y / 100)), (Z.mod_small m), (Z.mod_small d) by lia.
    rewrite <- Z.div_mod, Hdays, Hciv by lia. by rewrite decide_True.
  - rewrite list_ascii_of_string_of_list_ascii. unfold display_chars.
    by destruct (civil_of_days n) as [[y m] d].
  - rewrite list_ascii_of_string_of_list_ascii. unfold display_chars, two_digits.
    destruct (civil_of_days n) as [[y m] d]. cbn [app].
    repeat constructor; apply digit_is_date_char.
Qed.

End Laws.

Lemma calendar_dates : map calendar_display [1; 738886; 3652059; -365]
  = ["0001-01-01"; "2024-01-01"; "9999-12-31"; "0000-01-01"]%string
  ∧ calendar_parse "2024-02-29" = Some 738945 ∧ calendar_parse "2023-02-29" = None.
Proof. by vm_compute. Qed.
