(* ===== verification/LocalExporterTests.v ===== *)
(** * The unit tests of [local_exporter.rs]

    They run on a file system without faults, on the calendar of [Calendar] and
    on the concrete texts of [OtlpJsonTests].  The tests are compiled with
    [cfg(test)], which leaves the rotation out of [ensure_file]: an exporter
    then writes as the production exporter does on the day it is set to. *)
From Stdlib Require Import ZArith.
From Stdlib Require Import Strings.Ascii Strings.String.
From stdpp Require Import base list gmap sets strings sorting.
From S2P Require Import Prelude Uuids UnitTest SerdeJson TestJson PromText OtlpJson OtlpJsonTests.
From S2P Require Import LocalExporter Calendar MockPeer.
Import Uuid36 TestJson CountingEnv.
Local Open Scope string_scope.

#[export] Instance lib : LocalLib := calendar otlp_to_string.

Local Abbreviation FsWorld := LocalExporter.World.
Local Abbreviation World := ((Z * nat) * FsWorld)%type.

(** ** The test constructors *)

Definition new_for_test (service_name dir : string) (w : FsWorld) : JsonlFileExporter :=
  new_inner service_name dir (today w) MAX_FILE_BYTES false [].
Definition new_for_test_with_date (service_name dir : string) (date : Z) : JsonlFileExporter :=
  new_inner service_name dir date MAX_FILE_BYTES false [].
Definition new_for_test_with_size_cap (service_name dir : string) (cap : Z) (w : FsWorld)
  : JsonlFileExporter :=
  new_inner service_name dir (today w) cap true [].
Definition advance_date_for_test (date : Z) (e : JsonlFileExporter) : JsonlFileExporter :=
  with_file date None e.

(** The exporter without rotation. *)
Definition on_day (d : Z) (w : FsWorld) : FsWorld :=
  mkWorld (dirs w) (files w) (faults w) d (dropped w).
Definition export_cfg_test (batch : list SpanData) (e : JsonlFileExporter) (w : FsWorld)
  : exec (result unit string) * JsonlFileExporter * FsWorld :=
  let '(r, e', w') := local_export batch e (on_day (current_date e) w) in
  (r, e', on_day (today w) w').

(** ** Helpers *)

Definition local_today : io World Z := λ s, (Value (today s.2), s).
Definition new_exporter (new : FsWorld → JsonlFileExporter) : io World JsonlFileExporter := λ s,
  (Value (new s.2), s).
Definition drop_count : io World Z := λ s, (Value (dropped s.2), s).

(** An operation on the file system, unwrapped. *)
Definition fs {A} (op : FsWorld → result A string * FsWorld) : io World A := λ '(b, w),
  let '(r, w') := op w in (match r with Ok a => Value a | Err _ => Panicked end, (b, w')).

Definition test_dir : io World string :=
  do u <- draw_uuid ;;
  let dir := "/tmp/eh-test-traces-" ++ uuid_to_string u in
  do _ <- fs (create_dir_all dir) ;;
  io_ret dir.

Definition run_export (exporter : JsonlFileExporter) (spans : list SpanData)
  : io World JsonlFileExporter := λ '(b, w),
  let '(r, e, w') := export_cfg_test spans exporter w in
  (match r with Value (Ok _) => Value e | _ => Panicked end, (b, w')).

(** [std::fs::read_dir(dir).unwrap()], [read_to_string] and [std::fs::write]. *)
Definition dir_entries (dir : string) : io World (list Path) :=
  fs (λ w, let '(o, w') := read_dir dir w in
           (match o with Some l => Ok l | None => Err io_error end, w')).
Definition read_to_string (p : Path) : io World string :=
  fs (λ w, (match files w !! p with Some s => Ok s | None => Err io_error end, w)).
Definition fs_write (p : Path) (text : string) : io World unit :=
  fs (λ w, (Ok tt, with_files (λ m, <[p := text]> m) w)).
Definition purging (dir : string) (now retention_days : Z) : io World unit := λ '(b, w),
  let '(r, w') := purge_old_files dir now retention_days w in (r, (b, w')).

(** [str::lines]: a final line break ends the last line. *)
Fixpoint split_lines (cur : string) (s : string) : list string :=
  match s with
  | EmptyString => if decide (cur = "") then [] else [cur]
  | String c s' =>
      if decide (c = "010"%char) then cur :: split_lines "" s'
      else split_lines (cur ++ String c EmptyString) s'
  end.
Definition lines (s : string) : list string := split_lines "" s.

Definition name_le (a b : string) : Prop := String.leb a b = true.
#[local] Instance name_le_dec a b : Decision (name_le a b).
Proof. unfold name_le. apply _. Defined.

Fixpoint for_each {A} (l : list A) (body : A → test World) : test World :=
  match l with [] => io_ret tt | a :: l' => do _ <- body a ;; for_each l' body end.

Definition nth_of {A} (l : list A) (i : nat) : io World A := unwrap_some (l !! i).

(** ** The tests *)

Definition creates_file_and_writes_valid_jsonl : test World :=
  do dir <- test_dir ;;
  do exp <- new_exporter (new_for_test "test-svc" dir) ;;
  do exp <- run_export exp [fake_span_for_test "op" 10 TestOk] ;;
  do files <- dir_entries dir ;;
  do _ <- assert_eq (length files) 1%nat ;;
  do path <- nth_of files 0 ;;
  do content <- read_to_string path ;;
  let lines := lines content in
  do _ <- assert_eq (length lines) 1%nat ;;
  do line <- nth_of lines 0 ;;
  do _ <- unwrap (parse_json_text line) ;;
  assert_ (contains "resourceSpans" content).

Definition daily_rotation_opens_new_file : test World :=
  do dir <- test_dir ;;
  let date_a := days_of_civil (2024, 1, 1)%Z in
  let date_b := days_of_civil (2024, 1, 2)%Z in
  let exp := new_for_test_with_date "test-svc" dir date_a in
  do exp <- run_export exp [fake_span_for_test "op" 5 TestOk] ;;
  let exp := advance_date_for_test date_b exp in
  do exp <- run_export exp [fake_span_for_test "op2" 5 TestOk] ;;
  do entries <- dir_entries dir ;;
  let files := merge_sort name_le (map snd entries) in
  do _ <- assert_eq (length files) 2%nat ;;
  do f0 <- nth_of files 0 ;;
  do _ <- assert_ (contains "2024-01-01" f0) ;;
  do f1 <- nth_of files 1 ;;
  assert_ (contains "2024-01-02" f1).

Definition size_cap_stops_writes_and_increments_counter : test World :=
  do dir <- test_dir ;;
  do exp <- new_exporter (new_for_test_with_size_cap "test-svc" dir 10) ;;
  do exp <- run_export exp [fake_span_for_test "op" 5 TestOk] ;;
  do exp <- run_export exp [fake_span_for_test "op2" 5 TestOk] ;;
  do counter <- drop_count ;;
  assert_ (0 <? counter)%Z.

(** The prefix is trimmed once here; it does not occur twice in the names. *)
Definition trim_start (pat s : string) : string :=
  if String.prefix pat s then String.substring (String.length pat) (String.length s) s else s.
Definition date_part (name : string) : string :=
  let s := trim_start "test-svc-" name in
  string_of_list_ascii (trim_end_matches (String.length s) (bytes_of ".jsonl") (bytes_of s)).

Definition retention_deletes_files_older_than_7_days : test World :=
  do dir <- test_dir ;;
  do today <- local_today ;;
  do _ <- for_each [1; 2; 3; 4; 5; 6; 7; 8; 9]%Z (λ days_ago,
    let d := (today - days_ago)%Z in
    fs_write (dir, "test-svc-" ++ date_display d ++ ".jsonl") "{}") ;;
  do _ <- purging dir today 7 ;;
  do entries <- dir_entries dir ;;
  let remaining := map snd entries in
  do _ <- assert_eq (length remaining) 7%nat ;;
  for_each remaining (λ name,
    do d <- unwrap_some (date_parse (date_part name)) ;;
    assert_ (today - d <=? 7)%Z).

Definition local_exporter_tests : list (test World) :=
  [creates_file_and_writes_valid_jsonl; daily_rotation_opens_new_file;
   size_cap_stops_writes_and_increments_counter; retention_deletes_files_older_than_7_days].

(** On 2024-03-01. *)
Lemma local_exporter_tests_pass :
  Forall (λ t, passes t ((0%Z, 0%nat), mkWorld ∅ ∅ [] 738946 0) = true) local_exporter_tests.
Proof. unfold local_exporter_tests. run_closed_tests. Qed.
