(* ===== verification/LocalPipeline.v ===== *)
(** * The local trace pipeline

    The span processor of [telemetry/processor.rs] running with the exporter of
    [telemetry/local_exporter.rs], as [init_telemetry] installs it: the exporter
    is an instance of the interface [SpanExporter], and the processor's theorem
    about any exporter combines with the exporter's about one batch.  Both count
    their drops in the same series (label [local]). *)
From Stdlib Require Import ZArith Lia.
From stdpp Require Import base list strings gmap.
From S2P Require Import Prelude OtlpJson SpanProcessor LocalExporter.

Section Pipeline.
Context `{LL : LocalLib} `{!Mpsc SpanData}.

(** [SpanExporter for JsonlFileExporter]; [export] computes its result before
    it returns, so it cannot time out, and [shutdown] is the trait's default.
    A panic does not occur ([LocalExporter.write_batch_spec]). *)
#[export] Instance local_span_exporter : SpanExporter (JsonlFileExporter * World) SpanData := {|
  export batch '(e, w) :=
    match local_export batch e w with
    | (Value (Ok _), e', w') => (Exported, (e', w'))
    | (Value (Err _), e', w') => (ExportFailed, (e', w'))
    | (Panicked, e', w') => (ExportFailed, (e', w'))
    end;
  exporter_shutdown ew := ew
|}.

Context `{!MpscLaws SpanData}.

(** What became of an exported batch: a whole line, nothing because the file is
    full, or a part of the line because an operation failed. *)
Inductive fate := Line (text : string) | FileFull | Cut (text : string).
Definition fate_text (f : fate) : string :=
  match f with Line t => t | FileFull => "" | Cut t => t end.

Definition fate_ok (e : JsonlFileExporter) (x : list SpanData * export_end) (f : fate) : Prop :=
  match f with
  | Line t => x.2 = Exported ∧ batch_line e x.1 = Ok t
  | FileFull => x.2 = Exported
  | Cut t => x.2 = ExportFailed
      ∧ (t = ""%string ∨ ∃ line n, batch_line e x.1 = Ok line ∧ t = String.substring 0 n line)
  end.

(** Spans without a whole line, and those of them that the exporter counts. *)
Definition unwritten (x : list SpanData * export_end) (f : fate) : Z :=
  match f with Line _ => 0 | _ => Z.of_nat (length x.1) end.
Definition full (x : list SpanData * export_end) (f : fate) : Z :=
  match f with FileFull => Z.of_nat (length x.1) | _ => 0 end.
Definition total (c : list SpanData * export_end → fate → Z)
    (es : list (list SpanData * export_end)) (fs : list fate) : Z :=
  foldr Z.add 0 (zip_with c es fs).

Definition concat_text (fs : list fate) : string := foldr (λ f s, fate_text f +:+ s) ""%string fs.

(** The exporter's state after the exports [es], started from [e] and [w]. *)
Definition ledger (e : JsonlFileExporter) (w : World) (ew : JsonlFileExporter * World)
    (es : list (list SpanData * export_end)) : Prop :=
  let p := file_path e (today w) in
  ∃ fs, Forall2 (fate_ok e) es fs
  ∧ exporter_wf ew.1 ew.2
  ∧ (∃ d f, ew.1 = with_file d f e)
  ∧ appends p (concat_text fs) w ew.2
  ∧ dropped ew.2 = dropped w + total full es fs.

Lemma total_snoc c es fs x f : length es = length fs →
  total c (es ++ [x]) (fs ++ [f]) = total c es fs + c x f.
Proof.
  intros Hlen. unfold total. rewrite zip_with_app by done. cbn.
  induction (zip_with c es fs) as [|z l IH]; cbn; lia.
Qed.

Lemma string_app_assoc (a b c : string) : (a +:+ b) +:+ c = a +:+ (b +:+ c).
Proof.
  induction a as [|x a IH]; [done|].
  change (String x ((a +:+ b) +:+ c) = String x (a +:+ (b +:+ c))). by rewrite IH.
Qed.

Lemma concat_text_snoc fs f : concat_text (fs ++ [f]) = concat_text fs +:+ fate_text f.
Proof.
  unfold concat_text. induction fs as [|g fs IH]; cbn [foldr app].
  - by rewrite string_app_empty_r.
  - by rewrite IH, string_app_assoc.
Qed.

Lemma appends_app p a b w1 w2 w3 :
  appends p a w1 w2 → appends p b w2 w3 → appends p (a +:+ b) w1 w3.
Proof.
  intros (Hq & Hc & Ht) (Hq' & Hc' & Ht'). split_and!.
  - intros q Hne. by rewrite Hq', Hq.
  - by rewrite Hc', Hc, string_app_assoc.
  - congruence.
Qed.

(** The fate of one batch, from what [write_batch] did. *)
Lemma write_effect_fate batch e w r e' w' added :
  drop_counter e = true → write_effect batch e w r e' w' added →
  ∃ f, fate_ok e (batch, match r with Ok _ => Exported | Err _ => ExportFailed end) f
  ∧ fate_text f = added
  ∧ dropped w' = dropped w
      + full (batch, match r with Ok _ => Exported | Err _ => ExportFailed end) f.
Proof.
  intros Hc (_ & _ & _ & Hr). destruct r as [[]|x].
  - destruct Hr as [(Hl & Hd & _)|(-> & _ & Hd)].
    + exists (Line added). split; [done|]. split; [done|]. cbn. lia.
    + exists FileFull. by rewrite Hc in Hd.
  - destruct Hr as (Hd & Ha). exists (Cut added). split; [done|]. split; [done|]. cbn. lia.
Qed.

Lemma ledger_export e w ew es b : drop_counter e = true → ledger e w ew es →
  ledger e w (export b ew).2 (es ++ [(b, (export b ew).1)]).
Proof.
  intros Hc (fs & Hfs & Hwf & (d & fl & He) & Ha & Hd). destruct ew as [e1 w1]. cbn [fst snd] in *.
  destruct (write_batch_effect b e1 w1 Hwf) as (r & e2 & w2 & added & Hw & Heff).
  assert (Hc1 : drop_counter e1 = true) by by rewrite He.
  destruct (write_effect_fate _ _ _ _ _ _ _ Hc1 Heff) as (f & Hf & Ht & Hd2).
  destruct Heff as (Hwf2 & He2 & Ha2 & _).
  assert (Hp : file_path e1 (today w1) = file_path e (today w)).
  { destruct Ha as (_ & _ & ->). by rewrite He. }
  assert (Hok : fate_ok e (b, match r with Ok _ => Exported | Err _ => ExportFailed end) f).
  { unfold fate_ok, batch_line in *. by rewrite He in Hf. }
  pose proof (Forall2_length _ _ _ Hfs) as Hlen.
  cbn [export local_span_exporter]. unfold local_export. rewrite Hw.
  exists (fs ++ [f]). rewrite concat_text_snoc, total_snoc, Ht by done.
  destruct r as [[]|x]; cbn [fst snd]; (split_and!;
    [by apply Forall2_app; [|constructor]|done|exists (today w1), (current_file e2);
        by rewrite He2, He
    |apply (appends_app _ _ _ _ w1); [done|by rewrite <- Hp]|lia]).
Qed.

(** ** Properties *)

(** C18. The whole local pipeline accounts for every span.  Started on any file
    system whose operations may fail, in every run (of one day): the spans
    accepted are, in order, those exported, batched and queued; the day's file
    has grown by the batches' lines in order, a part of the line for a batch
    that failed, nothing for one that found the file full; and the two drop
    counts together have grown by exactly the spans rejected and the spans of
    batches without a whole line: every span is in a line, waiting, or counted,
    and none of them twice. *)
Theorem local_pipeline_accounts e w d0 cap acc rej s :
  exporter_wf e w → drop_counter e = true →
  runs (new_with_capacity (e, w) d0 cap) acc rej s →
  ∃ fates, Forall2 (fate_ok e) (exports s) fates
  ∧ concat (exports s).*1 ++ batch s ++ pending (rx s) = acc
  ∧ appends (file_path e (today w)) (concat_text fates) w (env s).2
  ∧ (SpanProcessor.dropped s - d0) + (dropped (env s).2 - dropped w)
    = Z.of_nat rej + total unwritten (exports s) fates.
Proof.
  intros Hwf Hc Hr.
  assert (Hl : ledger e w (env s) (exports s)).
  { apply (runs_env (ledger e w)) with (w := (e, w)) (d0 := d0) (cap := cap) (acc := acc)
      (rej := rej);
      [by intros; apply ledger_export|done| |done].
    exists []. split_and!; [constructor|done|exists (current_date e), (current_file e);
        by destruct e
      |split_and!; [done|by rewrite string_app_empty_r|done]|cbn; lia]. }
  destruct Hl as (fs & Hfs & _ & _ & Ha & Hd).
      pose proof (runs_invariant _ _ _ _ _ _ Hr) as [Ho Hdr _ _ _].
  exists fs. split_and!; [done|done|done|]. rewrite Hdr, Hd.
  assert (Hsum : lost (exports s) + total full (exports s) fs = total unwritten (exports s) fs).
  { clear - Hfs. induction Hfs as [|[b en] f es fs Hf Hfs IH]; [done|].
    unfold lost, total in *. cbn [foldr zip_with]. unfold lost_in at 1. cbn [fst snd].
    destruct f; cbn in Hf |- *; [destruct Hf as [-> _]|rewrite Hf|destruct Hf as [-> _]]; lia. }
  lia.
Qed.

End Pipeline.

(** ** One span, and a shutdown *)
Section Witness.

Local Existing Instance LocalExporter.unit_otel.
Local Existing Instance LocalExporter.digits_lib.
Local Existing Instance SpanProcessor.ring_mpsc.
Local Existing Instance SpanProcessor.ring_laws.

Definition one_span : SpanData :=
  {| sd_span_context := mkSpanContext [] [] Byte.x01 false (); sd_parent_span_id := INVALID;
     sd_span_kind := Internal; sd_name := "my-op"%string; sd_start_time := -5; sd_end_time := 42;
     sd_attributes := []; sd_dropped_attributes_count := 0; sd_events := (); sd_links := ();
     sd_status := StatusOk; sd_instrumentation_scope := () |}.
Definition exporter18 : JsonlFileExporter := new_with_counter "engagement-hub" [] day18.
Definition idle : CountingSpanProcessor (Span := SpanData) :=
    new_with_capacity (exporter18, day18) 0 1.
Definition after_one : CountingSpanProcessor (Span := SpanData) :=
  on_shutdown (SpanProcessor.shutdown (on_end one_span idle)).

Lemma one_run : runs idle [one_span] 0 after_one.
Proof.
  apply runs_on_shutdown; [|reflexivity|reflexivity]. apply runs_shutdown_call.
  apply (runs_on_end idle [] 0 idle one_span). apply runs_start.
Qed.

Lemma local_pipeline_accounts_witness :
  ∃ fates, Forall2 (fate_ok exporter18) (exports after_one) fates
  ∧ concat (exports after_one).*1 ++ batch after_one ++ pending (rx after_one) = [one_span].
Proof.
  destruct (local_pipeline_accounts exporter18 day18 0 1 [one_span] 0 after_one I eq_refl one_run)
    as (fates & Hf & Ho & _).
  exists fates. split; [exact Hf|exact Ho].
Defined.

End Witness.
