(* ===== verification/Base64.v ===== *)
(** * Base64

    Models [base64_encode] of [crates/engagement-hub/src/telemetry/mod.rs], used
    for the basic authorization header of the Langfuse exporter.  Strings are
    bytes; [None] is the panic of an index outside the table. *)
From Stdlib Require Import ZArith Lia.
From Stdlib Require Import Strings.Ascii Strings.String.
From stdpp Require Import base list option strings.
From S2P Require Import Prelude.

Definition TABLE : string := "ABCDEFGHIJKLMNOPQRSTUVWXYZabcdefghijklmnopqrstuvwxyz0123456789+/".

(** [TABLE[i] as char]. *)
Definition table_at (i : N) : option ascii := String.get (N.to_nat i) TABLE.

(** [bytes.chunks(3)]. *)
Fixpoint chunks3 {A} (l : list A) : list (list A) :=
  match l with
  | a :: b :: c :: rest => [a; b; c] :: chunks3 rest
  | [] => []
  | _ => [l]
  end.

(** The body of the loop. *)
Definition encode_chunk (chunk : list ascii) : option (list ascii) :=
  c0 ← chunk !! 0%nat;
  let b0 := N_of_ascii c0 in
  let b1 := match chunk !! 1%nat with Some c => N_of_ascii c | None => 0%N end in
  let b2 := match chunk !! 2%nat with Some c => N_of_ascii c | None => 0%N end in
  o0 ← table_at (N.shiftr b0 2);
  o1 ← table_at (N.lor (N.shiftl (N.land b0 3) 4) (N.shiftr b1 4));
  o2 ← (if (1 <? length chunk)%nat
        then table_at (N.lor (N.shiftl (N.land b1 15) 2) (N.shiftr b2 6)) else Some "="%char);
  o3 ← (if (2 <? length chunk)%nat then table_at (N.land b2 63) else Some "="%char);
  Some [o0; o1; o2; o3].

Fixpoint encode_chunks (chunks : list (list ascii)) : option (list ascii) :=
  match chunks with
  | [] => Some []
  | chunk :: rest => out ← encode_chunk chunk; outs ← encode_chunks rest; Some (out ++ outs)
  end.

Definition base64_encode (input : string) : option string :=
  String.string_of_list_ascii <$> encode_chunks (chunks3 (String.list_ascii_of_string input)).

(** ** The decoder of RFC 4648, as the specification

    Written from the RFC, without the code's table: the alphabet of its table
    1 by character codes, padding only at the end of the text, and the unused
    bits before the padding zero. *)

(** [A]-[Z] are 0-25, [a]-[z] 26-51, [0]-[9] 52-61, [+] 62 and [/] 63. *)
Definition sextet (c : ascii) : option N :=
  let n := N_of_ascii c in
  (if (65 <=? n) && (n <=? 90) then Some (n - 65)
   else if (97 <=? n) && (n <=? 122) then Some (n - 97 + 26)
   else if (48 <=? n) && (n <=? 57) then Some (n - 48 + 52)
   else if n =? 43 then Some 62
   else if n =? 47 then Some 63
   else None)%N.

Definition is_pad (c : ascii) : bool := (N_of_ascii c =? 61)%N.

Definition byte1 (i0 i1 : N) : ascii := ascii_of_N (i0 * 4 + i1 / 16).
Definition byte2 (i1 i2 : N) : ascii := ascii_of_N ((i1 mod 16) * 16 + i2 / 4).
Definition byte3 (i2 i3 : N) : ascii := ascii_of_N ((i2 mod 4) * 64 + i3).

Definition decode_full (c0 c1 c2 c3 : ascii) : option (list ascii) :=
  i0 ← sextet c0; i1 ← sextet c1; i2 ← sextet c2; i3 ← sextet c3;
  Some [byte1 i0 i1; byte2 i1 i2; byte3 i2 i3].

(** The last group may end in one or two padding signs. *)
Definition decode_last (c0 c1 c2 c3 : ascii) : option (list ascii) :=
  if is_pad c3 then
    i0 ← sextet c0; i1 ← sextet c1;
    if is_pad c2 then if (i1 mod 16 =? 0)%N then Some [byte1 i0 i1] else None
    else
      i2 ← sextet c2;
      if (i2 mod 4 =? 0)%N then Some [byte1 i0 i1; byte2 i1 i2] else None
  else decode_full c0 c1 c2 c3.

Fixpoint decode_quads (l : list ascii) : option (list ascii) :=
  match l with
  | [] => Some []
  | c0 :: c1 :: c2 :: c3 :: rest =>
      match rest with
      | [] => decode_last c0 c1 c2 c3
      | _ => bs ← decode_full c0 c1 c2 c3; more ← decode_quads rest; Some (bs ++ more)
      end
  | _ => None
  end.

Definition base64_decode (s : string) : option string :=
  String.string_of_list_ascii <$> decode_quads (String.list_ascii_of_string s).

(** ** Facts *)

(** A property of all small numbers, by computation. *)
Fixpoint all_below (n : nat) (f : N → bool) : bool :=
  match n with O => true | S n' => f (N.of_nat n') && all_below n' f end.

Lemma all_below_spec n f : all_below n f = true → ∀ x, (x < N.of_nat n)%N → f x = true.
Proof.
  induction n as [|n IH]; intros H x Hx; [lia|]. cbn [all_below] in H.
  apply andb_prop in H as [Hf H]. destruct (N.eq_dec x (N.of_nat n)) as [->|]; [done|].
  apply IH; [done|lia].
Qed.

Lemma N_ascii_bound c : (N_of_ascii c < 256)%N.
Proof. apply N_ascii_bounded. Qed.

(** The code's table is the RFC's alphabet, which has no padding sign. *)
Lemma table_sextet i : (i < 64)%N →
  ∃ c, table_at i = Some c ∧ sextet c = Some i ∧ is_pad c = false.
Proof.
  intros Hi.
  assert (H : match table_at i with
    | Some c => match sextet c with Some j => (j =? i)%N | None => false end && negb (is_pad c)
    | None => false end = true).
  { revert i Hi. apply (all_below_spec 64). vm_compute. reflexivity. }
  destruct (table_at i) as [c|]; [|done]. apply andb_prop in H as [H1 H2].
  destruct (sextet c) as [j|] eqn:Hj; [|done]. apply N.eqb_eq in H1 as ->.
  exists c. split_and!; [done|done|]. by apply negb_true_iff.
Qed.

Lemma sextet_table c i : sextet c = Some i → (i < 64)%N ∧ table_at i = Some c ∧ is_pad c = false.
Proof.
  intros Hc. assert (H : ∀ n, (n < 256)%N →
    match sextet (ascii_of_N n) with
    | Some i => (i <? 64)%N && bool_decide (table_at i = Some (ascii_of_N n))
                && negb (is_pad (ascii_of_N n))
    | None => true end = true) by (apply (all_below_spec 256); vm_compute; reflexivity).
  specialize (H _ (N_ascii_bound c)). rewrite ascii_N_embedding, Hc in H.
  rewrite !andb_true_iff, N.ltb_lt, bool_decide_eq_true, negb_true_iff in H. tauto.
Qed.

(** The shifted and masked parts do not overlap: [|] is addition. *)
Lemma lor_parts x y : (x < 256)%N → (y < 256)%N →
  N.lor (N.shiftl (N.land x 3) 4) (N.shiftr y 4) = ((x mod 4) * 16 + y / 16)%N
  ∧ N.lor (N.shiftl (N.land x 15) 2) (N.shiftr y 6) = ((x mod 16) * 4 + y / 64)%N
  ∧ N.shiftr x 2 = (x / 4)%N ∧ N.land x 63 = (x mod 64)%N.
Proof.
  intros Hx Hy.
  assert (H : all_below 256 (λ y,
      (N.lor (N.shiftl (N.land x 3) 4) (N.shiftr y 4) =? (x mod 4) * 16 + y / 16)%N
      && (N.lor (N.shiftl (N.land x 15) 2) (N.shiftr y 6) =? (x mod 16) * 4 + y / 64)%N
      && (N.shiftr x 2 =? x / 4)%N && (N.land x 63 =? x mod 64)%N) = true).
  { revert x Hx. apply (all_below_spec 256). vm_compute. reflexivity. }
  apply (all_below_spec 256) with (x := y) in H; [|done].
  rewrite !andb_true_iff, !N.eqb_eq in H. tauto.
Qed.

(** Three bytes as four sextets, and back. *)
Ltac div_lia := zify; Z.to_euclidean_division_equations; lia.

Lemma bytes_back x y z : (x < 256)%N → (y < 256)%N → (z < 256)%N →
  (x / 4 * 4 + ((x mod 4) * 16 + y / 16) / 16 = x
   ∧ (((x mod 4) * 16 + y / 16) mod 16) * 16 + ((y mod 16) * 4 + z / 64) / 4 = y
   ∧ (((y mod 16) * 4 + z / 64) mod 4) * 64 + z mod 64 = z
   ∧ x / 4 < 64 ∧ (x mod 4) * 16 + y / 16 < 64 ∧ (y mod 16) * 4 + z / 64 < 64
   ∧ z mod 64 < 64)%N.
Proof. intros. split_and!; div_lia. Qed.

Lemma sextets_back i0 i1 i2 i3 : (i0 < 64)%N → (i1 < 64)%N → (i2 < 64)%N → (i3 < 64)%N →
  let x := (i0 * 4 + i1 / 16)%N in
  let y := ((i1 mod 16) * 16 + i2 / 4)%N in
  let z := ((i2 mod 4) * 64 + i3)%N in
  (x < 256 ∧ y < 256 ∧ z < 256
   ∧ x / 4 = i0 ∧ (x mod 4) * 16 + y / 16 = i1 ∧ (y mod 16) * 4 + z / 64 = i2 ∧ z mod 64 = i3)%N.
Proof. intros. subst x y z. split_and!; div_lia. Qed.

Lemma get_past (n : nat) s : (String.length s ≤ n)%nat → String.get n s = None.
Proof. revert n. induction s as [|c s IH]; intros [|n] Hn; simpl in *; try done; [lia|]. apply IH.
    lia. Qed.

(** The table and the alphabet are inverse to each other. *)
Lemma table_alphabet i c : table_at i = Some c ↔ sextet c = Some i.
Proof.
  split; [|by intros (_ & ? & _)%sextet_table]. intros Hc. destruct (decide (i < 64)%N) as [Hi|Hi].
  - destruct (table_sextet i Hi) as (c' & Hc' & Hs & _). congruence.
  - unfold table_at in Hc. rewrite get_past in Hc; [done|]. simpl. lia.
Qed.

Lemma table_total i : (i < 64)%N → ∃ c, table_at i = Some c.
Proof. intros (c & Hc & _)%table_sextet. by exists c. Qed.

(** The code's shifts and masks, as arithmetic. *)
Lemma encode_chunk_eq a b c :
  let x := N_of_ascii a in let y := N_of_ascii b in let z := N_of_ascii c in
  encode_chunk [a; b; c]
    = (o0 ← table_at (x / 4); o1 ← table_at ((x mod 4) * 16 + y / 16);
       o2 ← table_at ((y mod 16) * 4 + z / 64); o3 ← table_at (z mod 64); Some [o0; o1; o2; o3])%N
  ∧ encode_chunk [a; b]
    = (o0 ← table_at (x / 4); o1 ← table_at ((x mod 4) * 16 + y / 16);
       o2 ← table_at ((y mod 16) * 4 + 0 / 64); Some [o0; o1; o2; "="%char])%N
  ∧ encode_chunk [a]
    = (o0 ← table_at (x / 4); o1 ← table_at ((x mod 4) * 16 + 0 / 16);
       Some [o0; o1; "="%char; "="%char])%N.
Proof.
  intros x y z. pose proof (N_ascii_bound a) as Hx. pose proof (N_ascii_bound b) as Hy.
  pose proof (N_ascii_bound c) as Hz. fold x in Hx. fold y in Hy. fold z in Hz.
  destruct (lor_parts x y Hx Hy) as (Exy & _ & Ex & _), (lor_parts y z Hy Hz) as (_ & Eyz & _ & _),
    (lor_parts z z Hz Hz) as (_ & _ & _ & Ez), (lor_parts y 0 Hy ltac:(lia)) as (_ & Ey0 & _ & _),
    (lor_parts x 0 Hx ltac:(lia)) as (Ex0 & _ & _ & _).
  rewrite <- Exy, <- Ex, <- Eyz, <- Ez, <- Ey0, <- Ex0. split_and!; reflexivity.
Qed.

(** A chunk is encoded as the group that decodes to it, and as no other. *)
Lemma encode_full_iff a b c o0 o1 o2 o3 :
  encode_chunk [a; b; c] = Some [o0; o1; o2; o3] ↔ decode_full o0 o1 o2 o3 = Some [a; b; c].
Proof.
  rewrite (proj1 (encode_chunk_eq a b c)). unfold decode_full, byte1, byte2, byte3. split.
  - intros Henc. simplify_option_eq.
    repeat match goal with H : table_at _ = Some _ |- _ => apply table_alphabet in H; rewrite H end.
    destruct (bytes_back _ _ _ (N_ascii_bound a) (N_ascii_bound b) (N_ascii_bound c))
      as (B1 & B2 & B3 & _).
    simpl. by rewrite B1, B2, B3, !ascii_N_embedding.
  - intros Hdec. simplify_option_eq.
    repeat match goal with H : sextet _ = Some _ |- _ =>
      apply sextet_table in H as (? & ? & _) end.
    edestruct sextets_back as (B1 & B2 & B3 & E0 & E1 & E2 & E3);
      [..|rewrite !N_ascii_embedding, E0, E1, E2, E3 by done]; try done.
    by simplify_option_eq.
Qed.

Lemma is_pad_eq c : is_pad c = true ↔ c = "="%char.
Proof.
  unfold is_pad. rewrite N.eqb_eq. split; [|by intros ->].
  intros Hc. rewrite <- (ascii_N_embedding c), Hc. reflexivity.
Qed.

Ltac to_sextets :=
  repeat match goal with
  | H : table_at _ = Some _ |- _ =>
      apply table_alphabet in H; pose proof (sextet_table _ _ H) as (_ & _ & ?)
  end.
Ltac use_sextets :=
  repeat match goal with
  | H : sextet ?c = Some _ |- context [sextet ?c] => rewrite H; cbn [mbind option_bind]
  | H : is_pad ?c = false |- context [if is_pad ?c then _ else _] => rewrite H
  end.
Ltac to_table :=
  repeat match goal with H : sextet _ = Some _ |- _ => apply sextet_table in H as (? & ? & _) end.

(** The unused bits of the last sextet. *)
Lemma pad_bits4 x : ((x * 4 + 0 / 64) mod 4 =? 0)%N = true.
Proof. change (0 / 64)%N with 0%N. by rewrite N.add_0_r, N.Div0.mod_mul. Qed.
Lemma pad_bits16 x : ((x * 16 + 0 / 16) mod 16 =? 0)%N = true.
Proof. change (0 / 16)%N with 0%N. by rewrite N.add_0_r, N.Div0.mod_mul. Qed.

Lemma encode_two_iff a b o0 o1 o2 o3 :
  encode_chunk [a; b] = Some [o0; o1; o2; o3]
  ↔ o3 = "="%char ∧ is_pad o2 = false ∧ decode_last o0 o1 o2 o3 = Some [a; b].
Proof.
  rewrite (proj1 (proj2 (encode_chunk_eq a b "0"))). unfold decode_last, byte1, byte2. split.
  - intros Henc. simplify_option_eq. to_sextets.
    destruct (bytes_back _ _ 0 (N_ascii_bound a) (N_ascii_bound b) ltac:(lia))
      as (B1 & B2 & B3 & _).
    split_and!; [done|done|]. use_sextets. rewrite ?pad_bits4, ?pad_bits16. by rewrite B1, B2,
        !ascii_N_embedding.
  - intros (-> & Hp & Hdec). rewrite Hp in Hdec. simplify_option_eq.
    destruct (_ =? 0)%N eqn:Hz; [apply N.eqb_eq in Hz; simplify_eq|done]. to_table.
    match goal with H0 : table_at ?i0 = Some o0, H1 : table_at ?i1 = Some o1,
      H2 : table_at ?i2 = Some o2 |- _ =>
      destruct (sextets_back i0 i1 i2 0) as (B1 & B2 & B3 & E0 & E1 & E2 & _); [done|done|done|lia|]
    end.
    rewrite Hz in E2. change ((0 * 64 + 0) / 64)%N with 0%N in E2. change (0 / 64)%N with 0%N.
    change (0 / 64)%N with 0%N in E2.
    rewrite !N_ascii_embedding, E0, E1, E2 by done. by simplify_option_eq.
Qed.

Lemma encode_one_iff a o0 o1 o2 o3 :
  encode_chunk [a] = Some [o0; o1; o2; o3]
  ↔ o2 = "="%char ∧ o3 = "="%char ∧ decode_last o0 o1 o2 o3 = Some [a].
Proof.
  rewrite (proj2 (proj2 (encode_chunk_eq a "0" "0"))). unfold decode_last, byte1. split.
  - intros Henc. simplify_option_eq. to_sextets.
    destruct (bytes_back _ 0 0 (N_ascii_bound a) ltac:(lia) ltac:(lia)) as (B1 & B2 & _).
    split_and!; [done|done|]. use_sextets. rewrite ?pad_bits4, ?pad_bits16. by rewrite B1,
        !ascii_N_embedding.
  - intros (-> & -> & Hdec). change (is_pad "=") with true in Hdec. simplify_option_eq.
    destruct (_ =? 0)%N eqn:Hz; [apply N.eqb_eq in Hz; simplify_eq|done]. to_table.
    match goal with H0 : table_at ?i0 = Some o0, H1 : table_at ?i1 = Some o1 |- _ =>
      destruct (sextets_back i0 i1 0 0) as (B1 & _ & _ & E0 & E1 & _); [done|done|lia|lia|]
    end.
    rewrite Hz in E1. change ((0 * 16 + 0 / 4) / 16)%N with 0%N in E1. change (0 / 16)%N with 0%N.
    rewrite !N_ascii_embedding, E0, E1 by done. by simplify_option_eq.
Qed.

Lemma sextet_not_pad c i : sextet c = Some i → is_pad c = false.
Proof. by intros (_ & _ & ?)%sextet_table. Qed.

Lemma decode_full_last c0 c1 c2 c3 bs :
  decode_full c0 c1 c2 c3 = Some bs → decode_last c0 c1 c2 c3 = Some bs ∧ length bs = 3%nat.
Proof.
  intros Hd. assert (is_pad c3 = false) as Hp.
  { unfold decode_full in Hd. simplify_option_eq. by eapply sextet_not_pad. }
  unfold decode_last. rewrite Hp. split; [done|]. unfold decode_full in Hd. by simplify_option_eq.
Qed.

(** A group of the encoder is a group the decoder takes for its bytes. *)
Lemma encode_chunk_iff chunk o0 o1 o2 o3 :
  encode_chunk chunk = Some [o0; o1; o2; o3] ∧ (1 ≤ length chunk ≤ 3)%nat
  ↔ decode_last o0 o1 o2 o3 = Some chunk.
Proof.
  split.
  - intros [Henc Hlen]. destruct chunk as [|a [|b [|c [|]]]]; simpl in Hlen; try lia.
    + by apply encode_one_iff in Henc as (_ & _ & ?).
    + by apply encode_two_iff in Henc as (_ & _ & ?).
    + by apply encode_full_iff, decode_full_last in Henc as [? _].
  - intros Hd. pose proof Hd as Hd'. unfold decode_last in Hd'.
    destruct (is_pad o3) eqn:H3; [apply is_pad_eq in H3 as ->; destruct (is_pad o2) eqn:H2|].
    + apply is_pad_eq in H2 as ->. destruct (sextet o0), (sextet o1); try done.
      cbn [mbind option_bind] in Hd'. case_match; simplify_eq.
      split; [by apply encode_one_iff|simpl; lia].
    + destruct (sextet o0), (sextet o1), (sextet o2); try done.
      cbn [mbind option_bind] in Hd'. case_match; simplify_eq.
      split; [by apply encode_two_iff|simpl; lia].
    + destruct (decode_full_last _ _ _ _ _ Hd') as [_ Hlen].
      destruct chunk as [|a [|b [|c [|]]]]; try discriminate Hlen.
      split; [by apply encode_full_iff|simpl; lia].
Qed.

Lemma encode_chunk_total chunk : (1 ≤ length chunk ≤ 3)%nat →
  ∃ o0 o1 o2 o3, encode_chunk chunk = Some [o0; o1; o2; o3].
Proof.
  intros Hlen. destruct chunk as [|a [|b [|c [|]]]]; simpl in Hlen; try lia.
  - destruct (encode_chunk_eq a "0" "0") as (_ & _ & ->).
    destruct (bytes_back _ 0 0 (N_ascii_bound a) ltac:(lia) ltac:(lia)) as
        (_ & _ & _ & L0 & L1 & _).
    destruct (table_total _ L0) as [o0 E0], (table_total _ L1) as [o1 E1].
    do 4 eexists. by rewrite E0; cbn [mbind option_bind]; rewrite E1.
  - destruct (encode_chunk_eq a b "0") as (_ & -> & _).
    destruct (bytes_back _ _ 0 (N_ascii_bound a) (N_ascii_bound b) ltac:(lia))
      as (_ & _ & _ & L0 & L1 & L2 & _).
    destruct (table_total _ L0) as [o0 E0], (table_total _ L1) as [o1 E1],
        (table_total _ L2) as [o2 E2].
    do 4 eexists. by rewrite E0; cbn [mbind option_bind]; rewrite E1; cbn [mbind option_bind];
        rewrite E2.
  - destruct (encode_chunk_eq a b c) as (-> & _ & _).
    destruct (bytes_back _ _ _ (N_ascii_bound a) (N_ascii_bound b) (N_ascii_bound c))
      as (_ & _ & _ & L0 & L1 & L2 & L3).
    destruct (table_total _ L0) as [o0 E0], (table_total _ L1) as [o1 E1],
        (table_total _ L2) as [o2 E2],
      (table_total _ L3) as [o3 E3].
    do 4 eexists. by rewrite E0; cbn [mbind option_bind]; rewrite E1; cbn [mbind option_bind];
      rewrite E2; cbn [mbind option_bind]; rewrite E3.
Qed.

(** Lists in steps of three and of four. *)
Lemma by_threes {A} (P : list A → Prop) :
  (∀ l, (length l ≤ 3)%nat → P l) →
  (∀ a b c l, l ≠ [] → P l → P (a :: b :: c :: l)) → ∀ l, P l.
Proof.
  intros Hshort Hstep l. remember (length l) as n eqn:Hn. revert l Hn.
  induction (lt_wf n) as [n _ IH]. intros l ->.
  destruct l as [|a [|b [|c [|d l]]]]; try (apply Hshort; simpl; lia).
  apply Hstep; [done|]. eapply IH; [|done]. simpl. lia.
Qed.

Lemma chunks3_spec {A} (l : list A) :
  concat (chunks3 l) = l ∧ Forall (λ c, (1 ≤ length c ≤ 3)%nat) (chunks3 l)
  ∧ length (chunks3 l) = ((length l + 2) / 3)%nat.
Proof.
  enough (H : ∀ n l, (length l ≤ n)%nat → concat (chunks3 l) = l
    ∧ Forall (λ c, (1 ≤ length c ≤ 3)%nat) (chunks3 l)
    ∧ length (chunks3 l) = ((length l + 2) / 3)%nat) by by apply (H (length l)).
  clear l. induction n as [|n IH]; intros [|a [|b [|c l]]] Hl; cbn [length] in Hl; try lia;
    try (by split_and!; repeat constructor).
  destruct (IH l) as (Hc & Hf & Hn); [lia|]. cbn [chunks3 concat app length].
  split_and!; [by rewrite Hc|constructor; [simpl; lia|done]|].
  rewrite Hn. replace (S (S (S (length l))) + 2)%nat with (length l + 2 + 1 * 3)%nat by lia.
  rewrite Nat.div_add by lia. lia.
Qed.

Lemma chunks3_more {A} (a b c : A) l : chunks3 (a :: b :: c :: l) = [a; b; c] :: chunks3 l.
Proof. done. Qed.

Lemma encode_chunk_four chunk out :
  encode_chunk chunk = Some out → ∃ o0 o1 o2 o3, out = [o0; o1; o2; o3].
Proof. unfold encode_chunk. intros H. simplify_option_eq. by do 4 eexists. Qed.

Lemma decode_last_length c0 c1 c2 c3 bs :
  decode_last c0 c1 c2 c3 = Some bs → (1 ≤ length bs ≤ 3)%nat.
Proof. by intros [_ ?]%encode_chunk_iff. Qed.

(** One group, or a full group and more. *)
Lemma decode_quads_cases out bs :
  decode_quads out = Some bs →
  out = [] ∧ bs = []
  ∨ ∃ c0 c1 c2 c3 rest, out = c0 :: c1 :: c2 :: c3 :: rest
    ∧ (rest = [] ∧ decode_last c0 c1 c2 c3 = Some bs
       ∨ ∃ x y z more, rest ≠ [] ∧ decode_full c0 c1 c2 c3 = Some [x; y; z]
         ∧ decode_quads rest = Some more ∧ bs = x :: y :: z :: more).
Proof.
  intros Hd. destruct out as [|c0 [|c1 [|c2 [|c3 rest]]]]; simpl in Hd; simplify_eq;
      [by left|right].
  exists c0, c1, c2, c3, rest. split; [done|]. destruct rest as [|r rest]; [by left|right].
  destruct (decode_full c0 c1 c2 c3) as [q|] eqn:Hq; [|done].
  destruct (decode_full_last _ _ _ _ _ Hq) as [_ Hlen].
  destruct q as [|x [|y [|z [|]]]]; try discriminate Hlen.
  cbn [mbind option_bind] in Hd. destruct (decode_quads (r :: rest)) as [more|] eqn:Hm; [|done].
  exists x, y, z, more. cbn in Hd. by simplify_eq.
Qed.

Lemma decode_quads_nil out : decode_quads out = Some [] ↔ out = [].
Proof.
  split; [|by intros ->].
  intros [[? _]|(c0 & c1 & c2 & c3 & rest & -> &
      [[_ Hl%decode_last_length]|(? & ? & ? & ? & _ & _ & _ & ?)])]%decode_quads_cases;
    [done|simpl in Hl; lia|done].
Qed.

Lemma encode_chunks_one chunk out :
  encode_chunks [chunk] = Some out ↔ encode_chunk chunk = Some out.
Proof.
  cbn [encode_chunks]. destruct (encode_chunk chunk) as [o|]; [|done].
  cbn [mbind option_bind]. by rewrite app_nil_r.
Qed.

(** The encoder's output for a text is the decoder's only input for it. *)
Lemma encode_decode_iff (l out : list ascii) :
  encode_chunks (chunks3 l) = Some out ↔ decode_quads out = Some l.
Proof.
  revert out. induction l as [l Hl|a b c l Hne IH] using by_threes; intros out.
  - destruct (decide (l = [])) as [->|Hne].
    { rewrite decode_quads_nil. simpl. split; [by intros [= <-]|by intros ->]. }
    assert (chunks3 l = [l]) as -> by (by destruct l as [|? [|? [|? [|]]]]; simpl in Hl; try lia).
    assert (1 ≤ length l)%nat by (destruct l; [done|simpl; lia]).
    rewrite encode_chunks_one. split.
    + intros Henc. destruct (encode_chunk_four _ _ Henc) as (o0 & o1 & o2 & o3 & ->).
      apply (encode_chunk_iff l). split; [done|lia].
    + intros [[_ ->]|(c0 & c1 & c2 & c3 & rest & -> &
        [[-> Hd]|(x & y & z & more & Hr & _ & Hm & ->)])]%decode_quads_cases; [done| |].
      * by apply encode_chunk_iff in Hd as [? _].
      * destruct more as [|m more]; [by apply decode_quads_nil in Hm|]. simpl in Hl. lia.
  - rewrite chunks3_more. cbn [encode_chunks]. split.
    + intros Henc. destruct (encode_chunk [a; b; c]) as [o|] eqn:Ho; [|done].
      cbn [mbind option_bind] in Henc.
      destruct (encode_chunks (chunks3 l)) as [outs|] eqn:Houts; [|done]. cbn in Henc. simplify_eq.
      destruct (encode_chunk_four _ _ Ho) as (o0 & o1 & o2 & o3 & ->).
      apply encode_full_iff in Ho. pose proof (proj1 (IH outs) eq_refl) as Hd.
      destruct outs as [|o outs]; [by simpl in Hd; simplify_eq|].
      change ([o0; o1; o2; o3] ++ o :: outs) with (o0 :: o1 :: o2 :: o3 :: o :: outs).
      change (decode_quads (o0 :: o1 :: o2 :: o3 :: o :: outs))
        with (bs ← decode_full o0 o1 o2 o3; more ← decode_quads (o :: outs); Some (bs ++ more)).
      rewrite Ho. cbn [mbind option_bind]. by rewrite Hd.
    + intros [[_ ?]|(c0 & c1 & c2 & c3 & rest & -> &
        [[-> Hd%decode_last_length]|(x & y & z & more & Hr & Hf & Hm & ?)])]%decode_quads_cases;
        simplify_eq; [destruct l; [done|simpl in Hd; lia]|].
      apply encode_full_iff in Hf. apply IH in Hm. by rewrite Hf; cbn [mbind option_bind];
          rewrite Hm.
Qed.

Lemma encode_total (l : list ascii) : is_Some (encode_chunks (chunks3 l)).
Proof.
  destruct (chunks3_spec l) as (_ & Hf & _). induction Hf as [|c cs Hc _ [outs IH]]; [by eexists|].
  destruct (encode_chunk_total c Hc) as (o0 & o1 & o2 & o3 & Ho).
  cbn [encode_chunks]. rewrite Ho, IH. by eexists.
Qed.

Lemma encode_length cs out :
  encode_chunks cs = Some out → length out = (4 * length cs)%nat.
Proof.
  revert out. induction cs as [|c cs IH]; intros out Henc; cbn [encode_chunks] in Henc;
      [by simplify_eq|].
  destruct (encode_chunk c) as [o|] eqn:Ho; [|done]. cbn [mbind option_bind] in Henc.
  destruct (encode_chunks cs) as [outs|] eqn:Houts; [|done]. cbn in Henc. simplify_eq.
  destruct (encode_chunk_four _ _ Ho) as (o0 & o1 & o2 & o3 & ->).
  simpl. rewrite (IH outs eq_refl). lia.
Qed.

Lemma string_length_list s : String.length s = length (String.list_ascii_of_string s).
Proof. induction s as [|c s IH]; [done|by cbn; rewrite IH]. Qed.

Lemma encode_iff_decode (input out : string) :
  base64_encode input = Some out ↔ base64_decode out = Some input.
Proof.
  unfold base64_encode, base64_decode. rewrite !fmap_Some. split.
  - intros (o & Ho & ->). exists (String.list_ascii_of_string input).
    rewrite String.list_ascii_of_string_of_list_ascii, String.string_of_list_ascii_of_string.
    split; [by apply encode_decode_iff|done].
  - intros (l & Hl & ->). exists (String.list_ascii_of_string out).
    rewrite String.list_ascii_of_string_of_list_ascii, String.string_of_list_ascii_of_string.
    split; [by apply encode_decode_iff|done].
Qed.

Lemma encodes (input : string) :
  ∃ out, base64_encode input = Some out ∧ base64_decode out = Some input
  ∧ String.length out = (4 * ((String.length input + 2) / 3))%nat.
Proof.
  destruct (encode_total (String.list_ascii_of_string input)) as [o Ho].
  exists (String.string_of_list_ascii o).
  assert (Henc : base64_encode input = Some (String.string_of_list_ascii o))
    by (unfold base64_encode; by rewrite Ho).
  split_and!; [done|by apply encode_iff_decode|].
  destruct (chunks3_spec (String.list_ascii_of_string input)) as (_ & _ & Hn).
  rewrite !string_length_list, String.list_ascii_of_string_of_list_ascii, (encode_length _ _ Ho),
      Hn.
  lia.
Qed.

(** ** Properties *)

(** C33. Base64 encoding never indexes outside its table, gives four characters
    for every started group of three bytes, and a text is its output for an
    input exactly if the decoder of RFC 4648 accepts it and gives that input:
    alphabet, padding and the zero bits before it are the RFC's. *)
Theorem base64_roundtrip (input : string) :
  (∃ out, base64_encode input = Some out
     ∧ String.length out = (4 * ((String.length input + 2) / 3))%nat)
  ∧ ∀ out, base64_encode input = Some out ↔ base64_decode out = Some input.
Proof.
  split; [|intros out; apply encode_iff_decode].
  destruct (encodes input) as (out & Henc & _ & Hlen). by exists out.
Qed.
