(* ===== verification/Telemetry.v ===== *)
(** * Telemetry start-up

    Models [crates/engagement-hub/src/telemetry/mod.rs] apart from
    [base64_encode] (file [Base64]): which span processors [init_telemetry]
    installs, in which order, with which exporter and dropped-span counter.
    The OTLP exporter builders are parameters; installing the tracing
    subscriber is represented by the format it is given. *)
From Stdlib Require Import ZArith Lia.
From stdpp Require Import base list strings gmap.
From S2P Require Import Prelude Config OtlpJson LocalExporter Base64.

Class OtlpLib := {
  GrpcExporter : Type;
  HttpExporter : Type;
  (** [SpanExporter::builder().with_tonic().with_endpoint(e).build()]. *)
  build_tonic : string → result GrpcExporter string;
  (** [.with_http().with_endpoint(e).with_headers(h).build()]. *)
  build_http : string → gmap string string → result HttpExporter string
}.

Section Telemetry.
Context `{LL : LocalLib} `{OL : OtlpLib}.

Definition SERVICE_NAMESPACE : string := "service.namespace".
Definition DEPLOYMENT_ENVIRONMENT : string := "deployment.environment".
(** [env!("CARGO_PKG_VERSION")]. *)
Definition CARGO_PKG_VERSION : string := "0.1.0".

Inductive Exporter :=
| OtlpGrpc (e : GrpcExporter)
| OtlpHttp (e : HttpExporter)
| JsonlFile (e : JsonlFileExporter).

(** [CountingSpanProcessor::new(name, exporter, dropped)]: the counter is the
    series of [otel_exporter_dropped_spans] with these labels. *)
Record Processor := mkProcessor {
  pr_name : string;
  pr_exporter : Exporter;
  pr_dropped : list string
}.

(** The tracer provider and the format of the log layer. *)
Record Telemetry := mkTelemetry {
  resource : list (string * string);
  processors : list Processor;
  log_layer : LogFormat
}.

Definition build_resource_attrs (config : Config) : list KvAttribute :=
  [mkKv "service.name" (StringValue "engagement-hub");
   mkKv "service.version" (StringValue CARGO_PKG_VERSION);
   mkKv "deployment.environment" (StringValue (env_as_metric_label (env config)))].

Definition telemetry_resource (config : Config) : list (string * string) :=
  [("service.name"%string, "engagement-hub"%string);
   ("service.version"%string, CARGO_PKG_VERSION);
   (SERVICE_NAMESPACE, "revocall"%string);
   (DEPLOYMENT_ENVIRONMENT, env_as_metric_label (env config))].

(** A failed build only prints a message. *)
Definition grafana_processors (config : Config) : list Processor :=
  if otel_export_grafana config then
    match build_tonic (otel_grafana_endpoint config) with
    | Ok exporter => [mkProcessor "grafana" (OtlpGrpc exporter) ["grafana"%string]]
    | Err _ => []
    end
  else [].

Definition langfuse_credentials (config : Config) : string :=
  default ""%string (langfuse_public_key config) +:+ ":"
    +:+ default ""%string (langfuse_secret_key config).

Definition langfuse_headers (auth : string) : gmap string string :=
  <["Authorization"%string := ("Basic " +:+ auth)%string]> ∅.

Definition langfuse_processors (config : Config) : exec (list Processor) :=
  if otel_export_langfuse config then
    match base64_encode (langfuse_credentials config) with
    | None => Panicked
    | Some auth =>
        match build_http (otel_langfuse_endpoint config) (langfuse_headers auth) with
        | Ok exporter => Value [mkProcessor "langfuse" (OtlpHttp exporter) ["langfuse"%string]]
        | Err _ => Value []
        end
    end
  else Value [].

Definition local_processors (config : Config) : io World (list Processor) := λ w,
  if otel_export_local config then
    io_bind (purge_old_files ".traces" (today w) 7) (λ _ w,
      let exporter := new_with_counter "engagement-hub" (build_resource_attrs config) w in
      (Value [mkProcessor "local" (JsonlFile exporter) ["local"%string]], w)) w
  else (Value [], w).

Definition build_provider (resource : list (string * string)) (processors : list Processor)
    (format : LogFormat) : Telemetry := mkTelemetry resource processors format.

Definition init_telemetry (config : Config) : io World Telemetry := λ w,
  let resource := telemetry_resource config in
  let grafana := grafana_processors config in
  match langfuse_processors config with
  | Panicked => (Panicked, w)
  | Value langfuse =>
      io_bind (local_processors config) (λ local,
        io_ret (build_provider resource (grafana ++ langfuse ++ local) (log_format config))) w
  end.

(** ** Properties *)

(** The processors that a configuration asks for and whose exporter builds. *)
Definition wanted (config : Config) (auth : string) : list string :=
  (if otel_export_grafana config && is_ok (build_tonic (otel_grafana_endpoint config))
   then ["grafana"%string] else [])
  ++ (if otel_export_langfuse config
         && is_ok (build_http (otel_langfuse_endpoint config) (langfuse_headers auth))
      then ["langfuse"%string] else [])
  ++ (if otel_export_local config then ["local"%string] else []).

Lemma init_telemetry_panics (config : Config) (w w' : World) :
  init_telemetry config w = (Panicked, w') →
  otel_export_local config = true ∧ (purge_old_files ".traces" (today w) 7 w).1 = Panicked.
Proof.
  unfold init_telemetry, langfuse_processors, local_processors, io_bind, io_ret.
  destruct (encodes (langfuse_credentials config)) as (out & -> & _).
  destruct (otel_export_langfuse config),
      (build_http (otel_langfuse_endpoint config) (langfuse_headers out)),
    (otel_export_local config); cbn; try done;
    destruct (purge_old_files ".traces" (today w) 7 w) as [[]]; done.
Qed.

(** C34. Telemetry start-up panics exactly when local export is on and the purge
    of [.traces] panics.  Otherwise the processors are, in this order, Grafana,
    Langfuse and local, those that are switched on and whose exporter builds,
    each counting its drops in the series of its own name; Langfuse
    authenticates with a header whose Base64 part decodes to
    [public key:secret key]; local export is the only one that touches files. *)
Theorem init_telemetry_spec (config : Config) (w : World) :
  ∃ auth, base64_decode auth = Some (langfuse_credentials config)
  ∧ match init_telemetry config w with
    | (Panicked, _) =>
        otel_export_local config = true ∧ (purge_old_files ".traces" (today w) 7 w).1 = Panicked
    | (Value t, w') =>
        pr_name <$> processors t = wanted config auth
        ∧ Forall (λ p, pr_dropped p = [pr_name p]) (processors t)
        ∧ log_layer t = log_format config
        ∧ w' = (if otel_export_local config then (purge_old_files ".traces" (today w) 7 w).2 else w)
        ∧ (otel_export_local config = true → (purge_old_files ".traces" (today w) 7 w).1 = Value tt)
    end.
Proof.
  destruct (base64_encode (langfuse_credentials config)) as [auth|] eqn:Henc.
  2:{ destruct (encodes (langfuse_credentials config)) as (out & He & _). congruence. }
  exists auth. destruct (encodes (langfuse_credentials config)) as (out & He & Hd & _).
  rewrite Henc in He. injection He as <-. split; [done|].
  unfold init_telemetry, langfuse_processors, grafana_processors, local_processors, wanted,
    io_bind, io_ret.
  rewrite Henc.
  destruct (build_tonic _), (build_http _ _), (otel_export_grafana config),
    (otel_export_langfuse config), (otel_export_local config); cbn;
    try destruct (purge_old_files ".traces" (today w) 7 w) as [[[]|] w']; cbn;
    split_and!; repeat constructor; done.
Qed.

End Telemetry.
