(* ===== verification/TracerProvider.v ===== *)
(** * The tracer provider

    Models [BoxedProcessor], [build_provider] and [shutdown_telemetry] of
    [crates/engagement-hub/src/telemetry/mod.rs].  [Box<dyn SpanProcessor>] is
    an existential package; the SDK's provider is the class [TracerSdk], whose
    laws state its documented use of the installed processors. *)
From Stdlib Require Import ZArith Lia.
From stdpp Require Import base list strings.
From S2P Require Import Prelude SpanProcessor.

(** The trait [opentelemetry_sdk::trace::SpanProcessor]. *)
Class SpanProcessorTrait (Span P : Type) := {
  trait_on_start : P → P;
  trait_on_end : Span → P → P;
  trait_force_flush : P → result unit string * P;
  trait_shutdown : P → result unit string * P
}.

(** [impl SpanProcessor for CountingSpanProcessor]; [shutdown] always returns [Ok]. *)
#[export] Instance counting_processor {W Span} `{!Mpsc Span} `{!SpanExporter W Span}
  : SpanProcessorTrait Span (CountingSpanProcessor (W := W) (Span := Span)) := {|
  trait_on_start := on_start;
  trait_on_end := on_end;
  trait_force_flush := force_flush;
  trait_shutdown s := (Ok tt, shutdown s)
|}.

Section Provider.
Context {Span : Type}.

(** [Box<dyn SpanProcessor>]. *)
Inductive DynProcessor : Type := Dyn P (ops : SpanProcessorTrait Span P) (p : P).

Record BoxedProcessor := mkBoxedProcessor { boxed : DynProcessor }.

(** Call a method on what the box holds. *)
Definition call_dyn {R} (method : ∀ P, SpanProcessorTrait Span P → P → R * P) (d : DynProcessor)
  : R * DynProcessor :=
  let '(Dyn P ops p) := d in let '(r, p') := method P ops p in (r, Dyn P ops p').
Definition forward {R} (method : ∀ P, SpanProcessorTrait Span P → P → R * P)
    (b : BoxedProcessor) : R * BoxedProcessor :=
  let '(r, d) := call_dyn method (boxed b) in (r, mkBoxedProcessor d).

Definition boxed_on_start (b : BoxedProcessor) : BoxedProcessor :=
  (forward (λ P ops p, (tt, trait_on_start p)) b).2.
Definition boxed_on_end (span : Span) (b : BoxedProcessor) : BoxedProcessor :=
  (forward (λ P ops p, (tt, trait_on_end span p)) b).2.
Definition boxed_force_flush (b : BoxedProcessor) : result unit string * BoxedProcessor :=
  forward (λ P ops p, trait_force_flush p) b.
Definition boxed_shutdown (b : BoxedProcessor) : result unit string * BoxedProcessor :=
  forward (λ P ops p, trait_shutdown p) b.

#[export] Instance boxed_processor : SpanProcessorTrait Span BoxedProcessor := {|
  trait_on_start := boxed_on_start;
  trait_on_end := boxed_on_end;
  trait_force_flush := boxed_force_flush;
  trait_shutdown := boxed_shutdown
|}.

(** The provider of [opentelemetry_sdk] and its builder. *)
Class TracerSdk (Resource : Type) := {
  TracerProvider : Type;
  builder_with_resource : Resource → TracerProvider;
  with_span_processor : BoxedProcessor → TracerProvider → TracerProvider;
  (** A sampled span ends; the provider is shut down. *)
  end_span : Span → TracerProvider → TracerProvider;
  shutdown_provider : TracerProvider → TracerProvider
}.

(** Processors are called one after the other in the order they were added,
    each with a clone of the span, whatever the others return. *)
Class TracerSdkLaws {Resource} (S : TracerSdk Resource) := {
  installed : TracerProvider → list BoxedProcessor;
  installed_new r : installed (builder_with_resource r) = [];
  installed_with b t : installed (with_span_processor b t) = installed t ++ [b];
  installed_end s t : installed (end_span s t) = boxed_on_end s <$> installed t;
  installed_shutdown t : installed (shutdown_provider t) = (λ b, (boxed_shutdown b).2) <$>
      installed t
}.

Section Build.
Context {Resource : Type} `{SL : TracerSdkLaws Resource}.

Definition build_tracer_provider (resource : Resource) (processors : list DynProcessor)
  : TracerProvider :=
  foldl (λ builder p, with_span_processor (mkBoxedProcessor p) builder)
    (builder_with_resource resource) processors.

(** [global::shutdown_tracer_provider()] on the installed provider. *)
Definition shutdown_telemetry (t : TracerProvider) : TracerProvider := shutdown_provider t.

Definition end_spans (spans : list Span) (t : TracerProvider) : TracerProvider :=
  foldl (λ t s, end_span s t) t spans.

Lemma installed_build resource processors :
  installed (build_tracer_provider resource processors) = mkBoxedProcessor <$> processors.
Proof.
  unfold build_tracer_provider.
  assert (H : ∀ t, installed (foldl (λ builder p, with_span_processor (mkBoxedProcessor p) builder)
                t processors) = installed t ++ (mkBoxedProcessor <$> processors)).
  { induction processors as [|p ps IH]; intros t; cbn; [by rewrite app_nil_r|].
    by rewrite IH, installed_with, <- (assoc_L (++)). }
  by rewrite H, installed_new.
Qed.

Lemma installed_end_spans spans t :
  installed (end_spans spans t) = (λ b, foldl (λ b s, boxed_on_end s b) b spans) <$> installed t.
Proof.
  revert t. induction spans as [|s ss IH]; intros t; [by rewrite list_fmap_id|].
  change (end_spans (s :: ss) t) with (end_spans ss (end_span s t)).
  rewrite IH, installed_end, <- list_fmap_compose. by apply list_fmap_ext.
Qed.

(** Boxing is transparent: behind the provider every counting processor ends up
    as if it alone had received the spans and the shutdown. *)
Lemma provider_fans_out {W} `{!Mpsc Span, !SpanExporter W Span} resource
    (ps : list (CountingSpanProcessor (W := W) (Span := Span))) spans :
  installed (shutdown_telemetry (end_spans spans
    (build_tracer_provider resource ((λ p, Dyn _ counting_processor p) <$> ps))))
  = (λ p, mkBoxedProcessor (Dyn _ counting_processor
      (shutdown (foldl (λ p s, on_end s p) p spans))))
      <$> ps.
Proof.
  unfold shutdown_telemetry.
  rewrite installed_shutdown, installed_end_spans, installed_build, <- !list_fmap_compose.
  apply list_fmap_ext. intros _ p _. cbn. clear ps.
  assert (H : foldl (λ b s, boxed_on_end s b) (mkBoxedProcessor (Dyn _ counting_processor p)) spans
    = mkBoxedProcessor (Dyn _ counting_processor (foldl (λ p s, on_end s p) p spans))).
  { revert p. induction spans as [|s ss IH]; intros p; cbn; [done|]. by rewrite <- IH. }
  by rewrite H.
Qed.

End Build.
End Provider.
