(* ===== verification/TelemetryTests.v ===== *)
(** * The unit tests of [telemetry/mod.rs] *)
From Stdlib Require Import ZArith.
From stdpp Require Import base list gmap strings.
From S2P Require Import Prelude UnitTest Config Prometheus HubMetrics PromText SpanProcessor SpanCrash.
From S2P Require Import TracerProvider OtlpJson OtlpJsonTests TaskRuntime ProcessorTests.
Import ListRegistry RingQueue.
Local Open Scope string_scope.

(** [Metrics::new(RegistryAdapter::Stub, Env::Dev, false).unwrap()]. *)
Definition test_metrics : io World (Metrics (P := list_prometheus)) := λ w,
  (match metrics_new Stub Dev false with Ok m => Value m | Err _ => Panicked end, w).

(** The value of [otel_exporter_dropped_spans.with_label_values(&[name])]. *)
Definition dropped_series (m : Metrics (P := list_prometheus)) (name : string) : Z :=
  default 0%Z (with_label_values 0%Z [name] (otel_exporter_dropped_spans m) !! [name]).

(** A provider as the list of its processors. *)
#[export] Instance list_sdk : TracerSdk (Span := SpanData) unit := {|
  TracerProvider := list BoxedProcessor;
  builder_with_resource _ := [];
  with_span_processor b t := t ++ [b];
  end_span s t := boxed_on_end s <$> t;
  shutdown_provider t := (λ b, (boxed_shutdown b).2) <$> t
|}%list.

Definition dyn (p : Processor) : DynProcessor (Span := SpanData) := Dyn _ counting_processor p.

(** [if on { procs.push(Box::new(CountingSpanProcessor::new(name, e, ..))) }]. *)
Definition push_processor (on : bool) (m : Metrics) (name : string)
    (procs : list (DynProcessor (Span := SpanData))) : io World (list DynProcessor) :=
  if on then
    let e := fake_exporter_new in
    do i <- spawn e (dropped_series m name) ;;
    do p <- processor i ;;
    io_ret (procs ++ [dyn p])%list
  else io_ret procs.

Fixpoint for_each {A} (l : list A) (body : A → test World) : test World :=
  match l with [] => io_ret tt | a :: l' => do _ <- body a ;; for_each l' body end.

Definition combination_matrix_builds_without_panic : test World :=
  for_each [false; true] (λ grafana,
    for_each [false; true] (λ langfuse,
      for_each [false; true] (λ loc,
        do metrics <- test_metrics ;;
        do procs <- push_processor grafana metrics "grafana" [] ;;
        do procs <- push_processor langfuse metrics "langfuse" procs ;;
        do procs <- push_processor loc metrics "local" procs ;;
        let _provider := build_tracer_provider tt procs in
        io_ret tt))).

(** On two worker threads. *)
Definition exporter_independence_one_panic_does_not_block_others : test World :=
  do metrics <- test_metrics ;;
  let good_exp := fake_exporter_new in
  let bad_exp := panicking in
  do good_proc <- spawn good_exp (dropped_series metrics "grafana") ;;
  do bad_proc <- spawn bad_exp (dropped_series metrics "langfuse") ;;
  let span := fake_span_for_test "op" 5 TestOk in
  do _ <- meanwhile ;;
  do _ <- on_processor bad_proc (on_end span) ;;
  do _ <- meanwhile ;;
  do _ <- on_processor good_proc (on_end span) ;;
  do now <- time ;;
  do _ <- wait_for_span 50 good_proc (now + 2000)%Z ;;
  do s <- stored good_proc ;;
  assert_eq (length s) 1%nat.

Definition telemetry_tests : list (test World) :=
  [combination_matrix_builds_without_panic;
   exporter_independence_one_panic_does_not_block_others].

(** Whatever [select!] chooses and however the threads are scheduled. *)
Lemma telemetry_tests_pass (cs : list choice) :
  Forall (λ t, passes t (mkWorld 0 cs []) = true) telemetry_tests.
Proof.
  unfold telemetry_tests. apply Forall_cons. split; [vm_compute; reflexivity|].
  apply Forall_cons. split; [run_schedules cs 4%nat|constructor].
Qed.
