(* ===== verification/ConcreteTests.v ===== *)
(** * The unit tests that run on concrete instances

    The hub's, and those of the adapters that speak HTTP or have no peer. *)
From Stdlib Require Import ZArith.
From stdpp Require Import base list gmap.
From S2P Require Import Prelude UnitTest Notify LocalExporter.
From S2P Require Import NotifyTests IdempotencyTests AuditTests ConfigTests HubMetricsTests.
From S2P Require Import OtlpJsonTests LocalExporterTests RegistryStubTests AdapterMetricsTests.
From S2P Require Import Saga Net Http MockHttp.
From S2P Require Import VoiceManagerHttpTests PostCallHttpTests AnalyticsHttpTests.
From S2P Require Import TaskRuntime ProcessorTests TelemetryTests.

(** The three HTTP adapters pass their 20 unit tests against mock servers:
    what they send, request by request, is what the mocks match, the bodies
    decode through the derived decoders, an abort is tried five times and a
    graceful stop once on 503, a 4xx is final, a failed write is tried twice,
    and every expected number of requests is met.  The hub and the adapters
    without a peer pass 58 more: of the notification payloads and their fan-out,
    the canonical JSON and hash of idempotency, the audit types, the
    configuration, the metrics of the hub and of the adapters, the OTLP
    envelope, the local trace exporter, the saga labels and the registry stub;
    and the five of the span processor and of telemetry, for every choice of
    [select!] and every schedule of the threads. *)
Theorem concrete_tests_pass :
  let net : MockHttp.World := mkNet ((0%Z, 0%nat), []) [] empty_metrics in
  let http_tests := voice_manager_http_tests ++ post_call_http_tests ++ analytics_http_tests in
  Forall (λ t, passes t net = true) http_tests ∧ length http_tests = 20%nat
  ∧ Forall (λ t, passes t ((0, 0%nat), registry_default) = true) notify_tests
  ∧ Forall (λ t, passes t ((0, 0%nat), tt) = true) idempotency_tests
  ∧ Forall (λ t, passes t ((0, 0%nat), None) = true) audit_tests
  ∧ Forall (λ t, passes t tt = true) config_tests
  ∧ Forall (λ t, passes t None = true) hub_metrics_tests
  ∧ Forall (λ t, passes t tt = true) otlp_json_tests
  ∧ Forall (λ t, passes t ((0, 0%nat), LocalExporter.mkWorld ∅ ∅ [] 738946 0) = true)
      local_exporter_tests
  ∧ Forall (λ t, passes t tt = true) saga_tests
  ∧ Forall (λ t, passes t ((0, 1%nat), tt) = true) registry_stub_tests
  ∧ Forall (λ t, passes t empty_metrics = true) adapter_metrics_tests
  ∧ (∀ cs, Forall (λ t, passes t (mkWorld 0 cs []) = true) (processor_tests ++ telemetry_tests))
  ∧ length (processor_tests ++ telemetry_tests) = 5%nat
  ∧ (length notify_tests + length idempotency_tests + length audit_tests + length config_tests
     + length hub_metrics_tests + length otlp_json_tests + length local_exporter_tests
     + length saga_tests + length registry_stub_tests + length adapter_metrics_tests = 58)%nat.
Proof.
  intros net http_tests.
  split_and!; [|reflexivity|apply notify_tests_pass|apply idempotency_tests_pass|apply
      audit_tests_pass
    |apply config_tests_pass|apply hub_metrics_tests_pass|apply otlp_json_tests_pass
    |apply local_exporter_tests_pass|apply saga_tests_pass|apply registry_stub_tests_pass
    |apply adapter_metrics_tests_pass
    |intros cs; apply Forall_app; split; [apply processor_tests_pass|apply telemetry_tests_pass]
    |reflexivity|reflexivity].
  subst http_tests. rewrite !Forall_app.
  split_and!; [apply voice_manager_http_tests_pass|apply post_call_http_tests_pass
    |apply analytics_http_tests_pass].
Qed.
