(* ===== verification/Db.v ===== *)
(** * The database pool

    Models [crates/engagement-hub/src/db.rs]: how [build_pool] derives the
    connect and pool options from the configuration, the statement every new
    session runs, and [run_migrations].  [sqlx] is the class [SqlxLib]. *)
From Stdlib Require Import ZArith Lia.
From stdpp Require Import base strings pretty.
From S2P Require Import Prelude Config.

(** What [build_pool] sets on top of a parsed URL; statements are logged at
    debug, slow ones at warn. *)
Record ConnectOptions (Url : Type) := mkConnectOptions {
  co_url : Url;
  co_application_name : string;
  co_slow_statement : Duration
}.
Arguments mkConnectOptions {Url}.
Arguments co_url {Url}.
Arguments co_application_name {Url}.
Arguments co_slow_statement {Url}.

Record PoolOptions := mkPoolOptions {
  po_min_connections : Z;
  po_max_connections : Z;
  po_idle_timeout : Duration;
  po_acquire_timeout : Duration;
  po_max_lifetime : option Duration;
  (** The statement of [after_connect]. *)
  po_after_connect : string
}.

Class SqlxLib := {
  Url : Type;
  Pool : Type;
  (** [PgConnectOptions::from_str]. *)
  parse_url : string → result Url string;
  (** [PgPoolOptions::connect_with]. *)
  connect_with : PoolOptions → ConnectOptions Url → result Pool string;
  (** [MIGRATOR.run]. *)
  migrate : Pool → result unit string
}.

Section Db.
Context `{SL : SqlxLib}.

(** [anyhow]'s [context]. *)
Definition context {A} (msg : string) (r : result A string) : result A string :=
  map_err (λ e, msg +:+ ": " +:+ e) r.

Definition connect_options (cfg : Config) (url : Url) : ConnectOptions Url :=
  mkConnectOptions url "engagement-hub" (from_millis (db_slow_query_ms cfg)).

Definition pool_options (cfg : Config) : PoolOptions :=
  mkPoolOptions (db_pool_min cfg) (db_pool_max cfg) (from_secs (db_idle_timeout_secs cfg))
    (from_secs (db_acquire_timeout_secs cfg)) (Some (from_secs (db_max_lifetime_secs cfg)))
    ("SET statement_timeout = " +:+ pretty (db_statement_timeout_ms cfg)).

Definition build_pool (cfg : Config) : result Pool string :=
  let? url := context "EH_DATABASE_URL must be a valid Postgres URL"
      (parse_url (database_url cfg)) in
  context "failed to open Postgres pool"
    (connect_with (pool_options cfg) (connect_options cfg url)).

Definition run_migrations (pool : Pool) : result unit string :=
  context "migration failed; refusing to start" (migrate pool).

(** A valid configuration never switches the statement timeout off. *)
Lemma statement_timeout_on cfg :
  validate cfg = Ok tt → po_after_connect (pool_options cfg) ≠ "SET statement_timeout = 0"%string.
Proof.
  intros (_ & Hn & _)%validate_Ok Heq. apply Hn. unfold pool_options in Heq. cbn in Heq.
  injection Heq as Heq. apply (inj (pretty (A := Z)) _ 0). exact Heq.
Qed.

End Db.
