(* ===== verification/Servers.v ===== *)
(** * Servers and shutdown signals

    Models [crates/engagement-hub/src/server/grpc.rs],
    [crates/engagement-hub/src/server/http.rs] and
    [crates/engagement-hub/src/shutdown.rs].  A spawned server is a task: it
    binds and serves inside the task, so [spawn] itself cannot fail; it ends
    well only after its [wait_for] on the shutdown channel, and with an error
    at any time.  The senders live until [main] returns, so a watch channel is
    its value.  [tonic_health] is the class [HealthLib]. *)
From Stdlib Require Import ZArith Lia.
From stdpp Require Import base list strings.
From S2P Require Import Prelude HubMetrics.

(** ** [shutdown.rs] *)

Record Shutdown := mkShutdown { drain : bool; shutdown : bool }.
Definition shutdown_default : Shutdown := mkShutdown false false.
Definition send_drain (s : Shutdown) : Shutdown := mkShutdown true (shutdown s).
Definition send_shutdown (s : Shutdown) : Shutdown := mkShutdown (drain s) true.

(** [wait_for_signal] (unix): installing a handler may fail, which panics;
    otherwise it returns with the first of the two signals. *)
Inductive SignalKind := Sigterm | Sigint.
Definition signal_log (k : SignalKind) : string :=
  match k with Sigterm => "received SIGTERM" | Sigint => "received SIGINT" end.
Definition wait_for_signal (term intr : result unit string) (first : SignalKind) : exec string :=
  match term, intr with
  | Ok _, Ok _ => Value (signal_log first)
  | _, _ => Panicked
  end.

(** ** Tasks *)

Inductive Task := Running | Finished (r : result unit string).

Definition task_done (t : Task) : bool := match t with Running => false | Finished _ => true end.

(** How a server task may end: [contexts] are the texts of its failures. *)
Inductive task_ends (contexts : list string) (shutdown : bool) : Task → Task → Prop :=
| ends_well : shutdown = true → task_ends contexts shutdown Running (Finished (Ok tt))
| ends_failed c : c ∈ contexts → task_ends contexts shutdown Running (Finished (Err c)).

(** [.await.context(c)?; Ok(())] on the result of [serve_with_shutdown]. *)
Definition with_context (c : string) (served : result unit string) : result unit string :=
  match served with Ok _ => Ok tt | Err _ => Err c end.

(** ** [server/grpc.rs] *)

Inductive ServingStatus := Serving | NotServing.
#[export] Instance ServingStatus_eq_dec : EqDecision ServingStatus.
Proof. solve_decision. Defined.

Class HealthLib := {
  HealthReporter : Type;
  health_reporter : HealthReporter;
  set_service_status : string → ServingStatus → HealthReporter → HealthReporter;
  (** What the health service answers for a service name. *)
  service_status : string → HealthReporter → option ServingStatus
}.
Class HealthLaws `{HealthLib} : Prop := {
  status_set : ∀ s st r, service_status s (set_service_status s st r) = Some st
}.

Section Grpc.
Context `{HL : HealthLib}.

Record GrpcServers := mkGrpcServers {
  external_handle : option Task;
  internal_handle : Task;
  external_reporter : option HealthReporter;
  internal_reporter : HealthReporter
}.

Definition signal_draining (g : GrpcServers) : GrpcServers :=
  let internal := set_service_status "" NotServing (internal_reporter g) in
  mkGrpcServers (external_handle g) (internal_handle g)
    (set_service_status "" NotServing <$> external_reporter g) internal.

Definition grpc_spawn (bind_external : bool) : GrpcServers :=
  let internal_reporter := set_service_status "" Serving health_reporter in
  let internal_handle := Running in
  let '(external_reporter, external_handle) :=
    if bind_external
    then (Some (set_service_status "" Serving health_reporter), Some Running)
    else (None, None) in
  mkGrpcServers external_handle internal_handle external_reporter internal_reporter.

(** The health answers of the internal server and, if bound, the external one. *)
Definition health (g : GrpcServers) : list (option ServingStatus) :=
  service_status "" (internal_reporter g)
  :: option_list (service_status "" <$> external_reporter g).

End Grpc.

(** ** [server/http.rs] *)

Section Http.
Context `{P : PrometheusLib} `{TE : !TextEncoder}.

Record HttpState := mkHttpState { hs_metrics : Metrics; hs_draining : bool }.

Definition metrics_handler (state : HttpState) : Z * string :=
  match gather_text (hs_metrics state) with
  | Ok text => (200, text)
  | Err e => (500, "gather failed: " +:+ e)
  end.
Definition livez_handler : Z * string := (200, "ok"%string).
Definition readyz_handler (state : HttpState) : Z * string :=
  if hs_draining state then (503, "draining"%string) else (200, "ready"%string).

(** The router for [GET] requests; [None] is its fallback. *)
Definition http_route (state : HttpState) (path : string) : option (Z * string) :=
  if decide (path = "/metrics"%string) then Some (metrics_handler state)
  else if decide (path = "/livez"%string) then Some livez_handler
  else if decide (path = "/readyz"%string) then Some (readyz_handler state)
  else None.

End Http.

(** [serve]: bind the listener, then serve until the shutdown signal; the
    results of the two are the environment's. *)
Definition http_serve (addr : string) (bound served : result unit string) : result unit string :=
  match bound with
  | Err _ => Err ("bind http " +:+ addr)
  | Ok _ => with_context "http server failed" served
  end.

Definition http_failures (addr : string) : list string :=
  ["bind http " +:+ addr; "http server failed"]%string.

(** A [serve] whose listener runs until it is told to stop ends as the tasks of
    the model do. *)
Lemma http_serve_ends addr bound served sd :
  (bound = Ok tt → served = Ok tt → sd = true) →
  task_ends (http_failures addr) sd Running (Finished (http_serve addr bound served)).
Proof.
  intros Hsd. unfold http_serve, with_context. destruct bound as [[]|], served as [[]|];
    constructor; auto; repeat (done || constructor).
Qed.
