(* ===== verification/Main.v ===== *)
(** * The hub process

    Models [main] of [crates/engagement-hub/src/main.rs]: the start up to the
    running servers, and the shutdown sequence as a state machine whose
    environment ends tasks, delivers the signal and uses pool connections.
    The database is reached through [Db]. *)
From Stdlib Require Import ZArith Lia.
From stdpp Require Import base list strings.
From S2P Require Import Prelude Prometheus Config HubMetrics OtlpJson LocalExporter Telemetry Db Servers.

Section Main.
Context `{P : PrometheusLib} `{TE : !TextEncoder} `{LL : LocalLib} `{OL : OtlpLib}
  `{HL : HealthLib} `{SL : SqlxLib}.

(** Where [main] stands in lines 113-131; each constructor is the statement it
    will run next, [PanicInMain] the panic of a signal handler that cannot be
    installed. *)
Inductive MainPc :=
| WaitForSignal | PanicInMain | SendDrain | SignalDraining | SendShutdown
| AwaitHttp | AwaitExternal | AwaitInternal | ClosePool | ShutdownTelemetry | Returned.

Record Hub := mkHub {
  pc : MainPc;
  cfg : Config;
  metrics : Metrics;
  telemetry : Telemetry;
  signals : Shutdown;
  servers : GrpcServers;
  http_handle : Task;
  listen_handle : Task;
  (** Connections of the pool in use; [None] when it is closed. *)
  pool : option nat;
  telemetry_on : bool
}.

(** How a start ends: the process exits with a code, [main] returns an error,
    it panics, or the servers run. *)
Inductive Started :=
| ExitCode (code : Z)
| MainError (e : string)
| MainPanic
| Up (h : Hub).

(** Lines 20-100. *)
Definition main_start (parsed : Config) (var_set : bool) (otel_type : option string)
    (w : World) : Started * World :=
  match boot parsed var_set otel_type with
  | Err code => (ExitCode code, w)
  | Ok cfg =>
      match metrics_new (registry_adapter cfg) (env cfg) (track_0_idle_mode cfg) with
      | Err e => (MainError e, w)
      | Ok metrics =>
          match init_telemetry cfg w with
          | (Panicked, w) => (MainPanic, w)
          | (Value telemetry, w) =>
              match build_pool cfg with
              | Err e => (MainError e, w)
              | Ok pool =>
                  match run_migrations pool with
                  | Err _ => (ExitCode 70, w)
                  | Ok _ =>
                      (Up (mkHub WaitForSignal cfg metrics telemetry shutdown_default
                             (grpc_spawn (bind_external_port cfg)) Running Running (Some 0%nat)
                             true), w)
                  end
              end
          end
      end
  end.

(** ** Updates *)

Definition set_pc (p : MainPc) (h : Hub) : Hub :=
  mkHub p (cfg h) (metrics h) (telemetry h) (signals h) (servers h) (http_handle h)
    (listen_handle h) (pool h) (telemetry_on h).
Definition set_signals (s : Shutdown) (h : Hub) : Hub :=
  mkHub (pc h) (cfg h) (metrics h) (telemetry h) s (servers h) (http_handle h)
    (listen_handle h) (pool h) (telemetry_on h).
Definition set_servers (g : GrpcServers) (h : Hub) : Hub :=
  mkHub (pc h) (cfg h) (metrics h) (telemetry h) (signals h) g (http_handle h)
    (listen_handle h) (pool h) (telemetry_on h).
Definition set_tasks (http listen : Task) (h : Hub) : Hub :=
  mkHub (pc h) (cfg h) (metrics h) (telemetry h) (signals h) (servers h) http listen (pool h)
    (telemetry_on h).
Definition set_pool (n : option nat) (h : Hub) : Hub :=
  mkHub (pc h) (cfg h) (metrics h) (telemetry h) (signals h) (servers h) (http_handle h)
    (listen_handle h) n (telemetry_on h).
Definition stop_telemetry (h : Hub) : Hub :=
  mkHub (pc h) (cfg h) (metrics h) (telemetry h) (signals h) (servers h) (http_handle h)
    (listen_handle h) (pool h) false.

(** ** The shutdown sequence

    The next statement of [main], once the signal has arrived; [None] while it
    waits.  Task results are ignored ([let _ =]); the task of the LISTEN
    manager is never awaited. *)
Definition main_step (h : Hub) : option Hub :=
  match pc h with
  | WaitForSignal | PanicInMain => None
  | SendDrain => Some (set_pc SignalDraining (set_signals (send_drain (signals h)) h))
  | SignalDraining => Some (set_pc SendShutdown (set_servers (signal_draining (servers h)) h))
  | SendShutdown => Some (set_pc AwaitHttp (set_signals (send_shutdown (signals h)) h))
  | AwaitHttp => if task_done (http_handle h) then Some (set_pc AwaitExternal h) else None
  | AwaitExternal =>
      match external_handle (servers h) with
      | Some t => if task_done t then Some (set_pc AwaitInternal h) else None
      | None => Some (set_pc AwaitInternal h)
      end
  | AwaitInternal =>
      if task_done (internal_handle (servers h)) then Some (set_pc ClosePool h) else None
  | ClosePool =>
      match pool h with
      | Some 0%nat => Some (set_pc ShutdownTelemetry (set_pool None h))
      | _ => None
      end
  | ShutdownTelemetry => Some (set_pc Returned (stop_telemetry h))
  | Returned => None
  end.

(** What may happen: the signal, a statement of [main], the end of a task, or
    a change of the connections in use. *)
Inductive step (h : Hub) : Hub → Prop :=
| step_signal term intr k line : pc h = WaitForSignal →
    wait_for_signal term intr k = Value line → step h (set_pc SendDrain h)
| step_no_handler term intr k : pc h = WaitForSignal →
    wait_for_signal term intr k = Panicked → step h (set_pc PanicInMain h)
| step_main h' : main_step h = Some h' → step h h'
| step_http t :
    task_ends (http_failures (http_addr (cfg h))) (shutdown (signals h)) (http_handle h) t →
    step h (set_tasks t (listen_handle h) h)
| step_internal t :
    task_ends ["internal grpc server failed"%string] (shutdown (signals h))
      (internal_handle (servers h)) t →
    step h (set_servers (mkGrpcServers (external_handle (servers h)) t
      (external_reporter (servers h)) (internal_reporter (servers h))) h)
| step_external t t' :
    external_handle (servers h) = Some t →
    task_ends ["external grpc server failed"%string] (shutdown (signals h)) t t' →
    step h (set_servers (mkGrpcServers (Some t') (internal_handle (servers h))
      (external_reporter (servers h)) (internal_reporter (servers h))) h)
| step_listen : listen_handle h = Running → shutdown (signals h) = true →
    step h (set_tasks (http_handle h) (Finished (Ok tt)) h)
| step_pool n n' : pool h = Some n → step h (set_pool (Some n') h).

Inductive reachable (h0 : Hub) : Hub → Prop :=
| reach_start : reachable h0 h0
| reach_step h h' : reachable h0 h → step h h' → reachable h0 h'.


(** ** The invariant of the sequence *)

Definition stage (p : MainPc) : nat :=
  match p with
  | WaitForSignal | PanicInMain => 0 | SendDrain => 1 | SignalDraining => 2 | SendShutdown => 3
  | AwaitHttp => 4 | AwaitExternal => 5 | AwaitInternal => 6 | ClosePool => 7
  | ShutdownTelemetry => 8 | Returned => 9
  end.

(** What the handlers of the HTTP server see. *)
Definition http_state (h : Hub) : HttpState := mkHttpState (metrics h) (drain (signals h)).

(** The server tasks: HTTP, internal and, if bound, external. *)
Definition server_tasks (h : Hub) : list Task :=
  http_handle h :: internal_handle (servers h) :: option_list (external_handle (servers h)).

Definition fresh (h : Hub) : Prop :=
  pc h = WaitForSignal ∧ signals h = shutdown_default
  ∧ servers h = grpc_spawn (bind_external_port (cfg h))
  ∧ http_handle h = Running ∧ listen_handle h = Running ∧ pool h = Some 0%nat
  ∧ telemetry_on h = true.

Record main_inv (h0 h : Hub) : Prop := {
  inv_cfg : cfg h = cfg h0;
  inv_drain : drain (signals h) = (2 <=? stage (pc h))%nat;
  inv_shutdown : shutdown (signals h) = (4 <=? stage (pc h))%nat;
  inv_health : Forall (λ s, s = Some (if (3 <=? stage (pc h))%nat then NotServing else Serving))
    (health (servers h));
  inv_graceful : Forall (λ t, t = Finished (Ok tt) → (4 ≤ stage (pc h))%nat) (server_tasks h);
  inv_http : (5 ≤ stage (pc h))%nat → task_done (http_handle h) = true;
  inv_external : (6 ≤ stage (pc h))%nat → ∀ t, external_handle (servers h) = Some t
      → task_done t = true;
  inv_internal : (7 ≤ stage (pc h))%nat → task_done (internal_handle (servers h)) = true;
  inv_pool : pool h = None ↔ (8 ≤ stage (pc h))%nat;
  inv_telemetry : telemetry_on h = negb (9 <=? stage (pc h))%nat;
  inv_bound : is_Some (external_handle (servers h)) ↔ bind_external_port (cfg h) = true;
  inv_reporter : is_Some (external_reporter (servers h)) ↔ bind_external_port (cfg h) = true
}.

Context `{!HealthLaws}.

Lemma fresh_inv h : fresh h → main_inv h h.
Proof.
  intros (Hpc & Hs & Hg & Hh & Hl & Hp & Ht).
  split; rewrite ?Hpc, ?Hs, ?Hp, ?Ht; cbn; try done; try lia.
  - rewrite Hg. unfold health, grpc_spawn. destruct (bind_external_port _); cbn;
      repeat constructor; apply status_set.
  - unfold server_tasks. rewrite Hg, Hh. unfold grpc_spawn.
    destruct (bind_external_port _); repeat constructor; done.
  - split; [done|lia].
  - rewrite Hg. unfold grpc_spawn. destruct (bind_external_port _); cbn; split;
      first [done|by intros [? [=]]|intros _; by eexists].
  - rewrite Hg. unfold grpc_spawn. destruct (bind_external_port _); cbn; split;
      first [done|by intros [? [=]]|intros _; by eexists].
Qed.

(** Every task list of a step is the old one with a task ended. *)
Lemma ended_graceful context sd (t t' : Task) :
  task_ends context sd t t' → task_done t' = true ∧ (t' = Finished (Ok tt) → sd = true).
Proof. by destruct 1. Qed.

Lemma draining_health g : Forall (λ s, s = Some NotServing) (health (signal_draining g)).
Proof.
  unfold health, signal_draining. cbn. constructor; [apply status_set|].
  destruct (external_reporter g); cbn; repeat constructor. apply status_set.
Qed.

(** Close the clauses of the invariant that follow from the old ones by
    comparing stages. *)
Ltac stages :=
  try match goal with
  | H : external_handle (servers ?h) = _ |- context [external_handle (servers ?h)] => rewrite H
  end;
  solve
  [ done | lia
  | split; [tauto|lia] | rewrite fmap_is_Some; done
  | intros; match goal with H : _ → _ |- _ => apply H; lia end
  | intros; simplify_eq; done
  | intros; match goal with H : _ → ∀ t, _ |- _ => eapply H; [lia|done] end
  | match goal with H : _ ↔ _ |- _ => rewrite H; split; lia end
  | eapply Forall_impl; [eassumption|]; cbn; intros ? Ht Heq; specialize (Ht Heq); lia ].

Lemma main_step_inv h0 h h' : main_inv h0 h → main_step h = Some h' → main_inv h0 h'.
Proof.
  intros [] Hstep. unfold main_step in Hstep.
  destruct (pc h) eqn:Hpc; cbn [stage] in *; try done;
    repeat case_match; simplify_eq; split; cbn; try done; rewrite ?Hpc; cbn;
    try apply draining_health; try stages; try (rewrite fmap_is_Some; done).
Qed.

(** A task that ends keeps the invariant: only its own clauses can change. *)
Lemma step_inv h0 h h' : main_inv h0 h → step h h' → main_inv h0 h'.
Proof.
  intros Hinv Hstep. destruct Hstep as [? ? ? ? Hpc _|? ? ? Hpc _|h' Hm|t Ht|t Ht|t t' Hx Ht|Hl
      Hs|n n' Hp].
  - destruct Hinv. rewrite Hpc in *. split; cbn in *; try done; stages.
  - destruct Hinv. rewrite Hpc in *. split; cbn in *; try done; stages.
  - by eapply main_step_inv.
  - destruct (ended_graceful _ _ _ _ Ht) as [Hd Hg]. destruct Hinv. split; cbn; try done.
    unfold server_tasks in *. cbn. apply Forall_cons in inv_graceful0 as [_ Hrest].
    constructor; [|done]. intros Ht'. specialize (Hg Ht'). rewrite inv_shutdown0 in Hg.
    by apply Nat.leb_le.
  - destruct (ended_graceful _ _ _ _ Ht) as [Hd Hg]. destruct Hinv. split; cbn; try done.
    unfold server_tasks in *. cbn. rewrite !Forall_cons in *. destruct inv_graceful0 as (? & _ & ?).
    split_and!; [done| |done]. intros Ht'. specialize (Hg Ht'). rewrite inv_shutdown0 in Hg.
    by apply Nat.leb_le.
  - destruct (ended_graceful _ _ _ _ Ht) as [Hd Hg]. destruct Hinv. split; cbn; try done.
    + unfold server_tasks in *. cbn. rewrite !Forall_cons in *.
      destruct inv_graceful0 as (? & ? & _). split_and!; [done|done| |constructor].
      intros Ht'. specialize (Hg Ht'). rewrite inv_shutdown0 in Hg. by apply Nat.leb_le.
    + intros _ t1 [= <-]. done.
    + rewrite Hx in inv_bound0. rewrite <- inv_bound0. split; intros _; by eexists.
  - destruct Hinv. by split.
  - destruct Hinv. split; cbn; try done. rewrite Hp in inv_pool0. split; [done|].
    intros H8. by apply inv_pool0 in H8.
Qed.

Lemma reachable_inv h0 h : fresh h0 → reachable h0 h → main_inv h0 h.
Proof. intros Hf. induction 1; [by apply fresh_inv|by eapply step_inv]. Qed.

Lemma main_start_fresh parsed var_set otel_type w h w' :
  main_start parsed var_set otel_type w = (Up h, w') →
  fresh h ∧ boot parsed var_set otel_type = Ok (cfg h).
Proof.
  unfold main_start. destruct (boot _ _ _) as [c|]; [|done].
  destruct (metrics_new _ _ _); [|done]. destruct (init_telemetry _ _) as [[t|] w1]; [|done].
  destruct (build_pool c) as [p|]; [|done]. destruct (run_migrations p); [|done]. intros [= <- _].
      by repeat split.
Qed.

(** ** Letting the environment finish *)

(** A server that has seen the shutdown signal ends well. *)
Definition end_gracefully (sd : bool) (t : Task) : Task :=
  match t with Running => if sd then Finished (Ok tt) else Running | Finished _ => t end.

Definition settle_http (h : Hub) : Hub :=
  set_tasks (end_gracefully (shutdown (signals h)) (http_handle h)) (listen_handle h) h.
Definition settle_internal (h : Hub) : Hub :=
  set_servers (mkGrpcServers (external_handle (servers h))
    (end_gracefully (shutdown (signals h)) (internal_handle (servers h)))
    (external_reporter (servers h)) (internal_reporter (servers h))) h.
Definition settle_external (h : Hub) : Hub :=
  set_servers (mkGrpcServers (end_gracefully (shutdown (signals h)) <$> external_handle (servers h))
    (internal_handle (servers h)) (external_reporter (servers h))
    (internal_reporter (servers h))) h.
Definition settle_pool (h : Hub) : Hub := set_pool ((λ _, 0%nat) <$> pool h) h.

(** Every server that was told to stop has stopped, no connection is in use. *)
Definition settle (h : Hub) : Hub :=
  settle_pool (settle_external (settle_internal (settle_http h))).

Fixpoint finish (n : nat) (h : Hub) : Hub :=
  match n with
  | O => h
  | S n' => match main_step (settle h) with Some h' => finish n' h' | None => h end
  end.

Lemma settle_reachable h0 h : reachable h0 h → reachable h0 (settle h).
Proof.
  intros Hr. unfold settle.
  assert (H1 : reachable h0 (settle_http h)).
  { unfold settle_http. destruct (http_handle h) as [|r] eqn:Ht, (shutdown (signals h)) eqn:Hs;
      try (destruct h; cbn in *; subst; exact Hr).
    eapply reach_step; [exact Hr|]. apply step_http. rewrite Ht, Hs. by constructor. }
  revert H1. generalize (settle_http h). clear h Hr. intros h Hr.
  assert (H1 : reachable h0 (settle_internal h)).
  { unfold settle_internal.
    destruct (internal_handle (servers h)) as [|r] eqn:Ht, (shutdown (signals h)) eqn:Hs;
      try (destruct h as [? ? ? ? ? []]; cbn in *; subst; exact Hr).
    eapply reach_step; [exact Hr|]. apply step_internal. rewrite Ht, Hs. by constructor. }
  revert H1. generalize (settle_internal h). clear h Hr. intros h Hr.
  assert (H1 : reachable h0 (settle_external h)).
  { unfold settle_external.
    destruct (external_handle (servers h)) as [[|r]|] eqn:Ht, (shutdown (signals h)) eqn:Hs;
      try (destruct h as [? ? ? ? ? []]; cbn in *; subst; exact Hr).
    eapply reach_step; [exact Hr|]. eapply step_external; [exact Ht|]. rewrite Hs. by constructor. }
  revert H1. generalize (settle_external h). clear h Hr. intros h Hr.
  unfold settle_pool. destruct (pool h) as [n|] eqn:Hp.
  - eapply reach_step; [exact Hr|]. by eapply step_pool.
  - destruct h; cbn in *; subst. exact Hr.
Qed.

(** Once the environment has settled, [main] always has a next statement. *)
Lemma settled_progress h0 h : main_inv h0 h → (1 ≤ stage (pc h) ≤ 8)%nat →
  ∃ h', main_step (settle h) = Some h' ∧ stage (pc h') = S (stage (pc h)).
Proof.
  intros [] Hst. unfold main_step. cbn [pc settle settle_pool settle_external settle_internal
    settle_http set_pool set_servers set_tasks].
  destruct (pc h); cbn in *; try lia; try (by eexists).
  - rewrite inv_shutdown0. destruct (http_handle h); cbn; by eexists.
  - rewrite inv_shutdown0. destruct (external_handle (servers h)) as [[]|]; cbn; by eexists.
  - rewrite inv_shutdown0. destruct (internal_handle (servers h)); cbn; by eexists.
  - destruct (pool h) as [n|]; cbn; [by eexists|]. exfalso.
    assert (8 ≤ 7)%nat by by apply inv_pool0. lia.
Qed.

Lemma finish_returns h0 n h : fresh h0 → reachable h0 h → (1 ≤ stage (pc h))%nat →
  (stage (pc h) + n = 9)%nat → pc (finish n h) = Returned ∧ reachable h0 (finish n h).
Proof.
  intros Hf. revert h. induction n as [|n IH]; intros h Hr Hst Hn.
  - cbn. split; [|done]. by destruct (pc h).
  - destruct (settled_progress h0 h (reachable_inv _ _ Hf Hr)) as (h' & Hm & Hs); [lia|].
    cbn [finish]. rewrite Hm. apply IH; [|lia..].
    eapply reach_step; [by apply settle_reachable|]. by apply step_main.
Qed.

(** ** Properties *)

(** C15. Draining precedes shutdown.  In every state a started hub can reach:
    until the signal, [/readyz] says ready and every health service SERVING;
    once the shutdown signal is sent, [/readyz] answers 503 and every health
    service NOT_SERVING; a server that ended well ended after that signal; the
    pool is closed only when every server task has ended, and telemetry only
    after the pool.  The external server exists exactly outside idle mode, so
    never in production with the stub registry. *)
Theorem drain_before_shutdown parsed var_set otel_type w h0 w' h :
  main_start parsed var_set otel_type w = (Up h0, w') → reachable h0 h →
  (pc h = WaitForSignal → http_route (http_state h) "/readyz" = Some (200, "ready"%string)
     ∧ Forall (λ s, s = Some Serving) (health (servers h)))
  ∧ (shutdown (signals h) = true →
     http_route (http_state h) "/readyz" = Some (503, "draining"%string)
     ∧ Forall (λ s, s = Some NotServing) (health (servers h)))
  ∧ (Finished (Ok tt) ∈ server_tasks h → shutdown (signals h) = true)
  ∧ (pool h = None → Forall (λ t, task_done t = true) (server_tasks h))
  ∧ (telemetry_on h = false → pool h = None)
  ∧ (is_Some (external_handle (servers h)) ↔ track_0_idle_mode (cfg h) = false)
  ∧ (env (cfg h) = Production → registry_adapter (cfg h) = Stub
      → external_handle (servers h) = None).
Proof.
  intros [Hf Hboot]%main_start_fresh Hr. destruct (reachable_inv h0 h Hf Hr).
  assert (Hext : is_Some (external_handle (servers h)) ↔ track_0_idle_mode (cfg h) = false).
  { rewrite inv_bound0. unfold bind_external_port. by destruct (track_0_idle_mode _). }
  split_and!; [| | | | |done|].
  - intros Hpc. rewrite Hpc in *. cbn in *. unfold http_route, readyz_handler. cbn.
      by rewrite inv_drain0.
  - rewrite inv_shutdown0. intros H4%Nat.leb_le. unfold http_route, readyz_handler. cbn.
      rewrite inv_drain0.
    rewrite !leb_correct in * by lia. done.
  - intros Hin. rewrite inv_shutdown0. apply Nat.leb_le.
    rewrite Forall_forall in inv_graceful0. by apply (inv_graceful0 _ Hin).
  - intros H8%inv_pool0. unfold server_tasks. repeat constructor;
      [apply inv_http0; lia|apply inv_internal0; lia|].
    destruct (external_handle (servers h)) eqn:Hx; repeat constructor. apply inv_external0;
        [lia|done].
  - rewrite inv_telemetry0. intros H9%negb_false_iff%Nat.leb_le. apply inv_pool0. lia.
  - intros He Hs. apply boot_valid, validate_Ok in Hboot as [Hboot _].
    rewrite inv_cfg0 in *. unfold stub_allowed in Hboot.
    destruct (external_handle (servers h)); [|done]. exfalso. apply Hboot. split_and!; [done..|].
    apply Hext. by eexists.
Qed.

(** A blocked [main] waits for the signal, a server or the pool. *)
Lemma main_blocked h0 h : main_inv h0 h → main_step h = None →
  pc h = WaitForSignal ∨ pc h = PanicInMain ∨ pc h = Returned
  ∨ (Running ∈ server_tasks h ∧ shutdown (signals h) = true) ∨ ∃ n, pool h = Some (S n).
Proof.
  intros []. unfold main_step, server_tasks. destruct (pc h) eqn:Hpc; cbn in *; try tauto; try done.
  - destruct (http_handle h); [|done]. intros _. right; right; right; left. split; [by left|done].
  - destruct (external_handle (servers h)) as [[]|]; cbn; try done.
    intros _. right; right; right; left. split; [|done]. right. right. by left.
  - destruct (internal_handle (servers h)); [|done].
    intros _. right; right; right; left. split; [right; by left|done].
  - destruct (pool h) as [[|n]|]; [done| |].
    + intros _. right; right; right; right. by exists n.
    + exfalso. assert (8 ≤ 7)%nat by by apply inv_pool0. lia.
Qed.

Lemma servers_may_fail h0 : fresh h0 →
  ∃ h1, reachable h0 h1 ∧ pc h1 = WaitForSignal ∧ main_step h1 = None
  ∧ Forall (λ t, ∃ e, t = Finished (Err e)) (server_tasks h1).
Proof.
  intros (Hpc & Hs & Hg & Hh & Hl & Hp & Ht).
  set (failed := λ context : string, Finished (Err context)).
  assert (H1 : ∀ c sd, task_ends [c] sd Running (Finished (Err c))) by (constructor; by left).
  set (h1 := set_tasks (failed "http server failed"%string) (listen_handle h0) h0).
  set (h2 := set_servers (mkGrpcServers (external_handle (servers h1))
    (failed "internal grpc server failed"%string) (external_reporter (servers h1))
    (internal_reporter (servers h1))) h1).
  assert (R2 : reachable h0 h2).
  { apply (reach_step _ h1); [apply (reach_step _ h0); [constructor|]|].
    - apply step_http. rewrite Hh. constructor. right. by left.
    - apply step_internal. subst h1. cbn. rewrite Hg. unfold grpc_spawn.
      destruct (bind_external_port _); apply H1. }
  destruct (external_handle (servers h0)) as [t|] eqn:Hx.
  - set (h3 := set_servers (mkGrpcServers (Some (failed "external grpc server failed"%string))
      (internal_handle (servers h2)) (external_reporter (servers h2))
      (internal_reporter (servers h2))) h2).
    assert (R3 : reachable h0 h3).
    { apply (reach_step _ h2); [done|]. apply (step_external _ Running); [|apply H1].
      subst h2 h1. cbn. rewrite Hg in *. unfold grpc_spawn in *.
      by destruct (bind_external_port _). }
    exists h3. split_and!; [done|done|unfold main_step; by rewrite (Hpc : pc h3 = _)|].
    unfold server_tasks. repeat constructor; by eexists.
  - exists h2. split_and!; [done|done|unfold main_step; by rewrite (Hpc : pc h2 = _)|].
    unfold server_tasks. subst h2 h1. cbn. rewrite Hx. repeat constructor; by eexists.
Qed.

(** C22. Shutdown completes.  After the signal [main] returns within nine
    statements if each server told to stop does stop and the pool's connections
    come back; whenever [main] is blocked, unless a signal handler could not be
    installed, it waits for the signal, for a running server that has been told
    to stop, or for a pool connection.  Before the signal it waits for nothing
    else: every server may have failed, say because its port is taken, without
    [main] taking notice. *)
Theorem shutdown_completes parsed var_set otel_type w h0 w' h :
  main_start parsed var_set otel_type w = (Up h0, w') → reachable h0 h →
  (pc h ≠ WaitForSignal → pc h ≠ PanicInMain →
     pc (finish (9 - stage (pc h)) h) = Returned ∧ reachable h0 (finish (9 - stage (pc h)) h))
  ∧ (main_step h = None → pc h = WaitForSignal ∨ pc h = PanicInMain ∨ pc h = Returned
     ∨ (Running ∈ server_tasks h ∧ shutdown (signals h) = true)
     ∨ ∃ n, pool h = Some (S n))
  ∧ ∃ h1, reachable h0 h1 ∧ pc h1 = WaitForSignal ∧ main_step h1 = None
     ∧ Forall (λ t, ∃ e, t = Finished (Err e)) (server_tasks h1).
Proof.
  intros [Hf _]%main_start_fresh Hr. pose proof (reachable_inv h0 h Hf Hr) as Hinv. split_and!.
  - intros Hpc Hpc'. apply finish_returns; [done|done| |]; destruct (pc h); cbn; lia || done.
  - by apply (main_blocked h0).
  - by apply servers_may_fail.
Qed.

(** C19. Every way a start can end, and why: exit code 78 for an invalid
    configuration, an error for an unreachable database, exit code 70 for a
    failed migration, a panic of the trace purge, or a hub that waits for the
    signal with a valid configuration, a statement timeout in every database
    session and every server running.  Metrics never stop a start. *)
Theorem main_start_outcomes `{!PrometheusLaws P} parsed var_set otel_type w :
  match (main_start parsed var_set otel_type w).1 with
  | ExitCode code =>
      (code = 78 ∧ boot parsed var_set otel_type = Err code)
      ∨ (code = 70 ∧ ∃ c p e, boot parsed var_set otel_type = Ok c ∧ build_pool c = Ok p
          ∧ run_migrations p = Err e)
  | MainError e => ∃ c, boot parsed var_set otel_type = Ok c ∧ build_pool c = Err e
  | MainPanic => ∃ c, boot parsed var_set otel_type = Ok c
      ∧ otel_export_local c = true ∧ (purge_old_files ".traces" (today w) 7 w).1 = Panicked
  | Up h => boot parsed var_set otel_type = Ok (cfg h) ∧ validate (cfg h) = Ok tt
      ∧ (∃ p, build_pool (cfg h) = Ok p ∧ run_migrations p = Ok tt)
      ∧ po_after_connect (pool_options (cfg h)) ≠ "SET statement_timeout = 0"%string ∧ fresh h
      ∧ metrics_new (registry_adapter (cfg h)) (env (cfg h)) (track_0_idle_mode (cfg h))
        = Ok (metrics h)
  end.
Proof.
  destruct (main_start parsed var_set otel_type w) as [r w1] eqn:Hm. cbn [fst].
  assert (Hup : ∀ h, r = Up h → fresh h ∧ boot parsed var_set otel_type = Ok (cfg h))
    by (intros h ->; by eapply main_start_fresh).
  unfold main_start in Hm. destruct (boot parsed var_set otel_type) as [c|code] eqn:Hboot.
  2:{ injection Hm as <- _. left. split; [|done]. by eapply boot_code. }
  destruct (metrics_new_ok (registry_adapter c) (env c) (track_0_idle_mode c)) as [m Hmet].
  rewrite Hmet in Hm. destruct (init_telemetry c w) as [[t|] w2] eqn:Hi.
  2:{ injection Hm as <- _. exists c. split; [done|]. by eapply init_telemetry_panics. }
  destruct (build_pool c) as [p|e] eqn:Hbp; [|injection Hm as <- _; by exists c].
  destruct (run_migrations p) as [[]|e] eqn:Hrm; injection Hm as <- _;
    [|right; split; [done|by exists c, p, e]].
  destruct (Hup _ eq_refl) as [Hf _]. pose proof (boot_valid _ _ _ _ Hboot) as Hv.
  split_and!; [done|done|by exists p|by apply statement_timeout_on|done|done].
Qed.

End Main.

(** ** A hub that starts, with concrete parameters *)
Section Witness.

Local Existing Instance ListRegistry.list_prometheus.
Local Existing Instance LocalExporter.unit_otel.
Local Existing Instance LocalExporter.digits_lib.
Local Instance empty_text : TextEncoder :=
  {| gather_encode _ _ := Ok []; from_utf8 _ := Ok ""%string |}.
Local Instance unit_otlp : OtlpLib := {|
  GrpcExporter := unit; HttpExporter := unit;
  build_tonic _ := Ok tt; build_http _ _ := Ok tt
|}.
Local Instance local_sqlx : SqlxLib := {|
  Url := string; Pool := unit;
  parse_url s := Ok s; connect_with _ _ := Ok tt; migrate _ := Ok tt
|}.
Local Instance map_health : HealthLib := {|
  HealthReporter := string → option ServingStatus;
  health_reporter _ := None;
  set_service_status s st r s' := if decide (s' = s) then Some st else r s';
  service_status s r := r s
|}.
Local Instance map_health_laws : HealthLaws.
Proof. split. intros s st r. simpl. by rewrite decide_True. Qed.

Definition dev_config : Config :=
  mkConfig Dev Stub false "postgres://localhost/hub" "0.0.0.0:8443" "0.0.0.0:8444"
    "0.0.0.0:9090" 10 25 300 5000 500 3 1800 Config.Json true false false
    "http://localhost:4317" "https://cloud.langfuse.com/api/public/otel" None None.

Definition start_dev : Started * World :=
  main_start dev_config true None day18.

Lemma dev_starts : ∃ h0 w', start_dev = (Up h0, w').
Proof. eexists _, _. vm_compute. reflexivity. Qed.

Local Existing Instance ListRegistry.list_prometheus_laws.

(** Production with the stub registry outside idle mode is refused. *)
Definition prod_config : Config :=
  mkConfig Production Stub false "postgres://localhost/hub" "0.0.0.0:8443" "0.0.0.0:8444"
    "0.0.0.0:9090" 10 25 300 5000 500 3 1800 Config.Json true false false
    "http://localhost:4317" "https://cloud.langfuse.com/api/public/otel" None None.

Lemma main_start_outcomes_witness :
  (main_start prod_config true None day18).1 = ExitCode 78
  ∧ boot prod_config true None = Err 78.
Proof.
  pose proof (main_start_outcomes prod_config true None day18) as H.
  assert (Hr : (main_start prod_config true None day18).1 = ExitCode 78)
    by (vm_compute; reflexivity).
  rewrite Hr in H. split; [exact Hr|].
  destruct H as [[_ H]|[H _]]; [exact H|discriminate H].
Defined.

Lemma drain_before_shutdown_witness :
  ∃ h0 w', start_dev = (Up h0, w') ∧ Forall (λ s, s = Some Serving) (health (servers h0)).
Proof.
  destruct dev_starts as (h0 & w' & Hup). exists h0, w'. split; [exact Hup|].
  pose proof (main_start_fresh _ _ _ _ _ _ Hup) as [[Hpc _] _].
  exact (proj2 (proj1 (drain_before_shutdown _ _ _ _ _ _ _ Hup (reach_start h0)) Hpc)).
Defined.

Lemma shutdown_completes_witness :
  ∃ h0 w', start_dev = (Up h0, w') ∧ pc (finish 8 (set_pc SendDrain h0)) = Returned.
Proof.
  destruct dev_starts as (h0 & w' & Hup). exists h0, w'. split; [exact Hup|].
  pose proof (main_start_fresh _ _ _ _ _ _ Hup) as [[Hpc _] _].
  exact (proj1 (proj1 (shutdown_completes _ _ _ _ _ _ _ Hup
    (reach_step _ _ _ (reach_start h0) (step_signal h0 (Ok tt) (Ok tt) Sigterm _ Hpc eq_refl)))
        ltac:(discriminate) ltac:(discriminate))).
Defined.

End Witness.
